(* ===== verification/_CoqProject ===== *)
-Q . S2P
Prelude.v
GoLib.v
Model.v
ProviderErr.v
Runtime.v
State.v
StateTheory.v
MemState.v
MemStateTheory.v
Queue.v
MemQueue.v
MemQueueTheory.v
MemQueueProps.v
QueueRefine.v
Cache.v
MemCache.v
MemCacheTheory.v
MemCacheConc.v
Sha256.v
Blob.v
MemBlob.v
MemBlobTheory.v
Ingress.v
Service.v
ServiceTheory.v
ServiceConc.v
Rfc3339.v
Rfc3339Theory.v
ServiceTimes.v
Json.v
JsonTheory.v
JsonStrings.v
JsonRoundTrip.v
Codec.v
CodecTheory.v
Http.v
HttpApi.v
HttpApiTheory.v
IdempotencyTheory.v
HttpApiProps.v
HttpPlan.v
HttpJson.v
HttpEndpoints.v
Server.v
HttpConc.v
Process.v
Testing.v
CacheTest.v
BlobTest.v
QueueTest.v
StateTest.v
Conformance.v
