(* ===== verification/Prelude.v ===== *)
(** * The flames control plane: a verification development

    flames (github.com/flames-hq/flames) is a Go control plane for virtual
    machines: an HTTP API ([src/transport/httpapi]) over a service
    ([src/api]) over provider interfaces ([src/provider/*]) with in-memory
    implementations, a data model ([src/model]) and conformance suites for
    providers ([src/providertest]).  This library models that code as
    executable functions and proves what makes each part correct.

    ** How the code is modelled

    An operation of the program is a function [M S A] of an environment and a
    state (file [Runtime]).  The environment holds what Go leaves open: the
    readings of the clock, the random bytes behind identifiers, the order of
    every [range] over a map.  Theorems quantify over it; the assumptions some
    need are named predicates ([clock_ok]: the clock does not run backwards;
    [prompt], [clock_advances], [within_ttl]).  A method that holds its mutex
    over all its accesses to shared state is one atomic step, together with the
    reading of the clock and the drawing of an identifier that come just before
    the lock, and a concurrent execution is a sequence of calls by any clients;
    the methods of the program that are not one critical section, [Get] of
    memcache, the mutations of service.go and the handling of a request with
    its idempotency entries, are modelled a second time as their steps under an
    arbitrary schedule (files [MemCacheConc], [ServiceConc], [HttpConc]).  Errors are values of [error] in the sum type [Res].
    Go maps are [gmap]s, slices that may be nil are [option (list _)], bytes
    are [Byte.byte], an [int] is a [Z] wrapped with [wrap64] where the code
    can overflow it, instants and durations are nanoseconds in [Z] with
    saturating subtraction; the one time a client can send, a controller's, has
    its offset from UTC with it ([ZonedTime]).

    ** The files

    - [GoLib], [ProviderErr] (provider/providererr/errors.go), [Model]
      (src/model/*.go), [Runtime]: the language's values, the error type with
      [errors.Is] and [errors.As] over chains of causes, the records, the
      monad.
    - [State] is the [StateStore] interface (provider/state/state.go): a class
      of operations and a class of laws [StateStoreSpec] over an abstract view.
      [StateTheory] derives what holds of every run on a lawful store;
      [MemState] is memstate.go and discharges the laws; [MemStateTheory] has
      the properties of the store itself.
    - [Queue], [MemQueue], [MemQueueTheory], [MemQueueProps]: the work queue
      (provider/queue), its invariant tying the index to the topics, and
      conservation of jobs, exclusive leases, at-least-once delivery;
      [QueueRefine] proves that it refines a single list of jobs.
    - [Cache], [MemCache], [MemCacheTheory], [MemCacheConc]: the cache
      (provider/cache), its refinement of an abstract cache that never evicts,
      and its behaviour under every schedule.
    - [Sha256], [Blob], [MemBlob], [MemBlobTheory]: the blob store
      (provider/blob) with an executable SHA-256.
    - [Ingress]: the ingress interface and the no-op provider (module [Noop]).
    - [Service], [ServiceTheory]: api/service.go over any lawful store; the
      audit trail.  [ServiceConc]: its calls as threads that interleave their
      calls on the store.
    - [Rfc3339], [Json], [Codec], [Http]: what the transport uses of time,
      encoding/json (with the struct tags of src/model) and net/http.
      [Rfc3339Theory], [JsonTheory], [JsonStrings], [JsonRoundTrip] prove that
      what is written is read back, and that the scanner's fuel is enough;
      [CodecTheory] does so for the types the server receives through the class
      [JsonCodec], an encoder and a decoder with their laws.  [ServiceTimes]
      is about the times that marshal: which a server can hold, and that its
      calls keep them so.
    - [HttpApi] is transport/httpapi (errors.go, idempotency.go, handler.go),
      its handlers written for any [ResponseWriter] as in Go;
      [HttpApiTheory], [IdempotencyTheory], [HttpApiProps], [HttpEndpoints]
      prove the endpoints, the idempotency layer and the request log.
      [HttpPlan] reduces each handler to its plan, an answer or one call on the
      service and what is answered to its reply, and the router with the
      idempotency layer to a dispatch on plans; [HttpJson] proves from it that every response is a document and that a spec posted as
      JSON is read back as it was.
    - [Server] is the wiring of cmd/flames-api/main.go and the theorems about
      the whole server: every request is at most one service call, and the
      invariants of all layers hold after any sequence of requests.  [HttpConc]
      is the server with every request a connection of its own: the plans of
      [HttpPlan] run in the steps of [ServiceConc], between the critical
      sections of the idempotency entries, in the order of any schedule; alone,
      nine steps of a connection are one [serve] ([conn_alone]).
    - [Process] is the rest of main.go: [main], the goroutine that waits for a
      signal and the open connections as a step relation ([exec] runs one
      action, [step] is some action).  [main_step] and [goroutine_step] have a
      step for every point at which the others can come between (the lines that
      are logged, the channel, the checks of [srv.inShutdown], [net.Listen], the
      closing of the listeners), over what [http.Server] does; the handlers of
      the connections run in the steps of [HttpConc].
    - [Testing] models the part of package testing the suites use; [CacheTest],
      [BlobTest], [QueueTest], [StateTest] are the suites of src/providertest,
      and [Conformance] proves that the providers pass them and that the laws
      of [StateStoreSpec] alone imply the state suite.

    ** What the theorems show

    Invariants of every reachable state ([reachable_store_ok], [jobs_conserved],
    [reachable_blobs_ok], [main_invariant]); exclusivity ([assign_exclusive],
    [lease_exclusive], [cas_one_winner]); refinement of simpler machines
    ([cache_refines], [queue_refines_list], [serve_refines_service],
    [process_refines_server]) and of interfaces ([lawful_store_conforms]); the
    functional result of each operation on each branch, errors included, up to
    the responses of the endpoints; typing of everything the server sends
    ([responses_are_documents]) and round trips through JSON
    ([http_spec_roundtrip], [http_register]); delivery and expiry
    ([at_least_once], [nack_retry], [ttl_life]); the retry guarantees of the
    HTTP API ([wrap_spec], [idempotent_replay], [retries_create_once]);
    behaviour under every schedule ([concurrent_reads], [concurrent_audit],
    [concurrent_server]); progress ([connections_finish]) and the end of the
    process ([shutdown_terminates]).  Weaknesses are exhibited by
    concrete executions: [Get_evicts_fresh_value], [concurrent_key_runs_twice],
    [log_order_race], [unmarshallable_time], a registration that empties the
    listings, and [shutdown_abandons], which loses requests in flight.

    ** Bounds and fuel

    [shuffle] and the loops recurse on lists.  [parse_json] scans with fuel
    [2 * length + 2], and [scan_fuel_enough] shows that more changes nothing.
    [quote] and [unquote] consume a character per unit of fuel and have one
    unit more than characters.  [SHA-256] pads by a computed amount and folds
    over whole blocks.

    ** What is not modelled

    Sockets, the parsing of flags and the delivery of signals, which are
    actions of the environment in [Process]; the text format of request lines
    (their method, path, status and duration are kept).  [context]
    values, which no provider looks at.  The aliasing of maps and slices that
    callers could keep after a call (payloads and cached values are copied by
    the code; labels and specs are not).  The zone of the process, which is
    taken to be UTC; request paths that [ServeMux] would redirect; response
    details net/http adds on the wire.  Reads of the request body are atomic, a
    connection carries one request, and in [Process] the lines of [main] are
    kept apart from the request lines.  The unit tests of the Go packages,
    whose checks are instances of the theorems. *)

From stdpp Require Export base tactics list gmap strings fin_maps.
From Stdlib Require Export ZArith Lia.

(** ** Notation scope, hint databases, tactics *)

Declare Scope flames_scope.
Delimit Scope flames_scope with flames.
Open Scope flames_scope.

Create HintDb flames discriminated.

(** [break_match]: case analysis on the scrutinee of a [match]/[if] of the
    goal or of a hypothesis, keeping the equation. *)
Ltac break_match :=
  match goal with
  | |- context [match ?x with _ => _ end] => destruct x eqn:?
  | H : context [match ?x with _ => _ end] |- _ => destruct x eqn:?
  end.

(** [break_match_in H]: the same in one hypothesis. *)
Ltac break_match_in H :=
  match type of H with
  | context [match ?x with _ => _ end] => destruct x eqn:?
  end.

(** ** Lists *)

Section Lists.
Context {A : Type}.
Implicit Types l k : list A.

(** The loop [for x := range l { if !p(x) continue; result = append(result, x);
    if limit > 0 && len(result) >= limit break }] keeps the first [limit]
    elements that satisfy [p]. *)
Definition limit_take (limit : Z) l : list A :=
  if (0 <? limit)%Z then take (Z.to_nat limit) l else l.

Lemma limit_take_length (limit : Z) l :
  (0 < limit)%Z → (Z.of_nat (length (limit_take limit l)) ≤ limit)%Z.
Proof.
  intros Hpos. unfold limit_take.
  destruct (Z.ltb_spec 0 limit); [|lia].
  rewrite length_take. lia.
Qed.

Lemma limit_take_prefix (limit : Z) l : limit_take limit l `prefix_of` l.
Proof.
  unfold limit_take. destruct (0 <? limit)%Z; [|done].
  exists (drop (Z.to_nat limit) l). by rewrite take_drop.
Qed.

Lemma limit_take_sublist (limit : Z) l : limit_take limit l `sublist_of` l.
Proof.
  destruct (limit_take_prefix limit l) as [k Hk]. rewrite Hk at 2.
  by apply sublist_inserts_r.
Qed.

Lemma limit_take_short (limit : Z) l :
  (limit ≤ 0 ∨ Z.of_nat (length l) ≤ limit)%Z → limit_take limit l = l.
Proof.
  intros H. unfold limit_take. destruct (Z.ltb_spec 0 limit); [|done].
  apply take_ge. lia.
Qed.

Lemma length_limit_take (limit : Z) l :
  length (limit_take limit l) =
  if (0 <? limit)%Z then min (Z.to_nat limit) (length l) else length l.
Proof. unfold limit_take. destruct (0 <? limit)%Z; [apply length_take|done]. Qed.

Lemma elem_of_limit_take (limit : Z) l x : x ∈ limit_take limit l → x ∈ l.
Proof.
  intros Hx. destruct (limit_take_prefix limit l) as [k Hk].
  rewrite Hk. apply elem_of_app. by left.
Qed.
End Lists.

Lemma alter_take_drop {A} (f : A → A) (l : list A) i x :
  l !! i = Some x → alter f i l = take i l ++ f x :: drop (S i) l.
Proof.
  revert i. induction l as [|y l IH]; intros [|i] Hx; try done.
  - by injection Hx as ->.
  - cbn. f_equal. by apply IH.
Qed.

Definition option_to_list {A} (o : option A) : list A := match o with Some x => [x] | None => [] end.

(** Replacing an element changes what [omap] collects by what the new one adds. *)
Lemma omap_insert_perm {A B} (f : A → option B) (l : list A) i x y k :
  l !! i = Some x → option_to_list (f y) = (option_to_list (f x) ++ k)%list →
  omap f (<[i := y]> l) ≡ₚ (omap f l ++ k)%list.
Proof.
  revert i. induction l as [|z l IH]; intros [|i] Hx Hf; [done..| |].
  - injection Hx as ->. change (<[0 := y]> (x :: l)) with (y :: l). cbn.
    destruct (f y), (f x); cbn in Hf; [injection Hf as -> <-; by rewrite app_nil_r| |done|].
    + rewrite <- Hf. by rewrite (Permutation_app_comm _ [_]).
    + rewrite <- Hf. by rewrite app_nil_r.
  - change (<[S i := y]> (z :: l)) with (z :: <[i := y]> l). cbn. pose proof (IH i Hx Hf) as HI.
    destruct (f z); cbn [app]; by rewrite HI.
Qed.

Lemma omap_nothing {A B} (f : A → option B) l : Forall (λ x, f x = None) l → omap f l = [].
Proof. induction 1 as [|x l Hx _ IH]; [done|]. cbn. by rewrite Hx. Qed.

(** Two ways of splitting a list at an element: one of the elements comes
    first, or they are the same one. *)
Lemma app_cons_split {A} (l1 l2 k1 k2 : list A) x y :
  l1 ++ x :: l2 = k1 ++ y :: k2 →
  (∃ m, k1 = l1 ++ x :: m) ∨ (l1 = k1 ∧ x = y ∧ l2 = k2) ∨
  (∃ m, l1 = k1 ++ y :: m ∧ k2 = m ++ x :: l2).
Proof.
  revert k1. induction l1 as [|z l1 IH]; intros [|w k1] H; cbn in H.
  - injection H as -> ->. auto.
  - injection H as -> ->. left. by exists k1.
  - injection H as -> <-. right. right. by exists l1.
  - injection H as -> H. destruct (IH _ H) as [[m ->]|[(-> & -> & ->)|[m [-> ->]]]]; eauto.
Qed.

Lemma NoDup_fmap_eq {A B} (f : A → B) (l : list A) x y :
  NoDup (f <$> l) → x ∈ l → y ∈ l → f x = f y → x = y.
Proof.
  intros Hn [i Hx]%list_elem_of_lookup [j Hy]%list_elem_of_lookup Hf.
  assert (i = j) as ->; [|congruence].
  apply (NoDup_lookup _ i j (f x) Hn); rewrite list_lookup_fmap, ?Hx, ?Hy; cbn; congruence.
Qed.

(** Boolean filter, in the shape of a Go range loop with [continue]. *)
Fixpoint filterb {A} (p : A → bool) (l : list A) : list A :=
  match l with
  | [] => []
  | x :: l => if p x then x :: filterb p l else filterb p l
  end.

Section Filterb.
Context {A : Type} (p : A → bool).
Implicit Types l k : list A.

Lemma elem_of_filterb l x : x ∈ filterb p l ↔ x ∈ l ∧ p x = true.
Proof.
  induction l as [|y l IH]; simpl.
  - rewrite elem_of_nil. tauto.
  - destruct (p y) eqn:E; rewrite ?elem_of_cons, IH.
    + split; [intros [->|[? ?]]; auto|tauto].
    + split; [tauto|]. intros [[->|?] ?]; [congruence|auto].
Qed.

Lemma filterb_app l k : filterb p (l ++ k) = filterb p l ++ filterb p k.
Proof. induction l as [|y l IH]; simpl; [done|]. destruct (p y); simpl; by rewrite IH. Qed.

Lemma filterb_sublist l : filterb p l `sublist_of` l.
Proof. induction l as [|y l IH]; simpl; [done|]. destruct (p y); by constructor. Qed.

Lemma filterb_permutation l k : l ≡ₚ k → filterb p l ≡ₚ filterb p k.
Proof.
  induction 1 as [|x l k _ IH|x y l|l1 l2 l3 _ IH1 _ IH2]; simpl.
  - done.
  - destruct (p x); by rewrite IH.
  - destruct (p x), (p y); (done || apply Permutation_swap).
  - by rewrite IH1.
Qed.

Lemma filterb_all l : Forall (λ x, p x = true) l → filterb p l = l.
Proof. induction 1 as [|x l Hx _ IH]; simpl; [done|]. by rewrite Hx, IH. Qed.

Lemma filterb_none l : Forall (λ x, p x = false) l → filterb p l = [].
Proof. induction 1 as [|x l Hx _ IH]; simpl; [done|]. by rewrite Hx, IH. Qed.

Lemma filterb_filter (P : A → Prop) `{!∀ x, Decision (P x)} l :
  (∀ x, p x = true ↔ P x) → filterb p l = filter P l.
Proof.
  intros Hp. induction l as [|x l IH]; [done|]. cbn [filterb]. rewrite filter_cons, IH.
  specialize (Hp x). destruct (p x); case_decide; intuition congruence.
Qed.

Lemma NoDup_filterb l : NoDup l → NoDup (filterb p l).
Proof. intros H. by eapply sublist_NoDup, filterb_sublist. Qed.
End Filterb.

(** Filtering the values of a map, before or after listing it. *)
Lemma map_to_list_filter_perm {A} (P : string * A → Prop) `{!∀ x, Decision (P x)}
    (m : gmap string A) : map_to_list (filter P m) ≡ₚ filter P (map_to_list m).
Proof.
  rewrite map_filter_alt. apply map_to_list_to_map.
  eapply sublist_NoDup; [exact (NoDup_fst_map_to_list m)|].
  apply fmap_sublist, sublist_filter.
Qed.

Lemma snd_filter_filterb {A} (p : A → bool) (P : string * A → Prop) `{!∀ x, Decision (P x)}
    (l : list (string * A)) :
  (∀ k x, p x = true ↔ P (k, x)) → snd <$> filter P l = filterb p (snd <$> l).
Proof.
  intros Hp. induction l as [|[k x] l IH]; [done|]. rewrite filter_cons. cbn.
  specialize (Hp k x). destruct (p x) eqn:E; case_decide; try (exfalso; intuition congruence);
    cbn; by rewrite IH.
Qed.

(** A range loop that appends the elements satisfying [p] to what it has
    collected and breaks at the limit is a filter cut at the limit. *)
Lemma limit_take_cons {A} (limit : Z) (x : A) l :
  limit_take limit (x :: l) =
  if (0 <? limit)%Z
  then (if (limit =? 1)%Z then [x] else x :: limit_take (limit - 1) l)
  else x :: l.
Proof.
  unfold limit_take. destruct (Z.ltb_spec 0 limit); [|done].
  destruct (Z.eqb_spec limit 1) as [->|]; [done|].
  destruct (Z.ltb_spec 0 (limit - 1)); [|lia].
  replace (Z.to_nat limit) with (S (Z.to_nat (limit - 1))) by lia. done.
Qed.

#[export] Hint Resolve limit_take_prefix filterb_sublist filterb_permutation : flames.

(** ** Strings *)

Lemma string_app_assoc (a b c : string) : ((a +:+ b) +:+ c = a +:+ (b +:+ c))%string.
Proof. induction a as [|x a IH]; [done|]. exact (f_equal (String x) IH). Qed.

Lemma string_app_nil (s : string) : (s +:+ EmptyString = s)%string.
Proof. induction s as [|c s IH]; [done|]. exact (f_equal (String c) IH). Qed.
