(* ===== verification/GoLib.v ===== *)
(** * The parts of Go and of its standard library the code uses

    Time and durations ([time]), 64-bit integers, byte slices and hex
    ([encoding/hex]), string prefixes ([strings]), and the environment every
    operation reads: the wall clock ([time.Now]), the entropy source
    ([crypto/rand]) and Go's unspecified map iteration order. *)

From S2P Require Import Prelude.
From Stdlib Require Export Strings.Byte.
From Stdlib Require Import String Ascii.

Local Open Scope Z_scope.

(** ** Integers *)

(** A Go [int] / [int64] is a 64-bit two's complement integer, kept as [Z]
    and wrapped after each operation that can overflow. *)
Definition min_int64 : Z := - 2 ^ 63.
Definition max_int64 : Z := 2 ^ 63 - 1.
Definition in_int64 (z : Z) : Prop := min_int64 ≤ z ≤ max_int64.
Definition wrap64 (z : Z) : Z := (z + 2 ^ 63) mod 2 ^ 64 - 2 ^ 63.

Lemma wrap64_id z : in_int64 z → wrap64 z = z.
Proof.
  unfold in_int64, min_int64, max_int64, wrap64. intros H.
  rewrite Z.mod_small; lia.
Qed.

Lemma wrap64_range z : in_int64 (wrap64 z).
Proof.
  unfold in_int64, min_int64, max_int64, wrap64.
  pose proof (Z.mod_pos_bound (z + 2 ^ 63) (2 ^ 64) eq_refl). lia.
Qed.

(** ** Time *)

(** An instant, in nanoseconds since January 1, year 1, 00:00 UTC: the zero
    [time.Time] is 0.  A [time.Duration] is a count of nanoseconds in an
    [int64]. *)
Definition Time := Z.
Definition Duration := Z.

Definition zero_time : Time := 0.
Definition time_IsZero (t : Time) : bool := t =? zero_time.
Definition time_After (t u : Time) : bool := u <? t.
Definition time_Before (t u : Time) : bool := t <? u.
Definition time_Add (t : Time) (d : Duration) : Time := t + d.

(** [t.Sub(u)] saturates at the bounds of [Duration]. *)
Definition time_Sub (t u : Time) : Duration :=
  Z.max min_int64 (Z.min max_int64 (t - u)).

Definition Nanosecond : Duration := 1.
Definition Millisecond : Duration := 1000000.
Definition Second : Duration := 1000 * Millisecond.
Definition Hour : Duration := 3600 * Second.

(** A [time.Time] with its location, a fixed number of seconds east of UTC.  The
    location shows only where a time is rendered, so only times that clients
    send keep theirs; readings of the clock are in the zone of the process,
    which is taken to be UTC. *)
Record ZonedTime := mkZonedTime { zt_instant : Time; zt_offset : Z }.
Definition in_UTC (t : Time) : ZonedTime := mkZonedTime t 0.

(** ** Byte slices and hex *)

Definition bytes := list byte.

#[export] Instance byte_eq_dec : EqDecision byte := Byte.byte_eq_dec.

(** The conversions [[]byte(s)] and [string(b)]. *)
Definition bytes_of_string (s : string) : bytes := String.list_byte_of_string s.
Definition string_of_bytes (b : bytes) : string := String.string_of_list_byte b.

(** A slice or a map that may be [nil]. *)
Abbreviation Slice A := (option (list A)).
Abbreviation GoMap V := (option (gmap string V)).

Definition slice_elems {A} (s : Slice A) : list A :=
  match s with Some l => l | None => [] end.

Definition slice_append {A} (s : Slice A) (x : A) : Slice A := Some (slice_elems s ++ [x]).
Definition slice_len {A} (s : Slice A) : Z := Z.of_nat (List.length (slice_elems s)).

(** The slice a loop builds with [append] from [var result []T]: nil when
    nothing was appended. *)
Definition built_slice {A} (l : list A) : Slice A :=
  match l with [] => None | _ => Some l end.

Lemma slice_elems_built {A} (l : list A) : slice_elems (built_slice l) = l.
Proof. by destruct l. Qed.

Lemma slice_append_built {A} (l : list A) x :
  slice_append (built_slice l) x = built_slice (l ++ [x]).
Proof. unfold slice_append. rewrite slice_elems_built. by destruct l. Qed.

Lemma slice_len_built {A} (l : list A) : slice_len (built_slice l) = Z.of_nat (List.length l).
Proof. unfold slice_len. by rewrite slice_elems_built. Qed.

(** The shape of the listing loops: keep what satisfies [p], stop at the limit. *)
Fixpoint collect {A} (p : A → bool) (limit : Z) (l : list A) (result : Slice A) : Slice A :=
  match l with
  | [] => result
  | x :: l =>
      if p x then
        let result := slice_append result x in
        if (0 <? limit) && (limit <=? slice_len result) then result
        else collect p limit l result
      else collect p limit l result
  end.

Lemma collect_spec {A} (p : A → bool) limit l acc :
  (0 < limit → Z.of_nat (List.length acc) < limit) →
  collect p limit l (built_slice acc) = built_slice (limit_take limit (acc ++ filterb p l)).
Proof.
  revert acc. induction l as [|x l IH]; intros acc Hacc; cbn [collect filterb].
  - rewrite app_nil_r, limit_take_short by lia. done.
  - destruct (p x); [|by apply IH].
    rewrite slice_append_built, slice_len_built.
    destruct (Z.ltb_spec 0 limit) as [Hpos|Hneg]; cbn [andb].
    + destruct (Z.leb_spec limit (Z.of_nat (List.length (acc ++ [x])))) as [Hle|Hgt].
      * rewrite length_app in Hle. cbn in Hle. f_equal.
        change (x :: filterb p l) with ([x] ++ filterb p l). rewrite (app_assoc acc).
        unfold limit_take. destruct (Z.ltb_spec 0 limit); [|lia].
        symmetry. apply take_app_length'. rewrite length_app. cbn. lia.
      * rewrite IH by done. by rewrite <- app_assoc.
    + rewrite IH by lia. by rewrite <- app_assoc.
Qed.

(** [bytes.Equal] does not tell a nil slice from an empty one. *)
Definition bytes_Equal (a b : bytes) : bool := bool_decide (a = b).

Definition hex_digit (n : N) : ascii :=
  ascii_of_N (if (n <? 10)%N then 48 + n else 87 + n)%N.

(** [hex.EncodeToString] *)
Fixpoint hex_EncodeToString (b : bytes) : string :=
  match b with
  | [] => EmptyString
  | x :: b =>
      let n := Byte.to_N x in
      String (hex_digit (n / 16)) (String (hex_digit (n mod 16)) (hex_EncodeToString b))
  end.

Definition unhex_digit (c : ascii) : N :=
  let n := N_of_ascii c in
  (if (n <? 58)%N then n - 48 else n - 87)%N.

(** The inverse of [hex_EncodeToString] on its range. *)
Fixpoint hex_decode (s : string) : bytes :=
  match s with
  | String h (String l s) =>
      match Byte.of_N (16 * unhex_digit h + unhex_digit l) with
      | Some x => x :: hex_decode s
      | None => []
      end
  | _ => []
  end.

Lemma hex_decode_encode b : hex_decode (hex_EncodeToString b) = b.
Proof.
  induction b as [|x b IH]; [done|].
  cbn [hex_EncodeToString hex_decode]. rewrite IH. by destruct x.
Qed.

Lemma hex_EncodeToString_inj a b :
  hex_EncodeToString a = hex_EncodeToString b → a = b.
Proof. intros H. by rewrite <- (hex_decode_encode a), <- (hex_decode_encode b), H. Qed.

Lemma hex_EncodeToString_length b :
  String.length (hex_EncodeToString b) = (2 * List.length b)%nat.
Proof. induction b as [|x b IH]; simpl; [done|]. rewrite IH. lia. Qed.

(** [strings.HasPrefix] *)
Definition strings_HasPrefix (s prefix : string) : bool := String.prefix prefix s.

Lemma strings_HasPrefix_spec s p :
  strings_HasPrefix s p = true ↔ ∃ r, s = (p +:+ r)%string.
Proof.
  unfold strings_HasPrefix. revert s. induction p as [|c p IH]; intros s.
  - split; [|by destruct s]. intros _. by exists s.
  - destruct s as [|d s]; simpl.
    + split; [done|]. intros [r ?]. done.
    + destruct (ascii_dec c d) as [->|Hne].
      * rewrite IH. split; intros [r Hr]; exists r; [by rewrite Hr|by injection Hr].
      * split; [done|]. intros [r Hr]. by injection Hr as [= ->].
Qed.

(** [p] is a prefix of [s]. *)
Definition starts_with (s p : string) : Prop := ∃ r, s = (p +:+ r)%string.

#[export] Instance starts_with_dec s p : Decision (starts_with s p).
Proof.
  destruct (strings_HasPrefix s p) eqn:E.
  - left. by apply strings_HasPrefix_spec.
  - right. intros H%strings_HasPrefix_spec. congruence.
Defined.
