(* ===== verification/Model.v ===== *)
(** * The data model (src/model)

    One record per Go struct, with the struct's fields.  [DesiredState],
    [ObservedState] and [RestartPolicy] are Go string types: any string is a
    value of them, and the constants name the ones the code writes. *)

From S2P Require Import Prelude GoLib.

Local Open Scope string_scope.

(** ** vm.go *)

Abbreviation DesiredState := string (only parsing).
Definition DesiredRunning : DesiredState := "running".
Definition DesiredStopped : DesiredState := "stopped".
Definition DesiredDeleted : DesiredState := "deleted".

Abbreviation ObservedState := string (only parsing).
Definition ObservedPending : ObservedState := "pending".
Definition ObservedScheduled : ObservedState := "scheduled".
Definition ObservedPreparing : ObservedState := "preparing".
Definition ObservedStarting : ObservedState := "starting".
Definition ObservedRunning : ObservedState := "running".
Definition ObservedStopping : ObservedState := "stopping".
Definition ObservedStopped : ObservedState := "stopped".
Definition ObservedFailed : ObservedState := "failed".
Definition ObservedDeleted : ObservedState := "deleted".

Record ResourceSpec := mkResourceSpec { VCPUs : Z; MemoryMB : Z }.

Definition RestartNever : string := "never".
Definition RestartOnFailure : string := "on_failure".
Definition RestartAlways : string := "always".

Record LifecycleSpec := mkLifecycleSpec {
  TimeoutSeconds : Z;
  AutoDelete : bool;
  RestartPolicy : string;
}.

Record RuntimeSpec := mkRuntimeSpec {
  Command : string;
  Args : Slice string;
  Env_ : GoMap string;
}.

Record PortMapping := mkPortMapping { Guest : Z; Host_ : Z; Protocol : string }.
Record NetworkSpec := mkNetworkSpec { Ports : Slice PortMapping }.
Record StorageSpec := mkStorageSpec { RootDiskSizeMB : Z }.
Record PlacementSpec := mkPlacementSpec { Labels : GoMap string }.

Record VMSpec := mkVMSpec {
  Resources : ResourceSpec;
  Lifecycle : LifecycleSpec;
  Runtime : RuntimeSpec;
  Network : NetworkSpec;
  Storage : StorageSpec;
  Placement : PlacementSpec;
  Metadata : GoMap string;
}.

(** [model.VMSpec{}] *)
Definition zero_VMSpec : VMSpec :=
  mkVMSpec (mkResourceSpec 0 0) (mkLifecycleSpec 0 false "") (mkRuntimeSpec "" None None)
    (mkNetworkSpec None) (mkStorageSpec 0) (mkPlacementSpec None) None.

Record VM := mkVM {
  vm_ID : string;
  vm_DesiredState : DesiredState;
  vm_ObservedState : ObservedState;
  vm_ImageID : string;
  vm_ControllerID : string;
  vm_Spec : VMSpec;
  vm_CreatedAt : Time;
  vm_UpdatedAt : Time;
}.

(** Field assignments [vm.F = x]. *)
Definition vm_with_DesiredState (vm : VM) (d : DesiredState) : VM :=
  mkVM (vm_ID vm) d (vm_ObservedState vm) (vm_ImageID vm) (vm_ControllerID vm)
    (vm_Spec vm) (vm_CreatedAt vm) (vm_UpdatedAt vm).
Definition vm_with_ObservedState (vm : VM) (o : ObservedState) : VM :=
  mkVM (vm_ID vm) (vm_DesiredState vm) o (vm_ImageID vm) (vm_ControllerID vm)
    (vm_Spec vm) (vm_CreatedAt vm) (vm_UpdatedAt vm).
Definition vm_with_ControllerID (vm : VM) (c : string) : VM :=
  mkVM (vm_ID vm) (vm_DesiredState vm) (vm_ObservedState vm) (vm_ImageID vm) c
    (vm_Spec vm) (vm_CreatedAt vm) (vm_UpdatedAt vm).
Definition vm_with_UpdatedAt (vm : VM) (t : Time) : VM :=
  mkVM (vm_ID vm) (vm_DesiredState vm) (vm_ObservedState vm) (vm_ImageID vm)
    (vm_ControllerID vm) (vm_Spec vm) (vm_CreatedAt vm) t.

(** ** controller.go *)

Record CapacityInfo := mkCapacityInfo {
  TotalVCPUs : Z;
  TotalMemoryMB : Z;
  UsedVCPUs : Z;
  UsedMemoryMB : Z;
}.

Record Controller := mkController {
  ctl_ID : string;
  ctl_Status : string;
  ctl_Labels : GoMap string;
  ctl_Capacity : CapacityInfo;
  ctl_LastHeartbeatAt : ZonedTime;
}.

Record Heartbeat := mkHeartbeat { hb_Status : string; hb_Capacity : CapacityInfo }.

Definition ctl_with_Status (c : Controller) (st : string) : Controller :=
  mkController (ctl_ID c) st (ctl_Labels c) (ctl_Capacity c) (ctl_LastHeartbeatAt c).
Definition ctl_with_Capacity (c : Controller) (cap : CapacityInfo) : Controller :=
  mkController (ctl_ID c) (ctl_Status c) (ctl_Labels c) cap (ctl_LastHeartbeatAt c).
Definition ctl_with_LastHeartbeatAt (c : Controller) (t : Time) : Controller :=
  mkController (ctl_ID c) (ctl_Status c) (ctl_Labels c) (ctl_Capacity c) (in_UTC t).

Record ControllerFilter := mkControllerFilter { cf_Status : string; cf_Limit : Z }.

(** ** event.go *)

Record Event := mkEvent {
  ev_ID : string;
  ev_VMID : string;
  ev_ControllerID : string;
  ev_Type : string;
  ev_Payload : Slice Byte.byte;
  ev_CreatedAt : Time;
}.

Definition ev_with_ID (e : Event) (id : string) : Event :=
  mkEvent id (ev_VMID e) (ev_ControllerID e) (ev_Type e) (ev_Payload e) (ev_CreatedAt e).
Definition ev_with_CreatedAt (e : Event) (t : Time) : Event :=
  mkEvent (ev_ID e) (ev_VMID e) (ev_ControllerID e) (ev_Type e) (ev_Payload e) t.

Record EventFilter := mkEventFilter {
  ef_VMID : string;
  ef_ControllerID : string;
  ef_Type : string;
  ef_Since : Time;
  ef_Limit : Z;
}.

(** ** job.go *)

Record Job := mkJob {
  job_ID : string;
  job_Topic : string;
  job_Payload : Slice Byte.byte;
  job_LeaseExpiresAt : Time;
  job_EnqueuedAt : Time;
  job_DequeueCount : Z;
}.

Definition job_with_LeaseExpiresAt (j : Job) (t : Time) : Job :=
  mkJob (job_ID j) (job_Topic j) (job_Payload j) t (job_EnqueuedAt j) (job_DequeueCount j).
Definition job_with_DequeueCount (j : Job) (n : Z) : Job :=
  mkJob (job_ID j) (job_Topic j) (job_Payload j) (job_LeaseExpiresAt j) (job_EnqueuedAt j) n.

(** ** blob.go *)

Record BlobMeta := mkBlobMeta {
  bm_Key : string;
  bm_Size : Z;
  bm_Checksum : string;
  bm_ContentType : string;
  bm_Metadata : GoMap string;
  bm_CreatedAt : Time;
}.

Definition bm_with_Key (m : BlobMeta) (k : string) : BlobMeta :=
  mkBlobMeta k (bm_Size m) (bm_Checksum m) (bm_ContentType m) (bm_Metadata m) (bm_CreatedAt m).
Definition bm_with_Size (m : BlobMeta) (n : Z) : BlobMeta :=
  mkBlobMeta (bm_Key m) n (bm_Checksum m) (bm_ContentType m) (bm_Metadata m) (bm_CreatedAt m).
Definition bm_with_Checksum (m : BlobMeta) (c : string) : BlobMeta :=
  mkBlobMeta (bm_Key m) (bm_Size m) c (bm_ContentType m) (bm_Metadata m) (bm_CreatedAt m).
Definition bm_with_CreatedAt (m : BlobMeta) (t : Time) : BlobMeta :=
  mkBlobMeta (bm_Key m) (bm_Size m) (bm_Checksum m) (bm_ContentType m) (bm_Metadata m) t.

(** ** endpoint.go *)

Record Route := mkRoute { rt_Host : string; rt_Path : string }.
Record Target := mkTarget { tg_Address : string; tg_Port : Z }.
Record Endpoint := mkEndpoint { ep_VMID : string; ep_Route : Route; ep_Target : Target }.

(** ** Decidable equality *)

#[export] Instance ResourceSpec_eq_dec : EqDecision ResourceSpec.
Proof. solve_decision. Defined.
#[export] Instance LifecycleSpec_eq_dec : EqDecision LifecycleSpec.
Proof. solve_decision. Defined.
#[export] Instance RuntimeSpec_eq_dec : EqDecision RuntimeSpec.
Proof. solve_decision. Defined.
#[export] Instance PortMapping_eq_dec : EqDecision PortMapping.
Proof. solve_decision. Defined.
#[export] Instance NetworkSpec_eq_dec : EqDecision NetworkSpec.
Proof. solve_decision. Defined.
#[export] Instance StorageSpec_eq_dec : EqDecision StorageSpec.
Proof. solve_decision. Defined.
#[export] Instance PlacementSpec_eq_dec : EqDecision PlacementSpec.
Proof. solve_decision. Defined.
#[export] Instance VMSpec_eq_dec : EqDecision VMSpec.
Proof. solve_decision. Defined.
#[export] Instance VM_eq_dec : EqDecision VM.
Proof. solve_decision. Defined.
#[export] Instance CapacityInfo_eq_dec : EqDecision CapacityInfo.
Proof. solve_decision. Defined.
#[export] Instance ZonedTime_eq_dec : EqDecision ZonedTime.
Proof. solve_decision. Defined.
#[export] Instance Controller_eq_dec : EqDecision Controller.
Proof. solve_decision. Defined.
#[export] Instance Event_eq_dec : EqDecision Event.
Proof. solve_decision. Defined.
#[export] Instance Job_eq_dec : EqDecision Job.
Proof. solve_decision. Defined.
#[export] Instance BlobMeta_eq_dec : EqDecision BlobMeta.
Proof. solve_decision. Defined.
#[export] Instance Route_eq_dec : EqDecision Route.
Proof. solve_decision. Defined.
#[export] Instance Target_eq_dec : EqDecision Target.
Proof. solve_decision. Defined.
#[export] Instance Endpoint_eq_dec : EqDecision Endpoint.
Proof. solve_decision. Defined.
