(* ===== verification/ProviderErr.v ===== *)
(** * Structured provider errors (src/provider/providererr/errors.go)

    Go's [error] interface as an inductive type: a [*ProviderError] or any
    other error, each with the cause it wraps, with [errors.Is] and
    [errors.As] over the chain of causes, and the result type [Res] of a
    fallible call. *)

From S2P Require Import Prelude GoLib.

Local Open Scope string_scope.

(** ** Error values *)

(** [ErrP Code Message ResourceType ResourceID Err] is a [*ProviderError];
    [ErrOther msg inner] is an error of any other type, with its text and what
    its [Unwrap] returns. *)
Inductive error : Type :=
  | ErrP (Code Message ResourceType ResourceID : string) (Err : option error)
  | ErrOther (msg : string) (inner : option error).

(** The struct itself, for the code that looks at its fields. *)
Record ProviderError := mkProviderError {
  pe_Code : string;
  pe_Message : string;
  pe_ResourceType : string;
  pe_ResourceID : string;
  pe_Err : option error;
}.

(** A [*ProviderError] used as an [error]. *)
Definition as_error (pe : ProviderError) : error :=
  ErrP (pe_Code pe) (pe_Message pe) (pe_ResourceType pe) (pe_ResourceID pe) (pe_Err pe).

Definition sentinel (code : string) : ProviderError := mkProviderError code "" "" "" None.

Definition ErrNotFound : ProviderError := sentinel "not_found".
Definition ErrAlreadyExists : ProviderError := sentinel "already_exists".
Definition ErrConflict : ProviderError := sentinel "conflict".
Definition ErrNotSupported : ProviderError := sentinel "not_supported".
Definition ErrCacheMiss : ProviderError := sentinel "cache_miss".
Definition ErrNoJobs : ProviderError := sentinel "no_jobs".

(** [func (e *ProviderError) Error() string] *)
Definition ProviderError_Error (e : ProviderError) : string :=
  if negb (pe_Message e =? "") then pe_Message e
  else if negb (pe_ResourceType e =? "") && negb (pe_ResourceID e =? "")
  then pe_Code e +:+ ": " +:+ pe_ResourceType e +:+ " " +:+ pe_ResourceID e
  else pe_Code e.

(** [func (e *ProviderError) Unwrap() error] *)
Definition ProviderError_Unwrap (e : ProviderError) : option error := pe_Err e.

(** The type assertion [target.( *ProviderError)]. *)
Definition assert_ProviderError (e : error) : option ProviderError :=
  match e with
  | ErrP c m rt rid i => Some (mkProviderError c m rt rid i)
  | ErrOther _ _ => None
  end.

(** [func (e *ProviderError) Is(target error) bool] *)
Definition ProviderError_Is (e : ProviderError) (target : error) : bool :=
  match assert_ProviderError target with
  | None => false
  | Some t => pe_Code e =? pe_Code t
  end.

(** The methods of the [error] interface value. *)
Definition error_Error (e : error) : string :=
  match e with
  | ErrP c m rt rid i => ProviderError_Error (mkProviderError c m rt rid i)
  | ErrOther msg _ => msg
  end.

(** [errors.Is(err, target)] for a target that is one of the sentinels, which
    are pointers to [ProviderError]: a pointer equal to the target has its
    code, so the pointer comparison is subsumed by the [Is] method. *)
Fixpoint errors_Is (err : error) (target : ProviderError) : bool :=
  match err with
  | ErrP c m rt rid i =>
      if ProviderError_Is (mkProviderError c m rt rid i) (as_error target) then true
      else match ProviderError_Unwrap (mkProviderError c m rt rid i) with
           | Some e => errors_Is e target
           | None => false
           end
  | ErrOther _ i => match i with Some e => errors_Is e target | None => false end
  end.

(** [errors.As(err, &pe)] with [pe] a [*ProviderError]: the first in the chain. *)
Fixpoint errors_As (err : error) : option ProviderError :=
  match err with
  | ErrP c m rt rid i => Some (mkProviderError c m rt rid i)
  | ErrOther _ i => match i with Some e => errors_As e | None => None end
  end.

(** [func NotFound(resourceType, resourceID string) error] *)
Definition NotFound (resourceType resourceID : string) : error :=
  ErrP "not_found" (resourceType +:+ " not found: " +:+ resourceID) resourceType resourceID None.

(** [func AlreadyExists(resourceType, resourceID string) error] *)
Definition AlreadyExists (resourceType resourceID : string) : error :=
  ErrP "already_exists" (resourceType +:+ " already exists: " +:+ resourceID)
    resourceType resourceID None.

(** [func Conflict(resourceType, resourceID, message string) error] *)
Definition Conflict (resourceType resourceID message : string) : error :=
  ErrP "conflict" message resourceType resourceID None.

(** ** Results *)

(** What a call returning [(T, error)] returns. *)
Inductive Res (A : Type) : Type :=
  | Ok (a : A)
  | Fail (e : error).
Arguments Ok {A} a.
Arguments Fail {A} e.

Definition is_ok {A} (r : Res A) : bool := match r with Ok _ => true | Fail _ => false end.

(** The result fails with an error that [errors.Is] matches with the sentinel. *)
Definition fails_with {A} (r : Res A) (target : ProviderError) : bool :=
  match r with Ok _ => false | Fail e => errors_Is e target end.

(** ** The chain of causes *)

(** [in_chain pe err]: [pe] is [err] or a cause of it, at any depth. *)
Inductive in_chain (pe : ProviderError) : error → Prop :=
  | in_chain_here c m rt rid i :
      pe = mkProviderError c m rt rid i → in_chain pe (ErrP c m rt rid i)
  | in_chain_provider c m rt rid e :
      in_chain pe e → in_chain pe (ErrP c m rt rid (Some e))
  | in_chain_other msg e :
      in_chain pe e → in_chain pe (ErrOther msg (Some e)).

(** Induction that goes through the wrapped cause. *)
Lemma error_chain_ind (P : error → Prop) :
  (∀ c m rt rid, P (ErrP c m rt rid None)) →
  (∀ c m rt rid e, P e → P (ErrP c m rt rid (Some e))) →
  (∀ msg, P (ErrOther msg None)) →
  (∀ msg e, P e → P (ErrOther msg (Some e))) →
  ∀ e, P e.
Proof.
  intros H1 H2 H3 H4.
  refine (fix go (e : error) : P e :=
    match e with
    | ErrP c m rt rid (Some e') => H2 c m rt rid e' (go e')
    | ErrP c m rt rid None => H1 c m rt rid
    | ErrOther msg (Some e') => H4 msg e' (go e')
    | ErrOther msg None => H3 msg
    end).
Qed.

Lemma errors_Is_ErrP c m rt rid i t :
  errors_Is (ErrP c m rt rid i) t =
  (c =? pe_Code t) || match i with Some e => errors_Is e t | None => false end.
Proof. cbn. unfold ProviderError_Is. cbn. by destruct (c =? pe_Code t). Qed.

(** ** Matching *)

Lemma errors_As_in_chain err pe : errors_As err = Some pe → in_chain pe err.
Proof.
  induction err as [| |msg|msg e IH] using error_chain_ind; cbn; intros H;
    [by injection H as <-; constructor|by injection H as <-; constructor|done|].
  constructor. auto.
Qed.

Lemma in_chain_errors_As err pe : in_chain pe err → ∃ pe', errors_As err = Some pe'.
Proof. induction 1 as [| |msg e Hin IH]; cbn; eauto. Qed.

(** The six sentinels. *)
Definition sentinels : list ProviderError :=
  [ErrNotFound; ErrAlreadyExists; ErrConflict; ErrNotSupported; ErrCacheMiss; ErrNoJobs].

Lemma errors_Is_spec err target :
  (errors_Is err target = true ↔ ∃ pe, in_chain pe err ∧ pe_Code pe = pe_Code target) ∧
  ((∃ pe, errors_As err = Some pe) ↔ ∃ pe, in_chain pe err).
Proof.
  split.
  - split.
    + induction err as [c m rt rid|c m rt rid e IH|msg|msg e IH] using error_chain_ind;
        rewrite ?errors_Is_ErrP; cbn [errors_Is].
      * rewrite orb_false_r, String.eqb_eq. intros Hc. eexists. split; [by constructor|done].
      * rewrite orb_true_iff, String.eqb_eq. intros [Hc|Hc].
        -- eexists. split; [by constructor|done].
        -- destruct (IH Hc) as (pe & Hin & Hpe). exists pe. split; [by constructor|done].
      * done.
      * intros Hc. destruct (IH Hc) as (pe & Hin & Hpe). exists pe. split; [by constructor|done].
    + intros (pe & Hin & Hpe). induction Hin as [c m rt rid i ->|c m rt rid e Hin IH|msg e Hin IH];
        rewrite ?errors_Is_ErrP; cbn [errors_Is]; [|rewrite IH; apply orb_true_r|done].
      cbn in Hpe. by rewrite Hpe, String.eqb_refl.
  - split; [intros [pe H]; eauto using errors_As_in_chain|].
    intros [pe H]. by eapply in_chain_errors_As.
Qed.

(** [errors.Is] matches an error with a sentinel exactly when some [ProviderError] of its
    chain of causes, at any depth and through errors of other types, has the sentinel's code
    (whatever its message and resource); [errors.As] finds a [ProviderError] exactly when
    there is one in the chain; and no sentinel matches another. *)
Theorem errors_Is_chain err target :
  (errors_Is err target = true ↔ ∃ pe, in_chain pe err ∧ pe_Code pe = pe_Code target) ∧
  ((∃ pe, errors_As err = Some pe) ↔ ∃ pe, in_chain pe err) ∧
  (∀ s1 s2, s1 ∈ sentinels → s2 ∈ sentinels → errors_Is (as_error s1) s2 = true → s1 = s2).
Proof.
  destruct (errors_Is_spec err target) as [Hs Ha]. split; [exact Hs|]. split; [exact Ha|].
  intros s1 s2 H1 H2. unfold sentinels in *.
  repeat (apply elem_of_cons in H1 as [->|H1];
    [repeat (apply elem_of_cons in H2 as [->|H2]; [done|]); by apply elem_of_nil in H2|]).
  by apply elem_of_nil in H1.
Qed.
