(* ===== verification/Runtime.v ===== *)
(** * The run-time environment of an operation

    Every operation of the program is a function of the environment it runs
    in and of the state it works on, [M S A].  The environment supplies what
    Go leaves open: the readings of the wall clock, the bytes of the entropy
    source and the order in which [range] visits a map.  Each is an infinite
    supply with the number of items already consumed, so an operation that
    reads the clock twice sees two readings. *)

From S2P Require Import Prelude GoLib.

Record Env := mkEnv {
  clock : nat → Time;           (** the [n]-th reading of [time.Now] *)
  ticks : nat;                  (** readings already taken *)
  entropy : nat → nat → byte;   (** byte [i] of the [n]-th [rand.Read] *)
  draws : nat;                  (** reads already done *)
  picks : nat → nat → nat;      (** the choices of the [n]-th map [range] *)
  iters : nat;                  (** map ranges already done *)
}.

(** ** The state monad *)

Definition M (S A : Type) : Type := Env → S → A * Env * S.

Definition ret {S A} (a : A) : M S A := λ e s, (a, e, s).
Definition bind {S A B} (m : M S A) (k : A → M S B) : M S B :=
  λ e s, let '(a, e', s') := m e s in k a e' s'.
Definition get {S} : M S S := λ e s, (s, e, s).
Definition put {S} (s' : S) : M S () := λ e _, ((), e, s').
Definition modify {S} (f : S → S) : M S () := λ e s, ((), e, f s).

Notation "x <- m ;; k" := (bind m (λ x, k))
  (at level 100, m at next level, right associativity) : flames_scope.
Notation "m ;;; k" := (bind m (λ _, k))
  (at level 100, right associativity) : flames_scope.

Definition result {S A} (o : A * Env * S) : A := o.1.1.
Definition env_after {S A} (o : A * Env * S) : Env := o.1.2.
Definition state_after {S A} (o : A * Env * S) : S := o.2.

Lemma outcome_eta {S A} (o : A * Env * S) : o = (result o, env_after o, state_after o).
Proof. by destruct o as [[a e] s]. Qed.

(** Run an operation of a component inside a larger state. *)
Definition zoom {S T A} (view : T → S) (upd : S → T → T) (m : M S A) : M T A :=
  λ e t, let '(a, e', s') := m e (view t) in (a, e', upd s' t).

Definition fmapM {S A B} (f : A → B) (m : M S A) : M S B := x <- m ;; ret (f x).

(** Run the calls of a list one after the other and collect the replies. *)
Fixpoint run_all {S C R} (step : C → M S R) (cs : list C) : M S (list R) :=
  match cs with
  | [] => ret []
  | c :: cs =>
      r <- step c ;;
      rs <- run_all step cs ;;
      ret (r :: rs)
  end.

(** Unfold the monad in a hypothesis or in the goal. *)
Ltac munfold_in H :=
  cbv [bind ret get put modify zoom] in H; cbn [fst snd] in H.
Ltac munfold :=
  cbv [bind ret get put modify zoom]; cbn [fst snd].

Lemma fmapM_inv {S A B} (f : A → B) (m : M S A) e s r e' s' :
  fmapM f m e s = (r, e', s') → ∃ x, m e s = (x, e', s') ∧ r = f x.
Proof. unfold fmapM. munfold. destruct (m e s) as [[x e1] s1]. intros. simplify_eq. eauto. Qed.

Lemma run_all_cons {S C R} (step : C → M S R) c cs e s :
  run_all step (c :: cs) e s =
  let '(r, e1, s1) := step c e s in
  let '(rs, e2, s2) := run_all step cs e1 s1 in
  (r :: rs, e2, s2).
Proof. done. Qed.

Lemma run_all_nil_inv {S C R} (step : C → M S R) e s rs e' s' :
  run_all step [] e s = (rs, e', s') → rs = [] ∧ e' = e ∧ s' = s.
Proof. cbn. unfold ret. by intros [= <- <- <-]. Qed.

Lemma run_all_cons_inv {S C R} (step : C → M S R) c cs e s rs e' s' :
  run_all step (c :: cs) e s = (rs, e', s') →
  ∃ r rs0 e1 s1, step c e s = (r, e1, s1) ∧ run_all step cs e1 s1 = (rs0, e', s') ∧ rs = r :: rs0.
Proof.
  cbn [run_all]. munfold. destruct (step c e s) as [[r e1] s1].
  destruct (run_all step cs e1 s1) as [[rs0 e2] s2] eqn:E. intros. simplify_eq. eauto 8.
Qed.

(** Induction over a run: what every call preserves, the run preserves. *)
Lemma run_all_ind {S C R} (step : C → M S R) (P : Env → S → Prop) cs :
  (∀ c e s r e' s', c ∈ cs → P e s → step c e s = (r, e', s') → P e' s') →
  ∀ e s rs e' s', P e s → run_all step cs e s = (rs, e', s') → P e' s'.
Proof.
  induction cs as [|c cs IH]; intros Hstep e s rs e' s' HP Hrun.
  - by apply run_all_nil_inv in Hrun as (_ & -> & ->).
  - apply run_all_cons_inv in Hrun as (r & rs0 & e1 & s1 & Hc & Hrun & _).
    eapply IH; [|eapply Hstep; [left|done..]|done].
    intros c' ? ? ? ? ? ?. apply Hstep. by right.
Qed.

(** ** What the environment supplies *)

Definition env_tick (e : Env) : Env :=
  mkEnv (clock e) (S (ticks e)) (entropy e) (draws e) (picks e) (iters e).
Definition env_draw (e : Env) : Env :=
  mkEnv (clock e) (ticks e) (entropy e) (S (draws e)) (picks e) (iters e).
Definition env_iter (e : Env) : Env :=
  mkEnv (clock e) (ticks e) (entropy e) (draws e) (picks e) (S (iters e)).

(** The instant of the next reading. *)
Definition now_of (e : Env) : Time := clock e (ticks e).

(** [time.Now()] *)
Definition time_Now {S} : M S Time := λ e s, (now_of e, env_tick e, s).

(** The bytes [rand.Read] puts in a buffer of [n] bytes. *)
Definition rand_bytes (e : Env) (n : nat) : bytes := entropy e (draws e) <$> seq 0 n.

(** [rand.Read(make([]byte, n))] from [crypto/rand], which never fails. *)
Definition rand_Read {S} (n : nat) : M S bytes := λ e s, (rand_bytes e n, env_draw e, s).

(** The identifier the next 16 random bytes give, in hexadecimal. *)
Definition next_id (e : Env) : string := hex_EncodeToString (rand_bytes e 16).

#[global] Arguments next_id : simpl never.

Lemma next_id_length e : String.length (next_id e) = 32.
Proof. unfold next_id. rewrite hex_EncodeToString_length. reflexivity. Qed.

Lemma next_id_nonempty e : next_id e ≠ "".
Proof. intros H. pose proof (next_id_length e) as Hl. by rewrite H in Hl. Qed.

(** Shuffle a list: with [n] elements left, take the one at [pick n]. *)
Fixpoint shuffle_aux {A} (fuel : nat) (pick : nat → nat) (l : list A) : list A :=
  match fuel with
  | O => []
  | S fuel =>
      let i := pick (length l) mod length l in
      match l !! i with
      | Some x => x :: shuffle_aux fuel pick (delete i l)
      | None => []
      end
  end.
Definition shuffle {A} (pick : nat → nat) (l : list A) : list A :=
  shuffle_aux (length l) pick l.

(** [for k, v := range m]: the entries in the order the loop visits them. *)
Definition map_range {V S} (m : gmap string V) : M S (list (string * V)) := λ e s,
  (shuffle (picks e (iters e)) (map_to_list m), env_iter e, s).

(** Every order [shuffle] gives is a permutation, and it gives all of them:
    a theorem for every environment is a theorem for every iteration order. *)
Lemma shuffle_aux_perm {A} n pick (l : list A) :
  length l = n → shuffle_aux n pick l ≡ₚ l.
Proof.
  revert l. induction n as [|n IH]; intros l Hlen; cbn [shuffle_aux].
  - by apply nil_length_inv in Hlen as ->.
  - assert (pick (length l) mod length l < length l) as Hlt
      by (apply Nat.mod_upper_bound; lia).
    apply lookup_lt_is_Some in Hlt as [x Hx]. rewrite Hx.
    rewrite IH by (rewrite length_delete by eauto; lia).
    symmetry. by apply delete_Permutation.
Qed.

Lemma shuffle_perm {A} pick (l : list A) : shuffle pick l ≡ₚ l.
Proof. by apply shuffle_aux_perm. Qed.

Lemma shuffle_aux_ext {A} n p q (l : list A) :
  (∀ i, i ≤ n → p i = q i) → length l = n → shuffle_aux n p l = shuffle_aux n q l.
Proof.
  revert l. induction n as [|n IH]; intros l Hpq Hlen; [done|].
  cbn [shuffle_aux]. rewrite Hpq by lia.
  destruct (l !! _) as [x|] eqn:Hx; [|done].
  f_equal. apply IH; [auto with lia|]. rewrite length_delete by eauto. lia.
Qed.

Lemma shuffle_complete {A} (l k : list A) : k ≡ₚ l → ∃ pick, shuffle pick l = k.
Proof.
  unfold shuffle. revert l. induction k as [|x k IH]; intros l Hp.
  - symmetry in Hp. apply Permutation_nil_r in Hp as ->. by exists (λ _, 0).
  - pose proof (Permutation_length Hp) as Hlen. simpl in Hlen.
    assert (x ∈ l) as Hx by (rewrite <- Hp; left).
    apply list_elem_of_lookup in Hx as [i Hi].
    pose proof (lookup_lt_Some _ _ _ Hi) as Hlt.
    assert (k ≡ₚ delete i l) as Hp'.
    { apply (Permutation_cons_inv (a := x)). rewrite Hp. by apply delete_Permutation. }
    destruct (IH _ Hp') as [pick Hpick].
    rewrite length_delete in Hpick by eauto.
    exists (λ n, if decide (n = length l) then i else pick n).
    replace (length l) with (S (length l - 1)) at 1 by lia. cbn [shuffle_aux].
    rewrite decide_True by done. rewrite Nat.mod_small, Hi by done.
    rewrite <- Hpick. f_equal. apply shuffle_aux_ext.
    + intros j Hj. by rewrite decide_False by lia.
    + rewrite length_delete by eauto. lia.
Qed.

(** ** Assumptions on the environment *)

(** The clock does not run backwards and has left the zero instant behind. *)
Definition clock_ok (e : Env) : Prop :=
  (∀ i j, i ≤ j → (clock e i ≤ clock e j)%Z) ∧ (∀ i, (0 < clock e i)%Z).

(** Two environments that differ only in what has been consumed. *)
Definition env_le (e e' : Env) : Prop :=
  clock e' = clock e ∧ entropy e' = entropy e ∧ picks e' = picks e ∧
  ticks e ≤ ticks e' ∧ draws e ≤ draws e' ∧ iters e ≤ iters e'.

#[export] Instance env_le_preorder : PreOrder env_le.
Proof.
  split.
  - intros e. unfold env_le. auto with lia.
  - intros e1 e2 e3 (C1 & E1 & P1 & ? & ? & ?) (C2 & E2 & P2 & ? & ? & ?).
    unfold env_le. rewrite C2, E2, P2. auto with lia.
Qed.

Lemma clock_ok_le e e' : env_le e e' → clock_ok e → clock_ok e'.
Proof. intros (Hc & _) H. unfold clock_ok. by rewrite Hc. Qed.

Lemma now_of_le e e' : env_le e e' → clock_ok e → (now_of e ≤ now_of e')%Z.
Proof. intros (Hc & _ & _ & Ht & _) [H _]. unfold now_of. rewrite Hc. auto. Qed.

Lemma now_of_pos e : clock_ok e → (0 < now_of e)%Z.
Proof. intros [_ H]. apply H. Qed.

(** [now] is one of the clock readings the operation took. *)
Definition read_between (e e' : Env) (now : Time) : Prop :=
  ∃ i, ticks e ≤ i < ticks e' ∧ now = clock e i.

Lemma read_between_now e e' : ticks e < ticks e' → read_between e e' (now_of e).
Proof. intros H. exists (ticks e). split; [lia|done]. Qed.

#[export] Hint Extern 1 (env_le _ _) => (unfold env_le; cbn; repeat split; lia) : flames.
#[export] Hint Extern 1 (read_between _ _ _) =>
  (eapply read_between_now; cbn; lia) : flames.

(** ** A concrete environment *)

(** An environment for concrete runs: the clock ticks every microsecond from
    an instant past zero, the n-th random read is a block of bytes [n], and
    maps are visited in their canonical order. *)
Definition test_env : Env :=
  mkEnv (λ n, 1000000 + 1000 * Z.of_nat n)%Z 0
    (λ n _, match Byte.of_N (N.of_nat n mod 256) with Some b => b | None => x00 end) 0
    (λ _ _, 0) 0.

Lemma test_env_clock_ok : clock_ok test_env.
Proof. split; intros; cbn; lia. Qed.

(** The identifier of the [n]-th [newID] in [test_env]. *)
Definition test_id (n : nat) : string :=
  next_id (mkEnv (clock test_env) 0 (entropy test_env) n (picks test_env) 0).

#[export] Hint Resolve shuffle_perm clock_ok_le now_of_pos : flames.
