(* ===== verification/State.v ===== *)
(** * The StateStore interface (src/provider/state/state.go)

    [StateStore] is the Go interface as a class of operations; [StoreView] and
    [StateStoreSpec] say what an implementation promises to its clients, as an
    abstract state and one law per operation.  The service layer is proved
    against the laws; the in-memory store proves them. *)

From S2P Require Import Prelude GoLib Model ProviderErr Runtime.

(** ** Operations *)

Class StateStore (S : Type) := {
  CreateVM : VMSpec → M S (Res string);
  GetVM : string → M S (Res VM);
  UpdateVMDesiredState : string → DesiredState → M S (Res ());
  UpdateVMObservedState : string → ObservedState → string → M S (Res ());
  AssignVM : string → string → M S (Res ());
  ListPendingVMs : M S (Res (Slice VM));

  AppendEvent : Event → M S (Res ());
  ListEvents : EventFilter → M S (Res (Slice Event));

  RegisterController : Controller → M S (Res ());
  UpdateControllerHeartbeat : string → Heartbeat → M S (Res ());
  ListControllers : ControllerFilter → M S (Res (Slice Controller));
}.

(** ** The abstract state *)

Record StoreView := mkStoreView {
  sv_vms : gmap string VM;
  sv_controllers : gmap string Controller;
  sv_events : list Event;
}.

Definition sv_with_vms (v : StoreView) m := mkStoreView m (sv_controllers v) (sv_events v).
Definition sv_with_controllers (v : StoreView) m := mkStoreView (sv_vms v) m (sv_events v).
Definition sv_with_events (v : StoreView) l := mkStoreView (sv_vms v) (sv_controllers v) l.

(** The VM that creation stores. *)
Definition fresh_VM (id : string) (spec : VMSpec) (now : Time) : VM :=
  mkVM id DesiredRunning ObservedPending "" "" spec now now.

Definition VM_set_desired (d : DesiredState) (now : Time) (vm : VM) : VM :=
  mkVM (vm_ID vm) d (vm_ObservedState vm) (vm_ImageID vm) (vm_ControllerID vm)
    (vm_Spec vm) (vm_CreatedAt vm) now.
Definition VM_set_observed (o : ObservedState) (c : string) (now : Time) (vm : VM) : VM :=
  mkVM (vm_ID vm) (vm_DesiredState vm) o (vm_ImageID vm) c
    (vm_Spec vm) (vm_CreatedAt vm) now.
Definition VM_assign (c : string) (now : Time) (vm : VM) : VM :=
  mkVM (vm_ID vm) (vm_DesiredState vm) (vm_ObservedState vm) (vm_ImageID vm) c
    (vm_Spec vm) (vm_CreatedAt vm) now.
Definition Controller_beat (hb : Heartbeat) (now : Time) (c : Controller) : Controller :=
  mkController (ctl_ID c) (hb_Status hb) (ctl_Labels c) (hb_Capacity hb) (in_UTC now).

(** The events a filter selects. A zero field selects everything. *)
Definition event_matches (f : EventFilter) (e : Event) : bool :=
  (bool_decide (ef_VMID f = "") || bool_decide (ev_VMID e = ef_VMID f))
  && (bool_decide (ef_ControllerID f = "") || bool_decide (ev_ControllerID e = ef_ControllerID f))
  && (bool_decide (ef_Type f = "") || bool_decide (ev_Type e = ef_Type f))
  && (time_IsZero (ef_Since f) || negb (time_Before (ev_CreatedAt e) (ef_Since f))).

Definition controller_matches (f : ControllerFilter) (c : Controller) : bool :=
  bool_decide (cf_Status f = "") || bool_decide (ctl_Status c = cf_Status f).

Definition is_pending (vm : VM) : bool := bool_decide (vm_ObservedState vm = ObservedPending).

(** The event as the log keeps it: an empty ID and a zero time are filled in. *)
Definition stamped (e e' : Env) (ev ev' : Event) : Prop :=
  ∃ id now,
    ev' = mkEvent id (ev_VMID ev) (ev_ControllerID ev) (ev_Type ev) (ev_Payload ev) now ∧
    id ≠ "" ∧ (ev_ID ev ≠ "" → id = ev_ID ev) ∧
    (if time_IsZero (ev_CreatedAt ev) then read_between e e' now else now = ev_CreatedAt ev).

(** The effect of an update of the VM [id] by [f]: on an unknown VM the call
    fails with [ErrNotFound] and changes nothing. *)
Definition update_spec (e e' : Env) (id : string) (f : Time → VM → VM)
    (r : Res ()) (v v' : StoreView) : Prop :=
  match sv_vms v !! id with
  | None => fails_with r ErrNotFound = true ∧ v' = v
  | Some vm =>
      r = Ok tt ∧
      ∃ now, read_between e e' now ∧ v' = sv_with_vms v (<[id := f now vm]> (sv_vms v))
  end.

(** ** The laws *)

Class StateStoreSpec (S : Type) `{StateStore S} := {
  view : S → StoreView;
  (** The next identifier the store generates is not in use. *)
  id_fresh : Env → S → Prop;

  CreateVM_law spec e s r e' s' :
    CreateVM spec e s = (r, e', s') →
    env_le e e' ∧
    ∃ id now, r = Ok id ∧ id ≠ "" ∧ read_between e e' now ∧
      (id_fresh e s → sv_vms (view s) !! id = None) ∧
      view s' = sv_with_vms (view s) (<[id := fresh_VM id spec now]> (sv_vms (view s)));

  GetVM_law id e s r e' s' :
    GetVM id e s = (r, e', s') →
    env_le e e' ∧ view s' = view s ∧
    match sv_vms (view s) !! id with
    | Some vm => r = Ok vm
    | None => fails_with r ErrNotFound = true
    end;

  UpdateVMDesiredState_law id d e s r e' s' :
    UpdateVMDesiredState id d e s = (r, e', s') →
    env_le e e' ∧ update_spec e e' id (VM_set_desired d) r (view s) (view s');

  UpdateVMObservedState_law id o c e s r e' s' :
    UpdateVMObservedState id o c e s = (r, e', s') →
    env_le e e' ∧ update_spec e e' id (VM_set_observed o c) r (view s) (view s');

  AssignVM_law id c e s r e' s' :
    AssignVM id c e s = (r, e', s') →
    env_le e e' ∧
    match sv_vms (view s) !! id with
    | Some vm =>
        if bool_decide (vm_ControllerID vm = "")
        then update_spec e e' id (VM_assign c) r (view s) (view s')
        else fails_with r ErrConflict = true ∧ view s' = view s
    | None => fails_with r ErrNotFound = true ∧ view s' = view s
    end;

  ListPendingVMs_law e s r e' s' :
    ListPendingVMs e s = (r, e', s') →
    env_le e e' ∧ view s' = view s ∧
    ∃ l, r = Ok (built_slice l) ∧ l ≡ₚ filterb is_pending (map_to_list (sv_vms (view s))).*2;

  AppendEvent_law ev e s r e' s' :
    AppendEvent ev e s = (r, e', s') →
    env_le e e' ∧ r = Ok tt ∧
    ∃ ev', stamped e e' ev ev' ∧
      view s' = sv_with_events (view s) (sv_events (view s) ++ [ev']);

  ListEvents_law f e s r e' s' :
    ListEvents f e s = (r, e', s') →
    env_le e e' ∧ view s' = view s ∧
    r = Ok (built_slice (limit_take (ef_Limit f) (filterb (event_matches f) (sv_events (view s)))));

  RegisterController_law c e s r e' s' :
    RegisterController c e s = (r, e', s') →
    env_le e e' ∧
    match sv_controllers (view s) !! ctl_ID c with
    | Some _ => fails_with r ErrAlreadyExists = true ∧ view s' = view s
    | None => r = Ok tt ∧
        view s' = sv_with_controllers (view s) (<[ctl_ID c := c]> (sv_controllers (view s)))
    end;

  UpdateControllerHeartbeat_law id hb e s r e' s' :
    UpdateControllerHeartbeat id hb e s = (r, e', s') →
    env_le e e' ∧
    match sv_controllers (view s) !! id with
    | None => fails_with r ErrNotFound = true ∧ view s' = view s
    | Some c => r = Ok tt ∧
        ∃ now, read_between e e' now ∧
          view s' = sv_with_controllers (view s)
                      (<[id := Controller_beat hb now c]> (sv_controllers (view s)))
    end;

  ListControllers_law f e s r e' s' :
    ListControllers f e s = (r, e', s') →
    env_le e e' ∧ view s' = view s ∧
    ∃ l, l ≡ₚ (map_to_list (sv_controllers (view s))).*2 ∧
      r = Ok (built_slice (limit_take (cf_Limit f) (filterb (controller_matches f) l)));
}.

(** ** Runs: calls from any number of clients, in the order they take effect *)

Inductive Call :=
  | CCreateVM (spec : VMSpec)
  | CGetVM (id : string)
  | CUpdateVMDesiredState (id : string) (d : DesiredState)
  | CUpdateVMObservedState (id : string) (o : ObservedState) (c : string)
  | CAssignVM (id c : string)
  | CListPendingVMs
  | CAppendEvent (ev : Event)
  | CListEvents (f : EventFilter)
  | CRegisterController (c : Controller)
  | CUpdateControllerHeartbeat (id : string) (hb : Heartbeat)
  | CListControllers (f : ControllerFilter).

Inductive Reply :=
  | RUnit (r : Res ())
  | RString (r : Res string)
  | RVM (r : Res VM)
  | RVMs (r : Res (Slice VM))
  | REvents (r : Res (Slice Event))
  | RControllers (r : Res (Slice Controller)).

Definition call {S} `{StateStore S} (c : Call) : M S Reply :=
  match c with
  | CCreateVM spec => fmapM RString (CreateVM spec)
  | CGetVM id => fmapM RVM (GetVM id)
  | CUpdateVMDesiredState id d => fmapM RUnit (UpdateVMDesiredState id d)
  | CUpdateVMObservedState id o c => fmapM RUnit (UpdateVMObservedState id o c)
  | CAssignVM id c => fmapM RUnit (AssignVM id c)
  | CListPendingVMs => fmapM RVMs ListPendingVMs
  | CAppendEvent ev => fmapM RUnit (AppendEvent ev)
  | CListEvents f => fmapM REvents (ListEvents f)
  | CRegisterController c => fmapM RUnit (RegisterController c)
  | CUpdateControllerHeartbeat id hb => fmapM RUnit (UpdateControllerHeartbeat id hb)
  | CListControllers f => fmapM RControllers (ListControllers f)
  end.

Definition run_calls {S} `{StateStore S} : list Call → M S (list Reply) := run_all call.

(** Case analysis on a call, with the law of the operation it makes. *)
Ltac call_cases H :=
  match type of H with
  | call ?c _ _ = _ =>
      destruct c; cbn [call] in H; apply fmapM_inv in H as (? & H & ->);
      first
        [ apply CreateVM_law in H | apply GetVM_law in H
        | apply UpdateVMDesiredState_law in H | apply UpdateVMObservedState_law in H
        | apply AssignVM_law in H | apply ListPendingVMs_law in H
        | apply AppendEvent_law in H | apply ListEvents_law in H
        | apply RegisterController_law in H | apply UpdateControllerHeartbeat_law in H
        | apply ListControllers_law in H ]
  end.
