(* ===== verification/StateTheory.v ===== *)
(** * What every StateStore guarantees over a run of calls

    Consequences of the contract of [State], for every implementation of it
    and every sequence of calls: how one VM, one controller and the event log
    can change in a step, the well-formedness invariant, the append-only log,
    and the exclusivity of VM assignment. *)

From S2P Require Import Prelude GoLib Model ProviderErr Runtime State.

(** ** One call *)

(** The effect of one call on one VM of the abstract state: it is created,
    updated in one of three ways, or left alone. *)
Inductive vm_step (e e' : Env) (id : string) : option VM → option VM → Prop :=
  | vm_same o : vm_step e e' id o o
  | vm_created o spec now :
      read_between e e' now → vm_step e e' id o (Some (fresh_VM id spec now))
  | vm_desired vm d now :
      read_between e e' now → vm_step e e' id (Some vm) (Some (VM_set_desired d now vm))
  | vm_observed vm o c now :
      read_between e e' now → vm_step e e' id (Some vm) (Some (VM_set_observed o c now vm))
  | vm_assigned vm c now :
      vm_ControllerID vm = "" → read_between e e' now →
      vm_step e e' id (Some vm) (Some (VM_assign c now vm)).

Inductive controller_step (e e' : Env) (id : string)
    : option Controller → option Controller → Prop :=
  | ctl_same o : controller_step e e' id o o
  | ctl_registered c : ctl_ID c = id → controller_step e e' id None (Some c)
  | ctl_beat c hb now :
      read_between e e' now → controller_step e e' id (Some c) (Some (Controller_beat hb now c)).

Section Steps.
Context {S : Type} `{StateStoreSpec S}.

Lemma update_spec_vm_step e e' id (f : Time → VM → VM) r v v' k :
  (∀ vm now, sv_vms v !! id = Some vm → read_between e e' now →
     vm_step e e' id (Some vm) (Some (f now vm))) →
  update_spec e e' id f r v v' →
  vm_step e e' k (sv_vms v !! k) (sv_vms v' !! k).
Proof.
  unfold update_spec. intros Hf Hu. destruct (sv_vms v !! id) as [vm|] eqn:E.
  - destruct Hu as (_ & now & Hnow & ->). cbn. rewrite lookup_insert.
    case_decide as Hk; [subst k; rewrite E; auto|constructor].
  - destruct Hu as [_ ->]. constructor.
Qed.

Lemma call_vm_step c e s r e' s' id :
  call c e s = (r, e', s') →
  vm_step e e' id (sv_vms (view s) !! id) (sv_vms (view s') !! id).
Proof.
  intros Hc. call_cases Hc; destruct Hc as [Hle Hc].
  - destruct Hc as (i & now & _ & _ & Hnow & _ & ->). cbn. rewrite lookup_insert.
    case_decide; [subst; by constructor|constructor].
  - destruct Hc as [-> _]. constructor.
  - eapply update_spec_vm_step; [|done]. by constructor.
  - eapply update_spec_vm_step; [|done]. by constructor.
  - destruct (sv_vms (view s) !! id0) as [vm|] eqn:E.
    + case_bool_decide as Hc0.
      * eapply update_spec_vm_step; [|done]. intros vm' now Hvm' ?. constructor; congruence.
      * destruct Hc as [_ ->]. constructor.
    + destruct Hc as [_ ->]. constructor.
  - destruct Hc as [-> _]. constructor.
  - destruct Hc as (_ & ev' & _ & ->). constructor.
  - destruct Hc as [-> _]. constructor.
  - destruct (sv_controllers _ !! _); destruct Hc as [_ ->]; constructor.
  - destruct (sv_controllers _ !! _).
    + destruct Hc as (_ & now & _ & ->). constructor.
    + destruct Hc as [_ ->]. constructor.
  - destruct Hc as [-> _]. constructor.
Qed.
End Steps.

(** ** One call on controllers, on the log and on the environment *)

Section MoreSteps.
Context {S : Type} `{StateStoreSpec S}.

Lemma call_env_le c e s r e' s' : call c e s = (r, e', s') → env_le e e'.
Proof. intros Hc. by call_cases Hc; destruct Hc as [Hle _]. Qed.

Lemma update_spec_others e e' id f r v v' :
  update_spec e e' id f r v v' →
  sv_controllers v' = sv_controllers v ∧ sv_events v' = sv_events v.
Proof.
  unfold update_spec. destruct (sv_vms v !! id); [intros (_ & now & _ & ->)|intros [_ ->]]; done.
Qed.

Lemma call_controller_step c e s r e' s' id :
  call c e s = (r, e', s') →
  controller_step e e' id (sv_controllers (view s) !! id) (sv_controllers (view s') !! id).
Proof.
  intros Hc. call_cases Hc; destruct Hc as [Hle Hc].
  - destruct Hc as (i & now & _ & _ & _ & _ & ->). constructor.
  - destruct Hc as [-> _]. constructor.
  - apply update_spec_others in Hc as [-> _]. constructor.
  - apply update_spec_others in Hc as [-> _]. constructor.
  - repeat case_match; try (apply update_spec_others in Hc as [-> _]; constructor);
      destruct Hc as [_ ->]; constructor.
  - destruct Hc as [-> _]. constructor.
  - destruct Hc as (_ & ev' & _ & ->). constructor.
  - destruct Hc as [-> _]. constructor.
  - destruct (sv_controllers (view s) !! ctl_ID c) eqn:E; destruct Hc as [_ ->]; [constructor|].
    cbn. rewrite lookup_insert. case_decide; [subst; rewrite E; by constructor|constructor].
  - destruct (sv_controllers (view s) !! id0) eqn:E.
    + destruct Hc as (_ & now & Hnow & ->). cbn. rewrite lookup_insert.
      case_decide; [subst; rewrite E; by constructor|constructor].
    + destruct Hc as [_ ->]. constructor.
  - destruct Hc as [-> _]. constructor.
Qed.

(** The log grows by the event of an [AppendEvent] call and by nothing else. *)
Lemma call_events_step c e s r e' s' :
  call c e s = (r, e', s') →
  match c with
  | CAppendEvent ev =>
      ∃ ev', stamped e e' ev ev' ∧ sv_events (view s') = (sv_events (view s) ++ [ev'])%list
  | _ => sv_events (view s') = sv_events (view s)
  end.
Proof.
  intros Hc. call_cases Hc; destruct Hc as [Hle Hc].
  - by destruct Hc as (i & now & _ & _ & _ & _ & ->).
  - by destruct Hc as [-> _].
  - by apply update_spec_others in Hc as [_ ->].
  - by apply update_spec_others in Hc as [_ ->].
  - repeat case_match; try (by apply update_spec_others in Hc as [_ ->]);
      by destruct Hc as [_ ->].
  - by destruct Hc as [-> _].
  - destruct Hc as (_ & ev' & Hst & ->). by exists ev'.
  - by destruct Hc as [-> _].
  - repeat case_match; by destruct Hc as [_ ->].
  - repeat case_match; [by destruct Hc as (_ & now & _ & ->)|by destruct Hc as [_ ->]].
  - by destruct Hc as [-> _].
Qed.
End MoreSteps.

(** ** The well-formedness invariant *)

(** At instant [t]: a record is stored under its own identifier, which is not
    empty; a VM was not updated before it was created, nor in the future; an
    event in the log has an identifier and a time. *)
Definition vm_ok (t : Time) (id : string) (vm : VM) : Prop :=
  vm_ID vm = id ∧ (0 < vm_CreatedAt vm ≤ vm_UpdatedAt vm)%Z ∧ (vm_UpdatedAt vm ≤ t)%Z.

Definition event_ok (ev : Event) : Prop := ev_ID ev ≠ "" ∧ ev_CreatedAt ev ≠ zero_time.

Record view_ok (t : Time) (v : StoreView) : Prop := {
  vms_ok : map_Forall (vm_ok t) (sv_vms v);
  controllers_ok : map_Forall (λ id c, ctl_ID c = id) (sv_controllers v);
  events_ok : Forall event_ok (sv_events v);
}.

Lemma read_between_bounds e e' now :
  clock_ok e → env_le e e' → read_between e e' now →
  (now_of e ≤ now ≤ now_of e')%Z.
Proof.
  intros [Hm _] (Hc & _) (i & Hi & ->). unfold now_of. rewrite Hc. split; apply Hm; lia.
Qed.

Lemma view_ok_le e e' v : clock_ok e → env_le e e' → view_ok (now_of e) v → view_ok (now_of e') v.
Proof.
  intros Hok Hle [Hv Hk He]. split; [|done..]. intros id vm Hvm. destruct (Hv id vm Hvm) as (? & ? & ?).
  pose proof (now_of_le _ _ Hle Hok). split_and!; [done|lia..].
Qed.

Lemma vm_step_ok e e' id o o' :
  clock_ok e → env_le e e' → vm_step e e' id o o' →
  (∀ vm, o = Some vm → vm_ok (now_of e) id vm) →
  ∀ vm, o' = Some vm → vm_ok (now_of e') id vm.
Proof.
  intros Hok Hle Hs Ho vm Hvm.
  pose proof (now_of_le _ _ Hle Hok). pose proof (now_of_pos _ Hok).
  inv Hs; try (edestruct Ho as (? & ? & ?); [reflexivity|]); unfold vm_ok in *; cbn in *;
    simplify_eq; try (edestruct read_between_bounds; [done..|]); split_and!; done || lia.
Qed.

Lemma stamped_ok e e' ev ev' :
  clock_ok e → env_le e e' → stamped e e' ev ev' → event_ok ev'.
Proof.
  intros Hok Hle (id & now & -> & Hid & _ & Hnow). split; cbn; [done|].
  destruct (time_IsZero _) eqn:E.
  - pose proof (read_between_bounds _ _ _ Hok Hle Hnow). pose proof (now_of_pos _ Hok).
    unfold zero_time. lia.
  - subst now. by apply Z.eqb_neq in E.
Qed.

Section Runs.
Context {S : Type} `{StateStoreSpec S}.

Lemma call_view_ok c e s r e' s' :
  clock_ok e → call c e s = (r, e', s') →
  view_ok (now_of e) (view s) → view_ok (now_of e') (view s').
Proof.
  intros Hok Hc [Hv Hk Hl]. pose proof (call_env_le _ _ _ _ _ _ Hc) as Hle. split.
  - intros id vm Hvm. eapply vm_step_ok; [done|done|by eapply call_vm_step|apply Hv|done].
  - intros id k Hid. pose proof (call_controller_step _ _ _ _ _ _ id Hc) as Hs.
    rewrite Hid in Hs. inv Hs; cbn; eauto.
  - apply call_events_step in Hc. destruct c; try by rewrite Hc.
    destruct Hc as (ev' & Hst & ->). apply Forall_app. split; [done|].
    repeat constructor; by eapply stamped_ok.
Qed.

Lemma run_view_ok cs e s rs e' s' :
  clock_ok e → run_calls cs e s = (rs, e', s') →
  view_ok (now_of e) (view s) → view_ok (now_of e') (view s').
Proof.
  intros Hok Hrun Hv.
  enough (clock_ok e' ∧ view_ok (now_of e') (view s')) by tauto.
  revert Hrun. apply (run_all_ind _ (λ e s, clock_ok e ∧ view_ok (now_of e) (view s))); [|done].
  intros c e1 s1 r e2 s2 _ [Hok1 Hv1] Hc. split.
  - eapply clock_ok_le; [by eapply call_env_le|done].
  - by eapply call_view_ok.
Qed.

Lemma run_events_prefix cs e s rs e' s' :
  run_calls cs e s = (rs, e', s') → sv_events (view s) `prefix_of` sv_events (view s').
Proof.
  apply (run_all_ind _ (λ _ s', sv_events (view s) `prefix_of` sv_events (view s'))); [|done].
  intros c e1 s1 r e2 s2 _ Hp Hc. etrans; [exact Hp|].
  apply call_events_step in Hc. destruct c; try by rewrite Hc.
  destruct Hc as (ev' & _ & ->). by apply prefix_app_r.
Qed.
End Runs.

(** ** Exclusive assignment *)

(** The controller a call tries to assign the VM [id] to. *)
Definition assign_attempt (id : string) (c : Call) : option string :=
  match c with
  | CAssignVM i ctl => if decide (i = id) then Some ctl else None
  | _ => None
  end.

(** The controllers whose assignment of [id] succeeded, in order. *)
Definition assign_winner (id : string) (cr : Call * Reply) : option string :=
  match cr with
  | (c, RUnit (Ok _)) => assign_attempt id c
  | _ => None
  end.

Definition assign_winners (id : string) (cs : list Call) (rs : list Reply) : list string :=
  omap (assign_winner id) (zip cs rs).

(** The call reports an observed state for [id], which also sets its controller. *)
Definition reports (id : string) (c : Call) : Prop :=
  match c with CUpdateVMObservedState i _ _ => i = id | _ => False end.

Definition controller_of {S} `{StateStoreSpec S} (s : S) (id : string) : option string :=
  vm_ControllerID <$> sv_vms (view s) !! id.

Section Assign.
Context {S : Type} `{StateStoreSpec S}.

Lemma fmap_controller_insert (m : gmap string VM) id k (vm vm' : VM) :
  m !! id = Some vm → vm_ControllerID vm' = vm_ControllerID vm →
  vm_ControllerID <$> (<[id := vm']> m) !! k = vm_ControllerID <$> m !! k.
Proof.
  intros Hm Hc. rewrite lookup_insert. case_decide; [|done]. subst. rewrite Hm. cbn. by f_equal.
Qed.

Lemma update_spec_controller e e' i f r v v' id :
  (∀ vm now, vm_ControllerID (f now vm) = vm_ControllerID vm) ∨ i ≠ id →
  update_spec e e' i f r v v' →
  vm_ControllerID <$> sv_vms v' !! id = vm_ControllerID <$> sv_vms v !! id.
Proof.
  unfold update_spec. intros Hf Hu. destruct (sv_vms v !! i) as [vm|] eqn:E.
  - destruct Hu as (_ & now & _ & ->). cbn. destruct Hf as [Hf|Hne].
    + by eapply fmap_controller_insert.
    + by rewrite lookup_insert_ne.
  - by destruct Hu as [_ ->].
Qed.

(** A call that neither assigns, reports nor creates [id] keeps its controller. *)
Lemma call_controller_same c e s r e' s' id :
  call c e s = (r, e', s') →
  assign_attempt id c = None → ¬ reports id c → r ≠ RString (Ok id) →
  controller_of s' id = controller_of s id.
Proof.
  intros Hc Ha Hr Hn. unfold controller_of. call_cases Hc; destruct Hc as [Hle Hc]; cbn in *.
  - destruct Hc as (i & now & -> & _ & _ & _ & ->). cbn.
    rewrite lookup_insert_ne by congruence. done.
  - by destruct Hc as [-> _].
  - eapply update_spec_controller; [|done]. by left.
  - eapply update_spec_controller; [|done]. by right.
  - case_decide; [done|]. repeat case_match; try by destruct Hc as [_ ->].
    eapply update_spec_controller; [|done]. by right.
  - by destruct Hc as [-> _].
  - by destruct Hc as (_ & ev' & _ & ->).
  - by destruct Hc as [-> _].
  - repeat case_match; by destruct Hc as [_ ->].
  - repeat case_match; [by destruct Hc as (_ & now & _ & ->)|by destruct Hc as [_ ->]].
  - by destruct Hc as [-> _].
Qed.

(** An attempt on a known VM succeeds exactly when the VM has no controller. *)
Lemma call_assign id ctl e s r e' s' ctl0 :
  call (CAssignVM id ctl) e s = (r, e', s') →
  controller_of s id = Some ctl0 →
  if decide (ctl0 = "") then r = RUnit (Ok tt) ∧ controller_of s' id = Some ctl
  else (∃ err, r = RUnit (Fail err) ∧ errors_Is err ErrConflict = true) ∧
       view s' = view s.
Proof.
  intros Hc Hctl. unfold controller_of in *. cbn [call] in Hc.
  apply fmapM_inv in Hc as (res & Hc & ->). apply AssignVM_law in Hc as [_ Hc].
  destruct (sv_vms (view s) !! id) as [vm|] eqn:E; [|done]. injection Hctl as <-.
  case_decide; case_bool_decide; try done.
  - unfold update_spec in Hc. rewrite E in Hc.
    destruct Hc as (-> & now & _ & ->). split; [done|]. cbn. by rewrite lookup_insert_eq.
  - destruct Hc as [Hf ->]. destruct res as [|err]; [done|]. split; [|done]. by exists err.
Qed.

Lemma run_assign id cs e s rs e' s' ctl0 :
  run_calls cs e s = (rs, e', s') →
  controller_of s id = Some ctl0 →
  Forall (λ c, ¬ reports id c ∧ assign_attempt id c ≠ Some "") cs →
  RString (Ok id) ∉ rs →
  assign_winners id cs rs =
    (if decide (ctl0 = "") then take 1 (omap (assign_attempt id) cs) else []) ∧
  controller_of s' id =
    Some (if decide (ctl0 = "") then default "" (head (omap (assign_attempt id) cs)) else ctl0).
Proof.
  revert e s rs ctl0. induction cs as [|c cs IH]; intros e s rs ctl0 Hrun Hctl Hcs Hnew.
  { cbn in Hrun. unfold ret in Hrun. simplify_eq. rewrite Hctl. by case_decide; subst. }
  apply run_all_cons_inv in Hrun as (r & rs0 & e1 & s1 & Hc & Hrun & ->).
  apply Forall_cons in Hcs as [[Hrep Hne] Hcs].
  apply not_elem_of_cons in Hnew as [Hr Hnew].
  destruct (assign_attempt id c) as [ctl|] eqn:Ha.
  - destruct c; cbn in Ha; try done. case_decide; [|done]. simplify_eq.
    pose proof (call_assign _ _ _ _ _ _ _ _ Hc Hctl) as Has. case_decide.
    + destruct Has as [-> Hctl1].
      destruct (IH _ _ _ _ Hrun Hctl1 Hcs Hnew) as [Hw Hf].
      unfold assign_winners in *. cbn. rewrite decide_True by done.
      rewrite decide_False in Hw by congruence. rewrite decide_False in Hf by congruence.
      rewrite Hw. done.
    + destruct Has as [(err & -> & _) Hv].
      assert (controller_of s1 id = Some ctl0) as Hctl1 by (unfold controller_of; by rewrite Hv).
      destruct (IH _ _ _ _ Hrun Hctl1 Hcs Hnew) as [Hw Hf].
      rewrite decide_False in Hw by done. rewrite decide_False in Hf by done.
      unfold assign_winners in *. cbn. done.
  - rewrite <- (call_controller_same _ _ _ _ _ _ _ Hc Ha Hrep) in Hctl by congruence.
    destruct (IH _ _ _ _ Hrun Hctl Hcs Hnew) as [Hw Hf].
    unfold assign_winners in *. cbn [zip_with omap list_omap]. rewrite Ha.
    assert (assign_winner id (c, r) = None) as -> by (cbn; rewrite Ha; by destruct r as [[]| | | | |]).
    done.
Qed.
End Assign.
