(* ===== verification/MemState.v ===== *)
(** * The in-memory StateStore (src/provider/state/memstate/memstate.go)

    [Store] is the Go struct without its mutex: every method holds the mutex
    over all its accesses to the maps and the log, so a method is one atomic
    step and a concurrent execution is a sequence of calls ([Op], [exec],
    [run]).  The order a [range] over a map takes is the environment's. *)

From S2P Require Import Prelude GoLib Model ProviderErr Runtime State.

Local Open Scope string_scope.

(** ** State and operations *)

Record Store := mkStore {
  vms : gmap string VM;
  controllers : gmap string Controller;
  events : list Event;
}.

Definition store_set_vm (id : string) (vm : VM) (s : Store) : Store :=
  mkStore (<[id := vm]> (vms s)) (controllers s) (events s).
Definition store_set_controller (id : string) (c : Controller) (s : Store) : Store :=
  mkStore (vms s) (<[id := c]> (controllers s)) (events s).
Definition store_append_event (ev : Event) (s : Store) : Store :=
  mkStore (vms s) (controllers s) (events s ++ [ev])%list.

(** [func New() *Store] *)
Definition New : Store := mkStore ∅ ∅ [].

(** [func newID() string] *)
Definition newID {S} : M S string :=
  b <- rand_Read 16 ;;
  ret (hex_EncodeToString b).

Definition CreateVM (spec : VMSpec) : M Store (Res string) :=
  id <- newID ;;
  now <- time_Now ;;
  let vm := mkVM id DesiredRunning ObservedPending "" "" spec now now in
  modify (store_set_vm id vm) ;;;
  ret (Ok id).

Definition GetVM (vmID : string) : M Store (Res VM) :=
  s <- get ;;
  match vms s !! vmID with
  | None => ret (Fail (NotFound "vm" vmID))
  | Some vm => ret (Ok vm)
  end.

Definition UpdateVMDesiredState (vmID : string) (desired : DesiredState) : M Store (Res ()) :=
  s <- get ;;
  match vms s !! vmID with
  | None => ret (Fail (NotFound "vm" vmID))
  | Some vm =>
      let vm := vm_with_DesiredState vm desired in
      now <- time_Now ;;
      let vm := vm_with_UpdatedAt vm now in
      modify (store_set_vm vmID vm) ;;;
      ret (Ok tt)
  end.

Definition UpdateVMObservedState (vmID : string) (observed : ObservedState)
    (controllerID : string) : M Store (Res ()) :=
  s <- get ;;
  match vms s !! vmID with
  | None => ret (Fail (NotFound "vm" vmID))
  | Some vm =>
      let vm := vm_with_ObservedState vm observed in
      let vm := vm_with_ControllerID vm controllerID in
      now <- time_Now ;;
      let vm := vm_with_UpdatedAt vm now in
      modify (store_set_vm vmID vm) ;;;
      ret (Ok tt)
  end.

Definition AssignVM (vmID controllerID : string) : M Store (Res ()) :=
  s <- get ;;
  match vms s !! vmID with
  | None => ret (Fail (NotFound "vm" vmID))
  | Some vm =>
      if negb (vm_ControllerID vm =? "") then
        ret (Fail (Conflict "vm" vmID
                     ("vm already assigned to controller " +:+ vm_ControllerID vm)))
      else
        let vm := vm_with_ControllerID vm controllerID in
        now <- time_Now ;;
        let vm := vm_with_UpdatedAt vm now in
        modify (store_set_vm vmID vm) ;;;
        ret (Ok tt)
  end.

(** [for _, vm := range s.vms { ... }] *)
Fixpoint ListPendingVMs_loop (l : list (string * VM)) (result : Slice VM) : Slice VM :=
  match l with
  | [] => result
  | (_, vm) :: l =>
      if vm_ObservedState vm =? ObservedPending
      then ListPendingVMs_loop l (slice_append result vm)
      else ListPendingVMs_loop l result
  end.

Definition ListPendingVMs : M Store (Res (Slice VM)) :=
  s <- get ;;
  l <- map_range (vms s) ;;
  ret (Ok (ListPendingVMs_loop l None)).

Definition AppendEvent (event : Event) : M Store (Res ()) :=
  event <- (if ev_ID event =? "" then id <- newID ;; ret (ev_with_ID event id)
            else ret event) ;;
  event <- (if time_IsZero (ev_CreatedAt event)
            then now <- time_Now ;; ret (ev_with_CreatedAt event now)
            else ret event) ;;
  modify (store_append_event event) ;;;
  ret (Ok tt).

(** [for _, e := range s.events { ... continue ... break ... }] *)
Fixpoint ListEvents_loop (filter : EventFilter) (l : list Event) (result : Slice Event)
    : Slice Event :=
  match l with
  | [] => result
  | e :: l =>
      if negb (ef_VMID filter =? "") && negb (ev_VMID e =? ef_VMID filter)
      then ListEvents_loop filter l result
      else if negb (ef_ControllerID filter =? "")
              && negb (ev_ControllerID e =? ef_ControllerID filter)
      then ListEvents_loop filter l result
      else if negb (ef_Type filter =? "") && negb (ev_Type e =? ef_Type filter)
      then ListEvents_loop filter l result
      else if negb (time_IsZero (ef_Since filter))
              && time_Before (ev_CreatedAt e) (ef_Since filter)
      then ListEvents_loop filter l result
      else
        let result := slice_append result e in
        if (0 <? ef_Limit filter)%Z && (ef_Limit filter <=? slice_len result)%Z
        then result
        else ListEvents_loop filter l result
  end.

Definition ListEvents (filter : EventFilter) : M Store (Res (Slice Event)) :=
  s <- get ;;
  ret (Ok (ListEvents_loop filter (events s) None)).

Definition RegisterController (controller : Controller) : M Store (Res ()) :=
  s <- get ;;
  match controllers s !! ctl_ID controller with
  | Some _ => ret (Fail (AlreadyExists "controller" (ctl_ID controller)))
  | None =>
      modify (store_set_controller (ctl_ID controller) controller) ;;;
      ret (Ok tt)
  end.

Definition UpdateControllerHeartbeat (controllerID : string) (heartbeat : Heartbeat)
    : M Store (Res ()) :=
  s <- get ;;
  match controllers s !! controllerID with
  | None => ret (Fail (NotFound "controller" controllerID))
  | Some c =>
      let c := ctl_with_Status c (hb_Status heartbeat) in
      let c := ctl_with_Capacity c (hb_Capacity heartbeat) in
      now <- time_Now ;;
      let c := ctl_with_LastHeartbeatAt c now in
      modify (store_set_controller controllerID c) ;;;
      ret (Ok tt)
  end.

(** [for _, c := range s.controllers { ... continue ... break ... }] *)
Fixpoint ListControllers_loop (filter : ControllerFilter) (l : list (string * Controller))
    (result : Slice Controller) : Slice Controller :=
  match l with
  | [] => result
  | (_, c) :: l =>
      if negb (cf_Status filter =? "") && negb (ctl_Status c =? cf_Status filter)
      then ListControllers_loop filter l result
      else
        let result := slice_append result c in
        if (0 <? cf_Limit filter)%Z && (cf_Limit filter <=? slice_len result)%Z
        then result
        else ListControllers_loop filter l result
  end.

Definition ListControllers (filter : ControllerFilter) : M Store (Res (Slice Controller)) :=
  s <- get ;;
  l <- map_range (controllers s) ;;
  ret (Ok (ListControllers_loop filter l None)).

(** ** The loops against their specification *)

Lemma eqb_decide (a b : string) : (a =? b)%string = bool_decide (a = b).
Proof.
  destruct (String.eqb_spec a b); [by rewrite bool_decide_eq_true_2|].
  by rewrite bool_decide_eq_false_2.
Qed.

Lemma ListEvents_loop_collect f l acc :
  ListEvents_loop f l acc = collect (event_matches f) (ef_Limit f) l acc.
Proof.
  revert acc. induction l as [|e l IH]; intros acc; [done|].
  cbn [ListEvents_loop collect]. rewrite !IH. unfold event_matches.
  rewrite !eqb_decide.
  repeat case_bool_decide; cbn [negb andb orb]; try done;
    destruct (time_IsZero _), (time_Before _ _); done.
Qed.

Lemma ListControllers_loop_collect f l acc :
  ListControllers_loop f l acc = collect (controller_matches f) (cf_Limit f) l.*2 acc.
Proof.
  revert acc. induction l as [|[k c] l IH]; intros acc; [done|].
  cbn [ListControllers_loop collect fmap list_fmap snd]. rewrite !IH.
  unfold controller_matches. rewrite !eqb_decide.
  repeat case_bool_decide; done.
Qed.

Lemma ListPendingVMs_loop_collect l acc :
  ListPendingVMs_loop l acc = collect is_pending 0 l.*2 acc.
Proof.
  revert acc. induction l as [|[k vm] l IH]; intros acc; [done|].
  cbn [ListPendingVMs_loop collect fmap list_fmap snd]. rewrite !IH.
  unfold is_pending. rewrite eqb_decide. by case_bool_decide.
Qed.

(** ** The store implements the StateStore contract *)

#[export] Instance memstate : StateStore Store := {|
  State.CreateVM := CreateVM;
  State.GetVM := GetVM;
  State.UpdateVMDesiredState := UpdateVMDesiredState;
  State.UpdateVMObservedState := UpdateVMObservedState;
  State.AssignVM := AssignVM;
  State.ListPendingVMs := ListPendingVMs;
  State.AppendEvent := AppendEvent;
  State.ListEvents := ListEvents;
  State.RegisterController := RegisterController;
  State.UpdateControllerHeartbeat := UpdateControllerHeartbeat;
  State.ListControllers := ListControllers;
|}.

Definition store_view (s : Store) : StoreView := mkStoreView (vms s) (controllers s) (events s).

Lemma newID_run {S} e (s : S) : newID e s = (next_id e, env_draw e, s).
Proof. reflexivity. Qed.

(** Run an operation in a hypothesis to its result. *)
Ltac run_op H :=
  unfold newID, time_Now, rand_Read, map_range in H;
  munfold_in H;
  repeat (break_match_in H; munfold_in H);
  simplify_eq; cbn in *.

(** The event [AppendEvent] stores. *)
Definition stamp (e : Env) (ev : Event) : Event :=
  mkEvent (if ev_ID ev =? "" then next_id e else ev_ID ev)
    (ev_VMID ev) (ev_ControllerID ev) (ev_Type ev) (ev_Payload ev)
    (if time_IsZero (ev_CreatedAt ev) then now_of e else ev_CreatedAt ev).
Definition stamp_env (e : Env) (ev : Event) : Env :=
  let e := if ev_ID ev =? "" then env_draw e else e in
  if time_IsZero (ev_CreatedAt ev) then env_tick e else e.

Section Laws.
Implicit Types (e : Env) (s : Store).

Lemma CreateVM_run spec e s :
  CreateVM spec e s =
  (Ok (next_id e), env_tick (env_draw e),
   store_set_vm (next_id e) (fresh_VM (next_id e) spec (now_of e)) s).
Proof. reflexivity. Qed.

Lemma GetVM_run id e s :
  GetVM id e s =
  (match vms s !! id with Some vm => Ok vm | None => Fail (NotFound "vm" id) end, e, s).
Proof. unfold GetVM. munfold. by destruct (vms s !! id). Qed.

(** The three updates of one VM: an unknown VM is [ErrNotFound] and no change. *)
Lemma update_run (op : M Store (Res ())) id (f : Time → VM → VM) e s :
  (∀ vm, vms s !! id = Some vm →
     op e s = (Ok tt, env_tick e, store_set_vm id (f (now_of e) vm) s)) →
  (vms s !! id = None → op e s = (Fail (NotFound "vm" id), e, s)) →
  ∀ r e' s', op e s = (r, e', s') →
  env_le e e' ∧ update_spec e e' id f r (store_view s) (store_view s').
Proof.
  intros HS HN r e' s' H. unfold update_spec. cbn.
  destruct (vms s !! id) as [vm|].
  - rewrite (HS vm) in H by done. simplify_eq. cbn. eauto 7 with flames.
  - rewrite HN in H by done. simplify_eq. auto with flames.
Qed.

Lemma CreateVM_law' spec e s r e' s' :
  CreateVM spec e s = (r, e', s') →
  env_le e e' ∧
  ∃ id now, r = Ok id ∧ id ≠ "" ∧ read_between e e' now ∧
    (vms s !! next_id e = None → vms s !! id = None) ∧
    store_view s' = sv_with_vms (store_view s) (<[id := fresh_VM id spec now]> (vms s)).
Proof.
  rewrite CreateVM_run. intros [= <- <- <-]. split; [auto with flames|].
  exists (next_id e), (now_of e). pose proof (next_id_nonempty e).
  auto 6 with flames.
Qed.

Lemma AppendEvent_run ev e s :
  AppendEvent ev e s = (Ok tt, stamp_env e ev, store_append_event (stamp e ev) s).
Proof.
  unfold AppendEvent, stamp, stamp_env. munfold. unfold time_Now.
  destruct ev as [id vm ctl ty pl t]; cbn [ev_ID ev_CreatedAt].
  destruct (id =? ""); [rewrite newID_run|]; cbn [ev_CreatedAt ev_with_ID];
    by destruct (time_IsZero t).
Qed.

Lemma stamp_stamped e ev : stamped e (stamp_env e ev) ev (stamp e ev).
Proof.
  unfold stamped, stamp, stamp_env. do 2 eexists. split; [reflexivity|].
  pose proof (next_id_nonempty e).
  destruct (String.eqb_spec (ev_ID ev) ""), (time_IsZero _); split_and!; try done;
    auto with flames; intros; congruence.
Qed.

Lemma AppendEvent_law' ev e s r e' s' :
  AppendEvent ev e s = (r, e', s') →
  env_le e e' ∧ r = Ok tt ∧
  ∃ ev', stamped e e' ev ev' ∧
    store_view s' = sv_with_events (store_view s) (events s ++ [ev'])%list.
Proof.
  rewrite AppendEvent_run. intros [= <- <- <-]. split.
  - unfold stamp_env. destruct (ev_ID ev =? ""), (time_IsZero _); auto with flames.
  - split; [done|]. eexists. split; [apply stamp_stamped|done].
Qed.
End Laws.

#[export] Instance memstate_spec : StateStoreSpec Store.
Proof.
  refine {| view := store_view; id_fresh := λ e s, vms s !! next_id e = None |}.
  - exact CreateVM_law'.
  - intros id e s r e' s' H. change (GetVM id e s = (r, e', s')) in H.
    rewrite GetVM_run in H. simplify_eq.
    split; [auto with flames|]. cbn. by destruct (vms s' !! id).
  - intros id d e s. apply update_run; intros; cbn; unfold UpdateVMDesiredState; munfold;
      by simplify_option_eq.
  - intros id o c e s. apply update_run; intros; cbn; unfold UpdateVMObservedState; munfold;
      by simplify_option_eq.
  - intros id c e s r e' s' H. change (AssignVM id c e s = (r, e', s')) in H.
    unfold AssignVM in H. munfold_in H. cbn.
    destruct (vms s !! id) as [vm|] eqn:E; [|simplify_eq; auto with flames].
    rewrite eqb_decide in H. unfold update_spec. cbn. rewrite E.
    case_bool_decide; cbn in H; simplify_eq; cbn; eauto 8 with flames.
  - intros e s r e' s' H. change (ListPendingVMs e s = (r, e', s')) in H.
    unfold ListPendingVMs in H. cbn. run_op H.
    split; [auto with flames|]. split; [done|]. eexists. split.
    + rewrite ListPendingVMs_loop_collect. change None with (@built_slice VM []).
      rewrite collect_spec by (cbn; lia). reflexivity.
    + rewrite limit_take_short by lia. apply filterb_permutation, fmap_Permutation, shuffle_perm.
  - exact AppendEvent_law'.
  - intros f e s r e' s' H. change (ListEvents f e s = (r, e', s')) in H.
    unfold ListEvents in H. cbn. run_op H.
    split; [auto with flames|]. split; [done|].
    rewrite ListEvents_loop_collect. change None with (@built_slice Event []).
    by rewrite collect_spec by (cbn; lia).
  - intros c e s r e' s' H. change (RegisterController c e s = (r, e', s')) in H.
    unfold RegisterController in H. cbn. run_op H;
      auto with flames.
  - intros id hb e s r e' s' H. change (UpdateControllerHeartbeat id hb e s = (r, e', s')) in H.
    unfold UpdateControllerHeartbeat in H. cbn. run_op H;
      eauto 8 with flames.
  - intros f e s r e' s' H. change (ListControllers f e s = (r, e', s')) in H.
    unfold ListControllers in H. cbn. run_op H.
    split; [auto with flames|]. split; [done|]. eexists. split.
    + apply fmap_Permutation, (shuffle_perm (picks e (iters e))).
    + rewrite ListControllers_loop_collect. change None with (@built_slice Controller []).
      by rewrite collect_spec by (cbn; lia).
Defined.
