(* ===== verification/MemStateTheory.v ===== *)
(** * Correctness of the in-memory StateStore

    What [MemState] guarantees, as theorems about its own operations: creation
    and lookup, exclusive assignment under any interleaving, well-formedness
    of every reachable store, the event log and its filter, the listings under
    every map iteration order, controller registration and heartbeats, and
    the error each operation returns. *)

From S2P Require Import Prelude GoLib Model ProviderErr Runtime State StateTheory MemState.

Local Open Scope string_scope.

(** ** Creation *)

(** [CreateVM] always succeeds, returns a 32-digit hexadecimal identifier, and stores
    under it a running/pending, unassigned VM with the given spec and equal creation and
    update times; [GetVM] then returns exactly that VM, and every other VM, the controllers
    and the event log are as before. *)
Theorem create_then_get spec e s :
  let '(r, e1, s1) := CreateVM spec e s in
  ∃ id,
    r = Ok id ∧ String.length id = 32 ∧
    result (GetVM id e1 s1) =
      Ok (mkVM id "running" "pending" "" "" spec (now_of e) (now_of e)) ∧
    (∀ k, k ≠ id → vms s1 !! k = vms s !! k) ∧
    controllers s1 = controllers s ∧ events s1 = events s.
Proof.
  rewrite CreateVM_run. exists (next_id e). split; [done|].
  split; [apply next_id_length|]. rewrite GetVM_run. cbn.
  rewrite lookup_insert_eq. split_and!; try done. intros k Hk. by rewrite lookup_insert_ne.
Qed.

(** ** Exclusive assignment *)

(** C3: However calls from any number of clients interleave, if a VM starts without a
    controller, nobody reports an observed state for it, nobody assigns it to the empty
    controller identifier and no creation reuses its identifier, then of all the attempts to assign it exactly the first succeeds, and its
    controller at the end is the one of that attempt (or still none without attempts). *)
Theorem assign_exclusive id vm cs e s rs e' s' :
  run_calls cs e s = (rs, e', s') →
  vms s !! id = Some vm → vm_ControllerID vm = "" →
  Forall (λ c, ¬ reports id c ∧ assign_attempt id c ≠ Some "") cs →
  RString (Ok id) ∉ rs →
  assign_winners id cs rs = take 1 (omap (assign_attempt id) cs) ∧
  vm_ControllerID <$> vms s' !! id = Some (default "" (head (omap (assign_attempt id) cs))).
Proof.
  intros Hrun Hvm Hctl Hcs Hnew.
  destruct (run_assign id cs e s rs e' s' "" Hrun) as [Hw Hf]; try done.
  unfold controller_of. cbn. by rewrite Hvm, <- Hctl.
Qed.

Definition three_way_race : list Call :=
  [CAssignVM (test_id 0) "ctrl-B"; CGetVM (test_id 0); CAssignVM (test_id 0) "ctrl-A";
   CUpdateVMDesiredState (test_id 0) DesiredStopped; CAssignVM (test_id 0) "ctrl-C"].

Definition race_start : Env * Store :=
  let o := CreateVM zero_VMSpec test_env New in (env_after o, state_after o).

Lemma assign_exclusive_witness :
  let '(e, s) := race_start in
  let o := run_calls three_way_race e s in
  assign_winners (test_id 0) three_way_race (result o) = ["ctrl-B"] ∧
  vm_ControllerID <$> vms (state_after o) !! test_id 0 = Some "ctrl-B".
Proof.
  pose (vm := mkVM (test_id 0) "running" "pending" "" "" zero_VMSpec 1000000%Z 1000000%Z).
  refine (assign_exclusive (test_id 0) vm three_way_race race_start.1 race_start.2
            _ _ _ (outcome_eta _) _ _ _ _).
  - vm_compute. reflexivity.
  - reflexivity.
  - repeat constructor; cbn; try tauto; vm_compute; congruence.
  - match goal with |- _ ∉ ?l => let v := eval vm_compute in l in change l with v end.
    rewrite !not_elem_of_cons. split_and!; try discriminate. apply not_elem_of_nil.
Defined.

(** A VM that has a controller keeps it whatever the clients do, short of reporting an
    observed state for it: every attempt to assign it fails with [ErrConflict] and leaves
    the store as it is. *)
Theorem assign_conflict id ctl vm e s :
  vms s !! id = Some vm → vm_ControllerID vm ≠ "" →
  ∃ err, AssignVM id ctl e s = (Fail err, e, s) ∧
    errors_Is err ErrConflict = true ∧
    error_Error err = "vm already assigned to controller " +:+ vm_ControllerID vm.
Proof.
  intros Hvm Hc. unfold AssignVM. munfold. rewrite Hvm, eqb_decide, bool_decide_eq_false_2 by done.
  eexists. split; [reflexivity|]. done.
Qed.

Definition owned_store : Store :=
  mkStore {[ "vm-1" := mkVM "vm-1" "running" "pending" "" "ctrl-A" zero_VMSpec 5%Z 5%Z ]} ∅ [].

Lemma assign_conflict_witness :
  ∃ err, AssignVM "vm-1" "ctrl-B" test_env owned_store = (Fail err, test_env, owned_store) ∧
    errors_Is err ErrConflict = true ∧
    error_Error err = "vm already assigned to controller ctrl-A".
Proof.
  apply (assign_conflict "vm-1" "ctrl-B"
           (mkVM "vm-1" "running" "pending" "" "ctrl-A" zero_VMSpec 5%Z 5%Z)); [reflexivity|done].
Defined.

(** ** Every reachable store is well formed *)

(** C17: From the empty store, after any sequence of calls under a clock that does not run
    backwards, each VM and each controller is stored under its own identifier, no VM was
    updated before its creation or in the future, and each logged event has a non-empty
    identifier and a non-zero time. *)
Theorem reachable_store_ok cs e rs e' s' :
  clock_ok e → run_calls cs e New = (rs, e', s') → view_ok (now_of e') (store_view s').
Proof.
  intros Hok Hrun. refine (run_view_ok (S:=Store) cs e New rs e' s' Hok Hrun _).
  split; [apply map_Forall_empty|apply map_Forall_empty|constructor].
Qed.

Definition busy_calls : list Call :=
  [CCreateVM zero_VMSpec;
   CAppendEvent (mkEvent "" (test_id 0) "" "vm.created" None zero_time);
   CRegisterController (mkController "ctrl-1" "active" None (mkCapacityInfo 8 16 0 0) (in_UTC zero_time));
   CUpdateControllerHeartbeat "ctrl-1" (mkHeartbeat "draining" (mkCapacityInfo 8 16 4 8));
   CAssignVM (test_id 0) "ctrl-1";
   CUpdateVMObservedState (test_id 0) ObservedRunning "ctrl-1"].

Lemma reachable_store_ok_witness :
  let o := run_calls busy_calls test_env New in
  view_ok (now_of (env_after o)) (store_view (state_after o)) ∧ size (vms (state_after o)) = 1.
Proof.
  split; [|vm_compute; reflexivity].
  exact (reachable_store_ok busy_calls test_env _ _ _ test_env_clock_ok (outcome_eta _)).
Defined.

(** ** The event log *)

(** The event log is append-only: over any sequence of calls the old log is a prefix of
    the new one, which has one more event per [AppendEvent] call, in the order of the calls
    and with their VM, controller, type and payload. *)
Theorem event_log_append_only cs e s rs e' s' :
  run_calls cs e s = (rs, e', s') →
  ∃ new, events s' = (events s ++ new)%list ∧
    (λ ev, (ev_VMID ev, ev_ControllerID ev, ev_Type ev, ev_Payload ev)) <$> new =
    omap (λ c, match c with
               | CAppendEvent ev => Some (ev_VMID ev, ev_ControllerID ev, ev_Type ev, ev_Payload ev)
               | _ => None
               end) cs.
Proof.
  revert e s rs. induction cs as [|c cs IH]; intros e s rs Hrun.
  { cbn in Hrun. unfold ret in Hrun. simplify_eq. exists []. by rewrite app_nil_r. }
  apply run_all_cons_inv in Hrun as (r & rs0 & e1 & s1 & Hc & Hrun & ->).
  destruct (IH _ _ _ Hrun) as (new & Hs' & Hnew). apply call_events_step in Hc. cbn in Hc.
  destruct c; try (exists new; rewrite Hs', Hc; done).
  destruct Hc as (ev' & (id & now & -> & _) & Hs1). eexists (_ :: new).
  rewrite Hs', Hs1, <- app_assoc. split; [done|]. cbn. by f_equal.
Qed.

Lemma event_log_append_only_witness :
  let o := run_calls busy_calls test_env New in
  ∃ new, events (state_after o) = (events New ++ new)%list ∧
    (λ ev, (ev_VMID ev, ev_ControllerID ev, ev_Type ev, ev_Payload ev)) <$> new =
    [(test_id 0, "", "vm.created", None)].
Proof. exact (event_log_append_only busy_calls test_env New _ _ _ (outcome_eta _)). Defined.

(** C35: [ListEvents] returns, oldest first, the events that agree with every non-zero field
    of the filter (VM, controller, type) and are not older than [Since], cut after the first
    [Limit] when the limit is positive; a nil slice when there are none. It changes nothing. *)
Theorem ListEvents_spec f e s :
  ListEvents f e s =
  (Ok (built_slice
     (limit_take (ef_Limit f)
        (filter (λ ev, (ef_VMID f = "" ∨ ev_VMID ev = ef_VMID f) ∧
                       (ef_ControllerID f = "" ∨ ev_ControllerID ev = ef_ControllerID f) ∧
                       (ef_Type f = "" ∨ ev_Type ev = ef_Type f) ∧
                       (ef_Since f = 0 ∨ ef_Since f ≤ ev_CreatedAt ev)%Z) (events s)))), e, s).
Proof.
  unfold ListEvents. munfold. rewrite ListEvents_loop_collect.
  change None with (@built_slice Event []). rewrite collect_spec by (cbn; lia).
  do 5 f_equal. apply filterb_filter. intros ev. unfold event_matches.
  unfold time_IsZero, time_Before, zero_time.
  rewrite !andb_true_iff, !orb_true_iff, !bool_decide_eq_true, negb_true_iff.
  rewrite Z.eqb_eq, Z.ltb_ge. tauto.
Qed.

(** ** Listings over maps, for every iteration order *)

(** Whatever order Go visits the map in, [ListPendingVMs] returns each VM whose observed
    state is "pending" exactly once and no other VM, and changes nothing. *)
Theorem ListPendingVMs_spec e s :
  ∃ l, ListPendingVMs e s = (Ok (built_slice l), env_iter e, s) ∧
    l ≡ₚ snd <$> map_to_list (filter (λ kv, vm_ObservedState kv.2 = "pending") (vms s)).
Proof.
  unfold ListPendingVMs. munfold. unfold map_range.
  eexists. rewrite ListPendingVMs_loop_collect. change None with (@built_slice VM []).
  rewrite collect_spec by (cbn; lia). split; [reflexivity|]. cbn [app].
  rewrite limit_take_short by lia. rewrite map_to_list_filter_perm.
  rewrite (snd_filter_filterb is_pending)
    by (intros; unfold is_pending; apply bool_decide_eq_true).
  apply filterb_permutation, fmap_Permutation, shuffle_perm.
Qed.

(** Whatever order Go visits the map in, [ListControllers] returns distinct registered
    controllers that agree with the status filter, all of them when the limit is not
    positive, and otherwise as many as the limit allows. *)
Theorem ListControllers_spec f e s :
  let matching :=
    snd <$> map_to_list (filter (λ kv, cf_Status f = "" ∨ ctl_Status kv.2 = cf_Status f)
                           (controllers s)) in
  ∃ l, ListControllers f e s = (Ok (built_slice l), env_iter e, s) ∧
    l ⊆+ matching ∧
    length l = (if (0 <? cf_Limit f)%Z then min (Z.to_nat (cf_Limit f)) (length matching)
                else length matching).
Proof.
  intros matching. unfold ListControllers. munfold. unfold map_range.
  eexists. rewrite ListControllers_loop_collect. change None with (@built_slice Controller []).
  rewrite collect_spec by (cbn; lia). split; [reflexivity|]. cbn [app].
  set (ord := filterb _ (shuffle _ _).*2).
  assert (ord ≡ₚ matching) as Hp.
  { unfold matching. rewrite map_to_list_filter_perm, (snd_filter_filterb (controller_matches f)).
    - apply filterb_permutation, fmap_Permutation, shuffle_perm.
    - intros k c. unfold controller_matches. by rewrite orb_true_iff, !bool_decide_eq_true. }
  split.
  - rewrite <- Hp. apply sublist_submseteq, limit_take_sublist.
  - rewrite <- (Permutation_length Hp). unfold limit_take.
    destruct (0 <? cf_Limit f)%Z; [apply length_take|done].
Qed.

(** ** Controllers *)

(** The first registration of a controller stores it as given; a second one under the
    same identifier fails with [ErrAlreadyExists] and changes nothing; a heartbeat then
    replaces its status and capacity and stamps the time, and keeps its identifier and
    labels and everything else in the store. *)
Theorem register_then_heartbeat c hb e s :
  controllers s !! ctl_ID c = None →
  let '(r1, e1, s1) := RegisterController c e s in
  let '(r2, e2, s2) := RegisterController c e1 s1 in
  let '(r3, e3, s3) := UpdateControllerHeartbeat (ctl_ID c) hb e2 s2 in
  r1 = Ok tt ∧ controllers s1 = <[ctl_ID c := c]> (controllers s) ∧
  fails_with r2 ErrAlreadyExists = true ∧ s2 = s1 ∧
  r3 = Ok tt ∧
  controllers s3 !! ctl_ID c =
    Some (mkController (ctl_ID c) (hb_Status hb) (ctl_Labels c) (hb_Capacity hb) (in_UTC (now_of e))) ∧
  (∀ k, k ≠ ctl_ID c → controllers s3 !! k = controllers s !! k) ∧
  vms s3 = vms s ∧ events s3 = events s.
Proof.
  intros Hc. unfold RegisterController, UpdateControllerHeartbeat. munfold. rewrite Hc. cbn.
  rewrite lookup_insert_eq. cbn. rewrite lookup_insert_eq. cbn.
  split_and!; try done; [by rewrite lookup_insert_eq|].
  intros k Hk. by rewrite !lookup_insert_ne.
Qed.

Definition ctrl1 : Controller :=
  mkController "ctrl-1" "active" (Some {[ "zone" := "a" ]}) (mkCapacityInfo 16 32768 0 0) (in_UTC zero_time).

Lemma register_then_heartbeat_witness :
  let '(r1, e1, s1) := RegisterController ctrl1 test_env New in
  let '(r2, e2, s2) := RegisterController ctrl1 e1 s1 in
  let '(r3, e3, s3) :=
    UpdateControllerHeartbeat "ctrl-1" (mkHeartbeat "draining" (mkCapacityInfo 16 32768 4 8192))
      e2 s2 in
  r1 = Ok tt ∧ controllers s1 = <["ctrl-1" := ctrl1]> ∅ ∧
  fails_with r2 ErrAlreadyExists = true ∧ s2 = s1 ∧
  r3 = Ok tt ∧
  controllers s3 !! "ctrl-1" =
    Some (mkController "ctrl-1" "draining" (Some {[ "zone" := "a" ]})
            (mkCapacityInfo 16 32768 4 8192) (in_UTC 1000000%Z)) ∧
  (∀ k, k ≠ "ctrl-1" → controllers s3 !! k = (∅ : gmap string Controller) !! k) ∧
  vms s3 = ∅ ∧ events s3 = [].
Proof.
  apply (register_then_heartbeat ctrl1
           (mkHeartbeat "draining" (mkCapacityInfo 16 32768 4 8192)) test_env New).
  reflexivity.
Defined.

(** ** Updates and their errors *)

(** On an unknown identifier every lookup and update of a VM, and the heartbeat of a
    controller, fails with the [NotFound] error of that resource ("vm not found: <id>") and
    consumes and changes nothing. *)
Theorem unknown_id_errors id d o ctl hb e s :
  vms s !! id = None → controllers s !! id = None →
  let err := Fail (NotFound "vm" id) in
  GetVM id e s = (Fail (NotFound "vm" id), e, s) ∧
  UpdateVMDesiredState id d e s = (err, e, s) ∧
  UpdateVMObservedState id o ctl e s = (err, e, s) ∧
  AssignVM id ctl e s = (err, e, s) ∧
  UpdateControllerHeartbeat id hb e s = (Fail (NotFound "controller" id), e, s) ∧
  errors_Is (NotFound "vm" id) ErrNotFound = true ∧
  error_Error (NotFound "vm" id) = "vm not found: " +:+ id.
Proof.
  intros Hv Hc. cbv zeta. rewrite GetVM_run.
  unfold UpdateVMDesiredState, UpdateVMObservedState, AssignVM, UpdateControllerHeartbeat.
  munfold. by rewrite Hv, Hc.
Qed.

Lemma unknown_id_errors_witness :
  GetVM "nonexistent" test_env New = (Fail (NotFound "vm" "nonexistent"), test_env, New) ∧
  error_Error (NotFound "vm" "nonexistent") = "vm not found: nonexistent".
Proof.
  pose proof (unknown_id_errors "nonexistent" DesiredStopped ObservedRunning "ctrl-1"
                (mkHeartbeat "" (mkCapacityInfo 0 0 0 0)) test_env New eq_refl eq_refl) as H.
  split; apply H.
Defined.

(** An update of a known VM succeeds, changes exactly its own field ([DesiredState]; or
    [ObservedState] and [ControllerID]) and [UpdatedAt], and leaves the rest of that VM, the
    other VMs, the controllers and the log as they were. *)
Theorem update_known_vm id d o ctl vm e s :
  vms s !! id = Some vm →
  UpdateVMDesiredState id d e s =
    (Ok tt, env_tick e,
     mkStore (<[id := mkVM (vm_ID vm) d (vm_ObservedState vm) (vm_ImageID vm)
                        (vm_ControllerID vm) (vm_Spec vm) (vm_CreatedAt vm) (now_of e)]> (vms s))
       (controllers s) (events s)) ∧
  UpdateVMObservedState id o ctl e s =
    (Ok tt, env_tick e,
     mkStore (<[id := mkVM (vm_ID vm) (vm_DesiredState vm) o (vm_ImageID vm)
                        ctl (vm_Spec vm) (vm_CreatedAt vm) (now_of e)]> (vms s))
       (controllers s) (events s)).
Proof.
  intros Hv. unfold UpdateVMDesiredState, UpdateVMObservedState. munfold. rewrite Hv. done.
Qed.

Lemma update_known_vm_witness :
  result (UpdateVMDesiredState "vm-1" "stopped" test_env owned_store) = Ok tt ∧
  vms (state_after (UpdateVMObservedState "vm-1" "running" "ctrl-B" test_env owned_store))
    !! "vm-1" = Some (mkVM "vm-1" "running" "running" "" "ctrl-B" zero_VMSpec 5%Z 1000000%Z).
Proof.
  destruct (update_known_vm "vm-1" "stopped" "running" "ctrl-B" _ test_env owned_store eq_refl)
    as [H1 H2].
  rewrite H1, H2. split; reflexivity.
Defined.
