(* ===== verification/Queue.v ===== *)
(** * The WorkQueue interface (src/provider/queue/queue.go)

    The Go interface as a class of operations, and runs of calls from any
    number of producers and workers, in the order they take effect. *)

From S2P Require Import Prelude GoLib Model ProviderErr Runtime.

Class WorkQueue (Q : Type) := {
  Enqueue : string → Slice byte → M Q (Res string);
  Dequeue : string → Duration → M Q (Res Job);
  Ack : string → M Q (Res ());
  Nack : string → Time → M Q (Res ());
}.

Inductive QCall :=
  | QEnqueue (topic : string) (payload : Slice byte)
  | QDequeue (topic : string) (lease : Duration)
  | QAck (id : string)
  | QNack (id : string) (retryAt : Time).

Inductive QReply :=
  | QRString (r : Res string)
  | QRJob (r : Res Job)
  | QRUnit (r : Res ()).

Definition qcall {Q} `{WorkQueue Q} (c : QCall) : M Q QReply :=
  match c with
  | QEnqueue topic payload => fmapM QRString (Enqueue topic payload)
  | QDequeue topic lease => fmapM QRJob (Dequeue topic lease)
  | QAck id => fmapM QRUnit (Ack id)
  | QNack id retryAt => fmapM QRUnit (Nack id retryAt)
  end.

Definition run_queue {Q} `{WorkQueue Q} : list QCall → M Q (list QReply) := run_all qcall.

(** A reply that hands out the job [id]. *)
Definition delivers (id : string) (r : QReply) : Prop :=
  match r with QRJob (Ok j) => job_ID j = id | _ => False end.
