(* ===== verification/MemQueue.v ===== *)
(** * The in-memory WorkQueue (src/provider/queue/memqueue/memqueue.go)

    [Queue] is the Go struct without its mutex, which every method holds over
    all its accesses to the maps: a method is one atomic step.  The entries
    of a topic are updated in place through [&entries[i]]; no other reference
    to the slice of a topic leaves the package, so a slice is a list. *)

From S2P Require Import Prelude GoLib Model ProviderErr Runtime Queue.

Record queueEntry := mkQueueEntry { qe_job : Job }.
Record topicRef := mkTopicRef { tr_topic : string }.

Record Queue := mkQueue {
  topics : gmap string (list queueEntry);
  index : gmap string topicRef;
}.

(** [func New() *Queue] *)
Definition New : Queue := mkQueue ∅ ∅.

(** Reading a missing key of [q.topics] gives the nil slice. *)
Definition topic_entries (q : Queue) (topic : string) : list queueEntry :=
  default [] (topics q !! topic).

Definition set_topic (topic : string) (l : list queueEntry) (q : Queue) : Queue :=
  mkQueue (<[topic := l]> (topics q)) (index q).
Definition set_index (id : string) (ref : topicRef) (q : Queue) : Queue :=
  mkQueue (topics q) (<[id := ref]> (index q)).
Definition delete_index (id : string) (q : Queue) : Queue :=
  mkQueue (topics q) (delete id (index q)).

(** [func newID() string] *)
Definition newID {S} : M S string :=
  b <- rand_Read 16 ;;
  ret (hex_EncodeToString b).

Definition Enqueue (topic : string) (payload : Slice byte) : M Queue (Res string) :=
  id <- newID ;;
  let p := Some (slice_elems payload) in
  now <- time_Now ;;
  let job := mkJob id topic p zero_time now 0 in
  q <- get ;;
  put (set_topic topic (topic_entries q topic ++ [mkQueueEntry job]) q) ;;;
  modify (set_index id (mkTopicRef topic)) ;;;
  ret (Ok id).

(** [for i := range entries { e := &entries[i]; if ... { ...; return e.job } }]:
    the job returned and the entries after the update in place. *)
Fixpoint Dequeue_loop (now : Time) (leaseTimeout : Duration) (entries : list queueEntry)
    : option (Job * list queueEntry) :=
  match entries with
  | [] => None
  | e :: rest =>
      if time_IsZero (job_LeaseExpiresAt (qe_job e))
         || time_After now (job_LeaseExpiresAt (qe_job e))
      then
        let job := job_with_LeaseExpiresAt (qe_job e) (time_Add now leaseTimeout) in
        let job := job_with_DequeueCount job (wrap64 (job_DequeueCount job + 1)) in
        Some (job, mkQueueEntry job :: rest)
      else
        match Dequeue_loop now leaseTimeout rest with
        | Some (job, rest') => Some (job, e :: rest')
        | None => None
        end
  end.

Definition Dequeue (topic : string) (leaseTimeout : Duration) : M Queue (Res Job) :=
  q <- get ;;
  let entries := topic_entries q topic in
  now <- time_Now ;;
  match Dequeue_loop now leaseTimeout entries with
  | Some (job, entries') =>
      put (set_topic topic entries' q) ;;;
      ret (Ok job)
  | None => ret (Fail (as_error ErrNoJobs))
  end.

(** The index [i] of the first entry with the given job ID. *)
Fixpoint find_job (jobID : string) (entries : list queueEntry) : option nat :=
  match entries with
  | [] => None
  | e :: rest =>
      if String.eqb (job_ID (qe_job e)) jobID then Some 0
      else match find_job jobID rest with Some i => Some (S i) | None => None end
  end.

Definition Ack (jobID : string) : M Queue (Res ()) :=
  q <- get ;;
  match index q !! jobID with
  | None => ret (Fail (NotFound "job" jobID))
  | Some ref =>
      let entries := topic_entries q (tr_topic ref) in
      match find_job jobID entries with
      | Some i =>
          (** [append(entries[:i], entries[i+1:]...)] *)
          put (set_topic (tr_topic ref) (take i entries ++ drop (i + 1) entries) q) ;;;
          modify (delete_index jobID) ;;;
          ret (Ok tt)
      | None => ret (Fail (NotFound "job" jobID))
      end
  end.

Definition entry_with_lease (t : Time) (e : queueEntry) : queueEntry :=
  mkQueueEntry (job_with_LeaseExpiresAt (qe_job e) t).

Definition Nack (jobID : string) (retryAt : Time) : M Queue (Res ()) :=
  q <- get ;;
  match index q !! jobID with
  | None => ret (Fail (NotFound "job" jobID))
  | Some ref =>
      let entries := topic_entries q (tr_topic ref) in
      match find_job jobID entries with
      | Some i =>
          (** [entries[i].job.LeaseExpiresAt = retryAt] *)
          put (set_topic (tr_topic ref) (alter (entry_with_lease retryAt) i entries) q) ;;;
          ret (Ok tt)
      | None => ret (Fail (NotFound "job" jobID))
      end
  end.

#[export] Instance memqueue : WorkQueue Queue := {|
  Queue.Enqueue := Enqueue;
  Queue.Dequeue := Dequeue;
  Queue.Ack := Ack;
  Queue.Nack := Nack;
|}.
