(* ===== verification/MemQueueTheory.v ===== *)
(** * Correctness of the in-memory WorkQueue

    The loops of [MemQueue] against their specifications, the invariant that
    ties the index to the topics, conservation of jobs, exclusive leases,
    at-least-once delivery, acknowledgement and redelivery. *)

From S2P Require Import Prelude GoLib Model ProviderErr Runtime State Queue MemQueue.

(** ** The loops *)

Definition entry_id (e : queueEntry) : string := job_ID (qe_job e).
Definition job_ids (q : Queue) (topic : string) : list string :=
  entry_id <$> topic_entries q topic.

(** At instant [now] the job may be handed out. *)
Definition available (now : Time) (j : Job) : Prop :=
  job_LeaseExpiresAt j = zero_time ∨ (job_LeaseExpiresAt j < now)%Z.

#[export] Instance available_dec now j : Decision (available now j).
Proof. unfold available. apply _. Defined.

(** The job as it is handed out at [now] under a lease. *)
Definition leased (now : Time) (d : Duration) (j : Job) : Job :=
  mkJob (job_ID j) (job_Topic j) (job_Payload j) (now + d)%Z (job_EnqueuedAt j)
    (wrap64 (job_DequeueCount j + 1)).

Lemma available_guard now j :
  time_IsZero (job_LeaseExpiresAt j) || time_After now (job_LeaseExpiresAt j) =
  bool_decide (available now j).
Proof.
  apply eq_true_iff_eq. unfold available, time_IsZero, time_After.
  rewrite orb_true_iff, bool_decide_eq_true, Z.eqb_eq, Z.ltb_lt. done.
Qed.

(** The scan hands out the first available entry and changes no other. *)
Lemma Dequeue_loop_Some now d l j l' :
  Dequeue_loop now d l = Some (j, l') ↔
  ∃ l1 e l2, l = l1 ++ e :: l2 ∧ Forall (λ x, ¬ available now (qe_job x)) l1 ∧
    available now (qe_job e) ∧ j = leased now d (qe_job e) ∧ l' = l1 ++ mkQueueEntry j :: l2.
Proof.
  revert l'. induction l as [|x l IH]; intros l'; cbn [Dequeue_loop].
  - split; [done|]. intros ([|] & ? & ? & ? & _); done.
  - rewrite available_guard. case_bool_decide as Hav.
    + split.
      * intros [= <- <-]. exists [], x, l. split_and!; try done.
      * intros (l1 & e & l2 & Hl & Hl1 & He & -> & ->). destruct l1 as [|y l1]; simplify_eq/=; [done|].
        by apply Forall_cons in Hl1 as [? _].
    + destruct (Dequeue_loop now d l) as [[j0 l0]|] eqn:E.
      * split.
        -- intros [= -> <-]. destruct (proj1 (IH l0) eq_refl) as (l1 & e & l2 & -> & ? & ? & ? & ->).
           exists (x :: l1), e, l2. split_and!; try done. by constructor.
        -- intros (l1 & e & l2 & Hl & Hl1 & He & -> & ->).
           destruct l1 as [|y l1]; simplify_eq/=; [done|]. apply Forall_cons in Hl1 as [? Hl1].
           assert (Some (j0, l0) = Some (leased now d (qe_job e),
             l1 ++ mkQueueEntry (leased now d (qe_job e)) :: l2)) as [= -> ->]; [|done].
           apply IH. eauto 10.
      * split; [done|]. intros (l1 & e & l2 & Hl & Hl1 & He & -> & ->).
        destruct l1 as [|y l1]; simplify_eq/=; [done|]. apply Forall_cons in Hl1 as [? Hl1].
        enough (None = Some (leased now d (qe_job e),
          l1 ++ mkQueueEntry (leased now d (qe_job e)) :: l2)) by done.
        apply IH. eauto 10.
Qed.

Lemma Dequeue_loop_None now d l :
  Dequeue_loop now d l = None ↔ Forall (λ x, ¬ available now (qe_job x)) l.
Proof.
  induction l as [|x l IH]; cbn [Dequeue_loop]; [split; [constructor|done]|].
  rewrite available_guard, Forall_cons. case_bool_decide; [split; [done|tauto]|].
  destruct (Dequeue_loop now d l) as [[j l']|]; split; try done; intuition done.
Qed.

Lemma find_job_Some id l i :
  find_job id l = Some i → ∃ e, l !! i = Some e ∧ entry_id e = id.
Proof.
  revert i. induction l as [|x l IH]; intros i; cbn [find_job]; [done|].
  destruct (String.eqb_spec (job_ID (qe_job x)) id).
  - intros [= <-]. by exists x.
  - destruct (find_job id l); [|done]. intros [= <-]. cbn. auto.
Qed.

Lemma find_job_None id l : find_job id l = None ↔ id ∉ entry_id <$> l.
Proof.
  induction l as [|x l IH]; cbn [find_job fmap list_fmap].
  - split; [intros _; apply not_elem_of_nil|done].
  - rewrite not_elem_of_cons. unfold entry_id at 1.
    destruct (String.eqb_spec (job_ID (qe_job x)) id) as [->|Hne]; [split; [done|tauto]|].
    destruct (find_job id l); split; try done; intuition congruence.
Qed.

Lemma find_job_is_Some id l : id ∈ entry_id <$> l → ∃ i, find_job id l = Some i.
Proof.
  intros H. destruct (find_job id l) eqn:E; [eauto|]. by apply find_job_None in E.
Qed.

(** ** The invariant *)

(** A job is listed once, in the topic it names, which is the one the index
    gives for its identifier; and the index refers to listed jobs only. *)
Record queue_ok (q : Queue) : Prop := {
  qok_nodup t : NoDup (job_ids q t);
  qok_entry t e : e ∈ topic_entries q t →
    job_Topic (qe_job e) = t ∧ index q !! entry_id e = Some (mkTopicRef t);
  qok_index id ref : index q !! id = Some ref → id ∈ job_ids q (tr_topic ref);
}.

(** An entry keeps its identity, its payload and its enqueue time. *)
Definition same_entry (e e' : queueEntry) : Prop :=
  entry_id e' = entry_id e ∧ job_Topic (qe_job e') = job_Topic (qe_job e) ∧
  job_Payload (qe_job e') = job_Payload (qe_job e) ∧
  job_EnqueuedAt (qe_job e') = job_EnqueuedAt (qe_job e).

#[export] Instance same_entry_refl : Reflexive same_entry.
Proof. by intros e. Qed.

Lemma topic_entries_set q t l t' :
  topic_entries (set_topic t l q) t' = if decide (t = t') then l else topic_entries q t'.
Proof. unfold topic_entries, set_topic. cbn. rewrite lookup_insert. by case_decide. Qed.

Lemma same_entry_ids l l' : Forall2 same_entry l l' → entry_id <$> l' = entry_id <$> l.
Proof. induction 1 as [|e e' l l' (Hid & _) _ IH]; [done|]. cbn. by rewrite Hid, IH. Qed.

(** Updating the entries of a topic in place keeps the invariant. *)
Lemma queue_ok_update q t l :
  queue_ok q → Forall2 same_entry (topic_entries q t) l → queue_ok (set_topic t l q).
Proof.
  intros [Hn He Hi] Hl.
  assert (∀ t', job_ids (set_topic t l q) t' = job_ids q t') as Hids.
  { intros t'. unfold job_ids. rewrite topic_entries_set. case_decide as Ht; [|done].
    subst. by apply same_entry_ids. }
  split.
  - intros t'. rewrite Hids. apply Hn.
  - intros t' e. rewrite topic_entries_set. case_decide as Ht; [|apply He]. subst t'. intros Hin.
    apply list_elem_of_lookup in Hin as [i Hin].
    destruct (Forall2_lookup_r _ _ _ _ _ Hl Hin) as (e0 & He0 & Hid & Htop & _).
    rewrite Hid, Htop. apply He. by eapply list_elem_of_lookup_2.
  - intros id ref Href. rewrite Hids. by apply Hi.
Qed.

Lemma same_entry_leased now d e : same_entry e (mkQueueEntry (leased now d (qe_job e))).
Proof. done. Qed.

Lemma Forall2_same_entry_middle l1 e e' l2 :
  same_entry e e' → Forall2 same_entry (l1 ++ e :: l2) (l1 ++ e' :: l2).
Proof. intros He. apply Forall2_app; [|constructor; [done|]]; reflexivity. Qed.

(** ** The jobs of a queue *)

Definition has_job (q : Queue) (j : Job) : Prop :=
  mkQueueEntry j ∈ topic_entries q (job_Topic j).

(** The identifiers in the index are those of the jobs. *)
Definition known_ids (q : Queue) : gset string := dom (index q).

Lemma entry_has_job q t e : queue_ok q → e ∈ topic_entries q t → has_job q (qe_job e).
Proof.
  intros Hq He. destruct (qok_entry q Hq t e He) as [<- _]. unfold has_job. by destruct e.
Qed.

Lemma has_job_index q j :
  queue_ok q → has_job q j → index q !! job_ID j = Some (mkTopicRef (job_Topic j)).
Proof. intros Hq Hj. by destruct (qok_entry q Hq _ _ Hj). Qed.

Lemma has_job_unique q j j' :
  queue_ok q → has_job q j → has_job q j' → job_ID j = job_ID j' → j = j'.
Proof.
  intros Hq Hj Hj' Hid. pose proof (has_job_index q j Hq Hj) as Hx.
  pose proof (has_job_index q j' Hq Hj') as Hx'. rewrite Hid, Hx' in Hx. injection Hx as Ht.
  unfold has_job in Hj'. rewrite Ht in Hj'.
  enough (mkQueueEntry j = mkQueueEntry j') by congruence.
  by apply (NoDup_fmap_eq entry_id _ _ _ (qok_nodup q Hq (job_Topic j))).
Qed.

Lemma index_has_job q id ref :
  queue_ok q → index q !! id = Some ref →
  ∃ j i, has_job q j ∧ job_ID j = id ∧ job_Topic j = tr_topic ref ∧
    find_job id (topic_entries q (tr_topic ref)) = Some i ∧
    topic_entries q (tr_topic ref) !! i = Some (mkQueueEntry j).
Proof.
  intros Hq Hid. pose proof (qok_index q Hq id ref Hid) as Hin.
  apply find_job_is_Some in Hin as [i Hi]. destruct (find_job_Some _ _ _ Hi) as ([j] & He & Hj).
  exists j, i. pose proof (list_elem_of_lookup_2 _ _ _ He) as Hel.
  destruct (qok_entry q Hq _ _ Hel) as [Ht _]. split_and!; try done.
  by apply (entry_has_job q _ _ Hq Hel).
Qed.

(** ** Each operation on the jobs *)

Definition new_job (id topic : string) (payload : Slice byte) (now : Time) : Job :=
  mkJob id topic (Some (slice_elems payload)) zero_time now 0.

Lemma Enqueue_run t p e q :
  Enqueue t p e q =
  (Ok (next_id e), env_tick (env_draw e),
   set_index (next_id e) (mkTopicRef t)
     (set_topic t (topic_entries q t ++ [mkQueueEntry (new_job (next_id e) t p (now_of e))]) q)).
Proof. reflexivity. Qed.

Lemma set_topic_index t l q : index (set_topic t l q) = index q.
Proof. done. Qed.

(** Replacing one entry by another version of the same job. *)
Lemma has_job_replace q t l1 e e' l2 j :
  queue_ok q → topic_entries q t = l1 ++ e :: l2 → same_entry e e' →
  has_job (set_topic t (l1 ++ e' :: l2) q) j ↔
  (has_job q j ∧ job_ID j ≠ entry_id e) ∨ j = qe_job e'.
Proof.
  intros Hq Ht (Hid & Htop & _).
  assert (e ∈ topic_entries q t) as Hein by (rewrite Ht; set_solver).
  assert (job_Topic (qe_job e') = t) as Htop' by (rewrite Htop; by destruct (qok_entry q Hq _ _ Hein)).
  assert (NoDup (entry_id <$> (l1 ++ e :: l2))) as Hn by (rewrite <- Ht; apply qok_nodup, Hq).
  rewrite fmap_app, fmap_cons in Hn. apply NoDup_app in Hn as (_ & Hn1 & Hn2).
  apply NoDup_cons in Hn2 as [Hn2 _].
  assert (mkQueueEntry (qe_job e') = e') as He' by by destruct e'.
  assert (∀ x, x ∈ l1 ++ l2 → entry_id x ≠ entry_id e) as Hother.
  { intros x [Hx|Hx]%elem_of_app Heq.
    - apply (Hn1 (entry_id x)); [by apply list_elem_of_fmap_2|]. rewrite Heq. left.
    - apply Hn2. rewrite <- Heq. by apply list_elem_of_fmap_2. }
  unfold has_job. rewrite topic_entries_set. case_decide as Hd.
  - subst t. rewrite <- Hd, Ht, !elem_of_app, !elem_of_cons. split.
    + intros [Hj|[Hj|Hj]]; [left|right|left].
      * split; [by left|]. apply (Hother (mkQueueEntry j)). set_solver.
      * by rewrite <- Hj.
      * split; [by do 2 right|]. apply (Hother (mkQueueEntry j)). set_solver.
    + intros [[[Hj|[Hj|Hj]] Hne]| ->]; [by left| |by do 2 right|right; left; done].
      subst e. by destruct Hne.
  - split; [|intros [[? _]| ->]; [done|by destruct Hd]].
    intros Hj. left. split; [done|]. intros Heq.
    destruct (qok_entry q Hq _ _ Hj) as [_ Hx]. destruct (qok_entry q Hq _ _ Hein) as [_ Hx'].
    change (entry_id (mkQueueEntry j)) with (job_ID j) in Hx. rewrite Heq, Hx' in Hx.
    injection Hx as Hx. by destruct Hd.
Qed.

Lemma Enqueue_ok t p e q :
  queue_ok q → index q !! next_id e = None →
  let q' := state_after (Enqueue t p e q) in
  queue_ok q' ∧
  ∀ j, has_job q' j ↔ has_job q j ∨ j = new_job (next_id e) t p (now_of e).
Proof.
  intros Hq Hfresh. rewrite Enqueue_run. cbn [state_after snd].
  set (n := new_job (next_id e) t p (now_of e)).
  assert (∀ t' x, x ∈ topic_entries q t' → entry_id x ≠ next_id e) as Hne.
  { intros t' x Hx Heq. apply (qok_entry q Hq) in Hx as [_ Hx]. congruence. }
  assert (∀ t', topic_entries (set_index (next_id e) (mkTopicRef t)
            (set_topic t (topic_entries q t ++ [mkQueueEntry n]) q)) t' =
            topic_entries q t' ++ (if decide (t = t') then [mkQueueEntry n] else [])) as Hent.
  { intros t'. change (topic_entries (set_index ?i ?r ?q') ?x) with (topic_entries q' x).
    rewrite topic_entries_set. case_decide; [by subst|by rewrite app_nil_r]. }
  split; [split|].
  - intros t'. unfold job_ids. rewrite Hent, fmap_app. apply NoDup_app. split_and!.
    + apply qok_nodup, Hq.
    + intros i (x & -> & Hx)%list_elem_of_fmap. case_decide; [|apply not_elem_of_nil].
      cbn. rewrite list_elem_of_singleton. by eapply Hne.
    + case_decide; [apply NoDup_singleton|constructor].
  - intros t' x. rewrite Hent, elem_of_app. cbn. rewrite lookup_insert. intros [Hx|Hx].
    + rewrite decide_False by (symmetry; eapply Hne; eauto). by apply qok_entry.
    + case_decide; [|by apply not_elem_of_nil in Hx]. apply list_elem_of_singleton in Hx as ->.
      cbn. subst t'. by rewrite decide_True.
  - intros id ref. cbn. rewrite lookup_insert. unfold job_ids. rewrite Hent, fmap_app, elem_of_app.
    case_decide as Hid.
    + intros [= <-]. right. cbn. rewrite decide_True by done. subst id. left.
    + intros Hr. left. by apply (qok_index q Hq).
  - intros j. unfold has_job. rewrite Hent, elem_of_app. case_decide as Ht.
    + rewrite list_elem_of_singleton. split; [intros [?|[= ->]]; auto|]. intros [?| ->]; auto.
    + split; [intros [?|Hx]; [auto|by apply not_elem_of_nil in Hx]|].
      intros [?| ->]; [by left|by destruct Ht].
Qed.

(** [Dequeue] hands out the first available job of the topic, leased, or says
    that there is none. *)
Lemma Dequeue_cases t d e q :
  (∃ l1 x l2, topic_entries q t = l1 ++ x :: l2 ∧
     Forall (λ y, ¬ available (now_of e) (qe_job y)) l1 ∧ available (now_of e) (qe_job x) ∧
     Dequeue t d e q =
       (Ok (leased (now_of e) d (qe_job x)), env_tick e,
        set_topic t (l1 ++ mkQueueEntry (leased (now_of e) d (qe_job x)) :: l2) q)) ∨
  (Forall (λ y, ¬ available (now_of e) (qe_job y)) (topic_entries q t) ∧
   Dequeue t d e q = (Fail (as_error ErrNoJobs), env_tick e, q)).
Proof.
  unfold Dequeue. munfold. cbv [time_Now].
  destruct (Dequeue_loop (now_of e) d (topic_entries q t)) as [[j l']|] eqn:E.
  - left. apply Dequeue_loop_Some in E as (l1 & x & l2 & Hl & Hl1 & Hx & -> & ->). eauto 10.
  - right. by apply Dequeue_loop_None in E.
Qed.

Lemma Dequeue_ok t d e q r e' q' :
  queue_ok q → Dequeue t d e q = (r, e', q') → queue_ok q' ∧ index q' = index q.
Proof.
  intros Hq Hd. destruct (Dequeue_cases t d e q) as [(l1 & x & l2 & Ht & _ & _ & Heq)|[_ Heq]];
    rewrite Heq in Hd; simplify_eq; [|done].
  split; [|done]. apply queue_ok_update; [done|]. rewrite Ht.
  apply Forall2_same_entry_middle, same_entry_leased.
Qed.

Lemma Nack_cases id t e q :
  queue_ok q →
  (index q !! id = None ∧ Nack id t e q = (Fail (NotFound "job" id), e, q)) ∨
  (∃ j l1 l2, has_job q j ∧ job_ID j = id ∧
     topic_entries q (job_Topic j) = l1 ++ mkQueueEntry j :: l2 ∧
     Nack id t e q = (Ok tt, e, set_topic (job_Topic j)
                       (l1 ++ entry_with_lease t (mkQueueEntry j) :: l2) q)).
Proof.
  intros Hq. unfold Nack. munfold. destruct (index q !! id) as [ref|] eqn:Hid; [|by left]. right.
  destruct (index_has_job q id ref Hq Hid) as (j & i & Hj & Hjid & Ht & Hi & Hx). rewrite Hi.
  pose proof (take_drop_middle _ _ _ Hx) as Hsplit. rewrite <- Ht in *.
  exists j, (take i (topic_entries q (job_Topic j))), (drop (S i) (topic_entries q (job_Topic j))).
  split_and!; try done. by rewrite (alter_take_drop _ _ _ _ Hx).
Qed.

Lemma Nack_ok id t e q r e' q' :
  queue_ok q → Nack id t e q = (r, e', q') → queue_ok q' ∧ index q' = index q.
Proof.
  intros Hq Hd. destruct (Nack_cases id t e q Hq) as [[_ Heq]|(j & l1 & l2 & _ & _ & Hl & Heq)];
    rewrite Heq in Hd; simplify_eq; [done|].
  split; [|done]. apply queue_ok_update; [done|]. rewrite Hl.
  by apply Forall2_same_entry_middle.
Qed.

Lemma Ack_cases id e q :
  queue_ok q →
  (index q !! id = None ∧ Ack id e q = (Fail (NotFound "job" id), e, q)) ∨
  (∃ j l1 l2, has_job q j ∧ job_ID j = id ∧
     topic_entries q (job_Topic j) = l1 ++ mkQueueEntry j :: l2 ∧
     Ack id e q = (Ok tt, e, delete_index id (set_topic (job_Topic j) (l1 ++ l2) q))).
Proof.
  intros Hq. unfold Ack. munfold. destruct (index q !! id) as [ref|] eqn:Hid; [|by left]. right.
  destruct (index_has_job q id ref Hq Hid) as (j & i & Hj & Hjid & Ht & Hi & Hx). rewrite Hi.
  pose proof (take_drop_middle _ _ _ Hx) as Hsplit. rewrite <- Ht in *.
  exists j, (take i (topic_entries q (job_Topic j))), (drop (S i) (topic_entries q (job_Topic j))).
  split_and!; try done. by rewrite Nat.add_1_r.
Qed.

(** Removing an acknowledged job removes it and no other. *)
Lemma Ack_ok id e q r e' q' :
  queue_ok q → Ack id e q = (r, e', q') →
  queue_ok q' ∧ index q' = delete id (index q) ∧
  ∀ j, has_job q' j ↔ has_job q j ∧ job_ID j ≠ id.
Proof.
  intros Hq Hd. destruct (Ack_cases id e q Hq) as [[Hid Heq]|(j0 & l1 & l2 & Hj0 & Hid & Hl & Heq)];
    rewrite Heq in Hd; simplify_eq.
  { split_and!; [done|by rewrite delete_id|]. intros j. split; [|tauto]. intros Hj. split; [done|].
    intros <-. apply has_job_index in Hj; [congruence|done]. }
  set (t := job_Topic j0) in *. set (q' := delete_index _ _).
  assert (∀ t', topic_entries q' t' = if decide (t = t') then l1 ++ l2 else topic_entries q t')
    as Hent by (intros t'; apply topic_entries_set).
  assert (∀ t' x, x ∈ topic_entries q' t' ↔ x ∈ topic_entries q t' ∧ entry_id x ≠ job_ID j0) as Hin.
  { intros t' x. rewrite Hent. case_decide as Ht.
    - subst t'. pose proof (qok_nodup q Hq t) as Hn. unfold job_ids in Hn. rewrite Hl in Hn |- *.
      rewrite fmap_app, fmap_cons, <- Permutation_middle in Hn.
      apply NoDup_cons in Hn as [Hn _]. rewrite <- fmap_app in Hn.
      rewrite !elem_of_app, elem_of_cons. split.
      + intros Hx. split; [tauto|]. intros Heqx. apply Hn.
        change (entry_id (mkQueueEntry j0)) with (job_ID j0). rewrite <- Heqx.
        apply list_elem_of_fmap_2. by apply elem_of_app.
      + intros [[?|[->|?]] Hne]; auto. by destruct Hne.
    - split; [|tauto]. intros Hx. split; [done|]. intros Heqx.
      destruct (qok_entry q Hq _ _ Hx) as [_ Hi]. rewrite Heqx in Hi.
      rewrite (has_job_index q j0 Hq Hj0) in Hi. injection Hi as Hi. by destruct Ht. }
  split; [split|split].
  - intros t'. unfold job_ids. rewrite Hent. case_decide as Ht; [|apply qok_nodup, Hq]. subst t'.
    pose proof (qok_nodup q Hq t) as Hn. unfold job_ids in Hn. rewrite Hl in Hn.
    rewrite fmap_app, fmap_cons, <- Permutation_middle in Hn. apply NoDup_cons in Hn as [_ Hn].
    by rewrite fmap_app.
  - intros t' x [Hx Hne]%Hin. unfold q'. cbn. rewrite lookup_delete_ne by done.
    by apply qok_entry.
  - intros id ref. unfold q'. cbn. rewrite lookup_delete_Some. intros [Hne Hr].
    apply (qok_index q Hq) in Hr as (x & -> & Hx)%list_elem_of_fmap.
    apply list_elem_of_fmap_2, Hin. auto.
  - done.
  - intros j. unfold has_job. apply Hin.
Qed.

(** ** Every operation keeps the invariant *)

Lemma qcall_ok c e q r e' q' :
  queue_ok q → qcall c e q = (r, e', q') →
  (∀ id, r = QRString (Ok id) → index q !! id = None) →
  queue_ok q'.
Proof.
  intros Hq Hc Hf. destruct c; cbn [qcall] in Hc; apply fmapM_inv in Hc as (x & Hc & ->).
  - change (Enqueue topic payload e q = (x, e', q')) in Hc.
    pose proof (Enqueue_ok topic payload e q Hq) as He. cbv zeta in He. rewrite Hc in He.
    apply He. rewrite Enqueue_run in Hc. injection Hc as <- _ _. by apply Hf.
  - by eapply Dequeue_ok.
  - by eapply Ack_ok.
  - by eapply Nack_ok.
Qed.

(** ** Runs with fresh identifiers *)

(** The random identifiers a run returns are distinct and not in use before. *)
Definition enqueued_ids (rs : list QReply) : list string :=
  omap (λ r, match r with QRString (Ok id) => Some id | _ => None end) rs.

Definition fresh_run (q : Queue) (rs : list QReply) : Prop :=
  NoDup (enqueued_ids rs) ∧ ∀ id, id ∈ enqueued_ids rs → index q !! id = None.

Lemma qcall_env_le c e q r e' q' : qcall c e q = (r, e', q') → env_le e e'.
Proof.
  intros Hc. destruct c; cbn [qcall] in Hc; apply fmapM_inv in Hc as (x & Hc & _).
  - change (Enqueue topic payload e q = (x, e', q')) in Hc. rewrite Enqueue_run in Hc.
    simplify_eq. auto with flames.
  - change (Dequeue topic lease e q = (x, e', q')) in Hc.
    destruct (Dequeue_cases topic lease e q) as [(l1 & y & l2 & _ & _ & _ & Heq)|[_ Heq]];
      rewrite Heq in Hc; simplify_eq; auto with flames.
  - change (Ack id e q = (x, e', q')) in Hc. unfold Ack in Hc. munfold_in Hc.
    repeat (break_match_in Hc; munfold_in Hc); simplify_eq; auto with flames.
  - change (Nack id retryAt e q = (x, e', q')) in Hc. unfold Nack in Hc. munfold_in Hc.
    repeat (break_match_in Hc; munfold_in Hc); simplify_eq; auto with flames.
Qed.

Lemma run_queue_env_le cs e q rs e' q' : run_queue cs e q = (rs, e', q') → env_le e e'.
Proof.
  apply (run_all_ind _ (λ e1 _, env_le e e1)); [|done].
  intros c e1 q1 r e2 q2 _ Hle Hc. etrans; [done|]. by eapply qcall_env_le.
Qed.

(** The identifiers in use after a call: those before, one more when a job was
    enqueued, one less when one was acknowledged. *)
Lemma qcall_index c e q r e' q' id :
  queue_ok q → qcall c e q = (r, e', q') →
  is_Some (index q' !! id) → is_Some (index q !! id) ∨ r = QRString (Ok id).
Proof.
  intros Hq Hc. destruct c; cbn [qcall] in Hc; apply fmapM_inv in Hc as (x & Hc & ->).
  - change (Enqueue topic payload e q = (x, e', q')) in Hc. rewrite Enqueue_run in Hc.
    simplify_eq. cbn. rewrite lookup_insert. case_decide; [subst; auto|auto].
  - destruct (Dequeue_ok _ _ _ _ _ _ _ Hq Hc) as [_ ->]. auto.
  - destruct (Ack_ok _ _ _ _ _ _ Hq Hc) as (_ & -> & _).
    rewrite lookup_delete. case_decide; [intros [? ?]; done|auto].
  - destruct (Nack_ok _ _ _ _ _ _ _ Hq Hc) as [_ ->]. auto.
Qed.

Lemma fresh_run_cons c e q r e' q' rs :
  queue_ok q → qcall c e q = (r, e', q') → fresh_run q (r :: rs) →
  (∀ id, r = QRString (Ok id) → index q !! id = None) ∧ fresh_run q' rs.
Proof.
  intros Hq Hc [Hn Hf]. split.
  - intros id ->. apply Hf. left.
  - split.
    + unfold enqueued_ids in Hn. cbn in Hn. repeat case_match; try done.
      by apply NoDup_cons in Hn as [_ Hn].
    + intros id Hid. destruct (index q' !! id) as [ref|] eqn:E; [|done]. exfalso.
      destruct (qcall_index c e q r e' q' id Hq Hc) as [Hs| ->]; [by rewrite E| |].
      * rewrite Hf in Hs; [by destruct Hs|]. unfold enqueued_ids. cbn.
        repeat case_match; try done. by right.
      * cbn in Hn. by apply NoDup_cons in Hn as [Hn _].
Qed.

(** Induction over a run that keeps the invariant at hand and may use the
    environment at its end. *)
Lemma run_queue_ind (P : Env → Queue → Prop) (Q : Env → Env → Prop) (F R : QReply → Prop) cs :
  (∀ e1 e2 e3, env_le e1 e2 → env_le e2 e3 → Q e1 e3 → Q e1 e2 ∧ Q e2 e3) →
  (∀ c e q r e' q', c ∈ cs → queue_ok q → P e q → Q e e' → F r → qcall c e q = (r, e', q') →
     (∀ id, r = QRString (Ok id) → index q !! id = None) → P e' q' ∧ R r) →
  ∀ e q rs e' q', queue_ok q → P e q → fresh_run q rs → Forall F rs →
    run_queue cs e q = (rs, e', q') → Q e e' → queue_ok q' ∧ P e' q' ∧ Forall R rs.
Proof.
  intros HQ. induction cs as [|c cs IH]; intros Hstep e q rs e' q' Hq HP Hf HF Hrun Hqe.
  - unfold run_queue in Hrun. apply run_all_nil_inv in Hrun as (-> & -> & ->). auto.
  - apply run_all_cons_inv in Hrun as (r & rs0 & e1 & q1 & Hc & Hrun & ->).
    apply Forall_cons in HF as [Hr0 HF].
    destruct (fresh_run_cons _ _ _ _ _ _ _ Hq Hc Hf) as [Hr Hf1].
    pose proof (qcall_env_le _ _ _ _ _ _ Hc) as Hle1.
    pose proof (run_queue_env_le _ _ _ _ _ _ Hrun) as Hle2.
    destruct (HQ _ _ _ Hle1 Hle2 Hqe) as [Hqe1 Hqe2].
    destruct (Hstep c e q r e1 q1) as [HP1 HR]; try done; [left|].
    pose proof (qcall_ok _ _ _ _ _ _ Hq Hc Hr) as Hq1.
    destruct (IH (λ c' e q r e' q' Hin, Hstep c' e q r e' q' (list_elem_of_further _ _ _ Hin))
                e1 q1 rs0 e' q') as (? & ? & ?); try done. auto.
Qed.

(** A job known at the start of a fresh run is not enqueued again by it. *)
Lemma fresh_run_known q rs id :
  fresh_run q rs → is_Some (index q !! id) → Forall (λ r, r ≠ QRString (Ok id)) rs.
Proof.
  intros [_ Hf] [ref Href]. apply Forall_forall. intros r Hr ->.
  rewrite Hf in Href; [done|]. apply list_elem_of_omap. by exists (QRString (Ok id)).
Qed.
