(* ===== verification/MemQueueProps.v ===== *)
(** * What the in-memory WorkQueue guarantees to producers and workers

    Conservation of jobs over any run, first-available delivery, exclusive
    leases, at-least-once delivery, finality of acknowledgements and the
    redelivery time of negative ones. *)

From S2P Require Import Prelude GoLib Model ProviderErr Runtime State Queue MemQueue MemQueueTheory.

Local Open Scope string_scope.
Local Open Scope list_scope.
Local Open Scope nat_scope.

Lemma queue_ok_New : queue_ok New.
Proof.
  split.
  - intros t. constructor.
  - intros t e He. by apply not_elem_of_nil in He.
  - done.
Qed.

(** ** Conservation *)

(** What a run has enqueued: identifier, topic and payload of each job. *)
Definition enqueued (cs : list QCall) (rs : list QReply) : list (string * string * bytes) :=
  omap (λ cr, match cr with
              | (QEnqueue t p, QRString (Ok id)) => Some (id, t, slice_elems p)
              | _ => None
              end) (zip cs rs).

(** The identifiers a run has acknowledged. *)
Definition acked (cs : list QCall) (rs : list QReply) : list string :=
  omap (λ cr, match cr with (QAck id, QRUnit (Ok _)) => Some id | _ => None end) (zip cs rs).

Definition holds (q : Queue) (x : string * string * bytes) : Prop :=
  ∃ j, has_job q j ∧ x.1.1 = job_ID j ∧ x.1.2 = job_Topic j ∧ job_Payload j = Some x.2.

Lemma holds_replace q t l1 e e' l2 x :
  queue_ok q → topic_entries q t = l1 ++ e :: l2 → same_entry e e' →
  holds (set_topic t (l1 ++ e' :: l2) q) x ↔ holds q x.
Proof.
  intros Hq Ht He. pose proof He as (Hid & Htop & Hp & _).
  assert (has_job q (qe_job e)) as Hje by (eapply entry_has_job; [done|]; rewrite Ht; set_solver).
  unfold holds. split; intros (j & Hj & Hx).
  - apply (has_job_replace q t l1 e e' l2 j Hq Ht He) in Hj as [[Hj _]| ->]; [by exists j|].
    exists (qe_job e). unfold entry_id in Hid. by rewrite <- Hid, <- Htop, <- Hp.
  - destruct (decide (job_ID j = entry_id e)) as [Heq|Hne].
    + rewrite (has_job_unique q j (qe_job e)) in Hx by done. exists (qe_job e').
      rewrite (has_job_replace q t l1 e e' l2 _ Hq Ht He). unfold entry_id in Hid.
      rewrite Hid, Htop, Hp. auto.
    + exists j. by rewrite (has_job_replace q t l1 e e' l2 j Hq Ht He); auto.
Qed.

Lemma holds_call c e q r e' q' x :
  queue_ok q → qcall c e q = (r, e', q') →
  (∀ id, r = QRString (Ok id) → index q !! id = None) →
  holds q' x ↔ (holds q x ∧ x.1.1 ∉ acked [c] [r]) ∨ x ∈ enqueued [c] [r].
Proof.
  intros Hq Hc Hf. unfold acked, enqueued.
  destruct c; cbn [qcall] in Hc; apply fmapM_inv in Hc as (y & Hc & ->); cbn [zip_with omap list_omap].
  - change (Enqueue topic payload e q = (y, e', q')) in Hc.
    rewrite Enqueue_run in Hc. simplify_eq. rewrite list_elem_of_singleton.
    destruct (Enqueue_ok topic payload e q Hq (Hf _ eq_refl)) as [_ Hj].
    rewrite Enqueue_run in Hj. cbn in Hj. unfold holds. setoid_rewrite Hj. split.
    + intros (j & [Hjq| ->] & Hx1 & Hx2 & Hx3).
      * left. split; [by exists j|apply not_elem_of_nil].
      * right. destruct x as [[i t] p]. cbn in *. by simplify_eq.
    + intros [[(j & ? & ?) _]| ->]; [exists j; auto|].
      eexists. split; [by right|done].
  - change (Dequeue topic lease e q = (y, e', q')) in Hc.
    assert (holds q' x ↔ holds q x) as ->.
    { destruct (Dequeue_cases topic lease e q) as [(l1 & z & l2 & Ht & _ & _ & Heq)|[_ Heq]];
        rewrite Heq in Hc; simplify_eq; [|done].
      eapply holds_replace; [done|exact Ht|apply same_entry_leased]. }
    destruct y; rewrite ?elem_of_nil; tauto.
  - destruct (Ack_ok _ _ _ _ _ _ Hq Hc) as (_ & _ & Hj).
    destruct (Ack_cases id e q Hq) as [[Hid Heq]|(j0 & l1 & l2 & Hj0 & Hid & _ & Heq)];
      change (Ack id e q = (y, e', q')) in Hc; rewrite Heq in Hc; simplify_eq.
    + rewrite !elem_of_nil. tauto.
    + rewrite elem_of_nil, list_elem_of_singleton. unfold holds. setoid_rewrite Hj. split.
      * intros (j & [Hjq Hne] & Hx & ?). left. split; [by exists j|congruence].
      * intros [[(j & Hjq & Hx & Hr) Hne]|[]]. exists j. split; [split; [done|congruence]|done].
  - change (Nack id retryAt e q = (y, e', q')) in Hc.
    assert (holds q' x ↔ holds q x) as ->.
    { destruct (Nack_cases id retryAt e q Hq) as [[_ Heq]|(j & l1 & l2 & _ & _ & Hl & Heq)];
        rewrite Heq in Hc; simplify_eq; [done|]. by eapply holds_replace; [|exact Hl|]. }
    destruct y; rewrite ?elem_of_nil; tauto.
Qed.

Lemma enqueued_cons c cs r rs : enqueued (c :: cs) (r :: rs) = enqueued [c] [r] ++ enqueued cs rs.
Proof. unfold enqueued. cbn. by repeat case_match. Qed.

Lemma acked_cons c cs r rs : acked (c :: cs) (r :: rs) = acked [c] [r] ++ acked cs rs.
Proof. unfold acked. cbn. by repeat case_match. Qed.

Lemma enqueued_id_in cs rs x : x ∈ enqueued cs rs → x.1.1 ∈ enqueued_ids rs.
Proof.
  revert rs. induction cs as [|c cs IH]; intros [|r rs] Hx; try by apply not_elem_of_nil in Hx.
  rewrite enqueued_cons in Hx. apply elem_of_app in Hx as [Hx|Hx].
  - unfold enqueued in Hx. cbn in *. repeat case_match; simplify_eq; try by apply not_elem_of_nil in Hx.
    apply list_elem_of_singleton in Hx as ->. left.
  - apply IH in Hx. cbn. repeat case_match; try done. by right.
Qed.

Lemma acked_known c e q r e' q' id :
  queue_ok q → qcall c e q = (r, e', q') → id ∈ acked [c] [r] → is_Some (index q !! id).
Proof.
  intros Hq Hc Hid.
  destruct c as [| |i|]; try by apply not_elem_of_nil in Hid.
  destruct r as [| |[u|]]; try by apply not_elem_of_nil in Hid.
  apply list_elem_of_singleton in Hid as ->. cbn [qcall] in Hc.
  apply fmapM_inv in Hc as (y & Hc & [= <-]). change (Ack i e q = (Ok u, e', q')) in Hc.
  destruct (Ack_cases i e q Hq) as [[_ Heq]|(j & l1 & l2 & Hj & <- & _)]; [congruence|].
  rewrite (has_job_index q j Hq Hj). eauto.
Qed.

Lemma run_holds cs e q rs e' q' x :
  queue_ok q → fresh_run q rs → run_queue cs e q = (rs, e', q') →
  queue_ok q' ∧ (holds q' x ↔ (holds q x ∨ x ∈ enqueued cs rs) ∧ x.1.1 ∉ acked cs rs).
Proof.
  revert e q rs. induction cs as [|c cs IH]; intros e q rs Hq Hf Hrun.
  - unfold run_queue in Hrun. apply run_all_nil_inv in Hrun as (-> & -> & ->).
    split; [done|]. cbn. rewrite !elem_of_nil. tauto.
  - apply run_all_cons_inv in Hrun as (r & rs0 & e1 & q1 & Hc & Hrun & ->).
    destruct (fresh_run_cons _ _ _ _ _ _ _ Hq Hc Hf) as [Hr Hf1].
    destruct (IH e1 q1 rs0 (qcall_ok _ _ _ _ _ _ Hq Hc Hr) Hf1 Hrun) as [Hq' IHx].
    split; [done|]. rewrite IHx, enqueued_cons, acked_cons, !elem_of_app.
    rewrite (holds_call c e q r e1 q1 x Hq Hc Hr).
    (* an identifier acknowledged by this call is not enqueued later, nor by it *)
    assert (x ∈ enqueued cs rs0 → x.1.1 ∉ acked [c] [r]) as H1.
    { intros Hx Ha. destruct (acked_known _ _ _ _ _ _ _ Hq Hc Ha) as [ref Href].
      destruct Hf as [_ Hf]. rewrite Hf in Href; [done|].
      pose proof (enqueued_id_in cs rs0 x Hx). cbn. repeat case_match; try done. by right. }
    assert (x ∈ enqueued [c] [r] → x.1.1 ∉ acked [c] [r]) as H2.
    { destruct c, r as [[]|[]|[]]; unfold enqueued, acked; cbn; rewrite ?elem_of_nil; tauto. }
    tauto.
Qed.

(** C4: No job is lost, invented, duplicated or altered: after any sequence of calls on an
    empty queue in which the generated identifiers do not collide, the queue holds a job
    with a given identifier, topic and payload exactly when a call enqueued it and no
    successful [Ack] removed it, whatever was dequeued, expired or negatively acknowledged
    in between; and the index and the topics agree. *)
Theorem jobs_conserved cs e rs e' q' :
  run_queue cs e New = (rs, e', q') → NoDup (enqueued_ids rs) →
  queue_ok q' ∧
  ∀ id t p,
    (∃ j, has_job q' j ∧ job_ID j = id ∧ job_Topic j = t ∧ job_Payload j = Some p) ↔
    (id, t, p) ∈ enqueued cs rs ∧ id ∉ acked cs rs.
Proof.
  intros Hrun Hn. assert (fresh_run New rs) as Hf by done.
  split; [by apply (run_holds cs e New rs e' q' ("", "", []) queue_ok_New Hf Hrun)|].
  intros id t p.
  destruct (run_holds cs e New rs e' q' (id, t, p) queue_ok_New Hf Hrun) as [_ Hx].
  assert (holds New (id, t, p) → False) as Hnew.
  { intros (j & Hj & _). by apply not_elem_of_nil in Hj. }
  cbn [fst] in Hx. transitivity (holds q' (id, t, p)); [|rewrite Hx; tauto].
  unfold holds. split; intros (j & ? & ? & ? & ?); exists j; auto.
Qed.

Definition queue_calls : list QCall :=
  [QEnqueue "a" (Some [x01]); QEnqueue "a" None; QDequeue "a" Second; QEnqueue "b" (Some [x02]);
   QAck (test_id 0); QNack (test_id 1) 5%Z; QDequeue "a" Second; QAck "unknown"].

Lemma jobs_conserved_witness :
  let o := run_queue queue_calls test_env New in
  queue_ok (state_after o) ∧
  ∀ id t p,
    (∃ j, has_job (state_after o) j ∧ job_ID j = id ∧ job_Topic j = t ∧ job_Payload j = Some p) ↔
    (id, t, p) ∈ [(test_id 0, "a", [x01]); (test_id 1, "a", []); (test_id 2, "b", [x02])] ∧
    id ∉ [test_id 0].
Proof.
  apply (jobs_conserved queue_calls test_env _ _ _ (outcome_eta _)).
  apply (bool_decide_unpack _). vm_compute. exact I.
Defined.

(** ** Delivery *)

(** [Dequeue] hands out the oldest job of its own topic that is available - never
    leased, or its lease expired before now - with a lease until now plus the timeout and
    its delivery count one higher (wrapping at 64 bits), and changes no other job, no other
    topic and not the index; it fails with [ErrNoJobs], changing nothing, exactly when no
    job of the topic is available. *)
Theorem Dequeue_first_available t d e q :
  let '(r, e', q') := Dequeue t d e q in
  let now := now_of e in
  match r with
  | Ok j =>
      ∃ l1 j0 l2,
        topic_entries q t = l1 ++ mkQueueEntry j0 :: l2 ∧
        Forall (λ x, ¬ available now (qe_job x)) l1 ∧ available now j0 ∧
        j = mkJob (job_ID j0) (job_Topic j0) (job_Payload j0) (now + d)%Z (job_EnqueuedAt j0)
              (wrap64 (job_DequeueCount j0 + 1)) ∧
        topic_entries q' t = l1 ++ mkQueueEntry j :: l2
  | Fail err => err = as_error ErrNoJobs ∧ q' = q ∧
      Forall (λ x, ¬ available now (qe_job x)) (topic_entries q t)
  end ∧
  (∀ t', t' ≠ t → topic_entries q' t' = topic_entries q t') ∧ index q' = index q.
Proof.
  destruct (Dequeue_cases t d e q) as [(l1 & [j0] & l2 & Ht & Hl1 & Hj & ->)|[Hall ->]]; [|done].
  split_and!; [|intros t' Hne|done].
  - exists l1, j0, l2. split_and!; try done. rewrite topic_entries_set. by rewrite decide_True.
  - rewrite topic_entries_set. by rewrite decide_False.
Qed.

(** The leases of the job [id] all run at least until [T]. *)
Definition leased_until (T : Time) (id : string) (q : Queue) : Prop :=
  ∀ j, has_job q j → job_ID j = id → (T ≤ job_LeaseExpiresAt j)%Z.

(** Between two instants of a run the clock reads at most [T]. *)
Definition reads_at_most (T : Time) (e e' : Env) : Prop :=
  ∀ i, ticks e ≤ i < ticks e' → (0 < clock e i ≤ T)%Z.

Lemma reads_at_most_split T e1 e2 e3 :
  env_le e1 e2 → env_le e2 e3 → reads_at_most T e1 e3 →
  reads_at_most T e1 e2 ∧ reads_at_most T e2 e3.
Proof.
  intros (Hc1 & _ & _ & ? & _) (Hc2 & _ & _ & ? & _) Hr. split.
  - intros i Hi. apply Hr. lia.
  - intros i Hi. rewrite Hc1. apply Hr. lia.
Qed.


Lemma leased_until_replace T id q t l1 e e' l2 :
  queue_ok q → topic_entries q t = l1 ++ e :: l2 → same_entry e e' →
  (entry_id e = id → (T ≤ job_LeaseExpiresAt (qe_job e'))%Z) →
  leased_until T id q → leased_until T id (set_topic t (l1 ++ e' :: l2) q).
Proof.
  intros Hq Ht He HT Hl j Hj Hid.
  apply (has_job_replace q t l1 e e' l2 j Hq Ht He) in Hj as [[Hj _]| ->]; [by apply Hl|].
  apply HT. destruct He as [Heid _]. unfold entry_id in *. congruence.
Qed.

(** While its lease runs a job is not handed out, and its lease is not shortened
    except by a negative acknowledgement of that job. *)
Lemma qcall_leased T id c e q r e' q' :
  (∀ t, c ≠ QNack id t) → queue_ok q → leased_until T id q → reads_at_most T e e' →
  r ≠ QRString (Ok id) → qcall c e q = (r, e', q') →
  (∀ i, r = QRString (Ok i) → index q !! i = None) →
  leased_until T id q' ∧ ¬ delivers id r.
Proof.
  intros Hn Hq Hl Hreads Hr Hc Hf.
  destruct c; cbn [qcall] in Hc; apply fmapM_inv in Hc as (y & Hc & ->).
  - change (Enqueue topic payload e q = (y, e', q')) in Hc. rewrite Enqueue_run in Hc.
    simplify_eq. split; [|by intros []]. intros j Hj Hid.
    destruct (Enqueue_ok topic payload e q Hq (Hf _ eq_refl)) as [_ Hjs].
    rewrite Enqueue_run in Hjs. apply Hjs in Hj as [Hj| ->]; [by apply Hl|].
    cbn in Hid. by rewrite Hid in Hr.
  - change (Dequeue topic lease e q = (y, e', q')) in Hc.
    destruct (Dequeue_cases topic lease e q) as [(l1 & x & l2 & Ht & _ & Hx & Heq)|[_ Heq]];
      rewrite Heq in Hc; simplify_eq; [|by split; [|intros []]].
    assert (has_job q (qe_job x)) as Hjx by (eapply entry_has_job; [done|]; rewrite Ht; set_solver).
    assert (entry_id x ≠ id) as Hne.
    { intros Hid. specialize (Hl _ Hjx Hid). destruct (Hreads (ticks e)) as [? ?]; [cbn; lia|].
      unfold available, now_of, zero_time in Hx. lia. }
    split; [|exact Hne]. by eapply leased_until_replace; [done|exact Ht|apply same_entry_leased| |].
  - split; [|by intros []]. intros j Hj Hid.
    destruct (Ack_ok _ _ _ _ _ _ Hq Hc) as (_ & _ & Hjs). apply Hjs in Hj as [Hj _]. by apply Hl.
  - split; [|by intros []]. change (Nack id0 retryAt e q = (y, e', q')) in Hc.
    destruct (Nack_cases id0 retryAt e q Hq) as [[_ Heq]|(j & l1 & l2 & Hj & Hjid & Ht & Heq)];
      rewrite Heq in Hc; simplify_eq; [done|].
    eapply leased_until_replace; [done|exact Ht|done| |done].
    intros Hid. cbn in Hid. subst. by destruct (Hn retryAt).
Qed.

(** A job whose leases run until [T] is not handed out by a run that reads the
    clock no later than that, unless it is negatively acknowledged. *)
Lemma leased_run T id cs e q rs e' q' :
  queue_ok q → leased_until T id q → is_Some (index q !! id) →
  run_queue cs e q = (rs, e', q') → fresh_run q rs → (∀ t', QNack id t' ∉ cs) → reads_at_most T e e' →
  Forall (λ r, ¬ delivers id r) rs.
Proof.
  intros Hq Hl Hid Hrun Hf Hn Hreads.
  refine (proj2 (proj2 (run_queue_ind (λ _ q, leased_until T id q) (reads_at_most T) (λ r, r ≠ QRString (Ok id))
    (λ r, ¬ delivers id r) cs (reads_at_most_split _) _ _ _ _ _ _ Hq Hl Hf _ Hrun Hreads))).
  - intros c e2 q2 r e3 q3 Hc Hq2 Hl2 Hreads2 Hr Hcall Hf2.
    apply (qcall_leased _ _ c e2 q2 r e3 q3); try done. intros t' ->. by apply (Hn t').
  - by apply (fresh_run_known _ _ _ Hf).
Qed.

(** C11: Leases are exclusive: after [Dequeue] hands out a job with a lease until T, no call
    of any worker that reads the clock no later than T hands out that job again, unless the
    job is negatively acknowledged in between. *)
Theorem lease_exclusive t d e q j e1 q1 cs rs e' q' :
  queue_ok q → Dequeue t d e q = (Ok j, e1, q1) →
  run_queue cs e1 q1 = (rs, e', q') → fresh_run q1 rs →
  (∀ t', QNack (job_ID j) t' ∉ cs) →
  reads_at_most (job_LeaseExpiresAt j) e1 e' →
  Forall (λ r, ¬ delivers (job_ID j) r) rs.
Proof.
  intros Hq Hd Hrun Hf Hn Hreads.
  destruct (Dequeue_ok t d e q _ _ _ Hq Hd) as [Hq1 _].
  destruct (Dequeue_cases t d e q) as [(l1 & x & l2 & Ht & _ & _ & Heq)|[_ Heq]];
    rewrite Heq in Hd; [|done]. injection Hd as <- <- <-.
  set (j := leased (now_of e) d (qe_job x)) in *.
  assert (has_job (set_topic t (l1 ++ mkQueueEntry j :: l2) q) j) as Hj.
  { apply (has_job_replace q t l1 x (mkQueueEntry j) l2 j Hq Ht (same_entry_leased _ _ _)). by right. }
  refine (leased_run (job_LeaseExpiresAt j) (job_ID j) cs _ _ rs e' q' Hq1 _ _ Hrun Hf Hn Hreads).
  - intros j' Hj' Hid. by rewrite (has_job_unique _ j' j Hq1 Hj' Hj Hid).
  - rewrite (has_job_index _ j Hq1 Hj). eauto.
Qed.

(** The readings of the concrete clock up to the [n]-th one. *)
Lemma test_env_reads n T e e' :
  clock e = clock test_env → (ticks e' <=? n)%nat = true → (clock test_env n ≤ T)%Z →
  reads_at_most T e e'.
Proof.
  intros Hc Hn HT i Hi. apply Nat.leb_le in Hn. rewrite Hc. cbn in *. lia.
Qed.

(** The queue after two jobs were enqueued on a topic. *)
Definition two_jobs : Env * Queue :=
  let o := run_queue [QEnqueue "a" (Some [x01]); QEnqueue "a" (Some [x02])] test_env New in
  (env_after o, state_after o).

Lemma two_jobs_ok : queue_ok two_jobs.2.
Proof.
  refine (proj1 (run_holds [QEnqueue "a" (Some [x01]); QEnqueue "a" (Some [x02])]
            test_env New _ _ _ ("", "", []) queue_ok_New _ (outcome_eta _))).
  split; [apply (bool_decide_unpack _); vm_compute; exact I|]. intros id _. apply lookup_empty.
Qed.

Definition worker_calls : list QCall :=
  [QDequeue "a" Second; QNack (test_id 1) 7%Z; QDequeue "a" Second; QDequeue "a" 0%Z].

Lemma lease_exclusive_witness :
  let o := Dequeue "a" (1000 * Second)%Z two_jobs.1 two_jobs.2 in
  let o' := run_queue worker_calls (env_after o) (state_after o) in
  Forall (λ r, ¬ delivers (test_id 0) r) (result o').
Proof.
  pose (j := mkJob (test_id 0) "a" (Some [x01]) 1000001002000%Z 1000000%Z 1%Z).
  refine (lease_exclusive "a" (1000 * Second)%Z two_jobs.1 two_jobs.2 j _ _ worker_calls _ _ _
            two_jobs_ok _ (outcome_eta _) _ _ _).
  - rewrite (outcome_eta (Dequeue _ _ _ _)). f_equal.
  - split; [vm_compute; constructor|]. intros id Hid. by apply not_elem_of_nil in Hid.
  - intros t'. unfold worker_calls. rewrite !not_elem_of_cons.
    split_and!; try discriminate. apply not_elem_of_nil.
  - apply test_env_reads with 8; [reflexivity|vm_compute; reflexivity|vm_compute; discriminate].
Defined.

(** ** At-least-once delivery *)

(** The entries whose lease ends before [T]: those a dequeue may hand out by then. *)
Definition open_before (T : Time) (l : list queueEntry) : list queueEntry :=
  filterb (λ x, (job_LeaseExpiresAt (qe_job x) <? T)%Z) l.

Lemma open_before_lease T l1 x y l2 :
  (job_LeaseExpiresAt (qe_job x) < T ≤ job_LeaseExpiresAt (qe_job y))%Z →
  length (open_before T (l1 ++ x :: l2)) = S (length (open_before T (l1 ++ y :: l2))).
Proof.
  intros [Hx Hy]. unfold open_before. rewrite !filterb_app. cbn [filterb].
  apply Z.ltb_lt in Hx as ->. apply Z.ltb_ge in Hy as ->.
  rewrite !length_app. cbn. lia.
Qed.

Lemma available_mono now now' j : (now ≤ now')%Z → available now j → available now' j.
Proof. unfold available. lia. Qed.

Lemma dequeue_until_delivered T d t n l1 j l2 e q rs e' q' :
  clock_ok e → topic_entries q t = l1 ++ mkQueueEntry j :: l2 → available (now_of e) j →
  length (open_before T l1) ≤ n →
  (∀ i, i ≤ n → (clock e (ticks e + i)%nat ≤ T)%Z) → (T ≤ now_of e + d)%Z →
  run_queue (replicate (S n) (QDequeue t d)) e q = (rs, e', q') →
  Exists (delivers (job_ID j)) rs.
Proof.
  revert l1 l2 e q rs. induction n as [|n IH]; intros l1 l2 e q rs Hok Ht Hj Hlen HT Hd Hrun.
  all: apply run_all_cons_inv in Hrun as (r & rs0 & e1 & q1 & Hc & Hrun & ->).
  all: cbn [qcall] in Hc; apply fmapM_inv in Hc as (y & Hc & ->).
  all: change (Dequeue t d e q = (y, e1, q1)) in Hc.
  all: pose proof (HT 0 ltac:(lia)) as HT0; rewrite Nat.add_0_r in HT0.
  all: pose proof (now_of_pos e Hok) as Hpos.
  all: destruct (Dequeue_cases t d e q) as [(k1 & x & k2 & Hk & Hk1 & Hx & Heq)|[Hall _]];
    [|rewrite Ht in Hall; apply Forall_app in Hall as [_ Hall];
      apply Forall_cons in Hall as [Hall _]; by destruct Hall].
  all: rewrite Heq in Hc; injection Hc as <- <- <-; rewrite Hk in Ht.
  all: destruct (app_cons_split _ _ _ _ _ _ Ht) as [[m ->]|[(-> & -> & ->)|[m [-> ->]]]];
    [|left; done|apply Forall_app in Hk1 as [_ Hk1];
      apply Forall_cons in Hk1 as [Hk1 _]; by destruct Hk1].
  all: assert (job_LeaseExpiresAt (qe_job x) < T)%Z as HxT
    by (unfold available, zero_time, now_of in *; lia).
  all: rewrite (open_before_lease T k1 x (mkQueueEntry (leased (now_of e) d (qe_job x))) m)
    in Hlen by (cbn; lia).
  - lia.
  - right. rewrite <- app_assoc in Ht. cbn in Ht. apply app_inv_head in Ht. injection Ht as ->.
    assert (now_of e ≤ now_of (env_tick e))%Z as Hmono by (apply now_of_le; auto with flames).
    eapply (IH (k1 ++ mkQueueEntry (leased (now_of e) d (qe_job x)) :: m) l2 (env_tick e)); try done.
    + rewrite topic_entries_set, decide_True, <- app_assoc by done. done.
    + by eapply available_mono.
    + lia.
    + intros i Hi. cbn. rewrite <- Nat.add_succ_r. apply HT. lia.
    + lia.
Qed.

(** C22: At-least-once delivery: a job that is available - in particular one whose worker
    vanished and whose lease has expired - with k jobs before it in its topic is handed out
    by one of the next k+1 dequeues of the topic, provided the leases these take run until
    the last of them. *)
Theorem at_least_once t d k j e q rs e' q' :
  clock_ok e →
  topic_entries q t !! k = Some (mkQueueEntry j) → available (now_of e) j →
  (∀ i, i ≤ k → (clock e (ticks e + i)%nat ≤ now_of e + d)%Z) →
  run_queue (replicate (S k) (QDequeue t d)) e q = (rs, e', q') →
  Exists (delivers (job_ID j)) rs.
Proof.
  intros Hok Hk Hj HT Hrun. pose proof (take_drop_middle _ _ _ Hk) as Hsplit.
  eapply (dequeue_until_delivered (now_of e + d)%Z d t k (take k (topic_entries q t)) j
            (drop (S k) (topic_entries q t))); try done.
  unfold open_before. etrans; [apply sublist_length, filterb_sublist|].
  rewrite length_take. lia.
Qed.

Lemma at_least_once_witness :
  let o := Dequeue "a" 500%Z two_jobs.1 two_jobs.2 in
  let o' := run_queue (replicate 2 (QDequeue "a" Second)) (env_after o) (state_after o) in
  Exists (delivers (test_id 1)) (result o').
Proof.
  pose (j := mkJob (test_id 1) "a" (Some [x02]) 0%Z 1001000%Z 0%Z).
  refine (at_least_once "a" Second 1 j _ _ _ _ _ _ _ _ _ (outcome_eta _)).
  - exact test_env_clock_ok.
  - vm_compute. reflexivity.
  - by left.
  - intros [|[|i]] Hi; [vm_compute; discriminate..|lia].
Defined.

(** ** Acknowledgements *)

Lemma qcall_unknown id c e q r e' q' :
  queue_ok q → index q !! id = None → r ≠ QRString (Ok id) → qcall c e q = (r, e', q') →
  index q' !! id = None ∧ ¬ delivers id r.
Proof.
  intros Hq Hid Hr Hc. split.
  - destruct (index q' !! id) as [ref|] eqn:E; [|done].
    destruct (qcall_index c e q r e' q' id Hq Hc) as [[? ?]|?]; [by rewrite E|congruence|done].
  - intros Hdel. destruct c; cbn [qcall] in Hc; apply fmapM_inv in Hc as (y & Hc & ->); try done.
    change (Dequeue topic lease e q = (y, e', q')) in Hc.
    destruct (Dequeue_cases topic lease e q) as [(l1 & x & l2 & Ht & _ & _ & Heq)|[_ Heq]];
      rewrite Heq in Hc; injection Hc as <- _ _; [|done].
    assert (x ∈ topic_entries q topic) as Hx by (rewrite Ht; set_solver).
    destruct (qok_entry q Hq _ _ Hx) as [_ Hi]. cbn in Hdel. unfold entry_id in Hi. congruence.
Qed.

(** C23: A successful acknowledgement is final: whatever is called afterwards, the job is
    never handed out again, its identifier is unknown at the end, and acknowledging or
    negatively acknowledging it then fails with [ErrNotFound] and changes nothing. *)
Theorem ack_final id e q e1 q1 cs rs e' q' :
  queue_ok q → Ack id e q = (Ok tt, e1, q1) →
  run_queue cs e1 q1 = (rs, e', q') → fresh_run q1 rs → id ∉ enqueued_ids rs →
  Forall (λ r, ¬ delivers id r) rs ∧
  (∀ e2 retryAt, Ack id e2 q' = (Fail (NotFound "job" id), e2, q') ∧
                 Nack id retryAt e2 q' = (Fail (NotFound "job" id), e2, q')).
Proof.
  intros Hq Hack Hrun Hf Hid. destruct (Ack_ok _ _ _ _ _ _ Hq Hack) as (Hq1 & Hi & _).
  destruct (run_queue_ind (λ _ q, index q !! id = None) (λ _ _, True)
              (λ r, r ≠ QRString (Ok id)) (λ r, ¬ delivers id r) cs) with e1 q1 rs e' q'
    as (_ & Hlast & Hall); try done.
  - intros c e2 q2 r e3 q3 _ Hq2 Hi2 _ Hr Hc _. by eapply qcall_unknown.
  - rewrite Hi. apply lookup_delete_eq.
  - apply Forall_forall. intros r Hr ->. apply Hid, list_elem_of_omap. by exists (QRString (Ok id)).
  - split; [done|]. intros e2 retryAt. unfold Ack, Nack. munfold. by rewrite Hlast.
Qed.

Lemma ack_final_witness :
  let o := Ack (test_id 0) two_jobs.1 two_jobs.2 in
  let o' := run_queue [QDequeue "a" 0%Z; QAck (test_id 0); QDequeue "a" 0%Z] (env_after o)
              (state_after o) in
  Forall (λ r, ¬ delivers (test_id 0) r) (result o') ∧
  result (Ack (test_id 0) (env_after o') (state_after o')) = Fail (NotFound "job" (test_id 0)).
Proof.
  destruct (ack_final (test_id 0) two_jobs.1 two_jobs.2 two_jobs.1
    (state_after (Ack (test_id 0) two_jobs.1 two_jobs.2))
    [QDequeue "a" 0%Z; QAck (test_id 0); QDequeue "a" 0%Z] _ _ _ two_jobs_ok
    ltac:(reflexivity) (outcome_eta _)) as [H1 H2].
  - split; [vm_compute; constructor|]. intros id Hid. by apply not_elem_of_nil in Hid.
  - vm_compute. apply not_elem_of_nil.
  - split; [exact H1|]. by rewrite (proj1 (H2 _ 0%Z)).
Defined.

(** C36: A negative acknowledgement reschedules its job: when it succeeds it keeps the job's
    identity, payload, delivery count and place in its topic and changes no other job; no run
    of calls that reads the clock no later than [retryAt] hands the job out, unless it is
    negatively acknowledged again; and a dequeue of its topic strictly after [retryAt] (at any
    time for the zero time) hands out exactly this job, with a new lease and its delivery
    count one higher, when no job before it in the topic is available. *)
Theorem nack_retry id t e q e' q' :
  queue_ok q → Nack id t e q = (Ok tt, e', q') →
  ∃ j l1 l2, has_job q j ∧ job_ID j = id ∧
    topic_entries q (job_Topic j) = l1 ++ mkQueueEntry j :: l2 ∧
    let j' := mkJob id (job_Topic j) (job_Payload j) t (job_EnqueuedAt j) (job_DequeueCount j) in
    (∀ k, has_job q' k ↔ (has_job q k ∧ job_ID k ≠ id) ∨ k = j') ∧
    (∀ t', job_ids q' t' = job_ids q t') ∧
    (∀ cs rs e2 q2, run_queue cs e' q' = (rs, e2, q2) → fresh_run q' rs → (∀ t', QNack id t' ∉ cs) →
       reads_at_most t e' e2 → Forall (λ r, ¬ delivers id r) rs) ∧
    (∀ e2 d, (t = zero_time ∨ t < now_of e2)%Z →
       Forall (λ x, job_LeaseExpiresAt (qe_job x) ≠ zero_time ∧ (now_of e2 ≤ job_LeaseExpiresAt (qe_job x))%Z) l1 →
       result (Dequeue (job_Topic j) d e2 q') =
       Ok (mkJob id (job_Topic j) (job_Payload j) (now_of e2 + d)%Z (job_EnqueuedAt j)
             (wrap64 (job_DequeueCount j + 1)))).
Proof.
  intros Hq Hn. destruct (Nack_cases id t e q Hq) as [[_ Heq]|(j & l1 & l2 & Hj & <- & Ht & Heq)];
    rewrite Heq in Hn; [done|]. injection Hn as <- <-.
  exists j, l1, l2. split; [done|]. split; [done|]. split; [done|]. intros j'.
  set (q' := set_topic _ _ q).
  assert (∀ k, has_job q' k ↔ (has_job q k ∧ job_ID k ≠ job_ID j) ∨ k = j') as Hjobs
    by (intros k; by apply (has_job_replace q _ l1 (mkQueueEntry j) (entry_with_lease t (mkQueueEntry j)) l2 k Hq Ht)).
  assert (queue_ok q') as Hq'.
  { apply queue_ok_update; [done|]. rewrite Ht. by apply Forall2_same_entry_middle. }
  split_and!; [done| | |].
  - intros t'. unfold job_ids, q'. rewrite topic_entries_set. case_decide as Hd; [|done].
    subst t'. rewrite Ht, !fmap_app. done.
  - intros cs rs e2 q2 Hrun Hf Hnn Hreads.
    apply (leased_run t (job_ID j) cs e q' rs e2 q2 Hq'); try done.
    + intros k [[_ Hne]| ->]%Hjobs Hk; [done|cbn; lia].
    + unfold q'. cbn. rewrite (has_job_index _ j Hq Hj). eauto.
  - intros e2 d Hav Hl1.
    assert (topic_entries q' (job_Topic j) = l1 ++ mkQueueEntry j' :: l2) as Ht'
      by (unfold q'; by rewrite topic_entries_set, decide_True).
    assert (Forall (λ x, ¬ available (now_of e2) (qe_job x)) l1) as Hl1'
      by (eapply Forall_impl; [exact Hl1|]; intros x [Hz Hx]; unfold available; cbn; lia).
    unfold result, Dequeue. munfold. cbv [time_Now]. rewrite Ht'.
    rewrite (proj2 (Dequeue_loop_Some (now_of e2) d (l1 ++ mkQueueEntry j' :: l2) (leased (now_of e2) d j')
               (l1 ++ mkQueueEntry (leased (now_of e2) d j') :: l2))); [done|].
    exists l1, (mkQueueEntry j'), l2. by split_and!.
Qed.

Lemma nack_retry_witness :
  let q' := state_after (Nack (test_id 1) 1002000%Z two_jobs.1 two_jobs.2) in
  ∃ j l1 l2, has_job two_jobs.2 j ∧ job_ID j = test_id 1 ∧
    topic_entries two_jobs.2 (job_Topic j) = l1 ++ mkQueueEntry j :: l2 ∧
    let j' := mkJob (test_id 1) (job_Topic j) (job_Payload j) 1002000%Z (job_EnqueuedAt j)
                (job_DequeueCount j) in
    (∀ k, has_job q' k ↔ (has_job two_jobs.2 k ∧ job_ID k ≠ test_id 1) ∨ k = j') ∧
    (∀ t', job_ids q' t' = job_ids two_jobs.2 t').
Proof.
  destruct (nack_retry (test_id 1) 1002000%Z two_jobs.1 two_jobs.2 two_jobs.1 _ two_jobs_ok eq_refl)
    as (j & l1 & l2 & H1 & H2 & H3 & H4 & H5 & _).
  exists j, l1, l2. exact (conj H1 (conj H2 (conj H3 (conj H4 H5)))).
Defined.
