(* ===== verification/QueueRefine.v ===== *)
(** * The work queue as one list of jobs

    What a [WorkQueue] promises, as the simplest queue there is: one list of
    jobs in the order they were enqueued, without topics and without an
    index.  The in-memory queue refines it: every sequence of calls gets the
    same replies from both. *)

From S2P Require Import Prelude GoLib Model ProviderErr Runtime State Queue MemQueue MemQueueTheory MemQueueProps.

Local Open Scope string_scope.
Local Open Scope list_scope.

(** ** The abstract queue *)

Record JobList := mkJobList { jobs : list Job }.

(** The first job that satisfies [p], updated by [f], and the list after the update. *)
Fixpoint update_first (p : Job → bool) (f : Job → Job) (l : list Job) : option (Job * list Job) :=
  match l with
  | [] => None
  | j :: l => if p j then Some (f j, f j :: l)
              else match update_first p f l with Some (x, l) => Some (x, j :: l) | None => None end
  end.

Definition in_topic (t : string) (j : Job) : bool := bool_decide (job_Topic j = t).
Definition has_id (id : string) (j : Job) : bool := bool_decide (job_ID j = id).

Definition list_Enqueue (t : string) (payload : Slice byte) : M JobList (Res string) :=
  id <- newID ;;
  now <- time_Now ;;
  modify (λ s, mkJobList (jobs s ++ [new_job id t payload now])) ;;;
  ret (Ok id).

Definition list_Dequeue (t : string) (d : Duration) : M JobList (Res Job) :=
  now <- time_Now ;;
  s <- get ;;
  match update_first (λ j, in_topic t j && bool_decide (available now j)) (leased now d) (jobs s) with
  | Some (j, l) => put (mkJobList l) ;;; ret (Ok j)
  | None => ret (Fail (as_error ErrNoJobs))
  end.

Definition list_Ack (id : string) : M JobList (Res ()) :=
  s <- get ;;
  if existsb (has_id id) (jobs s)
  then put (mkJobList (filterb (λ j, negb (has_id id j)) (jobs s))) ;;; ret (Ok tt)
  else ret (Fail (NotFound "job" id)).

Definition list_Nack (id : string) (t : Time) : M JobList (Res ()) :=
  s <- get ;;
  match update_first (has_id id) (λ j, job_with_LeaseExpiresAt j t) (jobs s) with
  | Some (_, l) => put (mkJobList l) ;;; ret (Ok tt)
  | None => ret (Fail (NotFound "job" id))
  end.

#[export] Instance job_list : WorkQueue JobList := {|
  Queue.Enqueue := list_Enqueue;
  Queue.Dequeue := list_Dequeue;
  Queue.Ack := list_Ack;
  Queue.Nack := list_Nack;
|}.

(** ** Updates of the first match *)

Lemma update_first_Some p f l j l' :
  update_first p f l = Some (j, l') →
  ∃ l1 x l2, l = l1 ++ x :: l2 ∧ Forall (λ y, p y = false) l1 ∧ p x = true ∧ j = f x ∧ l' = l1 ++ f x :: l2.
Proof.
  revert l'. induction l as [|y l IH]; intros l'; cbn [update_first]; [done|].
  destruct (p y) eqn:Hy; [intros [= <- <-]; by exists [], y, l|].
  destruct (update_first p f l) as [[x l0]|]; [|done]. intros [= -> <-].
  destruct (IH _ eq_refl) as (l1 & x & l2 & -> & Hl1 & Hx & -> & ->).
  exists (y :: l1), x, l2. split_and!; try done. by constructor.
Qed.

Lemma update_first_None p f l : update_first p f l = None → Forall (λ y, p y = false) l.
Proof.
  induction l as [|y l IH]; cbn [update_first]; [constructor|].
  destruct (p y) eqn:Hy; [done|]. destruct (update_first p f l) as [[x l0]|]; [done|]. auto.
Qed.

Lemma filterb_middle {A} (p : A → bool) l1 x l2 :
  filterb p (l1 ++ x :: l2) = filterb p l1 ++ (if p x then x :: filterb p l2 else filterb p l2).
Proof. rewrite filterb_app. cbn. by destruct (p x). Qed.

Lemma filterb_filterb {A} (p q : A → bool) l :
  filterb p (filterb q l) = filterb q (filterb p l).
Proof.
  induction l as [|x l IH]; [done|]. cbn. destruct (p x) eqn:Hp, (q x) eqn:Hq; cbn; by rewrite ?Hp, ?Hq, IH.
Qed.

Lemma filterb_fmap {A B} (p : B → bool) (f : A → B) l : filterb p (f <$> l) = f <$> filterb (λ x, p (f x)) l.
Proof. induction l as [|x l IH]; [done|]. cbn. rewrite IH. by destruct (p (f x)). Qed.

(** A list has one split at the first element of a kind. *)
Lemma split_unique {A} (P : A → Prop) l1 x l2 k1 y k2 :
  l1 ++ x :: l2 = k1 ++ y :: k2 → Forall (λ z, ¬ P z) l1 → Forall (λ z, ¬ P z) k1 → P x → P y →
  l1 = k1 ∧ x = y ∧ l2 = k2.
Proof.
  intros H Hl Hk Hx Hy. apply app_cons_split in H as [[m ->]|[?|[m [-> _]]]]; [|done|].
  - apply Forall_app in Hk as [_ Hk]. by apply Forall_cons in Hk as [? _].
  - apply Forall_app in Hl as [_ Hl]. by apply Forall_cons in Hl as [? _].
Qed.

Lemma Forall_filterb {A} (P : A → Prop) (p : A → bool) l : Forall P l → Forall P (filterb p l).
Proof. rewrite !Forall_forall. intros Hl x [Hx _]%elem_of_filterb. by apply Hl. Qed.

(** ** The simulation *)

(** The topics are what the list holds of them, in its order. *)
Record sim (q : Queue) (s : JobList) : Prop := {
  sim_ok : queue_ok q;
  sim_topic t : filterb (in_topic t) (jobs s) = qe_job <$> topic_entries q t;
}.

Lemma list_sim_New : sim New (mkJobList []).
Proof. split; [apply queue_ok_New|done]. Qed.

Lemma sim_has_job q s j : sim q s → j ∈ jobs s ↔ has_job q j.
Proof.
  intros [_ Ht]. specialize (Ht (job_Topic j)). unfold has_job.
  transitivity (j ∈ filterb (in_topic (job_Topic j)) (jobs s)).
  - rewrite elem_of_filterb. unfold in_topic. rewrite bool_decide_eq_true. tauto.
  - rewrite Ht, list_elem_of_fmap. split.
    + by intros ([x] & -> & Hx).
    + intros Hj. by exists (mkQueueEntry j).
Qed.

(** A known identifier is that of exactly one job of the list. *)
Lemma sim_index q s id ref :
  sim q s → index q !! id = Some ref → ∃ j, j ∈ jobs s ∧ job_ID j = id ∧ job_Topic j = tr_topic ref.
Proof.
  intros Hs Hid. destruct (index_has_job q id ref (sim_ok _ _ Hs) Hid) as (j & _ & Hj & Hjid & Ht & _).
  exists j. by rewrite (sim_has_job q s).
Qed.

Lemma sim_unknown q s id j : sim q s → index q !! id = None → j ∈ jobs s → job_ID j ≠ id.
Proof.
  intros Hs Hid Hj <-. apply (sim_has_job q s) in Hj; [|done].
  apply has_job_index in Hj; [congruence|apply Hs].
Qed.

(** Replacing the first job that matches by another version of it, on both sides. *)
Lemma sim_replace q s l1 x y l2 t e1 e2 :
  sim q s → jobs s = l1 ++ x :: l2 → job_Topic x = t → same_entry (mkQueueEntry x) (mkQueueEntry y) →
  topic_entries q t = e1 ++ mkQueueEntry x :: e2 →
  qe_job <$> e1 = filterb (in_topic t) l1 →
  sim (set_topic t (e1 ++ mkQueueEntry y :: e2) q) (mkJobList (l1 ++ y :: l2)).
Proof.
  intros [Hok Htop] Hl Hx Hxy He He1. split.
  - apply queue_ok_update; [done|]. rewrite He. by apply Forall2_same_entry_middle.
  - intros t'. rewrite topic_entries_set. specialize (Htop t'). rewrite Hl in Htop.
    cbn [jobs]. rewrite filterb_middle. rewrite filterb_middle in Htop. destruct Hxy as (_ & Hyt & _). cbn in Hyt. unfold in_topic in *.
    rewrite Hyt. destruct (decide (t = t')) as [Ht|Ht].
    + subst t' t. rewrite bool_decide_eq_true_2 in * by done. rewrite He, fmap_app, He1 in Htop.
      apply app_inv_head in Htop. injection Htop as Htop.
      rewrite fmap_app, fmap_cons, He1, Htop. done.
    + rewrite bool_decide_eq_false_2 in * by congruence. done.
Qed.

(** What a topic holds around a job of the list. *)
Lemma sim_split q s l1 x l2 :
  sim q s → jobs s = l1 ++ x :: l2 →
  qe_job <$> topic_entries q (job_Topic x) =
  filterb (in_topic (job_Topic x)) l1 ++ x :: filterb (in_topic (job_Topic x)) l2.
Proof.
  intros [_ Htop] Hl. rewrite <- Htop, Hl, filterb_middle. unfold in_topic at 2.
  by rewrite bool_decide_eq_true_2 by done.
Qed.

Lemma sim_Enqueue t p e q s :
  sim q s → index q !! next_id e = None →
  let '(r, e', q') := Enqueue t p e q in
  let '(r2, e2, s') := list_Enqueue t p e s in r2 = r ∧ e2 = e' ∧ sim q' s'.
Proof.
  intros Hs Hf. pose proof (Enqueue_ok t p e q (sim_ok _ _ Hs) Hf) as [Hok _].
  rewrite Enqueue_run in *. unfold list_Enqueue, newID. munfold. cbn [state_after snd] in Hok.
  split; [done|]. split; [done|]. split; [exact Hok|]. intros t'. cbn [jobs].
  rewrite filterb_app, (sim_topic _ _ Hs). 
  change (topic_entries (set_index ?i ?r ?q') ?x) with (topic_entries q' x).
  rewrite topic_entries_set. cbn [filterb]. unfold in_topic at 1. cbn [new_job job_Topic].
  case_decide as Ht.
  - subst t'. by rewrite bool_decide_eq_true_2, fmap_app by done.
  - by rewrite bool_decide_eq_false_2, app_nil_r by done.
Qed.

Lemma sim_Dequeue t d e q s :
  sim q s →
  let '(r, e', q') := Dequeue t d e q in
  let '(r2, e2, s') := list_Dequeue t d e s in r2 = r ∧ e2 = e' ∧ sim q' s'.
Proof.
  intros Hs. unfold list_Dequeue, time_Now. munfold.
  destruct (update_first _ _ (jobs s)) as [[j l]|] eqn:Hu.
  - apply update_first_Some in Hu as (l1 & x & l2 & Hl & Hl1 & Hx & -> & ->).
    rewrite andb_true_iff in Hx. unfold in_topic in Hx. rewrite !bool_decide_eq_true in Hx. destruct Hx as [Ht Hav].
    pose proof (sim_split q s l1 x l2 Hs Hl) as Hsp. rewrite Ht in Hsp.
    assert (Forall (λ z, ¬ available (now_of e) z) (filterb (in_topic t) l1)) as Hl1'.
    { apply Forall_forall. intros z [Hz Hzt]%elem_of_filterb Hzav. rewrite Forall_forall in Hl1.
      specialize (Hl1 z Hz). cbv beta in Hl1. rewrite Hzt, bool_decide_eq_true_2 in Hl1; done. }
    destruct (Dequeue_cases t d e q) as [(k1 & [y] & k2 & Hk & Hk1 & Hy & ->)|[Hall _]].
    + rewrite Hk, fmap_app, fmap_cons in Hsp. cbn [qe_job] in *.
      destruct (split_unique (available (now_of e)) _ _ _ _ _ _ Hsp) as (E1 & -> & E2); try done.
      { by apply Forall_fmap. }
      split; [done|]. split; [done|]. by eapply sim_replace.
    + exfalso.
      assert (Forall (λ z, ¬ available (now_of e) z) (qe_job <$> topic_entries q t)) as Hno by by apply Forall_fmap.
      rewrite Hsp in Hno. apply Forall_app in Hno as [_ Hno]. by apply Forall_cons in Hno as [? _].
  - apply update_first_None in Hu.
    destruct (Dequeue_cases t d e q) as [(k1 & [y] & k2 & Hk & Hk1 & Hy & _)|[_ ->]]; [exfalso|done].
    pose proof (sim_topic _ _ Hs t) as Htop. rewrite Hk, fmap_app in Htop.
    assert (y ∈ filterb (in_topic t) (jobs s)) as [Hin Hty]%elem_of_filterb
      by (rewrite Htop; apply elem_of_app; right; left).
    rewrite Forall_forall in Hu. specialize (Hu y Hin). cbv beta in Hu.
    rewrite Hty, bool_decide_eq_true_2 in Hu; done.
Qed.

(** The entries of a topic before and after one of them have other identifiers. *)
Lemma other_ids q t l1 j l2 :
  queue_ok q → topic_entries q t = l1 ++ mkQueueEntry j :: l2 →
  Forall (λ z, job_ID z ≠ job_ID j) (qe_job <$> l1) ∧ Forall (λ z, job_ID z ≠ job_ID j) (qe_job <$> l2).
Proof.
  intros Hq Hl. pose proof (qok_nodup q Hq t) as Hn. unfold job_ids in Hn.
  rewrite Hl, fmap_app, fmap_cons in Hn. apply NoDup_app in Hn as (_ & H1 & Hn).
  apply NoDup_cons in Hn as [H2 _].
  split; apply Forall_fmap, Forall_forall; intros x Hx Hid.
  - apply (H1 (entry_id x)); [by apply list_elem_of_fmap_2|]. unfold entry_id at 1. cbn in Hid.
    rewrite Hid. left.
  - apply H2. change (entry_id (mkQueueEntry j)) with (job_ID j). cbn in Hid. rewrite <- Hid.
    by apply (list_elem_of_fmap_2 entry_id).
Qed.

Lemma has_id_true id j : has_id id j = true ↔ job_ID j = id.
Proof. unfold has_id. apply bool_decide_eq_true. Qed.

Lemma update_first_unknown q s id f :
  sim q s → index q !! id = None → update_first (has_id id) f (jobs s) = None.
Proof.
  intros Hs Hid. destruct (update_first _ f (jobs s)) as [[j l]|] eqn:Hu; [exfalso|done].
  apply update_first_Some in Hu as (l1 & x & l2 & Hl & _ & Hx%has_id_true & _).
  assert (x ∈ jobs s) as Hin by (rewrite Hl; apply elem_of_app; right; left).
  exact (sim_unknown q s id x Hs Hid Hin Hx).
Qed.

Lemma sim_Nack id t e q s :
  sim q s →
  let '(r, e', q') := Nack id t e q in
  let '(r2, e2, s') := list_Nack id t e s in r2 = r ∧ e2 = e' ∧ sim q' s'.
Proof.
  intros Hs. pose proof (sim_ok _ _ Hs) as Hq. unfold list_Nack. munfold.
  destruct (Nack_cases id t e q Hq) as [[Hid ->]|(j & k1 & k2 & Hj & Hid & Hk & ->)].
  { by rewrite (update_first_unknown q s id _ Hs Hid). }
  apply (sim_has_job q s) in Hj; [|done].
  destruct (update_first _ _ (jobs s)) as [[x l]|] eqn:Hu.
  2: { apply update_first_None in Hu. rewrite Forall_forall in Hu. specialize (Hu j Hj).
       unfold has_id in Hu. by rewrite bool_decide_eq_true_2 in Hu. }
  apply update_first_Some in Hu as (l1 & y & l2 & Hl & Hl1 & Hy%has_id_true & -> & ->).
  assert (y = j) as ->.
  { assert (y ∈ jobs s) as Hin by (rewrite Hl; apply elem_of_app; right; left).
    apply (has_job_unique q); [done|by apply (sim_has_job q s)|by apply (sim_has_job q s)|congruence]. }
  pose proof (sim_split q s l1 j l2 Hs Hl) as Hsp. rewrite Hk, fmap_app, fmap_cons in Hsp.
  destruct (other_ids q _ k1 j k2 Hq Hk) as [Hk1 _].
  destruct (split_unique (λ z, job_ID z = id) _ _ _ _ _ _ Hsp) as (E1 & _ & _); try done.
  { by rewrite <- Hid. }
  { apply Forall_filterb. eapply Forall_impl; [exact Hl1|]. intros z Hz Hzid%has_id_true. congruence. }
  split; [done|]. split; [done|]. by eapply sim_replace.
Qed.

Lemma sim_Ack id e q s :
  sim q s →
  let '(r, e', q') := Ack id e q in
  let '(r2, e2, s') := list_Ack id e s in r2 = r ∧ e2 = e' ∧ sim q' s'.
Proof.
  intros Hs. pose proof (sim_ok _ _ Hs) as Hq. unfold list_Ack. munfold.
  destruct (Ack id e q) as [[r e'] q'] eqn:Hack. pose proof (Ack_ok id e q r e' q' Hq Hack) as (Hq' & _ & _).
  destruct (Ack_cases id e q Hq) as [[Hid Heq]|(j & k1 & k2 & Hj & Hid & Hk & Heq)];
    rewrite Heq in Hack; injection Hack as <- <- <-.
  - assert (existsb (has_id id) (jobs s) = false) as ->; [|done].
    apply not_true_iff_false. intros (x & Hx & Hxid%has_id_true)%existsb_exists.
    apply list_elem_of_In in Hx. exact (sim_unknown q s id x Hs Hid Hx Hxid).
  - assert (existsb (has_id id) (jobs s) = true) as ->.
    { apply existsb_exists. exists j. split; [|by apply has_id_true].
      apply list_elem_of_In. by apply (sim_has_job q s). }
    split; [done|]. split; [done|]. split; [done|]. intros t. cbn [jobs].
    rewrite filterb_filterb, (sim_topic _ _ Hs).
    change (topic_entries (delete_index id ?q0) t) with (topic_entries q0 t). rewrite topic_entries_set.
    destruct (other_ids q _ k1 j k2 Hq Hk) as [H1 H2].
    destruct (decide (job_Topic j = t)) as [<-|Hne].
    + rewrite Hk, !fmap_app, fmap_cons, filterb_middle. cbn [qe_job].
      rewrite (proj2 (has_id_true id j) Hid). cbn [negb].
      rewrite !filterb_all; [done|eapply Forall_impl; [exact H2|]|eapply Forall_impl; [exact H1|]];
        intros z Hz; apply negb_true_iff, not_true_iff_false; rewrite has_id_true; congruence.
    + apply filterb_all, Forall_fmap, Forall_forall. intros x Hx. cbn.
      apply negb_true_iff, not_true_iff_false. rewrite has_id_true. intros Hxid.
      destruct (qok_entry q Hq _ _ Hx) as [Ht Hix]. unfold entry_id in Hix.
      rewrite Hxid, <- Hid, (has_job_index q j Hq Hj) in Hix. injection Hix as Hix. congruence.
Qed.

Lemma list_sim_call c e q s r e' q' :
  sim q s → qcall c e q = (r, e', q') → (∀ id, r = QRString (Ok id) → index q !! id = None) →
  ∃ s', qcall c e s = (r, e', s') ∧ sim q' s'.
Proof.
  intros Hs Hc Hf.
  destruct c; cbn [qcall] in *; apply fmapM_inv in Hc as (x & Hc & ->); unfold fmapM; munfold.
  - change (Enqueue topic payload e q = (x, e', q')) in Hc.
    assert (index q !! next_id e = None) as Hn by (apply Hf; rewrite Enqueue_run in Hc; congruence).
    pose proof (sim_Enqueue topic payload e q s Hs Hn) as Hsim. rewrite Hc in Hsim.
    change (Queue.Enqueue (Q:=JobList)) with list_Enqueue.
    destruct (list_Enqueue topic payload e s) as [[r2 e2] s']. destruct Hsim as (-> & -> & ?). by exists s'.
  - change (Dequeue topic lease e q = (x, e', q')) in Hc.
    pose proof (sim_Dequeue topic lease e q s Hs) as Hsim. rewrite Hc in Hsim.
    change (Queue.Dequeue (Q:=JobList)) with list_Dequeue.
    destruct (list_Dequeue topic lease e s) as [[r2 e2] s']. destruct Hsim as (-> & -> & ?). by exists s'.
  - change (Ack id e q = (x, e', q')) in Hc.
    pose proof (sim_Ack id e q s Hs) as Hsim. rewrite Hc in Hsim.
    change (Queue.Ack (Q:=JobList)) with list_Ack.
    destruct (list_Ack id e s) as [[r2 e2] s']. destruct Hsim as (-> & -> & ?). by exists s'.
  - change (Nack id retryAt e q = (x, e', q')) in Hc.
    pose proof (sim_Nack id retryAt e q s Hs) as Hsim. rewrite Hc in Hsim.
    change (Queue.Nack (Q:=JobList)) with list_Nack.
    destruct (list_Nack id retryAt e s) as [[r2 e2] s']. destruct Hsim as (-> & -> & ?). by exists s'.
Qed.

(** C7: The topics and the index are not observable: on a new in-memory queue any sequence of
    calls of any producers and workers, in which the generated identifiers do not collide,
    gets exactly the replies of a single list of jobs in the order of their enqueueing, from
    which [Dequeue] takes the first available job of its topic, [Ack] removes and [Nack]
    reschedules the job of an identifier; and afterwards each topic holds what the list
    holds of it, in the same order. *)
Theorem queue_refines_list cs e rs e' q' :
  run_queue cs e New = (rs, e', q') → NoDup (enqueued_ids rs) →
  ∃ s', run_queue cs e (mkJobList []) = (rs, e', s') ∧
    ∀ t, qe_job <$> topic_entries q' t = filterb (λ j, bool_decide (job_Topic j = t)) (jobs s').
Proof.
  intros Hrun Hn. assert (fresh_run New rs) as Hf by done. clear Hn.
  enough (∃ s', run_queue cs e (mkJobList []) = (rs, e', s') ∧ sim q' s') as (s' & ? & Hs).
  { exists s'. split; [done|]. intros t. symmetry. apply Hs. }
  generalize list_sim_New. revert Hf Hrun. generalize New, (mkJobList []). revert e rs.
  induction cs as [|c cs IH]; intros e rs q s Hf Hrun Hs.
  - unfold run_queue in *. apply run_all_nil_inv in Hrun as (-> & -> & ->). by exists s.
  - apply run_all_cons_inv in Hrun as (r & rs0 & e1 & q1 & Hc & Hrun & ->).
    destruct (fresh_run_cons _ _ _ _ _ _ _ (sim_ok _ _ Hs) Hc Hf) as [Hr Hf1].
    destruct (list_sim_call c e q s r e1 q1 Hs Hc Hr) as (s1 & Hc' & Hs1).
    destruct (IH e1 rs0 q1 s1 Hf1 Hrun Hs1) as (s' & Hrun' & Hs').
    exists s'. split; [|done]. unfold run_queue in *. by rewrite run_all_cons, Hc', Hrun'.
Qed.

Lemma queue_refines_list_witness :
  let o := run_queue queue_calls test_env New in
  ∃ s', run_queue queue_calls test_env (mkJobList []) = (result o, env_after o, s') ∧
    ∀ t, qe_job <$> topic_entries (state_after o) t =
         filterb (λ j, bool_decide (job_Topic j = t)) (jobs s').
Proof.
  apply (queue_refines_list queue_calls test_env _ _ _ (outcome_eta _)).
  apply (bool_decide_unpack _). vm_compute. exact I.
Defined.
