(* ===== verification/Cache.v ===== *)
(** * The CacheStore and AtomicCacheStore interfaces (src/provider/cache/cache.go)

    The Go interfaces as classes of operations, runs of calls, and what a
    cache promises: an abstract cache that keeps every binding with its expiry
    and never evicts, where a read at an instant sees a binding that has not
    expired by then. *)

From S2P Require Import Prelude GoLib ProviderErr Runtime.

Class CacheStore (S : Type) := {
  Get : string → M S (Res (Slice byte));
  Set_ : string → Slice byte → Duration → M S (Res ());
  Delete : string → M S (Res ());
}.

Class AtomicCacheStore (S : Type) `{CacheStore S} := {
  CompareAndSet : string → Slice byte → Slice byte → Duration → M S (Res bool);
}.

(** ** Runs of calls *)

Inductive CCall :=
  | CGet (key : string)
  | CSet (key : string) (value : Slice byte) (ttl : Duration)
  | CDelete (key : string)
  | CCas (key : string) (old new : Slice byte) (ttl : Duration).

Inductive CReply :=
  | CRValue (r : Res (Slice byte))
  | CRUnit (r : Res ())
  | CRBool (r : Res bool).

Definition ccall {S} `{AtomicCacheStore S} (c : CCall) : M S CReply :=
  match c with
  | CGet key => fmapM CRValue (Get key)
  | CSet key value ttl => fmapM CRUnit (Set_ key value ttl)
  | CDelete key => fmapM CRUnit (Delete key)
  | CCas key old new ttl => fmapM CRBool (CompareAndSet key old new ttl)
  end.

Definition run_cache {S} `{AtomicCacheStore S} : list CCall → M S (list CReply) := run_all ccall.

(** ** The abstract cache *)

(** The bytes under each key and the instant after which they are gone. *)
Abbreviation AbsCache := (gmap string (bytes * option Time)).

Definition expired_at (t : Time) (expiry : option Time) : bool :=
  match expiry with Some x => (x <? t)%Z | None => false end.

(** What a read of [key] at the instant [t] sees. *)
Definition live (t : Time) (a : AbsCache) (key : string) : option bytes :=
  match a !! key with
  | Some (v, x) => if expired_at t x then None else Some v
  | None => None
  end.

(** A binding made at [u] with the given time to live. *)
Definition binding (value : Slice byte) (ttl : Duration) (u : Time) : bytes * option Time :=
  (slice_elems value, if (0 <? ttl)%Z then Some (u + ttl)%Z else None).

(** Does the caller's [old] describe the current content?  A nil [old] also
    stands for an absent key. *)
Definition matches_old (old : Slice byte) (current : option bytes) : bool :=
  match current with
  | None => bool_decide (old = None)
  | Some v => bool_decide (v = slice_elems old)
  end.

(** One call that looks at the cache at [t] and dates what it writes from [u]. *)
Definition abs_call (t u : Time) (c : CCall) (a : AbsCache) : CReply * AbsCache :=
  match c with
  | CGet key =>
      (CRValue (match live t a key with
                | Some v => Ok (Some v)
                | None => Fail (as_error ErrCacheMiss)
                end), a)
  | CSet key value ttl => (CRUnit (Ok tt), <[key := binding value ttl u]> a)
  | CDelete key => (CRUnit (Ok tt), delete key a)
  | CCas key old new ttl =>
      if matches_old old (live t a key)
      then (CRBool (Ok true), <[key := binding new ttl u]> a)
      else (CRBool (Ok false), a)
  end.

Fixpoint abs_run (ts : list (Time * Time)) (cs : list CCall) (a : AbsCache)
    : list CReply * AbsCache :=
  match ts, cs with
  | (t, u) :: ts, c :: cs =>
      let '(r, a) := abs_call t u c a in
      let '(rs, a) := abs_run ts cs a in
      (r :: rs, a)
  | _, _ => ([], a)
  end.

(** The environments each call of a run starts and ends in. *)
Fixpoint call_spans {S} `{AtomicCacheStore S} (cs : list CCall) (e : Env) (s : S) : list (Env * Env) :=
  match cs with
  | [] => []
  | c :: cs => let '(_, e', s') := ccall c e s in (e, e') :: call_spans cs e' s'
  end.

(** The instants at which a call looks and from which it dates: that of the first
    reading of the clock after it started, and one before it ended. *)
Definition within_call (tu : Time * Time) (span : Env * Env) : Prop :=
  tu.1 = now_of span.1 ∧ (tu.1 ≤ tu.2 ≤ now_of span.2)%Z.
