(* ===== verification/MemCache.v ===== *)
(** * The in-memory CacheStore (src/provider/cache/memcache/memcache.go)

    [Store] is the Go struct without its mutex.  [Set], [Delete] and
    [CompareAndSet] touch the map in one critical section; [Get] has two, the
    read under [RLock] and, when the entry it read has expired, the eviction
    under [Lock]: they are the definitions [Get_read] and [Get_evict], and
    [MemCacheConc] runs them with other calls in between. *)

From S2P Require Import Prelude GoLib ProviderErr Runtime Cache.

Record cacheEntry := mkCacheEntry { ce_value : Slice byte; ce_expiresAt : Time }.
Record Store := mkStore { entries : gmap string cacheEntry }.

(** [func New() *Store] *)
Definition New : Store := mkStore ∅.

Definition set_entry (key : string) (entry : cacheEntry) (s : Store) : Store :=
  mkStore (<[key := entry]> (entries s)).
Definition delete_entry (key : string) (s : Store) : Store :=
  mkStore (delete key (entries s)).

(** [!entry.expiresAt.IsZero() && time.Now().After(entry.expiresAt)]: the clock
    is read only for an entry that can expire. *)
Definition entry_expired {S} (entry : cacheEntry) : M S bool :=
  if time_IsZero (ce_expiresAt entry) then ret false
  else now <- time_Now ;; ret (time_After now (ce_expiresAt entry)).

(** [s.mu.RLock(); entry, ok := s.entries[key]; s.mu.RUnlock()] *)
Definition Get_read (key : string) : M Store (option cacheEntry) :=
  s <- get ;; ret (entries s !! key).

(** [s.mu.Lock(); delete(s.entries, key); s.mu.Unlock()] *)
Definition Get_evict (key : string) : M Store () := modify (delete_entry key).

Definition Get (key : string) : M Store (Res (Slice byte)) :=
  entry <- Get_read key ;;
  match entry with
  | None => ret (Fail (as_error ErrCacheMiss))
  | Some entry =>
      expired <- entry_expired entry ;;
      if expired : bool then
        Get_evict key ;;;
        ret (Fail (as_error ErrCacheMiss))
      else ret (Ok (ce_value entry))
  end.

(** The entry built from a copy of [value], dated when the TTL is positive. *)
Definition new_entry {S} (value : Slice byte) (ttl : Duration) : M S cacheEntry :=
  let copied := Some (slice_elems value) in
  if (0 <? ttl)%Z
  then now <- time_Now ;; ret (mkCacheEntry copied (time_Add now ttl))
  else ret (mkCacheEntry copied zero_time).

Definition Set_ (key : string) (value : Slice byte) (ttl : Duration) : M Store (Res ()) :=
  entry <- new_entry value ttl ;;
  modify (set_entry key entry) ;;;
  ret (Ok tt).

Definition Delete (key : string) : M Store (Res ()) :=
  modify (delete_entry key) ;;;
  ret (Ok tt).

Definition CompareAndSet (key : string) (old new : Slice byte) (ttl : Duration)
    : M Store (Res bool) :=
  let swap : M Store (Res bool) :=
    newEntry <- new_entry new ttl ;;
    modify (set_entry key newEntry) ;;;
    ret (Ok true) in
  s <- get ;;
  match entries s !! key with
  | None => if negb (bool_decide (old = None)) then ret (Ok false) else swap
  | Some entry =>
      expired <- entry_expired entry ;;
      if expired : bool then
        modify (delete_entry key) ;;;
        if negb (bool_decide (old = None)) then ret (Ok false) else swap
      else if negb (bytes_Equal (slice_elems (ce_value entry)) (slice_elems old))
      then ret (Ok false)
      else swap
  end.

#[export] Instance memcache : CacheStore Store := {|
  Cache.Get := Get;
  Cache.Set_ := Set_;
  Cache.Delete := Delete;
|}.

#[export] Instance memcache_atomic : AtomicCacheStore Store := {|
  Cache.CompareAndSet := CompareAndSet;
|}.
