(* ===== verification/MemCacheTheory.v ===== *)
(** * Correctness of the in-memory cache

    The cache refines the abstract cache that never evicts: lazy eviction is
    not observable.  The lemmas on each operation give the life of a binding
    under a TTL and the outcome of compare-and-set on every branch. *)

From S2P Require Import Prelude GoLib ProviderErr Runtime Cache MemCache.

(** ** Entries as abstract bindings *)

Definition abs_entry (en : cacheEntry) : bytes * option Time :=
  (slice_elems (ce_value en),
   if time_IsZero (ce_expiresAt en) then None else Some (ce_expiresAt en)).

(** At the instant [t] the store holds what the abstract cache holds, short of
    bindings that have expired by then. *)
Definition sim (t : Time) (s : Store) (a : AbsCache) : Prop :=
  ∀ key, match entries s !! key with
         | Some en => ce_value en = Some (slice_elems (ce_value en)) ∧ a !! key = Some (abs_entry en)
         | None => live t a key = None
         end.

Lemma sim_New t : sim t New ∅.
Proof. intros key. cbn. rewrite lookup_empty. unfold live. by rewrite lookup_empty. Qed.

Lemma live_None_mono t t' a key : (t ≤ t')%Z → live t a key = None → live t' a key = None.
Proof.
  unfold live, expired_at. intros Ht. destruct (a !! key) as [[v [x|]]|]; try done.
  destruct (Z.ltb_spec x t), (Z.ltb_spec x t'); (done || lia).
Qed.

Lemma sim_mono t t' s a : (t ≤ t')%Z → sim t s a → sim t' s a.
Proof.
  intros Ht H key. specialize (H key).
  destruct (entries s !! key); [done|by eapply live_None_mono].
Qed.

(** What a read of [key] at the instant [t] finds in the store. *)
Definition content (t : Time) (s : Store) (key : string) : option bytes :=
  match entries s !! key with
  | Some en => if expired_at t (abs_entry en).2 then None else Some (slice_elems (ce_value en))
  | None => None
  end.

Lemma live_sim t s a key : sim t s a → live t a key = content t s key.
Proof.
  intros H. specialize (H key). unfold content. destruct (entries s !! key) as [en|]; [|done].
  destruct H as [_ Ha]. unfold live. by rewrite Ha.
Qed.

Lemma sim_set t s a key en v ttl u :
  sim t s a → ce_value en = Some (slice_elems (ce_value en)) → abs_entry en = binding v ttl u →
  sim t (set_entry key en s) (<[key := binding v ttl u]> a).
Proof.
  intros H Hen Hb k. specialize (H k). cbn. rewrite lookup_insert. case_decide; subst.
  - by rewrite lookup_insert_eq, Hb.
  - destruct (entries s !! k); unfold live in *; by rewrite lookup_insert_ne.
Qed.

(** Deleting on both sides, and evicting an expired entry on one. *)
Lemma sim_delete t s a key : sim t s a → sim t (delete_entry key s) (delete key a).
Proof.
  intros H k. specialize (H k). cbn. rewrite lookup_delete. case_decide; subst.
  - unfold live. by rewrite lookup_delete_eq.
  - destruct (entries s !! k); unfold live in *; by rewrite lookup_delete_ne.
Qed.

Lemma sim_evict t s a key :
  sim t s a → live t a key = None → sim t (delete_entry key s) a.
Proof.
  intros H Hl k. specialize (H k). cbn. rewrite lookup_delete. case_decide; [by subst|done].
Qed.

(** ** The operations *)

Lemma entry_expired_run {S} en e (s : S) :
  entry_expired en e s =
  (expired_at (now_of e) (abs_entry en).2,
   if time_IsZero (ce_expiresAt en) then e else env_tick e, s).
Proof. unfold entry_expired. cbn. by destruct (time_IsZero _). Qed.

Definition new_entry_at (value : Slice byte) (ttl : Duration) (e : Env) : cacheEntry :=
  mkCacheEntry (Some (slice_elems value)) (if (0 <? ttl)%Z then now_of e + ttl else 0)%Z.
Definition new_entry_env (ttl : Duration) (e : Env) : Env :=
  if (0 <? ttl)%Z then env_tick e else e.

Lemma new_entry_run {S} value ttl e (s : S) :
  new_entry value ttl e s = (new_entry_at value ttl e, new_entry_env ttl e, s).
Proof. unfold new_entry, new_entry_at, new_entry_env. by destruct (0 <? ttl)%Z. Qed.

Lemma abs_new_entry value ttl e :
  clock_ok e → abs_entry (new_entry_at value ttl e) = binding value ttl (now_of e).
Proof.
  intros Hok. apply now_of_pos in Hok. unfold abs_entry, new_entry_at, binding, time_IsZero, zero_time.
  cbn. destruct (Z.ltb_spec 0 ttl); [|done].
  destruct (Z.eqb_spec (now_of e + ttl) 0); [lia|done].
Qed.

Lemma new_entry_env_le ttl e : env_le e (new_entry_env ttl e).
Proof. unfold new_entry_env. destruct (0 <? ttl)%Z; auto with flames. Qed.

Lemma entry_expired_env_le en e :
  env_le e (if time_IsZero (ce_expiresAt en) then e else env_tick e).
Proof. destruct (time_IsZero _); auto with flames. Qed.

#[export] Hint Resolve new_entry_env_le entry_expired_env_le : flames.

Lemma Get_run key e s :
  Get key e s =
  match entries s !! key with
  | None => (Fail (as_error ErrCacheMiss), e, s)
  | Some en =>
      let e' := if time_IsZero (ce_expiresAt en) then e else env_tick e in
      if expired_at (now_of e) (abs_entry en).2
      then (Fail (as_error ErrCacheMiss), e', delete_entry key s)
      else (Ok (ce_value en), e', s)
  end.
Proof.
  unfold Get, Get_read, Get_evict. munfold. destruct (entries s !! key) as [en|]; [|done].
  rewrite entry_expired_run. by destruct (expired_at _ _).
Qed.

Lemma Set_run key value ttl e s :
  Set_ key value ttl e s =
  (Ok tt, new_entry_env ttl e, set_entry key (new_entry_at value ttl e) s).
Proof. unfold Set_. munfold. by rewrite new_entry_run. Qed.

(** The environment and the store when the comparison has been made. *)
Definition cas_env (key : string) (e : Env) (s : Store) : Env :=
  match entries s !! key with
  | Some en => if time_IsZero (ce_expiresAt en) then e else env_tick e
  | None => e
  end.
Definition cas_evicted (key : string) (e : Env) (s : Store) : Store :=
  match entries s !! key with
  | Some en => if expired_at (now_of e) (abs_entry en).2 then delete_entry key s else s
  | None => s
  end.

Lemma CompareAndSet_run key old new ttl e s :
  let e1 := cas_env key e s in
  let s1 := cas_evicted key e s in
  CompareAndSet key old new ttl e s =
  if matches_old old (content (now_of e) s key)
  then (Ok true, new_entry_env ttl e1, set_entry key (new_entry_at new ttl e1) s1)
  else (Ok false, e1, s1).
Proof.
  intros e1 s1. unfold CompareAndSet. munfold.
  subst e1 s1. unfold cas_env, cas_evicted, content.
  destruct (entries s !! key) as [en|].
  - rewrite entry_expired_run. destruct (expired_at _ _); cbn [matches_old].
    + case_bool_decide; cbn; [by rewrite new_entry_run|done].
    + unfold bytes_Equal. case_bool_decide; cbn; [by rewrite new_entry_run|done].
  - cbn [matches_old]. case_bool_decide; cbn; [by rewrite new_entry_run|done].
Qed.

Lemma content_cas_evicted key e s k :
  content (now_of e) (cas_evicted key e s) k = content (now_of e) s k.
Proof.
  unfold cas_evicted. destruct (entries s !! key) as [en|] eqn:E; [|done].
  destruct (expired_at _ _) eqn:Ex; [|done]. unfold content. cbn [entries delete_entry].
  rewrite lookup_delete. case_decide; [|done]. subst. by rewrite E, Ex.
Qed.

Lemma cas_evicted_others key e s k :
  k ≠ key → entries (cas_evicted key e s) !! k = entries s !! k.
Proof.
  intros Hk. unfold cas_evicted. destruct (entries s !! key); [|done].
  destruct (expired_at _ _); [|done]. cbn. by rewrite lookup_delete_ne.
Qed.

Lemma cas_env_le key e s : env_le e (cas_env key e s).
Proof. unfold cas_env. destruct (entries s !! key); auto with flames. Qed.

Lemma sim_cas_evicted key e s a :
  sim (now_of e) s a → sim (now_of e) (cas_evicted key e s) a.
Proof.
  intros H. unfold cas_evicted. destruct (entries s !! key) as [en|] eqn:E; [|done].
  destruct (expired_at _ _) eqn:Ex; [|done]. apply sim_evict; [done|].
  rewrite (live_sim _ _ _ _ H). unfold content. by rewrite E, Ex.
Qed.

(** ** Simulation *)

(** Each call answers as the abstract cache does at the instant it starts. *)
Lemma ccall_sim c e s r e' s' a :
  clock_ok e → sim (now_of e) s a → ccall c e s = (r, e', s') →
  env_le e e' ∧
  ∃ tu a', within_call tu (e, e') ∧ abs_call tu.1 tu.2 c a = (r, a') ∧ sim (now_of e') s' a'.
Proof.
  intros Hok Hsim Hc.
  enough (env_le e e' ∧ ∃ e1 a', env_le e e1 ∧ env_le e1 e' ∧
            abs_call (now_of e) (now_of e1) c a = (r, a') ∧ sim (now_of e) s' a')
    as (Hle & e1 & a' & H1 & H2 & Hcall & Hs').
  { split; [done|]. exists (now_of e, now_of e1), a'.
    pose proof (now_of_le _ _ H1 Hok). pose proof (now_of_le _ _ H2 (clock_ok_le _ _ H1 Hok)).
    pose proof (now_of_le _ _ Hle Hok). split; [by split|]. split; [done|by eapply sim_mono]. }
  destruct c; cbn [ccall] in Hc; apply fmapM_inv in Hc as (x & Hc & ->).
  - change (Get key e s = (x, e', s')) in Hc. rewrite Get_run in Hc. cbv zeta in Hc.
    cbn [abs_call]. rewrite (live_sim _ _ _ _ Hsim). unfold content.
    destruct (entries s !! key) as [en|] eqn:E.
    + destruct (expired_at _ _) eqn:Ex; simplify_eq; (split; [auto with flames|]);
        exists e, a; (split_and!; auto with flames; try reflexivity).
      * apply sim_evict; [done|]. rewrite (live_sim _ _ _ _ Hsim). unfold content. by rewrite E, Ex.
      * specialize (Hsim key). rewrite E in Hsim. by rewrite (proj1 Hsim).
    + simplify_eq. split; [auto with flames|]. exists e', a. split_and!; auto with flames.
  - change (Set_ key value ttl e s = (x, e', s')) in Hc. rewrite Set_run in Hc. simplify_eq.
    split; [auto with flames|]. exists e, (<[key := binding value ttl (now_of e)]> a).
    split_and!; auto with flames.
    apply sim_set; [done..|by apply abs_new_entry].
  - change (Delete key e s = (x, e', s')) in Hc. unfold Delete in Hc. munfold_in Hc. simplify_eq.
    split; [auto with flames|]. exists e', (delete key a). split_and!; auto with flames.
    by apply sim_delete.
  - change (CompareAndSet key old new ttl e s = (x, e', s')) in Hc.
    rewrite CompareAndSet_run in Hc. cbn [abs_call]. rewrite (live_sim _ _ _ _ Hsim).
    pose proof (cas_env_le key e s) as Hle. pose proof (sim_cas_evicted key _ _ _ Hsim) as Hs1.
    pose proof (new_entry_env_le ttl (cas_env key e s)) as Hle2.
    destruct (matches_old _ _); simplify_eq; cbv zeta.
    + split; [by etrans|]. eexists (cas_env key e s), _. split_and!; try done.
      apply sim_set; [done..|]. apply abs_new_entry. by eapply clock_ok_le.
    + split; [done|]. exists (cas_env key e s), a. split_and!; auto with flames.
Qed.

Lemma run_cache_sim cs e s rs e' s' a :
  clock_ok e → sim (now_of e) s a → run_cache cs e s = (rs, e', s') →
  env_le e e' ∧
  ∃ ts a', Forall2 within_call ts (call_spans cs e s) ∧
    abs_run ts cs a = (rs, a') ∧ sim (now_of e') s' a'.
Proof.
  unfold run_cache. revert e s rs a.
  induction cs as [|c cs IH]; intros e s rs a Hok Hsim Hrun.
  - apply run_all_nil_inv in Hrun as (-> & -> & ->). split; [auto with flames|].
    exists [], a. by split_and!.
  - apply run_all_cons_inv in Hrun as (r & rs0 & e1 & s1 & Hc & Hrun & ->).
    destruct (ccall_sim _ _ _ _ _ _ _ Hok Hsim Hc) as (Hle & [t u] & a1 & Htu & Hcall & Hsim1).
    destruct (IH e1 s1 rs0 a1 (clock_ok_le _ _ Hle Hok) Hsim1 Hrun)
      as (Hle' & ts & a' & Hts & Hr & Hsim').
    split; [by etrans|]. exists ((t, u) :: ts), a'. cbn [fst snd] in Hcall. cbn [call_spans abs_run].
    rewrite Hc, Hcall, Hr. split_and!; [by constructor|done|done].
Qed.

(** ** Properties *)

(** C6: Lazy eviction is not observable: under a clock that does not run backwards, every
    sequence of calls on a new in-memory cache gets exactly the replies of the abstract cache
    that keeps every binding with its expiry instant and evicts nothing, each call looking at
    the abstract cache at the instant it starts (that of its first reading of the clock) and
    dating what it writes from an instant between its own start and its own end. *)
Theorem cache_refines cs e rs e' s' :
  clock_ok e → run_cache cs e New = (rs, e', s') →
  ∃ ts, Forall2 within_call ts (call_spans cs e New) ∧ (abs_run ts cs ∅).1 = rs.
Proof.
  intros Hok Hrun.
  destruct (run_cache_sim cs e New rs e' s' ∅ Hok (sim_New _) Hrun) as (_ & ts & a' & ? & Hr & _).
  exists ts. by rewrite Hr.
Qed.

Definition expiring_calls : list CCall :=
  [CSet "k" (Some [x01]) 1000%Z; CGet "k"; CGet "k"; CGet "k"; CCas "k" None (Some [x02]) 0%Z;
   CCas "k" (Some [x02]) None 5%Z; CGet "k"].

Lemma cache_refines_witness :
  let o := run_cache expiring_calls test_env New in
  (∃ ts, Forall2 within_call ts (call_spans expiring_calls test_env New) ∧
         (abs_run ts expiring_calls ∅).1 = result o) ∧
  result o =
    [CRUnit (Ok tt); CRValue (Ok (Some [x01])); CRValue (Fail (as_error ErrCacheMiss));
     CRValue (Fail (as_error ErrCacheMiss)); CRBool (Ok true); CRBool (Ok true);
     CRValue (Fail (as_error ErrCacheMiss))].
Proof.
  split; [|reflexivity].
  exact (cache_refines expiring_calls test_env _ _ _ test_env_clock_ok (outcome_eta _)).
Defined.

(** The calls that write [key]. *)
Definition writes (key : string) (c : CCall) : bool :=
  match c with
  | CGet _ => false
  | CSet k _ _ | CDelete k | CCas k _ _ _ => bool_decide (k = key)
  end.

(** The entry of [key] is [en], or it was evicted after it expired. *)
Definition holds_entry (key : string) (en : cacheEntry) (e : Env) (s : Store) : Prop :=
  entries s !! key = Some en ∨
  entries s !! key = None ∧ expired_at (now_of e) (abs_entry en).2 = true.

Lemma expired_at_mono t t' x : (t ≤ t')%Z → expired_at t x = true → expired_at t' x = true.
Proof. destruct x as [x|]; cbn; [|done]. rewrite !Z.ltb_lt. lia. Qed.

Lemma ccall_holds_entry c key en e s r e' s' :
  clock_ok e → writes key c = false → holds_entry key en e s → ccall c e s = (r, e', s') →
  clock_ok e' ∧ holds_entry key en e' s'.
Proof.
  intros Hok Hw Hh Hc.
  assert (env_le e e' ∧ (entries s' !! key = entries s !! key ∨
            entries s' !! key = None ∧
            (entries s !! key = Some en → expired_at (now_of e) (abs_entry en).2 = true)))
    as [Hle Hs'].
  { destruct c; cbn [ccall] in Hc; apply fmapM_inv in Hc as (x & Hc & ->); cbn [writes] in Hw;
      try case_bool_decide; try done.
    - change (Get key0 e s = (x, e', s')) in Hc. rewrite Get_run in Hc. cbv zeta in Hc.
      destruct (entries s !! key0) as [en0|] eqn:E; [|simplify_eq; auto with flames].
      destruct (expired_at _ _) eqn:Ex; simplify_eq; (split; [auto with flames|]); [|by left].
      destruct (decide (key0 = key)) as [->|Hne].
      + right. cbn [entries delete_entry]. rewrite lookup_delete_eq, E. split; [done|].
        by intros [= <-].
      + left. cbn. by rewrite lookup_delete_ne.
    - change (Set_ key0 value ttl e s = (x, e', s')) in Hc. rewrite Set_run in Hc. simplify_eq.
      split; [auto with flames|]. left. cbn. by rewrite lookup_insert_ne.
    - change (Delete key0 e s = (x, e', s')) in Hc. unfold Delete in Hc. munfold_in Hc. simplify_eq.
      split; [auto with flames|]. left. cbn. by rewrite lookup_delete_ne.
    - change (CompareAndSet key0 old new ttl e s = (x, e', s')) in Hc.
      rewrite CompareAndSet_run in Hc. cbv zeta in Hc. pose proof (cas_env_le key0 e s).
      destruct (matches_old _ _); simplify_eq; (split; [by etrans; [|auto with flames]|]); left.
      + cbn. rewrite lookup_insert_ne by done. by apply cas_evicted_others.
      + by apply cas_evicted_others. }
  split; [by eapply clock_ok_le|]. unfold holds_entry in *. pose proof (now_of_le _ _ Hle Hok).
  destruct Hs' as [Hs'|[Hs' Hx]]; rewrite Hs'; destruct Hh as [Hh|[Hh Hx']];
    eauto using expired_at_mono.
Qed.

(** C24: A value that was set is returned, byte for byte, by every [Get] of its key as long as
    its TTL has not run out (for ever when the TTL is not positive), and never afterwards,
    whatever calls that do not write the key happen in between. *)
Theorem ttl_life key value ttl cs e s rs e1 s1 :
  clock_ok e → Forall (λ c, writes key c = false) cs →
  let '(_, e0, s0) := Set_ key value ttl e s in
  run_cache cs e0 s0 = (rs, e1, s1) →
  result (Get key e1 s1) =
    if bool_decide (0 < ttl ∧ now_of e + ttl < now_of e1)%Z
    then Fail (as_error ErrCacheMiss) else Ok (Some (slice_elems value)).
Proof.
  intros Hok Hcs. rewrite Set_run. intros Hrun.
  set (en := new_entry_at value ttl e) in *.
  assert (clock_ok (new_entry_env ttl e)) as Hok0 by (eapply clock_ok_le; [auto with flames|done]).
  assert (clock_ok e1 ∧ holds_entry key en e1 s1) as [Hok1 Hh].
  { revert Hrun. apply (run_all_ind ccall (λ e s, clock_ok e ∧ holds_entry key en e s)).
    - intros c e2 s2 r e3 s3 Hin [Hok2 Hh2] Hc. rewrite Forall_forall in Hcs.
      eapply ccall_holds_entry; eauto.
    - split; [done|]. left. cbn. by rewrite lookup_insert_eq. }
  rewrite Get_run. unfold holds_entry in Hh.
  assert (expired_at (now_of e1) (abs_entry en).2 =
          bool_decide (0 < ttl ∧ now_of e + ttl < now_of e1)%Z) as Hx.
  { subst en. rewrite abs_new_entry by done. unfold binding. cbn [snd].
    destruct (Z.ltb_spec 0 ttl); cbn [expired_at].
    - destruct (Z.ltb_spec (now_of e + ttl) (now_of e1)); symmetry;
        [apply bool_decide_eq_true_2|apply bool_decide_eq_false_2]; lia.
    - symmetry. apply bool_decide_eq_false_2. lia. }
  rewrite <- Hx. destruct Hh as [Hh|[Hh Hex]]; rewrite Hh; cbv zeta.
  - by destruct (expired_at _ _).
  - by rewrite Hex.
Qed.

Lemma ttl_life_witness :
  let '(_, e0, s0) := Set_ "k" (Some [x01; x02]) 1000%Z test_env New in
  let o := run_cache [CSet "other" None 5%Z; CGet "k"; CDelete "other"] e0 s0 in
  result (Get "k" (env_after o) (state_after o)) = Fail (as_error ErrCacheMiss).
Proof.
  refine (ttl_life "k" (Some [x01; x02]) 1000%Z [CSet "other" None 5%Z; CGet "k"; CDelete "other"]
            test_env New _ _ _ test_env_clock_ok _ (outcome_eta _)).
  by repeat constructor.
Defined.

(** [CompareAndSet] never fails; it swaps exactly when the unexpired value of the key
    equals [old] (a nil [old] also matches an absent or expired key, and a nil or empty [old]
    an empty value), and then stores the new value with its TTL counted from a clock reading
    of this call; otherwise no read can tell the difference.  No other key is touched. *)
Theorem cas_spec key old new ttl e s :
  let current := content (now_of e) s key in
  let '(r, e', s') := CompareAndSet key old new ttl e s in
  r = Ok (matches_old old current) ∧
  (∀ k, k ≠ key → entries s' !! k = entries s !! k) ∧
  (if matches_old old current
   then ∃ now, (ttl ≤ 0 ∨ read_between e e' now)%Z ∧
          entries s' !! key =
            Some (mkCacheEntry (Some (slice_elems new)) (if (0 <? ttl)%Z then now + ttl else 0)%Z)
   else content (now_of e) s' key = current).
Proof.
  intros current. rewrite CompareAndSet_run. fold current. cbv zeta.
  destruct (matches_old old current) eqn:Em; split_and!; try done.
  - intros k Hk. cbn. rewrite lookup_insert_ne by done. by apply cas_evicted_others.
  - exists (now_of (cas_env key e s)). cbn. rewrite lookup_insert_eq. split; [|done].
    unfold new_entry_env. destruct (Z.ltb_spec 0 ttl); [right|left; lia].
    destruct (cas_env_le key e s) as (Hc & _ & _ & Ht & _). exists (ticks (cas_env key e s)).
    unfold now_of. rewrite Hc. split; [cbn; lia|done].
  - intros k Hk. by apply cas_evicted_others.
  - apply content_cas_evicted.
Qed.

(** An attempt to swap the non-expiring value [w] of a key from [v]. *)
Lemma ccall_cas_run key v w new e s :
  entries s !! key = Some (mkCacheEntry (Some w) zero_time) →
  ccall (CCas key (Some v) new 0%Z) e s =
  if bool_decide (w = v)
  then (CRBool (Ok true), e, set_entry key (mkCacheEntry (Some (slice_elems new)) zero_time) s)
  else (CRBool (Ok false), e, s).
Proof.
  intros Hs. cbn [ccall]. unfold fmapM. munfold.
  change (Cache.CompareAndSet (S:=Store)) with CompareAndSet.
  rewrite CompareAndSet_run. unfold content, cas_env, cas_evicted. rewrite Hs. cbn.
  by repeat case_bool_decide.
Qed.

Lemma cas_losers key v w news e s :
  entries s !! key = Some (mkCacheEntry (Some w) zero_time) → w ≠ v →
  run_cache ((λ new, CCas key (Some v) new 0%Z) <$> news) e s =
  ((λ _, CRBool (Ok false)) <$> news, e, s).
Proof.
  intros Hs Hw. unfold run_cache. induction news as [|n news IH]; [done|].
  rewrite fmap_cons, run_all_cons, (ccall_cas_run _ _ _ _ _ _ Hs).
  by rewrite bool_decide_eq_false_2, IH.
Qed.

(** C37: Of any number of clients that compare-and-set the same key from its current,
    non-expiring value, the first one changing it, exactly the first succeeds, its value is
    the one that stays, and nothing else changes. *)
Theorem cas_one_winner key v new others e s :
  entries s !! key = Some (mkCacheEntry (Some v) zero_time) →
  slice_elems new ≠ v →
  run_cache ((λ n, CCas key (Some v) n 0%Z) <$> new :: others) e s =
  (CRBool (Ok true) :: ((λ _, CRBool (Ok false)) <$> others), e,
   set_entry key (mkCacheEntry (Some (slice_elems new)) zero_time) s).
Proof.
  intros Hs Hn. unfold run_cache.
  rewrite fmap_cons, run_all_cons, (ccall_cas_run _ _ _ _ _ _ Hs), bool_decide_eq_true_2 by done.
  fold (run_cache (S:=Store)).
  by rewrite (cas_losers key v (slice_elems new)) by (cbn; rewrite ?lookup_insert_eq; done).
Qed.

Lemma cas_one_winner_witness :
  let s := mkStore {[ "leader" := mkCacheEntry (Some [x00]) zero_time ]} in
  run_cache [CCas "leader" (Some [x00]) (Some [x01]) 0%Z; CCas "leader" (Some [x00]) (Some [x02]) 0%Z;
             CCas "leader" (Some [x00]) (Some [x03]) 0%Z] test_env s =
  ([CRBool (Ok true); CRBool (Ok false); CRBool (Ok false)], test_env,
   set_entry "leader" (mkCacheEntry (Some [x01]) zero_time) s).
Proof.
  exact (cas_one_winner "leader" [x00] (Some [x01]) [Some [x02]; Some [x03]] test_env
           (mkStore {[ "leader" := mkCacheEntry (Some [x00]) zero_time ]}) eq_refl
           ltac:(discriminate)).
Defined.
