(* ===== verification/MemCacheConc.v ===== *)
(** * The in-memory cache under concurrency

    [Get] is not one critical section: it reads the entry under [RLock], looks
    at the clock with no lock held, and takes [Lock] to evict.  Here threads
    run the calls of their programs in atomic steps, the critical sections of
    [MemCache], in the order a schedule gives.  What a concurrent [Get]
    returns is always the last value written at its read; an eviction, though,
    can remove a value written after that read. *)

From S2P Require Import Prelude GoLib ProviderErr Runtime Cache MemCache MemCacheTheory.

(** ** Threads, steps and schedules *)

(** What a thread has to do next.  The [n] of [GotEntry] is the length of the
    log when the entry was read, kept for the statements only. *)
Inductive PC :=
  | Idle
  | GotEntry (key : string) (en : cacheEntry) (n : nat)
  | MustEvict (key : string)
  | MustStore (key : string) (en : cacheEntry).

(** What took effect or was returned, in order.  [EvGot tid key v n now]: a
    [Get] that read its entry when the log had [n] events and the clock at
    [now] returns [v]. *)
Inductive Ev :=
  | EvStore (tid : nat) (key : string) (en : cacheEntry)
  | EvDelete (tid : nat) (key : string)
  | EvCasFail (tid : nat) (key : string)
  | EvGot (tid : nat) (key : string) (v : Slice byte) (n : nat) (now : Time)
  | EvMiss (tid : nat) (key : string).

Record Thread := mkThread { th_prog : list CCall; th_pc : PC }.

Record Config := mkConfig {
  cfg_env : Env;
  cfg_store : Store;
  cfg_threads : list Thread;
  cfg_log : list Ev;
}.

(** The next atomic step of a thread: its new state and what it logs. *)
Definition thread_step (tid : nat) (th : Thread) (n : nat) : M Store (Thread * list Ev) :=
  match th_pc th with
  | Idle =>
      match th_prog th with
      | [] => ret (th, [])
      | CGet key :: rest =>
          o <- Get_read key ;;
          ret match o with
              | None => (mkThread rest Idle, [EvMiss tid key])
              | Some en => (mkThread rest (GotEntry key en n), [])
              end
      | CSet key value ttl :: rest =>
          en <- new_entry value ttl ;;
          ret (mkThread rest (MustStore key en), [])
      | CDelete key :: rest =>
          Delete key ;;;
          ret (mkThread rest Idle, [EvDelete tid key])
      | CCas key old new ttl :: rest =>
          r <- CompareAndSet key old new ttl ;;
          s <- get ;;
          ret (mkThread rest Idle,
               match r, entries s !! key with
               | Ok true, Some en => [EvStore tid key en]
               | _, _ => [EvCasFail tid key]
               end)
      end
  | GotEntry key en n =>
      λ e s,
        let '(expired, e', s') := entry_expired en e s in
        if expired : bool then ((mkThread (th_prog th) (MustEvict key), []), e', s')
        else ((mkThread (th_prog th) Idle, [EvGot tid key (ce_value en) n (now_of e)]), e', s')
  | MustEvict key =>
      Get_evict key ;;;
      ret (mkThread (th_prog th) Idle, [EvMiss tid key])
  | MustStore key en =>
      modify (set_entry key en) ;;;
      ret (mkThread (th_prog th) Idle, [EvStore tid key en])
  end.

Definition cstep (c : Config) (tid : nat) : Config :=
  match cfg_threads c !! tid with
  | None => c
  | Some th =>
      let '((th', evs), e', s') :=
        thread_step tid th (length (cfg_log c)) (cfg_env c) (cfg_store c) in
      mkConfig e' s' (<[tid := th']> (cfg_threads c)) (cfg_log c ++ evs)
  end.

(** A schedule names the thread that makes each step. *)
Definition run_schedule (c : Config) (schedule : list nat) : Config := foldl cstep c schedule.

Definition start (e : Env) (s : Store) (progs : list (list CCall)) : Config :=
  mkConfig e s ((λ p, mkThread p Idle) <$> progs) [].

(** What the log says was last written under [key], from the content [o] at the start. *)
Definition write_of (key : string) (o : option cacheEntry) (ev : Ev) : option cacheEntry :=
  match ev with
  | EvStore _ k en => if decide (k = key) then Some en else o
  | EvDelete _ k => if decide (k = key) then None else o
  | _ => o
  end.
Definition last_write (s : Store) (key : string) (log : list Ev) : option cacheEntry :=
  foldl (write_of key) (entries s !! key) log.

(** ** Steps against the sequential operations *)

(** A call run by one thread alone. *)
Definition solo (steps : nat) (c : CCall) (e : Env) (s : Store) : Config :=
  run_schedule (start e s [[c]]) (replicate steps 0).

(** The reply an event stands for. *)
Definition reply_of (ev : Ev) (c : CCall) : CReply :=
  match ev, c with
  | EvGot _ _ v _ _, _ => CRValue (Ok v)
  | EvMiss _ _, _ => CRValue (Fail (as_error ErrCacheMiss))
  | EvStore _ _ _, CCas _ _ _ _ => CRBool (Ok true)
  | EvCasFail _ _, _ => CRBool (Ok false)
  | _, _ => CRUnit (Ok tt)
  end.

(** The atomic steps are the operation: run by one thread with nobody in between, any
    call takes at most three steps and ends with the environment, the store and the reply
    of the sequential operation. *)
Theorem solo_call c e s :
  let '(r, e', s') := ccall c e s in
  ∃ ev, solo 3 c e s = mkConfig e' s' [mkThread [] Idle] [ev] ∧ reply_of ev c = r.
Proof.
  unfold solo, run_schedule, start. cbn [replicate foldl fmap list_fmap].
  destruct c; cbn [ccall]; unfold fmapM; munfold.
  - change (Cache.Get (S:=Store)) with Get. rewrite Get_run.
    unfold cstep at 3. cbn. destruct (entries s !! key) as [en|]; cbn; [|by eexists].
    rewrite entry_expired_run. cbn. destruct (expired_at _ _); cbn; by eexists.
  - change (Cache.Set_ (S:=Store)) with Set_. rewrite Set_run.
    unfold cstep at 3. cbn. munfold. rewrite new_entry_run. cbn. by eexists.
  - change (Cache.Delete (S:=Store)) with Delete. cbn. by eexists.
  - change (Cache.CompareAndSet (S:=Store)) with CompareAndSet.
    unfold cstep at 3. cbn [cfg_threads cfg_log cfg_env cfg_store lookup list_lookup].
    unfold thread_step. cbn [th_pc th_prog]. munfold. rewrite CompareAndSet_run. cbv zeta.
    destruct (matches_old _ _); cbn; [rewrite lookup_insert_eq|]; cbn; by eexists.
Qed.

(** ** Every schedule *)

Lemma last_write_app s key l k :
  last_write s key (l ++ k) = foldl (write_of key) (last_write s key l) k.
Proof. unfold last_write. apply foldl_app. Qed.

(** A read that is pending, or that was returned at position [i] of the log. *)
Definition read_ok (s : Store) (log : list Ev) (key : string) (en : cacheEntry) (n : nat) : Prop :=
  n ≤ length log ∧ last_write s key (take n log) = Some en.

Definition pc_ok (s : Store) (log : list Ev) (pc : PC) : Prop :=
  match pc with GotEntry key en n => read_ok s log key en n | _ => True end.

Definition got_ok (s : Store) (log : list Ev) (ev : Ev) : Prop :=
  match ev with
  | EvGot _ key v n now =>
      ∃ en, read_ok s log key en n ∧ v = ce_value en ∧ expired_at now (abs_entry en).2 = false
  | _ => True
  end.

(** The store holds nothing but the last writes. *)
Definition store_ok (s0 : Store) (log : list Ev) (s : Store) : Prop :=
  ∀ key en, entries s !! key = Some en → last_write s0 key log = Some en.

Lemma read_ok_app s log k key en n : read_ok s log key en n → read_ok s (log ++ k) key en n.
Proof.
  intros [Hn Hl]. split; [rewrite length_app; lia|]. by rewrite take_app_le.
Qed.

Lemma store_ok_silent s0 log s s' evs :
  store_ok s0 log s → (∀ key, foldl (write_of key) (last_write s0 key log) evs = last_write s0 key log) →
  (∀ key en, entries s' !! key = Some en → entries s !! key = Some en) →
  store_ok s0 (log ++ evs) s'.
Proof. intros Hs Hev Hsub key en H. rewrite last_write_app, Hev. by apply Hs, Hsub. Qed.

Lemma store_ok_set s0 log s s1 tid k en0 :
  store_ok s0 log s → (∀ key, key ≠ k → entries s1 !! key = entries s !! key) →
  store_ok s0 (log ++ [EvStore tid k en0]) (set_entry k en0 s1).
Proof.
  intros Hs Hs1 key en. rewrite last_write_app. cbn. rewrite lookup_insert.
  destruct (decide (k = key)); [done|]. intros H. apply Hs. by rewrite <- Hs1.
Qed.

Lemma delete_entry_sub k s key en :
  entries (delete_entry k s) !! key = Some en → entries s !! key = Some en.
Proof. cbn. rewrite lookup_delete. by case_decide. Qed.

Lemma cas_evicted_sub k e s key en :
  entries (cas_evicted k e s) !! key = Some en → entries s !! key = Some en.
Proof.
  unfold cas_evicted. destruct (entries s !! k); [|done].
  destruct (expired_at _ _); [apply delete_entry_sub|done].
Qed.

Lemma thread_step_ok s0 log tid th e s th' evs e' s' :
  thread_step tid th (length log) e s = ((th', evs), e', s') →
  store_ok s0 log s → pc_ok s0 log (th_pc th) →
  store_ok s0 (log ++ evs) s' ∧ pc_ok s0 (log ++ evs) (th_pc th') ∧ Forall (got_ok s0 log) evs.
Proof.
  unfold thread_step. intros H Hs Hpc. destruct (th_pc th) as [|key en n|key|key en] eqn:Epc.
  - destruct (th_prog th) as [|[key|key value ttl|key|key old new ttl] rest]; munfold_in H.
    + simplify_eq. rewrite app_nil_r, Epc. done.
    + unfold Get_read in H. munfold_in H. destruct (entries s !! key) as [en|] eqn:E;
        simplify_eq; cbn [th_pc pc_ok].
      * rewrite app_nil_r. split_and!; [done| |done]. split; [done|].
        rewrite take_ge by done. by apply Hs.
      * split_and!; [|done|by repeat constructor]. by eapply store_ok_silent.
    + rewrite new_entry_run in H. simplify_eq. by rewrite app_nil_r.
    + unfold Delete in H. munfold_in H. simplify_eq. split_and!; [|done|by repeat constructor].
      intros k en. rewrite last_write_app. cbn. rewrite lookup_delete. case_decide; [done|apply Hs].
    + rewrite CompareAndSet_run in H. cbv zeta in H. destruct (matches_old _ _).
      * cbn in H. rewrite lookup_insert_eq in H. simplify_eq.
        split_and!; [|done|by repeat constructor].
        eapply store_ok_set; [done|]. intros. by apply cas_evicted_others.
      * simplify_eq. split_and!; [|done|by repeat constructor].
        eapply store_ok_silent; [done..|]. intros ??. apply cas_evicted_sub.
  - rewrite entry_expired_run in H. destruct (expired_at _ _) eqn:Ex; simplify_eq.
    + rewrite app_nil_r. done.
    + split_and!; [by eapply store_ok_silent|done|]. constructor; [|done]. by exists en.
  - unfold Get_evict in H. munfold_in H. simplify_eq. split_and!; [|done|by repeat constructor].
    eapply store_ok_silent; [done..|]. intros ??. apply delete_entry_sub.
  - munfold_in H. simplify_eq. split_and!; [|done|by repeat constructor]. by eapply store_ok_set.
Qed.

Definition config_ok (s0 : Store) (c : Config) : Prop :=
  store_ok s0 (cfg_log c) (cfg_store c) ∧
  Forall (λ th, pc_ok s0 (cfg_log c) (th_pc th)) (cfg_threads c) ∧
  (∀ i ev, cfg_log c !! i = Some ev → got_ok s0 (take i (cfg_log c)) ev).

Lemma cstep_ok s0 c tid : config_ok s0 c → config_ok s0 (cstep c tid).
Proof.
  intros (Hs & Hth & Hlog). unfold cstep.
  destruct (cfg_threads c !! tid) as [th|] eqn:E; [|done].
  destruct (thread_step _ _ _ _ _) as [[[th' evs] e'] s'] eqn:Est.
  pose proof (Forall_lookup_1 _ _ _ _ Hth E) as Hpc.
  destruct (thread_step_ok _ _ _ _ _ _ _ _ _ _ Est Hs Hpc) as (Hs' & Hpc' & Hev).
  split_and!; cbn; [done| |].
  - apply Forall_insert; [|done]. eapply Forall_impl; [exact Hth|].
    intros th0. cbn. destruct (th_pc th0); try done. apply read_ok_app.
  - intros i ev Hi. destruct (decide (i < length (cfg_log c))) as [Hlt|Hge].
    + rewrite lookup_app_l in Hi by done. rewrite take_app_le by lia. by apply Hlog.
    + rewrite lookup_app_r in Hi by lia. pose proof (Forall_lookup_1 _ _ _ _ Hev Hi) as Hok.
      destruct ev; try done. destruct Hok as (en & Hr & Hok). exists en. split; [|done].
      rewrite take_app_ge by lia. by apply read_ok_app.
Qed.

Lemma run_schedule_ok s0 c schedule : config_ok s0 c → config_ok s0 (run_schedule c schedule).
Proof.
  revert c. induction schedule as [|tid l IH]; intros c Hc; [done|]. cbn. by apply IH, cstep_ok.
Qed.

(** C21: Under every schedule of every set of client programs, the cache never holds anything
    but the last value written to a key, and every value a [Get] returns is the last one
    written when the [Get] read it, with its TTL not run out at the clock reading that
    followed: concurrency can lose an entry, never serve a stale or foreign one. *)
Theorem concurrent_reads e s progs schedule :
  let c := run_schedule (start e s progs) schedule in
  (∀ key en, entries (cfg_store c) !! key = Some en → last_write s key (cfg_log c) = Some en) ∧
  (∀ i tid key v n now,
     cfg_log c !! i = Some (EvGot tid key v n now) →
     n ≤ i ∧ ∃ en, last_write s key (take n (cfg_log c)) = Some en ∧ v = ce_value en ∧
                   expired_at now (abs_entry en).2 = false).
Proof.
  intros c. assert (config_ok s c) as (Hs & _ & Hlog).
  { apply run_schedule_ok. split_and!; [by intros key en|by apply Forall_fmap, Forall_true|done]. }
  split; [done|]. intros i tid key v n now Hi. pose proof (Hlog _ _ Hi) as (en & [Hn Hl] & Hv & Hx).
  rewrite length_take in Hn. split; [lia|]. exists en. split; [|done].
  rewrite take_take in Hl. by rewrite Nat.min_l in Hl by lia.
Qed.

(** ** The eviction race *)

Definition stale : Store :=
  mkStore {[ "k" := mkCacheEntry (Some [x00]) 5%Z ]}.
Definition race_progs : list (list CCall) :=
  [[CGet "k"]; [CSet "k" (Some [x01]) 0%Z]; [CGet "k"]].

(** [Get] can evict a value it never looked at.  Thread 0 reads an expired entry and finds
    it expired; thread 1 then sets the key to a value that never expires; thread 0 now takes
    the write lock and deletes it.  Nobody called [Delete], yet a later [Get] misses, whereas
    running the three calls one after the other, in either order, finds the value. *)
Theorem Get_evicts_fresh_value :
  let c := run_schedule (start test_env stale race_progs) [0; 0; 1; 1; 0; 2] in
  let fresh := mkCacheEntry (Some [x01]) zero_time in
  cfg_log c = [EvStore 1 "k" fresh; EvMiss 0 "k"; EvMiss 2 "k"] ∧
  last_write stale "k" (cfg_log c) = Some fresh ∧ entries (cfg_store c) = ∅ ∧
  result (run_cache [CGet "k"; CSet "k" (Some [x01]) 0%Z; CGet "k"] test_env stale) =
    [CRValue (Fail (as_error ErrCacheMiss)); CRUnit (Ok tt); CRValue (Ok (Some [x01]))] ∧
  result (run_cache [CSet "k" (Some [x01]) 0%Z; CGet "k"; CGet "k"] test_env stale) =
    [CRUnit (Ok tt); CRValue (Ok (Some [x01])); CRValue (Ok (Some [x01]))].
Proof. split_and!; reflexivity. Qed.
