(* ===== verification/Sha256.v ===== *)
(** * SHA-256 ([crypto/sha256])

    [sha256.Sum256] as an executable function on bytes (FIPS 180-4), used for
    blob checksums and for the request hashes of the idempotency store. *)

From S2P Require Import Prelude GoLib.

Local Open Scope Z_scope.

(** ** Words of 32 bits *)

Definition w32 (z : Z) : Z := Z.land z 0xffffffff.
Definition add32 (a b : Z) : Z := w32 (a + b).
Definition rotr (x n : Z) : Z := Z.lor (Z.shiftr x n) (w32 (Z.shiftl x (32 - n))).
Definition not32 (x : Z) : Z := Z.lxor x 0xffffffff.

Definition big_sigma0 x := Z.lxor (Z.lxor (rotr x 2) (rotr x 13)) (rotr x 22).
Definition big_sigma1 x := Z.lxor (Z.lxor (rotr x 6) (rotr x 11)) (rotr x 25).
Definition small_sigma0 x := Z.lxor (Z.lxor (rotr x 7) (rotr x 18)) (Z.shiftr x 3).
Definition small_sigma1 x := Z.lxor (Z.lxor (rotr x 17) (rotr x 19)) (Z.shiftr x 10).
Definition ch x y z := Z.lxor (Z.land x y) (Z.land (not32 x) z).
Definition maj x y z := Z.lxor (Z.lxor (Z.land x y) (Z.land x z)) (Z.land y z).

(** *** The constants

    The round constants are the first 32 bits of the fractional parts of the
    cube roots of the first 64 primes; the initial hash those of the square
    roots of the first 8. *)

Definition primeb (n : nat) : bool :=
  forallb (λ d, negb (Nat.modulo n d =? 0)%nat) (seq 2 (n - 2)).
Definition primes : list Z := Z.of_nat <$> List.filter primeb (seq 2 310).

(** The largest [r < 2 ^ bits + lo] with [r * r * r <= n], one bit at a time. *)
Fixpoint cube_root (bits : nat) (n lo : Z) : Z :=
  match bits with
  | O => lo
  | S bits =>
      let mid := lo + Z.shiftl 1 (Z.of_nat bits) in
      if mid * mid * mid <=? n then cube_root bits n mid else cube_root bits n lo
  end.

Definition round_constants : list Z :=
  Eval vm_compute in (λ p, w32 (cube_root 36 (Z.shiftl p 96) 0)) <$> primes.

Record hash_state := mkHash { h0 : Z; h1 : Z; h2 : Z; h3 : Z; h4 : Z; h5 : Z; h6 : Z; h7 : Z }.

Definition initial_hash : hash_state :=
  Eval vm_compute in
  match (λ p, w32 (Z.sqrt (Z.shiftl p 64))) <$> primes with
  | a :: b :: c :: d :: e :: f :: g :: h :: _ => mkHash a b c d e f g h
  | _ => mkHash 0 0 0 0 0 0 0 0
  end.

(** ** One block *)

(** The message schedule, last word first: each new word comes from those 2,
    7, 15 and 16 places back. *)
Fixpoint extend_schedule (n : nat) (rev_w : list Z) : list Z :=
  match n with
  | O => rev_w
  | S n =>
      let w := add32 (add32 (small_sigma1 (nth 1 rev_w 0)) (nth 6 rev_w 0))
                     (add32 (small_sigma0 (nth 14 rev_w 0)) (nth 15 rev_w 0)) in
      extend_schedule n (w :: rev_w)
  end.

Definition sha_round (s : hash_state) (kw : Z * Z) : hash_state :=
  let t1 := add32 (add32 (h7 s) (big_sigma1 (h4 s)))
                  (add32 (ch (h4 s) (h5 s) (h6 s)) (add32 kw.1 kw.2)) in
  let t2 := add32 (big_sigma0 (h0 s)) (maj (h0 s) (h1 s) (h2 s)) in
  mkHash (add32 t1 t2) (h0 s) (h1 s) (h2 s) (add32 (h3 s) t1) (h4 s) (h5 s) (h6 s).

Definition compress (s : hash_state) (block : list Z) : hash_state :=
  let w := rev (extend_schedule 48 (rev block)) in
  let s' := foldl sha_round s (combine round_constants w) in
  mkHash (add32 (h0 s) (h0 s')) (add32 (h1 s) (h1 s')) (add32 (h2 s) (h2 s'))
    (add32 (h3 s) (h3 s')) (add32 (h4 s) (h4 s')) (add32 (h5 s) (h5 s'))
    (add32 (h6 s) (h6 s')) (add32 (h7 s) (h7 s')).

(** ** Padding, blocks and output *)

Definition byte_of_Z (z : Z) : byte :=
  match Byte.of_N (Z.to_N (z mod 256)) with Some b => b | None => x00 end.
Definition Z_of_byte (b : byte) : Z := Z.of_N (Byte.to_N b).

(** The [n] low bytes of [z], most significant first. *)
Fixpoint be_bytes (n : nat) (z : Z) : bytes :=
  match n with
  | O => []
  | S n => byte_of_Z (Z.shiftr z (8 * Z.of_nat n)) :: be_bytes n z
  end.

Definition pad (m : bytes) : bytes :=
  let len := Z.of_nat (List.length m) in
  m ++ [x80] ++ replicate (Z.to_nat ((55 - len) mod 64)) x00 ++ be_bytes 8 (8 * len).

Fixpoint words (l : bytes) : list Z :=
  match l with
  | a :: b :: c :: d :: l =>
      Z.lor (Z.lor (Z.shiftl (Z_of_byte a) 24) (Z.shiftl (Z_of_byte b) 16))
            (Z.lor (Z.shiftl (Z_of_byte c) 8) (Z_of_byte d)) :: words l
  | _ => []
  end.

(** [blocks n ws]: the first [n] groups of sixteen words. *)
Fixpoint blocks (n : nat) (ws : list Z) : list (list Z) :=
  match n with
  | O => []
  | S n => take 16 ws :: blocks n (drop 16 ws)
  end.

Definition hash_bytes (s : hash_state) : bytes :=
  be_bytes 4 (h0 s) ++ be_bytes 4 (h1 s) ++ be_bytes 4 (h2 s) ++ be_bytes 4 (h3 s) ++
  be_bytes 4 (h4 s) ++ be_bytes 4 (h5 s) ++ be_bytes 4 (h6 s) ++ be_bytes 4 (h7 s).

(** [sha256.Sum256(data)] *)
Definition sha256_Sum256 (data : bytes) : bytes :=
  let ws := words (pad data) in
  hash_bytes (foldl compress initial_hash (blocks (List.length ws / 16) ws)).

Lemma be_bytes_length n z : List.length (be_bytes n z) = n.
Proof. induction n as [|n IH]; cbn; [done|]. by rewrite IH. Qed.

Lemma sha256_Sum256_length data : List.length (sha256_Sum256 data) = 32%nat.
Proof. unfold sha256_Sum256, hash_bytes. by rewrite !length_app, !be_bytes_length. Qed.

(** The padded message is a whole number of 64-byte blocks. *)
Lemma pad_length data : (Z.of_nat (List.length (pad data)) mod 64 = 0)%Z.
Proof.
  unfold pad. rewrite !length_app, be_bytes_length, length_replicate. cbn [List.length].
  set (len := List.length data).
  pose proof (Z.mod_pos_bound (55 - Z.of_nat len) 64 eq_refl).
  rewrite !Nat2Z.inj_add, Z2Nat.id by lia.
  pose proof (Z.div_mod (55 - Z.of_nat len) 64 ltac:(lia)) as Hd.
  apply Z.mod_divide; [lia|]. exists (1 - (55 - Z.of_nat len) / 64). lia.
Qed.

(** The standard's test vectors. *)
Example sha256_empty :
  hex_EncodeToString (sha256_Sum256 []) =
  "e3b0c44298fc1c149afbf4c8996fb92427ae41e4649b934ca495991b7852b855".
Proof. vm_compute. reflexivity. Qed.

Example sha256_abc :
  hex_EncodeToString (sha256_Sum256 [x61; x62; x63]) =
  "ba7816bf8f01cfea414140de5dae2223b00361a396177a9cb410ff61f20015ad".
Proof. vm_compute. reflexivity. Qed.

(** Two blocks: "abcdbcdecdefdefgefghfghighijhijkijkljklmklmnlmnomnopnopq". *)
Example sha256_two_blocks :
  hex_EncodeToString (sha256_Sum256 (bytes_of_string
    "abcdbcdecdefdefgefghfghighijhijkijkljklmklmnlmnomnopnopq")) =
  "248d6a61d20638b8e5c026930c3e6039a33ce45964ff2167f6ecedd419db06c1".
Proof. vm_compute. reflexivity. Qed.
