(* ===== verification/Blob.v ===== *)
(** * The BlobStore interface (src/provider/blob/blob.go)

    The Go interface as a class of operations, with the readers it takes and
    returns, and runs of calls. *)

From S2P Require Import Prelude GoLib Model ProviderErr Runtime.

(** An [io.Reader] as what it will deliver: chunks of bytes, and then the end
    of the stream or an error. *)
Record Reader := mkReader { rd_chunks : list bytes; rd_err : option error }.

(** [io.ReadAll(r)]: the bytes read, and the error unless it was the end. *)
Definition io_ReadAll (r : Reader) : bytes * option error := (concat (rd_chunks r), rd_err r).

(** [bytes.NewReader(data)] *)
Definition bytes_NewReader (data : bytes) : Reader := mkReader [data] None.

Class BlobStore (S : Type) := {
  Put : string → Reader → BlobMeta → M S (Res ());
  Get : string → M S (Res Reader);
  Head : string → M S (Res BlobMeta);
  Delete : string → M S (Res ());
  Exists : string → M S (Res bool);
  List_ : string → M S (Res (Slice BlobMeta));
}.

Inductive BCall :=
  | BPut (key : string) (r : Reader) (meta : BlobMeta)
  | BGet (key : string)
  | BHead (key : string)
  | BDelete (key : string)
  | BExists (key : string)
  | BList (prefix : string).

Inductive BReply :=
  | BRUnit (r : Res ())
  | BRReader (r : Res Reader)
  | BRMeta (r : Res BlobMeta)
  | BRBool (r : Res bool)
  | BRMetas (r : Res (Slice BlobMeta)).

Definition bcall {S} `{BlobStore S} (c : BCall) : M S BReply :=
  match c with
  | BPut key r meta => fmapM BRUnit (Put key r meta)
  | BGet key => fmapM BRReader (Get key)
  | BHead key => fmapM BRMeta (Head key)
  | BDelete key => fmapM BRUnit (Delete key)
  | BExists key => fmapM BRBool (Exists key)
  | BList prefix => fmapM BRMetas (List_ prefix)
  end.

Definition run_blobs {S} `{BlobStore S} : list BCall → M S (list BReply) := run_all bcall.
