(* ===== verification/MemBlob.v ===== *)
(** * The in-memory BlobStore (src/provider/blob/memblob/memblob.go)

    [Store] is the Go struct without its mutex.  [Put] reads its reader to the
    end and hashes before it locks; every access to the map is one critical
    section. *)

From S2P Require Import Prelude GoLib Model ProviderErr Runtime Sha256 Blob.

Local Open Scope string_scope.

Record storedBlob := mkStoredBlob { sb_data : bytes; sb_meta : BlobMeta }.
Record Store := mkStore { blobs : gmap string storedBlob }.

(** [func New() *Store] *)
Definition New : Store := mkStore ∅.

Definition set_blob (key : string) (b : storedBlob) (s : Store) : Store :=
  mkStore (<[key := b]> (blobs s)).
Definition delete_blob (key : string) (s : Store) : Store := mkStore (delete key (blobs s)).

Definition Put (key : string) (r : Reader) (meta : BlobMeta) : M Store (Res ()) :=
  let '(data, err) := io_ReadAll r in
  match err with
  | Some err => ret (Fail err)
  | None =>
      let h := sha256_Sum256 data in
      let meta := bm_with_Key meta key in
      let meta := bm_with_Size meta (wrap64 (Z.of_nat (List.length data))) in
      let meta := bm_with_Checksum meta (hex_EncodeToString h) in
      meta <- (if time_IsZero (bm_CreatedAt meta)
               then now <- time_Now ;; ret (bm_with_CreatedAt meta now)
               else ret meta) ;;
      modify (set_blob key (mkStoredBlob data meta)) ;;;
      ret (Ok tt)
  end.

Definition Get (key : string) : M Store (Res Reader) :=
  s <- get ;;
  match blobs s !! key with
  | None => ret (Fail (NotFound "blob" key))
  | Some b => ret (Ok (bytes_NewReader (sb_data b)))
  end.

Definition Head (key : string) : M Store (Res BlobMeta) :=
  s <- get ;;
  match blobs s !! key with
  | None => ret (Fail (NotFound "blob" key))
  | Some b => ret (Ok (sb_meta b))
  end.

Definition Delete (key : string) : M Store (Res ()) :=
  s <- get ;;
  match blobs s !! key with
  | None => ret (Fail (NotFound "blob" key))
  | Some _ =>
      modify (delete_blob key) ;;;
      ret (Ok tt)
  end.

Definition Exists (key : string) : M Store (Res bool) :=
  s <- get ;;
  ret (Ok match blobs s !! key with Some _ => true | None => false end).

(** [for k, b := range s.blobs { ... }] *)
Fixpoint List_loop (prefix : string) (l : list (string * storedBlob)) (result : Slice BlobMeta)
    : Slice BlobMeta :=
  match l with
  | [] => result
  | (k, b) :: l =>
      if strings_HasPrefix k prefix
      then List_loop prefix l (slice_append result (sb_meta b))
      else List_loop prefix l result
  end.

Definition List_ (prefix : string) : M Store (Res (Slice BlobMeta)) :=
  s <- get ;;
  l <- map_range (blobs s) ;;
  ret (Ok (List_loop prefix l None)).

#[export] Instance memblob : BlobStore Store := {|
  Blob.Put := Put;
  Blob.Get := Get;
  Blob.Head := Head;
  Blob.Delete := Delete;
  Blob.Exists := Exists;
  Blob.List_ := List_;
|}.
