(* ===== verification/MemBlobTheory.v ===== *)
(** * Correctness of the in-memory blob store *)

From S2P Require Import Prelude GoLib Model ProviderErr Runtime Sha256 Blob MemBlob.

Local Open Scope string_scope.

(** The metadata [Put] stores with the bytes [data] at the instant [now]. *)
Definition stored_meta (key : string) (data : bytes) (now : Time) (meta : BlobMeta) : BlobMeta :=
  mkBlobMeta key (wrap64 (Z.of_nat (List.length data))) (hex_EncodeToString (sha256_Sum256 data))
    (bm_ContentType meta) (bm_Metadata meta)
    (if time_IsZero (bm_CreatedAt meta) then now else bm_CreatedAt meta).

Lemma blob_Put_run key r meta e s :
  Put key r meta e s =
  match rd_err r with
  | Some err => (Fail err, e, s)
  | None =>
      let data := concat (rd_chunks r) in
      (Ok tt, if time_IsZero (bm_CreatedAt meta) then env_tick e else e,
       set_blob key (mkStoredBlob data (stored_meta key data (now_of e) meta)) s)
  end.
Proof.
  unfold Put, io_ReadAll. destruct (rd_err r); [done|]. munfold. unfold stored_meta.
  destruct meta as [k n c ct m t].
  cbn [bm_CreatedAt bm_with_Checksum bm_with_Size bm_with_Key bm_Key bm_Size bm_Checksum bm_ContentType bm_Metadata].
  by destruct (time_IsZero t).
Qed.

Lemma blob_Get_run key e s :
  Get key e s =
  (match blobs s !! key with
   | Some b => Ok (bytes_NewReader (sb_data b)) | None => Fail (NotFound "blob" key) end, e, s).
Proof. unfold Get. munfold. by destruct (blobs s !! key). Qed.

Lemma blob_Head_run key e s :
  Head key e s =
  (match blobs s !! key with
   | Some b => Ok (sb_meta b) | None => Fail (NotFound "blob" key) end, e, s).
Proof. unfold Head. munfold. by destruct (blobs s !! key). Qed.

Lemma blob_Delete_run key e s :
  Delete key e s =
  match blobs s !! key with
  | Some _ => (Ok tt, e, delete_blob key s)
  | None => (Fail (NotFound "blob" key), e, s)
  end.
Proof. unfold Delete. munfold. by destruct (blobs s !! key). Qed.

Lemma List_loop_spec prefix l acc :
  List_loop prefix l (built_slice acc) =
  built_slice (acc ++ (sb_meta <$> (filter (λ kb, strings_HasPrefix kb.1 prefix = true) l).*2))%list.
Proof.
  revert acc. induction l as [|[k b] l IH]; intros acc; cbn [List_loop].
  - by rewrite app_nil_r.
  - rewrite filter_cons. cbn [fst]. destruct (strings_HasPrefix k prefix).
    + rewrite slice_append_built, IH, <- app_assoc. rewrite decide_True by done. done.
    + rewrite IH, decide_False by done. done.
Qed.

(** C38: What is put comes back: when its reader ends without an error, [Put] succeeds and
    [Get] then delivers the bytes of all its chunks in order, [Head] the given content type,
    metadata and creation time (now, if it was zero) with the key, the size and the SHA-256
    checksum of those bytes filled in, whatever the caller had put there; other keys keep
    their blobs. *)
Theorem put_get_head key chunks meta e s :
  let data := concat chunks in
  let '(r, e1, s1) := Put key (mkReader chunks None) meta e s in
  r = Ok tt ∧
  (fmapM (λ r, match r with Ok rd => Ok (io_ReadAll rd) | Fail err => Fail err end) (Get key) e1 s1)
    = (Ok (data, None), e1, s1) ∧
  Head key e1 s1 =
    (Ok (mkBlobMeta key (wrap64 (Z.of_nat (List.length data)))
           (hex_EncodeToString (sha256_Sum256 data)) (bm_ContentType meta) (bm_Metadata meta)
           (if (bm_CreatedAt meta =? 0)%Z then now_of e else bm_CreatedAt meta)), e1, s1) ∧
  Exists key e1 s1 = (Ok true, e1, s1) ∧
  (∀ k, k ≠ key → blobs s1 !! k = blobs s !! k).
Proof.
  intros data. rewrite blob_Put_run. cbn [rd_err rd_chunks]. fold data. cbv zeta.
  split; [done|]. split; [|split; [|split]].
  - unfold fmapM. munfold. rewrite blob_Get_run. cbn. rewrite lookup_insert_eq. cbn.
    unfold io_ReadAll. cbn. by rewrite app_nil_r.
  - rewrite blob_Head_run. cbn. by rewrite lookup_insert_eq.
  - unfold Exists. munfold. cbn. by rewrite lookup_insert_eq.
  - intros k Hk. cbn. by rewrite lookup_insert_ne.
Qed.

(** A [Put] whose reader fails returns the reader's own error, stores nothing and keeps
    a blob that was there; a missing key makes [Get], [Head] and [Delete] fail with the
    [NotFound] error of the blob and [Exists] answer false, changing nothing; [Delete] of a
    key that is there removes it and only it. *)
Theorem blob_errors key chunks err meta e s :
  Put key (mkReader chunks (Some err)) meta e s = (Fail err, e, s) ∧
  let '(r, e1, s1) := Delete key e s in
  (if bool_decide (blobs s !! key = None)
   then r = Fail (NotFound "blob" key) ∧ s1 = s else r = Ok tt ∧ blobs s1 = delete key (blobs s)) ∧
  Get key e1 s1 = (Fail (NotFound "blob" key), e1, s1) ∧
  Head key e1 s1 = (Fail (NotFound "blob" key), e1, s1) ∧
  Delete key e1 s1 = (Fail (NotFound "blob" key), e1, s1) ∧
  Exists key e1 s1 = (Ok false, e1, s1) ∧
  errors_Is (NotFound "blob" key) ErrNotFound = true.
Proof.
  split; [by rewrite blob_Put_run|]. rewrite blob_Delete_run.
  assert (blobs (delete_blob key s) !! key = None) as Hd by (cbn; apply lookup_delete_eq).
  unfold Exists. munfold. destruct (blobs s !! key) as [b|] eqn:E.
  - rewrite bool_decide_eq_false_2 by done. by rewrite blob_Get_run, blob_Head_run, blob_Delete_run, Hd.
  - rewrite bool_decide_eq_true_2 by done. by rewrite blob_Get_run, blob_Head_run, blob_Delete_run, E.
Qed.

Lemma List_perm prefix e s :
  ∃ l, List_ prefix e s = (Ok (built_slice l), env_iter e, s) ∧
    l ≡ₚ sb_meta <$>
      (map_to_list (filter (λ kb, starts_with kb.1 prefix) (blobs s))).*2.
Proof.
  unfold List_. munfold. unfold map_range. eexists.
  change None with (@built_slice BlobMeta []). rewrite List_loop_spec. split; [reflexivity|].
  cbn [app]. apply fmap_Permutation, fmap_Permutation. rewrite map_to_list_filter_perm.
  rewrite (shuffle_perm (picks e (iters e)) (map_to_list (blobs s))).
  erewrite list_filter_iff; [done|]. intros [k b]. cbn. apply strings_HasPrefix_spec.
Qed.

(** Whatever order Go visits the map in, [List] returns, once each, the metadata of the
    blobs whose key starts with the prefix, and nothing else. *)
Theorem List_spec prefix e s :
  ∃ l, List_ prefix e s = (Ok (built_slice l), env_iter e, s) ∧
    l ≡ₚ sb_meta <$>
      (map_to_list (filter (λ kb, starts_with kb.1 prefix) (blobs s))).*2.
Proof. apply List_perm. Qed.

(** ** Integrity *)

(** A stored blob is described by its metadata. *)
Definition blob_ok (key : string) (b : storedBlob) : Prop :=
  bm_Key (sb_meta b) = key ∧ bm_Size (sb_meta b) = wrap64 (Z.of_nat (List.length (sb_data b))) ∧
  bm_Checksum (sb_meta b) = hex_EncodeToString (sha256_Sum256 (sb_data b)) ∧
  bm_CreatedAt (sb_meta b) ≠ zero_time.

Lemma bcall_blob_ok c e s r e' s' :
  clock_ok e → map_Forall blob_ok (blobs s) → bcall c e s = (r, e', s') →
  clock_ok e' ∧ map_Forall blob_ok (blobs s').
Proof.
  intros Hok Hs Hc. destruct c; cbn [bcall] in Hc; apply fmapM_inv in Hc as (x & Hc & ->).
  - change (Put key r0 meta e s = (x, e', s')) in Hc. rewrite blob_Put_run in Hc.
    destruct (rd_err r0); cbv zeta in Hc; simplify_eq; [done|]. split.
    + destruct (time_IsZero _); [|done]. eapply clock_ok_le; [auto with flames|done].
    + cbn. apply map_Forall_insert_2; [|done]. split_and!; try done. cbn.
      pose proof (now_of_pos _ Hok). unfold time_IsZero, zero_time.
      destruct (Z.eqb_spec (bm_CreatedAt meta) 0); lia.
  - change (Get key e s = (x, e', s')) in Hc. rewrite blob_Get_run in Hc. by simplify_eq.
  - change (Head key e s = (x, e', s')) in Hc. rewrite blob_Head_run in Hc. by simplify_eq.
  - change (Delete key e s = (x, e', s')) in Hc. rewrite blob_Delete_run in Hc.
    destruct (blobs s !! key); simplify_eq; split; try done. cbn. by apply map_Forall_delete.
  - change (Exists key e s = (x, e', s')) in Hc. unfold Exists in Hc. munfold_in Hc. by simplify_eq.
  - change (List_ prefix0 e s = (x, e', s')) in Hc. unfold List_ in Hc. munfold_in Hc.
    unfold map_range in Hc. simplify_eq. split; [|done]. eapply clock_ok_le; [auto with flames|done].
Qed.

(** C39: After any calls on a new store, each blob's metadata carries its own key, the size
    and the SHA-256 checksum of exactly the bytes stored, and a non-zero creation time. *)
Theorem reachable_blobs_ok cs e rs e' s' :
  clock_ok e → run_blobs cs e New = (rs, e', s') → map_Forall blob_ok (blobs s').
Proof.
  intros Hok Hrun. enough (clock_ok e' ∧ map_Forall blob_ok (blobs s')) by tauto.
  revert Hrun. apply (run_all_ind bcall (λ e s, clock_ok e ∧ map_Forall blob_ok (blobs s))).
  - intros c e1 s1 r e2 s2 _ [Hok1 Hs1] Hc. by eapply bcall_blob_ok.
  - split; [done|]. apply map_Forall_empty.
Qed.

Definition blob_calls : list BCall :=
  [BPut "images/a" (mkReader [[x61]; [x62; x63]] None) (mkBlobMeta "ignored" 99%Z "ignored" "text/plain" None 0%Z);
   BPut "images/b" (mkReader [[x01]] (Some (ErrOther "disk" None))) (mkBlobMeta "" 0%Z "" "" None 7%Z);
   BGet "images/a"; BList "images/"].

Lemma reachable_blobs_ok_witness :
  let o := run_blobs blob_calls test_env New in
  map_Forall blob_ok (blobs (state_after o)) ∧ size (blobs (state_after o)) = 1.
Proof.
  split; [|vm_compute; reflexivity].
  exact (reachable_blobs_ok blob_calls test_env _ _ _ test_env_clock_ok (outcome_eta _)).
Defined.
