(* ===== verification/Ingress.v ===== *)
(** * Ingress: the interface (src/provider/ingress/ingress.go) and the no-op
    provider (src/provider/ingress/noop/noop.go)

    The Go interface as a class of operations, and the provider that only
    remembers the endpoints. *)

From S2P Require Import Prelude GoLib Model ProviderErr Runtime.

Local Open Scope string_scope.

Class IngressProvider (P : Type) := {
  RegisterEndpoint : string → Route → Target → M P (Res Endpoint);
  UnregisterEndpoint : string → M P (Res ());
  GetEndpoint : string → M P (Res Endpoint);
}.

Inductive ICall :=
  | IRegister (vmID : string) (route : Route) (target : Target)
  | IUnregister (vmID : string)
  | IGet (vmID : string).

Inductive IReply :=
  | IREndpoint (r : Res Endpoint)
  | IRUnit (r : Res ()).

Definition icall {P} `{IngressProvider P} (c : ICall) : M P IReply :=
  match c with
  | IRegister vmID route target => fmapM IREndpoint (RegisterEndpoint vmID route target)
  | IUnregister vmID => fmapM IRUnit (UnregisterEndpoint vmID)
  | IGet vmID => fmapM IREndpoint (GetEndpoint vmID)
  end.

Definition run_ingress {P} `{IngressProvider P} : list ICall → M P (list IReply) := run_all icall.

(** ** The no-op provider *)

Module Noop.

Record Provider := mkProvider { endpoints : gmap string Endpoint }.

(** [func New() *Provider] *)
Definition New : Provider := mkProvider ∅.

Definition RegisterEndpoint (vmID : string) (route : Route) (target : Target)
    : M Provider (Res Endpoint) :=
  let ep := mkEndpoint vmID route target in
  modify (λ p, mkProvider (<[vmID := ep]> (endpoints p))) ;;;
  ret (Ok ep).

Definition UnregisterEndpoint (vmID : string) : M Provider (Res ()) :=
  modify (λ p, mkProvider (delete vmID (endpoints p))) ;;;
  ret (Ok tt).

Definition GetEndpoint (vmID : string) : M Provider (Res Endpoint) :=
  p <- get ;;
  match endpoints p !! vmID with
  | None => ret (Fail (NotFound "endpoint" vmID))
  | Some ep => ret (Ok ep)
  end.

#[global] Instance noop : IngressProvider Provider := {|
  Ingress.RegisterEndpoint := RegisterEndpoint;
  Ingress.UnregisterEndpoint := UnregisterEndpoint;
  Ingress.GetEndpoint := GetEndpoint;
|}.

(** What the calls made so far leave registered for a VM. *)
Definition registered_by (vmID : string) (o : option Endpoint) (c : ICall) : option Endpoint :=
  match c with
  | IRegister id route target => if decide (id = vmID) then Some (mkEndpoint id route target) else o
  | IUnregister id => if decide (id = vmID) then None else o
  | IGet _ => o
  end.

Definition lookup_reply (vmID : string) (o : option Endpoint) : Res Endpoint :=
  match o with Some ep => Ok ep | None => Fail (NotFound "endpoint" vmID) end.

(** The reply each call must get after the calls in [before]. *)
Fixpoint expected_replies (before cs : list ICall) : list IReply :=
  match cs with
  | [] => []
  | c :: cs =>
      match c with
      | IRegister id route target => IREndpoint (Ok (mkEndpoint id route target))
      | IUnregister _ => IRUnit (Ok tt)
      | IGet id => IREndpoint (lookup_reply id (foldl (registered_by id) None before))
      end :: expected_replies (before ++ [c])%list cs
  end.

Lemma run_noop before cs e p :
  (∀ id, endpoints p !! id = foldl (registered_by id) None before) →
  result (run_ingress cs e p) = expected_replies before cs ∧
  ∀ id, endpoints (state_after (run_ingress cs e p)) !! id =
        foldl (registered_by id) None (before ++ cs)%list.
Proof.
  unfold run_ingress. revert before p.
  induction cs as [|c cs IH]; intros before p Hp; [by rewrite app_nil_r|].
  rewrite run_all_cons. cbn [expected_replies].
  assert (∃ r p', icall c e p = (r, e, p') ∧
            r = match c with
                | IRegister id route target => IREndpoint (Ok (mkEndpoint id route target))
                | IUnregister _ => IRUnit (Ok tt)
                | IGet id => IREndpoint (lookup_reply id (foldl (registered_by id) None before))
                end ∧
            ∀ id, endpoints p' !! id = foldl (registered_by id) None (before ++ [c])%list)
    as (r & p' & Hc & Hr & Hp').
  { destruct c; cbn [icall].
    - do 2 eexists. split_and!; [reflexivity..|]. intros id. rewrite foldl_app, <- Hp. cbn.
      rewrite lookup_insert. by repeat case_decide.
    - do 2 eexists. split_and!; [reflexivity..|]. intros id. rewrite foldl_app, <- Hp. cbn.
      rewrite lookup_delete. by repeat case_decide.
    - exists (IREndpoint (lookup_reply vmID (foldl (registered_by vmID) None before))), p.
      split_and!; [|done|].
      + unfold fmapM. munfold. change (Ingress.GetEndpoint (P:=Provider)) with GetEndpoint.
        unfold GetEndpoint. munfold. rewrite Hp. by destruct (foldl _ _ _).
      + intros id. rewrite foldl_app, <- Hp. done. }
  destruct (IH (before ++ [c])%list p' Hp') as [Hr' Hp''].
  rewrite Hc. destruct (run_all icall cs e p') as [[rs e2] p2]. cbn in *. subst.
  split; [done|]. intros id. rewrite Hp'', <- app_assoc. done.
Qed.

(** C40: The no-op ingress provider is a registry: over any calls from the start,
    registration always succeeds and returns the endpoint of its arguments, removal always
    succeeds, and a lookup returns the endpoint last registered for the VM and not removed
    since, or the endpoint's [NotFound] error. *)
Theorem noop_registry cs e : result (run_ingress cs e New) = expected_replies [] cs.
Proof. apply run_noop. intros id. apply lookup_empty. Qed.

End Noop.
