(* ===== verification/Service.v ===== *)
(** * The service layer (src/api/service.go)

    The business logic, over any [StateStore]: the operations are the Go
    methods, the state is the pair of providers the constructor is given.
    The service holds a [WorkQueue] and never calls it. *)

From S2P Require Import Prelude GoLib Model ProviderErr Runtime State Queue.

Local Open Scope string_scope.

Record Service (S Q : Type) := mkService { state : S; queue : Q }.
Arguments mkService {S Q} _ _.
Arguments state {S Q} _.
Arguments queue {S Q} _.

(** [func New(state state.StateStore, queue queue.WorkQueue) *Service] *)
Definition New {S Q} (state : S) (queue : Q) : Service S Q := mkService state queue.

Definition defaultListLimit : Z := 100.
Definition maxListLimit : Z := 1000.

Definition clampLimit (limit : Z) : Z :=
  if (limit <=? 0)%Z then defaultListLimit
  else if (maxListLimit <? limit)%Z then maxListLimit
  else limit.

Definition cf_with_Limit (f : ControllerFilter) (n : Z) : ControllerFilter :=
  mkControllerFilter (cf_Status f) n.
Definition ef_with_Limit (f : EventFilter) (n : Z) : EventFilter :=
  mkEventFilter (ef_VMID f) (ef_ControllerID f) (ef_Type f) (ef_Since f) n.

Section Methods.
Context {S Q : Type} `{StateStore S}.

(** A call on [s.state]. *)
Definition on_state {A} (m : M S A) : M (Service S Q) A :=
  zoom state (λ st s, mkService st (queue s)) m.

(** [model.Event{VMID: vmID, Type: ty}] *)
Definition lifecycle_event (vmID ty : string) : Event :=
  mkEvent "" vmID "" ty None zero_time.

Definition CreateVM (spec : VMSpec) : M (Service S Q) (Res string) :=
  r <- on_state (State.CreateVM spec) ;;
  match r with
  | Fail err => ret (Fail err)
  | Ok id =>
      on_state (State.AppendEvent (lifecycle_event id "vm.created")) ;;;
      ret (Ok id)
  end.

Definition GetVM (vmID : string) : M (Service S Q) (Res VM) := on_state (State.GetVM vmID).

Definition StopVM (vmID : string) : M (Service S Q) (Res ()) :=
  r <- on_state (State.UpdateVMDesiredState vmID DesiredStopped) ;;
  match r with
  | Fail err => ret (Fail err)
  | Ok _ =>
      on_state (State.AppendEvent (lifecycle_event vmID "vm.stop_requested")) ;;;
      ret (Ok tt)
  end.

Definition DeleteVM (vmID : string) : M (Service S Q) (Res ()) :=
  r <- on_state (State.UpdateVMDesiredState vmID DesiredDeleted) ;;
  match r with
  | Fail err => ret (Fail err)
  | Ok _ =>
      on_state (State.AppendEvent (lifecycle_event vmID "vm.delete_requested")) ;;;
      ret (Ok tt)
  end.

Definition RegisterController (c : Controller) : M (Service S Q) (Res ()) :=
  on_state (State.RegisterController c).

Definition Heartbeat (controllerID : string) (hb : Model.Heartbeat) : M (Service S Q) (Res ()) :=
  on_state (State.UpdateControllerHeartbeat controllerID hb).

Definition ListControllers (filter : ControllerFilter) : M (Service S Q) (Res (Slice Controller)) :=
  let filter := cf_with_Limit filter (clampLimit (cf_Limit filter)) in
  on_state (State.ListControllers filter).

Definition ListEvents (filter : EventFilter) : M (Service S Q) (Res (Slice Event)) :=
  let filter := ef_with_Limit filter (clampLimit (ef_Limit filter)) in
  on_state (State.ListEvents filter).

(** ** Runs of calls *)

Inductive SvcCall :=
  | SCreateVM (spec : VMSpec)
  | SGetVM (vmID : string)
  | SStopVM (vmID : string)
  | SDeleteVM (vmID : string)
  | SRegisterController (c : Controller)
  | SHeartbeat (controllerID : string) (hb : Model.Heartbeat)
  | SListControllers (f : ControllerFilter)
  | SListEvents (f : EventFilter).

Inductive SvcReply :=
  | SRString (r : Res string)
  | SRVM (r : Res VM)
  | SRUnit (r : Res ())
  | SRControllers (r : Res (Slice Controller))
  | SREvents (r : Res (Slice Event)).

Definition svc_call (c : SvcCall) : M (Service S Q) SvcReply :=
  match c with
  | SCreateVM spec => fmapM SRString (CreateVM spec)
  | SGetVM vmID => fmapM SRVM (GetVM vmID)
  | SStopVM vmID => fmapM SRUnit (StopVM vmID)
  | SDeleteVM vmID => fmapM SRUnit (DeleteVM vmID)
  | SRegisterController c => fmapM SRUnit (RegisterController c)
  | SHeartbeat id hb => fmapM SRUnit (Heartbeat id hb)
  | SListControllers f => fmapM SRControllers (ListControllers f)
  | SListEvents f => fmapM SREvents (ListEvents f)
  end.

Definition run_service : list SvcCall → M (Service S Q) (list SvcReply) := run_all svc_call.
End Methods.
