(* ===== verification/ServiceTheory.v ===== *)
(** * Correctness of the service layer

    Proved against the laws of [StateStore] only ([StateStoreSpec]), so they
    hold for every store that keeps its contract; the witnesses run the
    service on the in-memory providers. *)

From S2P Require Import Prelude GoLib Model ProviderErr Runtime State Queue.
From S2P Require Import MemState MemQueue Service.

Local Open Scope string_scope.

(** ** Calls on the store *)

Lemma on_state_inv {S Q A} (m : M S A) e (sv : Service S Q) r e' sv' :
  on_state m e sv = (r, e', sv') →
  ∃ st', m e (state sv) = (r, e', st') ∧ sv' = mkService st' (queue sv).
Proof.
  unfold on_state, zoom. destruct (m e (state sv)) as [[x e1] s1]. intros. simplify_eq. eauto.
Qed.

(** [AppendEvent] after a mutation that went through. *)
Definition then_log {S Q} `{StateStore S} {A} (m : M S (Res A)) (vmID : A → string) (ty : string)
    : M (Service S Q) (Res A) :=
  r <- on_state m ;;
  match r with
  | Fail err => ret (Fail err)
  | Ok a =>
      on_state (State.AppendEvent (lifecycle_event (vmID a) ty)) ;;;
      ret (Ok a)
  end.

Lemma StopVM_then_log {S Q} `{StateStore S} id e (sv : Service S Q) :
  StopVM id e sv =
  then_log (State.UpdateVMDesiredState id DesiredStopped) (λ _, id) "vm.stop_requested" e sv.
Proof.
  unfold StopVM, then_log. munfold. destruct (on_state _ e sv) as [[[[]|err] e1] s1]; done.
Qed.

Lemma DeleteVM_then_log {S Q} `{StateStore S} id e (sv : Service S Q) :
  DeleteVM id e sv =
  then_log (State.UpdateVMDesiredState id DesiredDeleted) (λ _, id) "vm.delete_requested" e sv.
Proof.
  unfold DeleteVM, then_log. munfold. destruct (on_state _ e sv) as [[[[]|err] e1] s1]; done.
Qed.

Lemma CreateVM_then_log {S Q} `{StateStore S} spec e (sv : Service S Q) :
  Service.CreateVM spec e sv = then_log (State.CreateVM spec) (λ id, id) "vm.created" e sv.
Proof. done. Qed.

(** The event a mutation logs, between the start and the end of its call. *)
Definition logged (e e' : Env) (vmID ty : string) (ev : Event) : Prop :=
  ev_VMID ev = vmID ∧ ev_ControllerID ev = "" ∧ ev_Type ev = ty ∧ ev_Payload ev = None ∧
  ev_ID ev ≠ "" ∧ read_between e e' (ev_CreatedAt ev).

Lemma read_between_weaken e e1 e' now :
  env_le e e1 → read_between e1 e' now → read_between e e' now.
Proof.
  intros (Hc & _ & _ & Ht & _) (i & Hi & ->). exists i. rewrite Hc. split; [lia|done].
Qed.

Lemma read_between_extend e e1 e' now :
  env_le e1 e' → read_between e e1 now → read_between e e' now.
Proof. intros (_ & _ & _ & Ht & _) (i & Hi & ->). exists i. split; [lia|done]. Qed.

Section Laws.
Context {S Q : Type} `{StateStoreSpec S}.
Implicit Types sv : Service S Q.

Lemma then_log_inv {A} (m : M S (Res A)) vmID ty e sv r e' sv' :
  then_log m vmID ty e sv = (r, e', sv') →
  ∃ e1 st1, m e (state sv) = (r, e1, st1) ∧ queue sv' = queue sv ∧
    match r with
    | Fail _ => e' = e1 ∧ state sv' = st1
    | Ok a =>
        env_le e1 e' ∧
        ∃ ev, logged e1 e' (vmID a) ty ev ∧
          view (state sv') = sv_with_events (view st1) (sv_events (view st1) ++ [ev])%list
    end.
Proof.
  unfold then_log. munfold. destruct (on_state m e sv) as [[x e1] sv1] eqn:E1.
  apply on_state_inv in E1 as (st1 & Hm & ->). intros Hr. exists e1, st1.
  destruct x as [a|err]; [|unfold ret in Hr; by simplify_eq]. munfold_in Hr.
  destruct (on_state _ e1 _) as [[x e2] sv2] eqn:E2. simplify_eq.
  apply on_state_inv in E2 as (st2 & Ha & ->). cbn [state queue] in *.
  apply AppendEvent_law in Ha as (Hle & _ & ev & (id & now & -> & Hid & _ & Hnow) & Hv).
  split_and!; try done. eexists. split; [|exact Hv]. by unfold logged.
Qed.

(** The update and the event of [StopVM] and [DeleteVM]. *)
Lemma request_inv id d ty e sv r e' sv' :
  then_log (State.UpdateVMDesiredState id d) (λ _, id) ty e sv = (r, e', sv') →
  env_le e e' ∧ queue sv' = queue sv ∧
  match sv_vms (view (state sv)) !! id with
  | Some vm =>
      r = Ok tt ∧ ∃ now ev, read_between e e' now ∧ logged e e' id ty ev ∧
        view (state sv') =
          mkStoreView (<[id := VM_set_desired d now vm]> (sv_vms (view (state sv))))
            (sv_controllers (view (state sv))) (sv_events (view (state sv)) ++ [ev])%list
  | None => fails_with r ErrNotFound = true ∧ view (state sv') = view (state sv)
  end.
Proof.
  intros Hr. apply then_log_inv in Hr as (e1 & st1 & Hm & Hq & Hr).
  apply UpdateVMDesiredState_law in Hm as [Hle Hu]. unfold update_spec in Hu.
  destruct (sv_vms (view (state sv)) !! id) as [vm|].
  - destruct Hu as (-> & now & Hnow & Hv). destruct Hr as (Hle2 & ev & Hev & Hv').
    split_and!; [by etrans|done|done|]. exists now, ev. split_and!.
    + by eapply read_between_extend.
    + destruct Hev as (?&?&?&?&?&?). split_and!; try done. by eapply read_between_weaken.
    + rewrite Hv', Hv. done.
  - destruct Hu as [Hf Hv]. destruct r as [|err]; [done|]. destruct Hr as [-> ->]. done.
Qed.

Lemma create_inv spec e sv r e' sv' :
  Service.CreateVM spec e sv = (r, e', sv') →
  env_le e e' ∧ queue sv' = queue sv ∧
  ∃ id now ev, r = Ok id ∧ id ≠ "" ∧ read_between e e' now ∧ logged e e' id "vm.created" ev ∧
    (id_fresh e (state sv) → sv_vms (view (state sv)) !! id = None) ∧
    view (state sv') =
      mkStoreView (<[id := fresh_VM id spec now]> (sv_vms (view (state sv))))
        (sv_controllers (view (state sv))) (sv_events (view (state sv)) ++ [ev])%list.
Proof.
  rewrite CreateVM_then_log. intros Hr. apply then_log_inv in Hr as (e1 & st1 & Hm & Hq & Hr).
  apply CreateVM_law in Hm as (Hle & id & now & -> & Hid & Hnow & Hf & Hv).
  destruct Hr as (Hle2 & ev & Hev & Hv').
  split_and!; [by etrans|done|]. exists id, now, ev. split_and!; try done.
  - by eapply read_between_extend.
  - destruct Hev as (?&?&?&?&?&?). split_and!; try done. by eapply read_between_weaken.
  - rewrite Hv', Hv. done.
Qed.
End Laws.

(** ** Mutations *)

(** [CreateVM] of the service succeeds on every store that keeps its contract: it stores a
    running/pending VM with the spec under the returned, non-empty identifier and logs exactly
    one event, ["vm.created"] for that VM, stamped during the call; it touches no controller,
    no other VM and not the queue. *)
Theorem service_create {S Q} `{StateStoreSpec S} spec e (sv : Service S Q) r e' sv' :
  Service.CreateVM spec e sv = (r, e', sv') →
  ∃ id now ev,
    r = Ok id ∧ id ≠ "" ∧ read_between e e' now ∧ logged e e' id "vm.created" ev ∧
    view (state sv') =
      mkStoreView (<[id := fresh_VM id spec now]> (sv_vms (view (state sv))))
        (sv_controllers (view (state sv))) (sv_events (view (state sv)) ++ [ev])%list ∧
    queue sv' = queue sv.
Proof.
  intros Hr. apply create_inv in Hr as (_ & Hq & id & now & ev & ? & ? & ? & ? & _ & ?).
  by exists id, now, ev.
Qed.

(** The service on the in-memory providers. *)
Definition mem_service : Type := Service MemState.Store MemQueue.Queue.
Definition svc0 : mem_service := Service.New MemState.New MemQueue.New.

Lemma service_create_witness :
  let o := Service.CreateVM zero_VMSpec test_env svc0 in
  ∃ id now ev,
    result o = Ok id ∧ id ≠ "" ∧ read_between test_env (env_after o) now ∧
    logged test_env (env_after o) id "vm.created" ev ∧
    view (state (state_after o)) =
      mkStoreView (<[id := fresh_VM id zero_VMSpec now]> ∅) ∅ [ev] ∧
    queue (state_after o) = MemQueue.New.
Proof. exact (service_create zero_VMSpec test_env svc0 _ _ _ (outcome_eta _)). Defined.

(** [StopVM] and [DeleteVM] on a known VM succeed, set its desired state to stopped or
    deleted, stamp its update time, and log exactly one event of their type for it; on an
    unknown VM they fail with [ErrNotFound] and change nothing at all, so no event is logged.
    The controllers and the queue are untouched. *)
Theorem service_stop_delete {S Q} `{StateStoreSpec S} id e (sv : Service S Q) op d ty r e' sv' :
  (op, d, ty) ∈ [(StopVM id, "stopped", "vm.stop_requested");
                 (DeleteVM id, "deleted", "vm.delete_requested")] →
  op e sv = (r, e', sv') →
  queue sv' = queue sv ∧
  match sv_vms (view (state sv)) !! id with
  | Some vm =>
      r = Ok tt ∧ ∃ now ev, read_between e e' now ∧ logged e e' id ty ev ∧
        view (state sv') =
          mkStoreView (<[id := VM_set_desired d now vm]> (sv_vms (view (state sv))))
            (sv_controllers (view (state sv))) (sv_events (view (state sv)) ++ [ev])%list
  | None => fails_with r ErrNotFound = true ∧ view (state sv') = view (state sv)
  end.
Proof.
  intros Hop Hr. rewrite elem_of_cons, list_elem_of_singleton in Hop.
  destruct Hop as [Hop|Hop]; injection Hop as -> -> ->;
    [rewrite StopVM_then_log in Hr|rewrite DeleteVM_then_log in Hr];
    by apply request_inv in Hr as (_ & ? & ?).
Qed.

Lemma service_stop_delete_witness :
  let o := DeleteVM "nope" test_env svc0 in
  fails_with (result o) ErrNotFound = true ∧ view (state (state_after o)) = mkStoreView ∅ ∅ [].
Proof.
  refine (proj2 (service_stop_delete "nope" test_env svc0 (DeleteVM "nope") "deleted"
            "vm.delete_requested" _ _ _ _ (outcome_eta _))).
  right. left.
Defined.

(** C33: The service adds no error of its own and hides one: for any store at all, the error of
    [CreateVM] or [UpdateVMDesiredState] is returned as it is and nothing is logged after
    it, while an error of [AppendEvent] is dropped and the mutation is reported as done. *)
Theorem service_errors {S Q} `{StateStore S} spec id e st (q : Q) :
  (∀ err e1 st1, State.CreateVM spec e st = (Fail err, e1, st1) →
     Service.CreateVM spec e (mkService st q) = (Fail err, e1, mkService st1 q)) ∧
  (∀ err e1 st1, State.UpdateVMDesiredState id DesiredStopped e st = (Fail err, e1, st1) →
     StopVM id e (mkService st q) = (Fail err, e1, mkService st1 q)) ∧
  (∀ err e1 st1, State.UpdateVMDesiredState id DesiredDeleted e st = (Fail err, e1, st1) →
     DeleteVM id e (mkService st q) = (Fail err, e1, mkService st1 q)) ∧
  (∀ vmID e1 st1 err e2 st2, State.CreateVM spec e st = (Ok vmID, e1, st1) →
     State.AppendEvent (lifecycle_event vmID "vm.created") e1 st1 = (Fail err, e2, st2) →
     Service.CreateVM spec e (mkService st q) = (Ok vmID, e2, mkService st2 q)) ∧
  (∀ e1 st1 err e2 st2, State.UpdateVMDesiredState id DesiredStopped e st = (Ok tt, e1, st1) →
     State.AppendEvent (lifecycle_event id "vm.stop_requested") e1 st1 = (Fail err, e2, st2) →
     StopVM id e (mkService st q) = (Ok tt, e2, mkService st2 q)).
Proof.
  unfold Service.CreateVM, StopVM, DeleteVM, on_state. munfold. cbn [state queue].
  split_and!; [intros * H1; by rewrite H1..| |];
    intros * H1 H2; rewrite H1; cbn [state queue]; by rewrite H2.
Qed.

(** A store whose event log is broken, around the in-memory one. *)
Record LogDown := mkLogDown { healthy : MemState.Store }.
Definition log_down : error := ErrOther "log down" None.
Definition through {A} (m : M MemState.Store A) : M LogDown A := zoom healthy (λ s _, mkLogDown s) m.

Definition LogDown_store : StateStore LogDown := {|
  State.CreateVM spec := through (MemState.CreateVM spec);
  State.GetVM id := through (MemState.GetVM id);
  State.UpdateVMDesiredState id d := through (MemState.UpdateVMDesiredState id d);
  State.UpdateVMObservedState id o c := through (MemState.UpdateVMObservedState id o c);
  State.AssignVM id c := through (MemState.AssignVM id c);
  State.ListPendingVMs := through MemState.ListPendingVMs;
  State.AppendEvent _ := ret (Fail log_down);
  State.ListEvents f := through (MemState.ListEvents f);
  State.RegisterController c := through (MemState.RegisterController c);
  State.UpdateControllerHeartbeat id hb := through (MemState.UpdateControllerHeartbeat id hb);
  State.ListControllers f := through (MemState.ListControllers f);
|}.

Lemma service_errors_witness :
  let o := @State.CreateVM LogDown LogDown_store zero_VMSpec test_env (mkLogDown MemState.New) in
  result (@Service.CreateVM LogDown () LogDown_store zero_VMSpec test_env
            (mkService (mkLogDown MemState.New) tt)) = Ok (test_id 0) ∧
  events (healthy (state_after o)) = [].
Proof.
  split; [|reflexivity].
  destruct (@service_errors LogDown () LogDown_store zero_VMSpec "" test_env
              (mkLogDown MemState.New) tt) as (_ & _ & _ & H & _).
  rewrite (H (test_id 0) _ _ log_down _ _ (outcome_eta _) (outcome_eta _)). reflexivity.
Defined.

(** ** Listings *)

Lemma clampLimit_range limit : (1 ≤ clampLimit limit ≤ 1000)%Z.
Proof.
  unfold clampLimit, defaultListLimit, maxListLimit.
  destruct (Z.leb_spec limit 0), (Z.ltb_spec 1000 limit); lia.
Qed.

Lemma limit_take_clamp {A} limit (l : list A) : (List.length (limit_take (clampLimit limit) l) ≤ 1000)%nat.
Proof.
  pose proof (clampLimit_range limit). pose proof (limit_take_length (clampLimit limit) l). lia.
Qed.

(** C34: A listing through the service never has more than 1000 items: the limit asked for is
    used between 1 and 1000, 100 stands for a missing, zero or negative one and 1000 for a
    larger one; [ListEvents] returns the first that many matching events of the log, and
    neither listing changes the store. *)
Theorem service_lists_bounded {S Q} `{StateStoreSpec S} ef cf e (sv : Service S Q) :
  (∀ n, clampLimit n = if decide (n ≤ 0)%Z then 100%Z else Z.min n 1000) ∧
  (∀ r e' sv', ListEvents ef e sv = (r, e', sv') →
     ∃ l, r = Ok (built_slice l) ∧ (List.length l ≤ 1000)%nat ∧
       l = limit_take (clampLimit (ef_Limit ef))
             (filterb (event_matches ef) (sv_events (view (state sv)))) ∧
       view (state sv') = view (state sv)) ∧
  (∀ r e' sv', ListControllers cf e sv = (r, e', sv') →
     ∃ l, r = Ok (built_slice l) ∧ (List.length l ≤ 1000)%nat ∧
       (∀ c, c ∈ l → ∃ id, sv_controllers (view (state sv)) !! id = Some c) ∧
       view (state sv') = view (state sv)).
Proof.
  split; [|split].
  - intros n. unfold clampLimit, defaultListLimit, maxListLimit.
    destruct (Z.leb_spec n 0), (Z.ltb_spec 1000 n); case_decide; lia.
  - intros r e' sv' Hr. apply on_state_inv in Hr as (st' & Hr & ->).
    apply ListEvents_law in Hr as (_ & Hv & ->). eexists. split; [reflexivity|].
    split; [apply limit_take_clamp|]. done.
  - intros r e' sv' Hr. apply on_state_inv in Hr as (st' & Hr & ->).
    apply ListControllers_law in Hr as (_ & Hv & l & Hl & ->). eexists. split; [reflexivity|].
    split; [apply limit_take_clamp|]. split; [|done].
    intros c Hc%elem_of_limit_take. apply elem_of_filterb in Hc as [Hc _].
    rewrite Hl in Hc. apply list_elem_of_fmap in Hc as ([id c'] & -> & Hc).
    exists id. by apply elem_of_map_to_list.
Qed.

(** ** The audit log *)

(** The desired state an event log gives the VM [id]. *)
Definition replay_event (id : string) (o : option string) (ev : Event) : option string :=
  if decide (ev_VMID ev = id) then
    if decide (ev_Type ev = "vm.created") then Some "running"
    else if decide (ev_Type ev = "vm.stop_requested") then Some "stopped"
    else if decide (ev_Type ev = "vm.delete_requested") then Some "deleted"
    else o
  else o.
Definition replay (id : string) (log : list Event) : option string :=
  foldl (replay_event id) None log.

(** The log explains the desired state of every VM. *)
Definition audited (v : StoreView) : Prop :=
  ∀ id, vm_DesiredState <$> sv_vms v !! id = replay id (sv_events v).

Lemma audited_log v id d vm ev e e' ty ctls :
  audited v → logged e e' id ty ev → vm_DesiredState vm = d →
  (∀ o, replay_event id o ev = Some d) →
  audited (mkStoreView (<[id := vm]> (sv_vms v)) ctls (sv_events v ++ [ev])%list).
Proof.
  intros Hv (Hid & _) Hd Hev k. unfold replay. cbn [sv_vms sv_events].
  rewrite foldl_app. cbn [foldl].
  fold (replay k (sv_events v)). rewrite <- Hv, lookup_insert. case_decide as Hk.
  - subst k. rewrite Hev. cbn. by f_equal.
  - unfold replay_event. rewrite decide_False by congruence. done.
Qed.

Lemma svc_call_audited {S Q} `{StateStoreSpec S} c e (sv : Service S Q) r e' sv' :
  svc_call c e sv = (r, e', sv') → audited (view (state sv)) → audited (view (state sv')).
Proof.
  intros Hc Hv. destruct c; cbn [svc_call] in Hc; apply fmapM_inv in Hc as (x & Hc & ->).
  - apply create_inv in Hc as (_ & _ & id & now & ev & _ & _ & _ & Hev & _ & ->).
    eapply audited_log; [done..|]. intros o. destruct Hev as (Hid & _ & Hty & _).
    unfold replay_event. by rewrite Hid, Hty, !decide_True.
  - apply on_state_inv in Hc as (st' & Hc & ->). apply GetVM_law in Hc as (_ & Hv' & _).
    cbn [state]. by rewrite Hv'.
  - rewrite StopVM_then_log in Hc. apply request_inv in Hc as (_ & _ & Hc).
    destruct (sv_vms (view (state sv)) !! vmID) as [vm|]; [|by destruct Hc as [_ ->]].
    destruct Hc as (_ & now & ev & _ & Hev & ->). eapply audited_log; [done..|].
    intros o. destruct Hev as (Hid & _ & Hty & _).
    unfold replay_event. by rewrite Hid, Hty, decide_True.
  - rewrite DeleteVM_then_log in Hc. apply request_inv in Hc as (_ & _ & Hc).
    destruct (sv_vms (view (state sv)) !! vmID) as [vm|]; [|by destruct Hc as [_ ->]].
    destruct Hc as (_ & now & ev & _ & Hev & ->). eapply audited_log; [done..|].
    intros o. destruct Hev as (Hid & _ & Hty & _).
    unfold replay_event. by rewrite Hid, Hty, decide_True.
  - apply on_state_inv in Hc as (st' & Hc & ->). apply RegisterController_law in Hc as [_ Hc].
    cbn [state]. destruct (sv_controllers _ !! _); destruct Hc as [_ ->]; exact Hv.
  - apply on_state_inv in Hc as (st' & Hc & ->). apply UpdateControllerHeartbeat_law in Hc as [_ Hc].
    cbn [state]. destruct (sv_controllers _ !! _).
    + destruct Hc as (_ & now & _ & ->). exact Hv.
    + destruct Hc as [_ ->]. exact Hv.
  - apply on_state_inv in Hc as (st' & Hc & ->). apply ListControllers_law in Hc as (_ & Hv' & _).
    cbn [state]. by rewrite Hv'.
  - apply on_state_inv in Hc as (st' & Hc & ->). apply ListEvents_law in Hc as (_ & Hv' & _).
    cbn [state]. by rewrite Hv'.
Qed.

(** C8: The event log is a complete audit trail: from a store with neither VMs nor events,
    after any sequence of service calls by any clients, replaying the log gives the desired
    state of every VM, and gives nothing for an identifier that is not a VM. *)
Theorem audit_trail {S Q} `{StateStoreSpec S} cs e (sv : Service S Q) rs e' sv' :
  sv_vms (view (state sv)) = ∅ → sv_events (view (state sv)) = [] →
  run_service cs e sv = (rs, e', sv') →
  ∀ id, vm_DesiredState <$> sv_vms (view (state sv')) !! id =
        replay id (sv_events (view (state sv'))).
Proof.
  intros Hvms Hev Hrun.
  refine (run_all_ind svc_call (λ _ sv, audited (view (state sv))) cs _ e sv rs e' sv' _ Hrun).
  - intros c e1 s1 r e2 s2 _ Hs Hc. by eapply svc_call_audited.
  - intros id. by rewrite Hvms, Hev, lookup_empty.
Qed.

Definition audit_calls : list SvcCall :=
  [SCreateVM zero_VMSpec; SCreateVM zero_VMSpec; SDeleteVM "nope"; SStopVM (test_id 0);
   SDeleteVM (test_id 2); SListEvents (mkEventFilter "" "" "" 0%Z 0%Z)].

Lemma audit_trail_witness :
  let o := run_service audit_calls test_env svc0 in
  (∀ id, vm_DesiredState <$> sv_vms (view (state (state_after o))) !! id =
         replay id (sv_events (view (state (state_after o))))) ∧
  replay (test_id 0) (sv_events (view (state (state_after o)))) = Some "stopped".
Proof.
  split.
  - exact (audit_trail audit_calls test_env svc0 _ _ _ eq_refl eq_refl (outcome_eta _)).
  - vm_compute. reflexivity.
Defined.
