(* ===== verification/ServiceConc.v ===== *)
(** * The service under concurrency (src/api/service.go)

    A mutation of the service is two calls on the store, the change and then
    its event, and nothing holds a lock over both.  Here the calls of any
    number of clients run as threads, one call on the store at a time, in the
    order a schedule gives. *)

From S2P Require Import Prelude GoLib Model ProviderErr Runtime State StateTheory Queue Service ServiceTheory.
From S2P Require Import MemState MemQueue.

Local Open Scope string_scope.

(** ** Threads *)

(** A call not yet made, one whose event is still to be appended, and a finished one. *)
Inductive Thread :=
  | TCall (c : SvcCall)
  | TLog (ev : Event) (reply : SvcReply)
  | TDone (reply : SvcReply).

(** What follows a mutation: its error, or the event to append. *)
Definition then_event {A} (reply : Res A → SvcReply) (ev : A → Event) (r : Res A) : Thread :=
  match r with Fail err => TDone (reply (Fail err)) | Ok a => TLog (ev a) (reply (Ok a)) end.

Section Threads.
Context {S : Type} `{StateStore S}.

(** The next call a thread makes on the store. *)
Definition thread_step (t : Thread) : M S Thread :=
  match t with
  | TCall (SCreateVM spec) =>
      fmapM (then_event SRString (λ id, lifecycle_event id "vm.created")) (State.CreateVM spec)
  | TCall (SStopVM vmID) =>
      fmapM (then_event SRUnit (λ _, lifecycle_event vmID "vm.stop_requested"))
        (State.UpdateVMDesiredState vmID DesiredStopped)
  | TCall (SDeleteVM vmID) =>
      fmapM (then_event SRUnit (λ _, lifecycle_event vmID "vm.delete_requested"))
        (State.UpdateVMDesiredState vmID DesiredDeleted)
  | TCall (SGetVM vmID) => fmapM (λ r, TDone (SRVM r)) (State.GetVM vmID)
  | TCall (SRegisterController c) => fmapM (λ r, TDone (SRUnit r)) (State.RegisterController c)
  | TCall (SHeartbeat id hb) => fmapM (λ r, TDone (SRUnit r)) (State.UpdateControllerHeartbeat id hb)
  | TCall (SListControllers f) =>
      fmapM (λ r, TDone (SRControllers r))
        (State.ListControllers (cf_with_Limit f (clampLimit (cf_Limit f))))
  | TCall (SListEvents f) =>
      fmapM (λ r, TDone (SREvents r)) (State.ListEvents (ef_with_Limit f (clampLimit (ef_Limit f))))
  | TLog ev reply => fmapM (λ _, TDone reply) (State.AppendEvent ev)
  | TDone reply => ret (TDone reply)
  end.

(** The schedule names the thread that makes the next call. *)
Definition schedule_step (ts : list Thread) (i : nat) : M S (list Thread) :=
  match ts !! i with
  | Some t => fmapM (λ t', <[i := t']> ts) (thread_step t)
  | None => ret ts
  end.

Fixpoint run_schedule (sched : list nat) (ts : list Thread) : M S (list Thread) :=
  match sched with
  | [] => ret ts
  | i :: sched => ts' <- schedule_step ts i ;; run_schedule sched ts'
  end.

(** Alone, a thread does what the method does, in two steps at most. *)
Lemma thread_alone {Q} c e (sv : Service S Q) :
  let '(t1, e1, s1) := thread_step (TCall c) e (state sv) in
  let '(t2, e2, s2) := thread_step t1 e1 s1 in
  ∃ reply, t2 = TDone reply ∧ svc_call c e sv = (reply, e2, mkService s2 (queue sv)).
Proof.
  destruct sv as [st q].
  destruct c; cbn [thread_step svc_call state queue];
    unfold Service.CreateVM, Service.StopVM, Service.DeleteVM, Service.GetVM, Service.RegisterController,
      Service.Heartbeat, Service.ListControllers, Service.ListEvents, on_state, fmapM; munfold; cbn [state queue];
    match goal with |- context [?m e st] =>
      lazymatch type of (m e st) with (Res _ * Env * S)%type => destruct (m e st) as [[[x|err] e1] s1] end
    end; cbn [then_event thread_step]; unfold fmapM; munfold; try (by eexists); cbn [state queue];
    destruct (State.AppendEvent _ e1 s1) as [[y e2] s2];
    repeat match goal with x : () |- _ => destruct x end; by eexists.
Qed.
End Threads.

(** ** What the schedule cannot break *)

(** The event of a mutation, by VM and type; and the event a thread owes or has
    appended, given the call it started as. *)
Definition event_key (ev : Event) : string * string := (ev_VMID ev, ev_Type ev).

Definition mutation_key (c : SvcCall) (reply : SvcReply) : option (string * string) :=
  match c, reply with
  | SCreateVM _, SRString (Ok id) => Some (id, "vm.created")
  | SStopVM id, SRUnit (Ok _) => Some (id, "vm.stop_requested")
  | SDeleteVM id, SRUnit (Ok _) => Some (id, "vm.delete_requested")
  | _, _ => None
  end.

(** The event a thread has appended: that of its call, once it has finished. *)
Definition appended (ct : SvcCall * Thread) : option (string * string) :=
  match ct.2 with TDone reply => mutation_key ct.1 reply | _ => None end.

(** A thread is where its call can be. *)
Definition thread_ok (c : SvcCall) (t : Thread) : Prop :=
  match t with
  | TCall c' => c' = c
  | TLog ev reply => mutation_key c reply = Some (event_key ev)
  | TDone _ => True
  end.

Section Laws.
Context {S : Type} `{StateStoreSpec S}.

(** A step is at most one call on the store. *)
Lemma thread_step_call t e (s : S) t' e' s' :
  thread_step t e s = (t', e', s') →
  (∃ reply, t = TDone reply ∧ t' = t ∧ e' = e ∧ s' = s) ∨
  ∃ c r, call c e s = (r, e', s') ∧
    match t with TLog ev _ => c = CAppendEvent ev | _ => ∀ ev, c ≠ CAppendEvent ev end.
Proof.
  intros Hs. destruct t as [c|ev reply|reply]; [..|left; injection Hs as <- <- <-; by eexists]; right.
  - destruct c; cbn [thread_step] in Hs; apply fmapM_inv in Hs as (x & Hs & ->);
      [exists (CCreateVM spec)|exists (CGetVM vmID)|exists (CUpdateVMDesiredState vmID DesiredStopped)
      |exists (CUpdateVMDesiredState vmID DesiredDeleted)|exists (CRegisterController c)
      |exists (CUpdateControllerHeartbeat controllerID hb)
      |exists (CListControllers (cf_with_Limit f (clampLimit (cf_Limit f))))
      |exists (CListEvents (ef_with_Limit f (clampLimit (ef_Limit f))))];
      cbn [call]; unfold fmapM; munfold; rewrite Hs; by eexists.
  - cbn [thread_step] in Hs. apply fmapM_inv in Hs as (x & Hs & ->). exists (CAppendEvent ev).
    cbn [call]. unfold fmapM. munfold. rewrite Hs. by eexists.
Qed.

(** The first step of a call leaves it where a call can be, with nothing appended. *)
Lemma call_first c e (s : S) t' e' s' :
  thread_step (TCall c) e s = (t', e', s') → thread_ok c t' ∧ appended (c, t') = None.
Proof.
  intros Hs. destruct c; cbn [thread_step] in Hs; apply fmapM_inv in Hs as ([x|err] & _ & ->); done.
Qed.

(** A step appends an event exactly when it finishes a mutation. *)
Lemma thread_step_events c t e (s : S) t' e' s' :
  thread_ok c t → thread_step t e s = (t', e', s') →
  thread_ok c t' ∧
  ∃ new, sv_events (view s') = (sv_events (view s) ++ new)%list ∧
    option_to_list (appended (c, t')) = (option_to_list (appended (c, t)) ++ (event_key <$> new))%list.
Proof.
  intros Ht Hs. pose proof (thread_step_call _ _ _ _ _ _ Hs) as [(reply & -> & -> & -> & ->)|(k & r & Hk & Hc)].
  { split; [done|]. exists []. by rewrite !app_nil_r. }
  destruct t as [c'|ev reply|reply]; cbn [thread_ok] in Ht.
  - subst c'. apply call_first in Hs as [Hok Hno]. split; [done|]. exists [].
    rewrite !app_nil_r, Hno. split; [|done]. apply call_events_step in Hk.
    destruct k; try done. by destruct (Hc ev).
  - subst k. apply call_events_step in Hk as (ev' & Hev & Hv). cbn [thread_step] in Hs.
    apply fmapM_inv in Hs as (x & _ & ->). split; [done|]. exists [ev']. split; [done|].
    destruct Hev as (id & now & -> & _). unfold appended. cbn [fst snd]. by rewrite Ht.
  - injection Hs as <- <- <-. split; [done|]. exists []. by rewrite !app_nil_r.
Qed.

(** The threads and the log, whatever the schedule. *)
Record audit_inv (cs : list SvcCall) (s0 : S) (ts : list Thread) (s : S) : Prop := {
  au_threads : Forall2 thread_ok cs ts;
  au_log : ∃ new, sv_events (view s) = (sv_events (view s0) ++ new)%list ∧
    (event_key <$> new) ≡ₚ omap appended (zip cs ts);
}.

Lemma schedule_step_audit cs s0 ts i e s ts' e' s' :
  schedule_step ts i e s = (ts', e', s') → audit_inv cs s0 ts s → audit_inv cs s0 ts' s'.
Proof.
  unfold schedule_step. intros Hs [Hts (new & Hlog & Hkeys)].
  destruct (ts !! i) as [t|] eqn:Ht; [|injection Hs as <- <- <-; split; [done|by exists new]].
  apply fmapM_inv in Hs as (t' & Hs & ->).
  destruct (Forall2_lookup_r _ _ _ _ _ Hts Ht) as (c & Hc & Hok).
  destruct (thread_step_events _ _ _ _ _ _ _ Hok Hs) as (Hok' & new' & Hlog' & Happ). split.
  - apply Forall2_same_length_lookup in Hts as [Hlen Hall]. apply Forall2_same_length_lookup.
    rewrite length_insert. split; [done|]. intros j c' t''. destruct (decide (i = j)) as [<-|Hne].
    + rewrite list_lookup_insert_eq by (by eapply lookup_lt_Some). intros. by simplify_eq.
    + rewrite list_lookup_insert_ne by done. apply Hall.
  - exists (new ++ new')%list. split; [by rewrite Hlog', Hlog, app_assoc|].
    assert (zip cs (<[i := t']> ts) = <[i := (c, t')]> (zip cs ts)) as ->
      by (rewrite (insert_zip_with pair cs ts i c t'); by rewrite (list_insert_id cs i c)).
    rewrite fmap_app, Hkeys. symmetry. apply (omap_insert_perm _ _ _ (c, t)); [|done].
    by rewrite lookup_zip_with, Hc, Ht.
Qed.

Lemma run_schedule_audit cs s0 sched : ∀ ts e s ts' e' s',
  run_schedule sched ts e s = (ts', e', s') → audit_inv cs s0 ts s → audit_inv cs s0 ts' s'.
Proof.
  induction sched as [|i sched IH]; intros ts e s ts' e' s' Hrun Hinv; cbn [run_schedule] in Hrun; munfold_in Hrun.
  - by injection Hrun as <- <- <-.
  - destruct (schedule_step ts i e s) as [[ts1 e1] s1] eqn:Hs.
    eapply IH; [exact Hrun|]. by eapply schedule_step_audit.
Qed.

(** A run of threads is a run of calls on the store. *)
Lemma run_schedule_calls sched : ∀ ts e (s : S) ts' e' s',
  run_schedule sched ts e s = (ts', e', s') → ∃ calls rs, run_calls calls e s = (rs, e', s').
Proof.
  induction sched as [|i sched IH]; intros ts e s ts' e' s' Hrun; cbn [run_schedule] in Hrun; munfold_in Hrun.
  - injection Hrun as <- <- <-. by exists [], [].
  - destruct (schedule_step ts i e s) as [[ts1 e1] s1] eqn:Hs.
    destruct (IH _ _ _ _ _ _ Hrun) as (calls & rs & Hcalls). unfold schedule_step in Hs.
    destruct (ts !! i) as [t|]; [|injection Hs as <- <- <-; by exists calls, rs].
    apply fmapM_inv in Hs as (t' & Hs & _).
    apply thread_step_call in Hs as [(reply & _ & _ & -> & ->)|(c & r & Hc & _)]; [by exists calls, rs|].
    exists (c :: calls), (r :: rs). unfold run_calls in *. by rewrite run_all_cons, Hc, Hcalls.
Qed.

End Laws.

(** C9: The audit trail under concurrency: when any calls on the service by any number of clients
    run interleaved, one call on the store at a time in any order, the log grows at every
    moment by exactly one event per mutation that has returned successfully, naming its VM
    and its kind, and none for a mutation that failed or a call that reads; and what
    happens to the store is a run of its own calls, so every invariant of the store holds. *)
Theorem concurrent_audit {S} `{StateStoreSpec S} cs sched e (s : S) ts e' s' :
  run_schedule sched (TCall <$> cs) e s = (ts, e', s') →
  (∃ new, sv_events (view s') = (sv_events (view s) ++ new)%list ∧
     ((λ ev, (ev_VMID ev, ev_Type ev)) <$> new) ≡ₚ
       omap (λ ct : SvcCall * Thread,
               match ct with
               | (SCreateVM _, TDone (SRString (Ok id))) => Some (id, "vm.created")
               | (SStopVM id, TDone (SRUnit (Ok _))) => Some (id, "vm.stop_requested")
               | (SDeleteVM id, TDone (SRUnit (Ok _))) => Some (id, "vm.delete_requested")
               | _ => None
               end) (zip cs ts)) ∧
  ∃ calls rs, run_calls calls e s = (rs, e', s').
Proof.
  intros Hrun. split; [|by eapply run_schedule_calls].
  destruct (run_schedule_audit cs s sched _ _ _ _ _ _ Hrun) as [_ (new & Hlog & Hkeys)].
  - split.
    + apply Forall2_fmap_r, Forall_Forall2_diag, Forall_true. done.
    + exists []. rewrite app_nil_r. split; [done|]. rewrite omap_nothing; [done|].
      apply Forall_forall. intros [c t] Hin. apply elem_of_zip_r in Hin as Ht.
      apply list_elem_of_fmap in Ht as (c' & -> & _). done.
  - exists new. split; [done|]. etrans; [exact Hkeys|]. apply reflexive_eq, list_omap_ext.
    clear. induction (zip cs ts) as [|[c [c'|ev r|r]] l IH]; constructor; try done; by destruct c.
Qed.

(** ** A schedule that reorders the log *)

(** A store with one VM and its creation logged. *)
Definition one_vm := state_after (Service.CreateVM zero_VMSpec test_env svc0).
Definition one_id : string := test_id 0.

Definition racers : list SvcCall := [SStopVM one_id; SDeleteVM one_id; SGetVM "nope"].
Definition race_schedule : list nat := [0; 1; 2; 1; 0].

Lemma concurrent_audit_witness :
  let o := run_schedule race_schedule (TCall <$> racers) test_env (state one_vm) in
  ∃ new, MemState.events (state_after o) = (MemState.events (state one_vm) ++ new)%list ∧
    ((λ ev, (ev_VMID ev, ev_Type ev)) <$> new) ≡ₚ
      [(one_id, "vm.stop_requested"); (one_id, "vm.delete_requested")].
Proof.
  destruct (concurrent_audit racers race_schedule test_env (state one_vm) _ _ _
              (outcome_eta (run_schedule race_schedule (TCall <$> racers) test_env (state one_vm))))
    as [(new & Hlog & Hkeys) _].
  exists new. split; [exact Hlog|exact Hkeys].
Defined.

(** The stop changes the VM first and logs last: the VM is to be deleted, and
    its log ends with the stop. *)
Lemma log_order_race :
  let '(_, _, s) := run_schedule race_schedule (TCall <$> racers) test_env (state one_vm) in
  vm_DesiredState <$> MemState.vms s !! one_id = Some "deleted" ∧
  replay one_id (MemState.events s) = Some "stopped".
Proof. vm_compute. split; reflexivity. Qed.
