(* ===== verification/Rfc3339.v ===== *)
(** * Calendar and RFC 3339 ([time.Parse], [time.Time.MarshalJSON])

    A time is rendered in its own location.  The calendar is the proleptic Gregorian
    one, counted in days from January 1, year 1; a year runs from March in
    the arithmetic, so that the leap day is the last of it. *)

From S2P Require Import Prelude GoLib.
From Stdlib Require Import Strings.String Strings.Ascii DecimalString DecimalZ DecimalFacts.

Local Open Scope string_scope.
Local Open Scope Z_scope.

(** ** The calendar *)

Record Date := mkDate { year : Z; month : Z; day : Z }.

(** Days before March 1 of year 0 in an era of 400 years. *)
Definition day_of_era (d : Date) : Z :=
  let y := if month d <=? 2 then year d - 1 else year d in
  let yoe := y mod 400 in
  let doy := (153 * ((month d + 9) mod 12) + 2) / 5 + day d - 1 in
  yoe * 365 + yoe / 4 - yoe / 100 + doy.

Definition days_of_date (d : Date) : Z :=
  let y := if month d <=? 2 then year d - 1 else year d in
  y / 400 * 146097 + day_of_era d - 306.

Definition date_of_days (n : Z) : Date :=
  let z := n + 306 in
  let doe := z mod 146097 in
  let yoe := (doe - doe / 1460 + doe / 36524 - doe / 146096) / 365 in
  let doy := doe - (365 * yoe + yoe / 4 - yoe / 100) in
  let mp := (5 * doy + 2) / 153 in
  let m := if mp <? 10 then mp + 3 else mp - 9 in
  mkDate (yoe + z / 146097 * 400 + (if m <=? 2 then 1 else 0)) m (doy - (153 * mp + 2) / 5 + 1).

Definition is_leap (y : Z) : bool :=
  (y mod 4 =? 0) && (negb (y mod 100 =? 0) || (y mod 400 =? 0)).

Definition days_in (m y : Z) : Z :=
  if m =? 2 then (if is_leap y then 29 else 28)
  else if (m =? 4) || (m =? 6) || (m =? 9) || (m =? 11) then 30 else 31.

(** ** Rendering *)

Definition digit (n : Z) : string :=
  String (ascii_of_N (48 + Z.to_N (n mod 10))) "".

(** The [k] low decimal digits of [n], zero-padded. *)
Fixpoint digits (k : nat) (n : Z) : string :=
  match k with
  | O => ""
  | S k => digits k (n / 10) +:+ digit n
  end.

(** [.nnnnnnnnn] without trailing zeros, nothing for a whole second. *)
Fixpoint fraction (k : nat) (ns : Z) : string :=
  match k with
  | O => ""
  | S k => if ns mod 10 =? 0 then fraction k (ns / 10) else "." +:+ digits (S k) ns
  end.

Definition day_ns : Z := 86400 * Second.

(** The minutes of an offset, without its seconds, and how they are written. *)
Definition offset_minutes (off : Z) : Z := Z.quot off 60.
Definition zone_text (off : Z) : string :=
  if off =? 0 then "Z"
  else let m := Z.abs (offset_minutes off) in
       (if offset_minutes off <? 0 then "-" else "+") +:+ digits 2 (m / 60) +:+ ":" +:+ digits 2 (m mod 60).

(** What its clock and calendar show, as an instant of UTC. *)
Definition local_time (z : ZonedTime) : Time := zt_instant z + zt_offset z * Second.

(** [z.MarshalJSON()] without its quotes: [z.Format(time.RFC3339Nano)] for a
    year between 0 and 9999 and an offset of less than 24 hours; other times do
    not marshal. *)
Definition format_zoned (z : ZonedTime) : option string :=
  let t := local_time z in
  let d := date_of_days (t / day_ns) in
  let ns := t mod day_ns in
  if (0 <=? year d) && (year d <=? 9999) && (Z.abs (offset_minutes (zt_offset z)) / 60 <? 24) then
    Some (digits 4 (year d) +:+ "-" +:+ digits 2 (month d) +:+ "-" +:+ digits 2 (day d) +:+ "T" +:+
          digits 2 (ns / (3600 * Second)) +:+ ":" +:+ digits 2 (ns / (60 * Second) mod 60) +:+ ":" +:+
          digits 2 (ns / Second mod 60) +:+ fraction 9 (ns mod Second) +:+ zone_text (zt_offset z))
  else None.

Definition format_time (t : Time) : option string := format_zoned (in_UTC t).

(** ** Parsing *)

Definition digit_val (c : ascii) : option Z :=
  let n := Z.of_N (N_of_ascii c) in
  if (48 <=? n) && (n <=? 57) then Some (n - 48) else None.

(** Exactly [k] digits. *)
Fixpoint read_digits (k : nat) (acc : Z) (s : string) : option (Z * string) :=
  match k with
  | O => Some (acc, s)
  | S k =>
      match s with
      | String c s =>
          match digit_val c with
          | Some v => read_digits k (10 * acc + v) s
          | None => None
          end
      | EmptyString => None
      end
  end.

Definition expect (c : ascii) (s : string) : option string :=
  match s with
  | String c' s => if Ascii.eqb c c' then Some s else None
  | EmptyString => None
  end.

(** The hour: [time.Parse] also takes a single digit. *)
Definition read_hour (s : string) : option (Z * string) :=
  match read_digits 2 0 s with
  | Some r => Some r
  | None => read_digits 1 0 s
  end.

(** The digits of a fraction, as nanoseconds: those past the ninth are dropped. *)
Fixpoint read_fraction (k : nat) (acc : Z) (s : string) : Z * string :=
  match s with
  | String c s' =>
      match digit_val c with
      | Some v => match k with
                  | O => read_fraction O acc s'
                  | S k => read_fraction k (acc + v * 10 ^ Z.of_nat k) s'
                  end
      | None => (acc, s)
      end
  | EmptyString => (acc, s)
  end.

(** An optional fraction: a period or a comma followed by a digit. *)
Definition read_fraction_opt (s : string) : Z * string :=
  match s with
  | String c (String d _ as s') =>
      if (Ascii.eqb c "."%char || Ascii.eqb c ","%char)
         && match digit_val d with Some _ => true | None => false end
      then read_fraction 9 0 s' else (0, s)
  | _ => (0, s)
  end.

(** [Z] or [+hh:mm] or [-hh:mm], in seconds. *)
Definition read_zone (s : string) : option (Z * string) :=
  match s with
  | String c s' =>
      if Ascii.eqb c "Z"%char then Some (0, s')
      else if Ascii.eqb c "+"%char || Ascii.eqb c "-"%char then
        '(hh, s') ← read_digits 2 0 s';
        s' ← expect ":" s';
        '(mm, s') ← read_digits 2 0 s';
        if (hh <=? 24) && (mm <=? 60) then
          let off := 3600 * hh + 60 * mm in
          Some (if Ascii.eqb c "+"%char then off else - off, s')
        else None
      else None
  | EmptyString => None
  end.

(** [time.Parse(time.RFC3339, s)] *)
Definition parse_zoned (s : string) : option ZonedTime :=
  '(y, s) ← read_digits 4 0 s;
  s ← expect "-" s;
  '(mo, s) ← read_digits 2 0 s;
  s ← expect "-" s;
  '(d, s) ← read_digits 2 0 s;
  s ← expect "T" s;
  '(h, s) ← read_hour s;
  s ← expect ":" s;
  '(mi, s) ← read_digits 2 0 s;
  s ← expect ":" s;
  '(sec, s) ← read_digits 2 0 s;
  let '(ns, s) := read_fraction_opt s in
  '(off, s) ← read_zone s;
  if String.eqb s "" && (1 <=? mo) && (mo <=? 12) && (1 <=? d) && (d <=? days_in mo y)
     && (h <? 24) && (mi <? 60) && (sec <? 60)
  then Some (mkZonedTime (days_of_date (mkDate y mo d) * day_ns
                          + (3600 * h + 60 * mi + sec - off) * Second + ns) off)
  else None.

(** The instant alone. *)
Definition parse_time (s : string) : option Time := zt_instant <$> parse_zoned s.

(** Documented renderings and parses. *)
Example format_zero : format_time 0 = Some "0001-01-01T00:00:00Z".
Proof. reflexivity. Qed.
Example format_unix_epoch : format_time (719162 * day_ns) = Some "1970-01-01T00:00:00Z".
Proof. reflexivity. Qed.
Example parse_offset : parse_time "2026-03-31T02:12:50.25+02:00" = parse_time "2026-03-31T00:12:50.250Z".
Proof. reflexivity. Qed.
Example format_offset :
  (parse_zoned "2026-03-31T02:12:50.25+02:00" ≫= format_zoned) = Some "2026-03-31T02:12:50.25+02:00".
Proof. reflexivity. Qed.
Example format_wide_offset : (parse_zoned "2026-03-31T02:12:50-24:00" ≫= format_zoned) = None.
Proof. reflexivity. Qed.
Example parse_bad_day : parse_time "2025-02-29T00:00:00Z" = None.
Proof. reflexivity. Qed.
Example format_leap :
  (parse_time "2024-02-29T23:59:59.000000001Z" ≫= format_time) = Some "2024-02-29T23:59:59.000000001Z".
Proof. reflexivity. Qed.
