(* ===== verification/Rfc3339Theory.v ===== *)
(** * Rendering and parsing times: the round trip *)

From S2P Require Import Prelude GoLib Rfc3339.
From Stdlib Require Import Strings.String Strings.Ascii.

Local Open Scope string_scope.
Local Open Scope Z_scope.

(** ** The calendar in one era of 400 years *)

Definition date_ok (d : Date) : bool :=
  (1 <=? month d) && (month d <=? 12) && (1 <=? day d) && (day d <=? days_in (month d) (year d)).

(** The year that starts in March, and the days of the era before it. *)
Definition march_year (d : Date) : Z := if month d <=? 2 then year d - 1 else year d.
Definition year_start (y : Z) : Z := 365 * y + y / 4 - y / 100.

(** The year of a day of the era, and the day of that year: the last is a leap day. *)
Lemma year_of_era doe :
  0 ≤ doe < 146097 →
  let yoe := (doe - doe / 1460 + doe / 36524 - doe / 146096) / 365 in
  let doy := doe - year_start yoe in
  0 ≤ yoe ≤ 399 ∧ 0 ≤ doy ≤ 365 ∧
  (doy = 365 → (yoe + 1) mod 4 = 0 ∧ ((yoe + 1) mod 100 ≠ 0 ∨ (yoe + 1) mod 400 = 0)).
Proof.
  intros H yoe doy. subst doy yoe. unfold year_start. Z.to_euclidean_division_equations. lia.
Qed.

(** The month and day of a day of the year, counted from March. *)
Definition doy_ok (doy : Z) : bool :=
  let mp := (5 * doy + 2) / 153 in
  let m := if mp <? 10 then mp + 3 else mp - 9 in
  let d := doy - (153 * mp + 2) / 5 + 1 in
  (1 <=? m) && (m <=? 12) && (1 <=? d)
  && (if m =? 2 then (d <=? 28) || (doy =? 365) && (d <=? 29) else d <=? days_in m 1)
  && ((153 * ((m + 9) mod 12) + 2) / 5 + d - 1 =? doy).

Lemma doy_checked doy : 0 ≤ doy ≤ 365 → doy_ok doy = true.
Proof.
  intros H. assert (forallb (λ n, doy_ok (Z.of_nat n)) (seq 0 366) = true) as Hc
    by (vm_compute; reflexivity).
  rewrite forallb_forall in Hc. rewrite <- (Z2Nat.id doy) by lia. apply Hc.
  apply list_elem_of_In, elem_of_seq. lia.
Qed.

Lemma days_in_not_feb m y y' : m ≠ 2 → days_in m y = days_in m y'.
Proof. intros Hm. unfold days_in. by destruct (Z.eqb_spec m 2). Qed.

Lemma doe_checked doe :
  0 ≤ doe < 146097 →
  let d := date_of_days (doe - 306) in
  day_of_era d = doe ∧ march_year d / 400 = 0 ∧ date_ok d = true.
Proof.
  intros Hdoe d. pose proof (year_of_era doe Hdoe) as Hy. cbv zeta in Hy.
  subst d. unfold date_of_days. replace (doe - 306 + 306) with doe by lia.
  rewrite (Z.mod_small doe 146097), (Z.div_small doe 146097) by lia. cbv zeta.
  set (yoe := (doe - doe / 1460 + doe / 36524 - doe / 146096) / 365) in *.
  replace (365 * yoe + yoe / 4 - yoe / 100) with (year_start yoe) by done.
  set (doy := doe - year_start yoe) in *. destruct Hy as (Hyoe & Hdoy & Hleap).
  pose proof (doy_checked doy Hdoy) as Hc. unfold doy_ok in Hc.
  set (m := if (5 * doy + 2) / 153 <? 10 then _ else _) in *.
  set (d := doy - (153 * ((5 * doy + 2) / 153) + 2) / 5 + 1) in *. clearbody m d yoe.
  rewrite !andb_true_iff, !Z.leb_le, Z.eqb_eq in Hc. destruct Hc as ((((Hm1 & Hm2) & Hd1) & Hd2) & Hd).
  unfold march_year, day_of_era, date_ok. cbn [year month day].
  assert ((if m <=? 2 then yoe + 0 * 400 + (if m <=? 2 then 1 else 0) - 1
           else yoe + 0 * 400 + (if m <=? 2 then 1 else 0)) = yoe) as ->
    by (destruct (m <=? 2); lia).
  rewrite (Z.mod_small yoe 400), (Z.div_small yoe 400) by lia. split_and!; [|done|].
  - unfold year_start in doy. lia.
  - rewrite !andb_true_iff, !Z.leb_le. split_and!; try done.
    destruct (Z.eqb_spec m 2) as [->|Hne].
    + cbn [Z.leb Z.compare Pos.compare Pos.compare_cont]. unfold days_in, is_leap. cbn [Z.eqb Pos.eqb].
      rewrite orb_true_iff, andb_true_iff, !Z.leb_le, Z.eqb_eq in Hd2.
      destruct Hd2 as [Hd2|[H365 Hd2]]; [destruct (_ && _); lia|].
      destruct (Hleap H365) as [H4 H100]. replace (yoe + 0 * 400 + 1) with (yoe + 1) by lia.
      rewrite H4. cbn [Z.eqb andb].
      destruct (Z.eqb_spec ((yoe + 1) mod 100) 0), (Z.eqb_spec ((yoe + 1) mod 400) 0);
        cbn [negb orb]; lia.
    + rewrite Z.leb_le in Hd2. by erewrite days_in_not_feb.
Qed.

(** An era later is the same date 400 years later. *)
Lemma date_of_days_era n k :
  date_of_days (n + k * 146097) =
  mkDate (year (date_of_days n) + k * 400) (month (date_of_days n)) (day (date_of_days n)).
Proof.
  unfold date_of_days. replace (n + k * 146097 + 306) with (n + 306 + k * 146097) by lia.
  rewrite Z_mod_plus_full, Z_div_plus_full by lia. cbn [year month day]. f_equal. lia.
Qed.

Lemma is_leap_era y k : is_leap (y + k * 400) = is_leap y.
Proof.
  unfold is_leap. replace (k * 400) with (k * 4 * 100) at 2 by lia.
  replace (k * 400) with (k * 100 * 4) at 1 by lia. by rewrite !Z_mod_plus_full.
Qed.

Lemma days_of_date_era d k :
  days_of_date (mkDate (year d + k * 400) (month d) (day d)) = days_of_date d + k * 146097.
Proof.
  unfold days_of_date, day_of_era. cbn [year month day].
  assert (∀ y, (y + k * 400) / 400 = y / 400 + k ∧ (y + k * 400) mod 400 = y mod 400) as Hy.
  { intros y. by rewrite Z_mod_plus_full, Z_div_plus_full by lia. }
  destruct (month d <=? 2).
  - replace (year d + k * 400 - 1) with (year d - 1 + k * 400) by lia.
    destruct (Hy (year d - 1)) as [-> ->]. lia.
  - destruct (Hy (year d)) as [-> ->]. lia.
Qed.

Lemma date_of_days_ok n :
  days_of_date (date_of_days n) = n ∧ date_ok (date_of_days n) = true.
Proof.
  set (k := (n + 306) / 146097). set (doe := (n + 306) mod 146097).
  pose proof (Z.div_mod (n + 306) 146097 ltac:(lia)) as Hd.
  pose proof (Z.mod_pos_bound (n + 306) 146097 eq_refl) as Hb. fold k doe in Hd, Hb.
  assert (n = (doe - 306) + k * 146097) as Hn by lia.
  destruct (doe_checked doe Hb) as (He & Hy & Hdate).
  rewrite Hn, date_of_days_era, days_of_date_era. split.
  - unfold days_of_date. fold (march_year (date_of_days (doe - 306))). rewrite Hy, He. lia.
  - unfold date_ok in *. cbn [year month day]. unfold days_in in *. by rewrite is_leap_era.
Qed.

(** ** Digits *)

Lemma digit_val_digit n : digit_val (ascii_of_N (48 + Z.to_N (n mod 10))) = Some (n mod 10).
Proof.
  pose proof (Z.mod_pos_bound n 10 eq_refl) as Hb. unfold digit_val.
  rewrite N_ascii_embedding by lia.
  replace (Z.of_N (48 + Z.to_N (n mod 10))) with (48 + n mod 10) by lia.
  destruct (Z.leb_spec 48 (48 + n mod 10)), (Z.leb_spec (48 + n mod 10) 57); try lia.
  cbn [andb]. f_equal. lia.
Qed.

Lemma digit_app n rest :
  digit n +:+ rest = String (ascii_of_N (48 + Z.to_N (n mod 10))) rest.
Proof. done. Qed.

Lemma read_digits_S k acc s :
  read_digits (S k) acc s = ('(v, s) ← read_digits k acc s; read_digits 1 v s).
Proof.
  revert acc s. induction k as [|k IH]; intros acc s; [done|].
  destruct s as [|c s]; [done|]. cbn [read_digits]. destruct (digit_val c) as [v|]; [|done].
  rewrite <- IH. done.
Qed.

Lemma read_digits_digits k n acc rest :
  0 ≤ n < 10 ^ Z.of_nat k →
  read_digits k acc (digits k n +:+ rest) = Some (acc * 10 ^ Z.of_nat k + n, rest).
Proof.
  revert n acc rest. induction k as [|k IH]; intros n acc rest Hn.
  { cbn in *. do 2 f_equal. lia. }
  rewrite read_digits_S. cbn [digits]. rewrite string_app_assoc.
  rewrite Nat2Z.inj_succ, Z.pow_succ_r in * by lia.
  pose proof (Z.div_mod n 10 ltac:(lia)). pose proof (Z.mod_pos_bound n 10 eq_refl).
  rewrite IH by (split; [apply Z.div_pos; lia|apply Z.div_lt_upper_bound; lia]).
  cbn [mbind option_bind]. rewrite digit_app. cbn [read_digits].
  rewrite digit_val_digit. do 2 f_equal. lia.
Qed.

(** ** Fractions *)

Lemma read_fraction_stop k acc s :
  (match s with String c _ => digit_val c = None | EmptyString => True end) →
  read_fraction k acc s = (acc, s).
Proof. destruct s as [|c s]; [done|]. intros H. destruct k; cbn; by rewrite H. Qed.

Lemma read_fraction_app k j n acc rest :
  (k ≤ j)%nat → 0 ≤ n < 10 ^ Z.of_nat k →
  read_fraction j acc (digits k n +:+ rest) =
  read_fraction (j - k) (acc + n * 10 ^ Z.of_nat (j - k)) rest.
Proof.
  revert j n acc rest. induction k as [|k IH]; intros j n acc rest Hj Hn.
  { cbn in *. rewrite Nat.sub_0_r. f_equal. assert (n = 0) as -> by lia. lia. }
  cbn [digits]. rewrite string_app_assoc.
  rewrite Nat2Z.inj_succ, Z.pow_succ_r in Hn by lia.
  pose proof (Z.div_mod n 10 ltac:(lia)). pose proof (Z.mod_pos_bound n 10 eq_refl).
  rewrite IH by (lia || (split; [apply Z.div_pos; lia|apply Z.div_lt_upper_bound; lia])).
  rewrite digit_app.
  replace (j - k)%nat with (S (j - S k)) by lia. cbn [read_fraction]. rewrite digit_val_digit.
  f_equal. rewrite Nat2Z.inj_succ, Z.pow_succ_r by lia. nia.
Qed.

(** What may follow the fraction. *)
Definition zone_start (s : string) : Prop :=
  match s with String c _ => c = "Z"%char ∨ c = "+"%char ∨ c = "-"%char | EmptyString => False end.

Lemma fraction_spec k ns rest :
  (k ≤ 9)%nat → 0 ≤ ns < 10 ^ Z.of_nat k →
  zone_start rest →
  read_fraction_opt (fraction k ns +:+ rest) = (ns * 10 ^ Z.of_nat (9 - k), rest).
Proof.
  revert ns. induction k as [|k IH]; intros ns Hk Hns Hrest; cbn [fraction].
  { cbn [Z.of_nat] in Hns. assert (ns = 0) as -> by lia.
    destruct rest as [|c rest]; [done|]. destruct Hrest as [->|[->| ->]]; by destruct rest. }
  assert (0 ≤ ns < 10 ^ Z.of_nat (S k)) as Hns' by done.
  rewrite Nat2Z.inj_succ, Z.pow_succ_r in Hns by lia.
  pose proof (Z.div_mod ns 10 ltac:(lia)).
  destruct (Z.eqb_spec (ns mod 10) 0) as [E|E].
  - rewrite IH by (lia || (split; [apply Z.div_pos; lia|apply Z.div_lt_upper_bound; lia]) || done).
    replace (9 - k)%nat with (S (9 - S k)) by lia. rewrite Nat2Z.inj_succ, Z.pow_succ_r by lia.
    f_equal. nia.
  - change (("." +:+ digits (S k) ns) +:+ rest) with (String "." (digits (S k) ns +:+ rest)).
    assert (∃ c s, digits (S k) ns +:+ rest = String c s ∧ digit_val c ≠ None) as (c & s & Hs & Hc).
    { pose proof (read_digits_digits (S k) ns 0 rest Hns') as Hr.
      destruct (digits (S k) ns +:+ rest) as [|c s]; [done|]. exists c, s. split; [done|].
      cbn in Hr. intros Hc. by rewrite Hc in Hr. }
    unfold read_fraction_opt. rewrite Hs. cbn [Ascii.eqb]. destruct (digit_val c) eqn:Ec; [|done].
    cbn [orb andb Bool.eqb]. rewrite <- Hs.
    change (Ascii.eqb "." ".") with true. cbn [orb andb].
    rewrite read_fraction_app by done.
    rewrite read_fraction_stop; [done|]. destruct rest as [|c' rest]; [done|].
    by destruct Hrest as [->|[->| ->]].
Qed.

(** ** Zones *)

Lemma expect_lit c s : expect c (String c "" +:+ s) = Some s.
Proof. change (expect c (String c s) = Some s). cbn [expect]. by rewrite Ascii.eqb_refl. Qed.

Lemma zone_text_start off : zone_start (zone_text off).
Proof. unfold zone_text. destruct (off =? 0); [by left|]. destruct (_ <? 0); right; [by right|by left]. Qed.

(** An offset in whole minutes of less than 24 hours is read back. *)
Lemma read_zone_text off :
  Z.rem off 60 = 0 → Z.abs (offset_minutes off) / 60 < 24 → read_zone (zone_text off) = Some (off, ""%string).
Proof.
  unfold zone_text, offset_minutes. intros Hrem Hoff. destruct (Z.eqb_spec off 0) as [->|Hne]; [done|].
  set (m := Z.abs (Z.quot off 60)) in *.
  pose proof (Z.mod_pos_bound m 60 eq_refl). pose proof (Z.div_pos m 60 ltac:(lia) ltac:(lia)).
  pose proof (Z.div_mod m 60 ltac:(lia)). pose proof (Z.quot_rem' off 60).
  assert (∀ rest, read_digits 2 0 (digits 2 (m / 60) +:+ rest) = Some (m / 60, rest)) as Hhh
    by (intros; rewrite read_digits_digits by (cbn; lia); f_equal; f_equal; lia).
  assert (read_digits 2 0 (digits 2 (m mod 60)) = Some (m mod 60, ""%string)) as Hmm.
  { rewrite <- (string_app_nil (digits 2 (m mod 60))), read_digits_digits by (cbn; lia). done. }
  assert ((m / 60 <=? 24) && (m mod 60 <=? 60) = true) as Hin
    by (apply andb_true_iff; rewrite !Z.leb_le; lia).
  destruct (Z.ltb_spec (Z.quot off 60) 0); cbn [read_zone Ascii.eqb];
    match goal with |- read_zone (?c +:+ ?s) = _ =>
      change (c +:+ s) with (String (match c with String c0 _ => c0 | _ => "Z"%char end) s) end;
    unfold read_zone; cbn [Ascii.eqb Bool.eqb orb]; rewrite Hhh; cbn [mbind option_bind];
    rewrite expect_lit; cbn [mbind option_bind]; rewrite Hmm; cbn [mbind option_bind]; rewrite Hin;
    f_equal; f_equal; lia.
Qed.

(** ** The round trip *)

Lemma days_in_le m y : days_in m y ≤ 31.
Proof. unfold days_in. destruct (_ || _), (m =? 2), (is_leap y); lia. Qed.

(** The hour has two digits when the text is a rendering. *)
Lemma read_hour_digits h rest :
  0 ≤ h < 100 → read_hour (digits 2 h +:+ rest) = Some (h, rest).
Proof. intros Hh. unfold read_hour. by rewrite read_digits_digits by (cbn; lia). Qed.

(** Nanoseconds of the day as hours, minutes, seconds and a fraction. *)
Lemma time_of_day ns :
  0 ≤ ns < day_ns →
  let h := ns / (3600 * Second) in
  let mi := ns / (60 * Second) mod 60 in
  let sec := ns / Second mod 60 in
  0 ≤ h < 24 ∧ 0 ≤ mi < 60 ∧ 0 ≤ sec < 60 ∧
  ns = (3600 * h + 60 * mi + sec) * Second + ns mod Second.
Proof.
  unfold day_ns, Second, Millisecond. intros H. cbv zeta.
  Z.to_euclidean_division_equations. lia.
Qed.

(** Every rendering of a time whose offset is in whole minutes parses back to it. *)
Lemma parse_format_zoned z s :
  Z.rem (zt_offset z) 60 = 0 → format_zoned z = Some s → parse_zoned s = Some z.
Proof.
  unfold format_zoned. destruct z as [t0 off]. unfold local_time. cbn [zt_instant zt_offset].
  set (t := t0 + off * Second). intros Hrem Hs. cbv zeta in Hs.
  destruct ((0 <=? year _) && _ && _) eqn:Hy; [|done]. apply (inj Some) in Hs. subst s.
  rewrite !andb_true_iff, !Z.leb_le, Z.ltb_lt in Hy. destruct Hy as [Hy Hoff].
  destruct (date_of_days_ok (t / day_ns)) as [Hdays Hdate].
  set (d := date_of_days (t / day_ns)) in *. clearbody d.
  unfold date_ok in Hdate. pose proof Hdate as Hdate'. rewrite !andb_true_iff, !Z.leb_le in Hdate'.
  pose proof (days_in_le (month d) (year d)) as Hd31.
  pose proof (Z.mod_pos_bound t day_ns eq_refl) as Hns.
  pose proof (time_of_day (t mod day_ns) Hns) as Htod. cbv zeta in Htod.
  pose proof (Z.div_mod t day_ns ltac:(done)) as Ht.
  set (ns := t mod day_ns) in *. clearbody ns. destruct Htod as (Hh & Hmi & Hsec & Hsum).
  unfold parse_zoned.
  repeat first
    [ rewrite read_hour_digits by lia
    | rewrite read_digits_digits by (cbn; lia)
    | rewrite expect_lit
    | progress cbn [mbind option_bind] ].
  assert (0 ≤ ns mod Second < 10 ^ Z.of_nat 9) as Hfrac
    by (pose proof (Z.mod_pos_bound ns Second eq_refl); unfold Second, Millisecond in *; cbn; lia).
  rewrite fraction_spec by (done || apply zone_text_start).
  rewrite read_zone_text by done. cbn [mbind option_bind].
  rewrite !Z.mul_0_l, !Z.add_0_l.
  replace (mkDate (year d) (month d) (day d)) with d by (by destruct d). rewrite Hdays.
  destruct (_ && _ && _ && _ && _ && _ && _ && _) eqn:Hc.
  - f_equal. f_equal. cbn [Z.of_nat Nat.sub Z.pow]. lia.
  - exfalso. apply not_true_iff_false in Hc. apply Hc.
    rewrite !andb_true_iff, !Z.leb_le, !Z.ltb_lt. repeat split; try done; lia.
Qed.

Lemma parse_format_time t s : format_time t = Some s → parse_time s = Some t.
Proof. intros Hs. unfold parse_time. by rewrite (parse_format_zoned (in_UTC t)). Qed.

(** ** Which times marshal *)

(** Years 0 to 9999, in nanoseconds. *)
Definition in_years (t : Time) : Prop := -366 * day_ns <= t < 3652059 * day_ns.
Definition zoned_ok (z : ZonedTime) : Prop :=
  in_years (local_time z) ∧ Z.abs (offset_minutes (zt_offset z)) / 60 < 24.

(** The days before March 1 of the year that begins then. *)
Lemma days_of_years d :
  let y := if month d <=? 2 then year d - 1 else year d in
  days_of_date d = 365 * y + y / 4 - y / 100 + y / 400 + ((153 * ((month d + 9) mod 12) + 2) / 5 + day d - 1) - 306.
Proof.
  intros y. unfold days_of_date, day_of_era. fold y.
  generalize ((153 * ((month d + 9) mod 12) + 2) / 5). intros x.
  Z.to_euclidean_division_equations. lia.
Qed.

Lemma day_of_year_bounds d :
  date_ok d = true →
  let doy := (153 * ((month d + 9) mod 12) + 2) / 5 + day d - 1 in
  if month d <=? 2 then 306 <= doy <= 365 else 0 <= doy <= 305.
Proof.
  unfold date_ok. rewrite !andb_true_iff, !Z.leb_le. intros (((H1 & H2) & H3) & H4).
  assert (month d = 1 ∨ month d = 2 ∨ month d = 3 ∨ month d = 4 ∨ month d = 5 ∨ month d = 6 ∨ month d = 7 ∨
          month d = 8 ∨ month d = 9 ∨ month d = 10 ∨ month d = 11 ∨ month d = 12) as Hm by lia.
  unfold days_in in H4. destruct (is_leap (year d)); cbv zeta;
    destruct Hm as [Hm|[Hm|[Hm|[Hm|[Hm|[Hm|[Hm|[Hm|[Hm|[Hm|[Hm|Hm]]]]]]]]]]];
    rewrite Hm in H4 |- *; cbn [Z.eqb Pos.eqb orb Z.leb Z.compare Pos.compare Pos.compare_cont] in H4 |- *;
    match goal with |- context [(153 * ?x + 2) / 5] =>
      let v := eval vm_compute in ((153 * x + 2) / 5) in change ((153 * x + 2) / 5) with v end; lia.
Qed.

(** The years 0 to 9999 are the days of [in_years]. *)
Lemma year_in_range d :
  date_ok d = true → 0 <= year d <= 9999 ↔ -366 <= days_of_date d < 3652059.
Proof.
  intros Hd. pose proof (day_of_year_bounds d Hd) as Hb. rewrite days_of_years. cbv zeta in *.
  destruct (month d <=? 2); revert Hb; generalize ((153 * ((month d + 9) mod 12) + 2) / 5 + day d - 1);
    intros doy Hb; Z.to_euclidean_division_equations; lia.
Qed.

Lemma format_zoned_some z : is_Some (format_zoned z) ↔ zoned_ok z.
Proof.
  unfold format_zoned, zoned_ok. cbv zeta. set (t := local_time z).
  destruct (date_of_days_ok (t / day_ns)) as [Hdays Hdate].
  pose proof (year_in_range _ Hdate) as Hy. rewrite Hdays in Hy.
  pose proof (Z.div_mod t day_ns ltac:(done)). pose proof (Z.mod_pos_bound t day_ns eq_refl).
  destruct ((0 <=? year _) && _ && _) eqn:Hc.
  - rewrite !andb_true_iff, !Z.leb_le, Z.ltb_lt in Hc. destruct Hc as [Hc Ho]. apply Hy in Hc.
    split; [intros _|eauto]. unfold in_years. split; [|done]. nia.
  - split; [by intros []|]. intros [Ht Ho]. exfalso. apply not_true_iff_false in Hc. apply Hc.
    rewrite !andb_true_iff, !Z.leb_le, Z.ltb_lt. split; [|done]. apply Hy. unfold in_years in Ht. nia.
Qed.

Lemma format_time_some t : in_years t → is_Some (format_time t).
Proof.
  intros Ht. apply format_zoned_some. split; [|done]. unfold local_time, in_UTC. cbn [zt_instant zt_offset].
  by rewrite Z.mul_0_l, Z.add_0_r.
Qed.

Lemma read_digits_bounds k : ∀ acc s n rest,
  read_digits k acc s = Some (n, rest) → 0 <= acc → acc * 10 ^ Z.of_nat k <= n < (acc + 1) * 10 ^ Z.of_nat k.
Proof.
  induction k as [|k IH]; intros acc s n rest Hr Ha.
  { injection Hr as <- <-. cbn. lia. }
  cbn [read_digits] in Hr. destruct s as [|c s]; [done|]. destruct (digit_val c) as [v|] eqn:Hv; [|done].
  assert (0 <= v <= 9) as Hv9.
  { unfold digit_val in Hv. destruct (_ && _) eqn:Hc; [|done]. injection Hv as <-.
    rewrite andb_true_iff, !Z.leb_le in Hc. lia. }
  apply IH in Hr; [|lia]. rewrite Nat2Z.inj_succ, Z.pow_succ_r by lia. nia.
Qed.

Lemma read_fraction_bounds k : ∀ acc s n rest,
  read_fraction k acc s = (n, rest) → acc <= n < acc + 10 ^ Z.of_nat k.
Proof.
  intros acc s. revert k acc. induction s as [|c s IH]; intros k acc n rest Hr; cbn [read_fraction] in Hr.
  { injection Hr as <- <-. pose proof (Z.pow_pos_nonneg 10 (Z.of_nat k)). lia. }
  pose proof (Z.pow_pos_nonneg 10 (Z.of_nat k)).
  destruct (digit_val c) as [v|] eqn:Hv; [|injection Hr as <- <-; lia].
  assert (0 <= v <= 9) as Hv9.
  { unfold digit_val in Hv. destruct (_ && _) eqn:Hc; [|done]. injection Hv as <-.
    rewrite andb_true_iff, !Z.leb_le in Hc. lia. }
  destruct k as [|k]; apply IH in Hr; [done|].
  rewrite Nat2Z.inj_succ, Z.pow_succ_r by lia. pose proof (Z.pow_pos_nonneg 10 (Z.of_nat k)). nia.
Qed.

Lemma read_fraction_opt_bounds s n rest : read_fraction_opt s = (n, rest) → 0 <= n < Second.
Proof.
  unfold read_fraction_opt, Second, Millisecond. intros Hr.
  destruct s as [|c [|d s]]; [injection Hr as <- <-; lia..|].
  destruct (_ && _); [|injection Hr as <- <-; lia]. apply read_fraction_bounds in Hr. cbn in Hr. lia.
Qed.

Lemma read_hour_nonneg s n rest : read_hour s = Some (n, rest) → 0 <= n.
Proof.
  unfold read_hour. destruct (read_digits 2 0 s) as [[n' r']|] eqn:H2.
  - intros [= <- <-]. apply read_digits_bounds in H2; lia.
  - intros H1. apply read_digits_bounds in H1; lia.
Qed.

Ltac next_field := cbn [mbind option_bind].

(** A time that was parsed shows a year between 0 and 9999: only its offset can
    keep it from marshalling. *)
Lemma parse_zoned_in_years s z : parse_zoned s = Some z → in_years (local_time z).
Proof.
  unfold parse_zoned. next_field.
  destruct (read_digits 4 0 s) as [[y s1]|] eqn:Hy; [|done]. next_field.
  destruct (expect _ s1) as [s2|]; [|done]. next_field.
  destruct (read_digits 2 0 s2) as [[mo s3]|] eqn:Hmo; [|done]. next_field.
  destruct (expect _ s3) as [s4|]; [|done]. next_field.
  destruct (read_digits 2 0 s4) as [[d s5]|] eqn:Hd; [|done]. next_field.
  destruct (expect _ s5) as [s6|]; [|done]. next_field.
  destruct (read_hour s6) as [[h s7]|] eqn:Hh; [|done]. next_field.
  destruct (expect _ s7) as [s8|]; [|done]. next_field.
  destruct (read_digits 2 0 s8) as [[mi s9]|] eqn:Hmi; [|done]. next_field.
  destruct (expect _ s9) as [s10|]; [|done]. next_field.
  destruct (read_digits 2 0 s10) as [[sec s11]|] eqn:Hsec; [|done]. next_field.
  destruct (read_fraction_opt s11) as [ns s12] eqn:Hns.
  destruct (read_zone s12) as [[off s13]|]; [|done]. next_field.
  apply read_digits_bounds in Hy, Hmo, Hd, Hmi, Hsec; try lia. apply read_hour_nonneg in Hh.
  apply read_fraction_opt_bounds in Hns.
  destruct (_ && _ && _ && _ && _ && _ && _ && _) eqn:Hc; [|done]. intros [= <-].
  rewrite !andb_true_iff, !Z.leb_le, !Z.ltb_lt in Hc.
  destruct Hc as (((((((_ & Hm1) & Hm2) & Hd1) & Hd2) & Hh2) & Hmi2) & Hs2).
  assert (date_ok (mkDate y mo d) = true) as Hok
    by (unfold date_ok; cbn [month day year]; rewrite !andb_true_iff, !Z.leb_le; done).
  pose proof (proj1 (year_in_range _ Hok)) as Hyr. cbn [year] in Hyr. specialize (Hyr ltac:(cbn in Hy; lia)).
  unfold in_years, local_time. cbn [zt_instant zt_offset].
  unfold day_ns, Second, Millisecond in *. lia.
Qed.
