(* ===== verification/ServiceTimes.v ===== *)
(** * Times that marshal

    A time that does not marshal empties the whole body that contains it, so
    it matters which times a server can hold: those of a clock between the
    years 0 and 9999, and those that clients register. *)

From S2P Require Import Prelude GoLib Model ProviderErr Runtime State StateTheory Queue.
From S2P Require Import Service ServiceTheory ServiceConc Rfc3339 Rfc3339Theory.

(** ** Predicates *)

Definition clock_in_years (e : Env) : Prop := ∀ i, in_years (clock e i).

Definition vm_in_years (vm : VM) : Prop := in_years (vm_CreatedAt vm) ∧ in_years (vm_UpdatedAt vm).
Definition controller_in_years (c : Controller) : Prop := zoned_ok (ctl_LastHeartbeatAt c).
Definition event_in_years (ev : Event) : Prop := in_years (ev_CreatedAt ev).

Record view_in_years (v : StoreView) : Prop := {
  vy_vms : map_Forall (λ _, vm_in_years) (sv_vms v);
  vy_controllers : map_Forall (λ _, controller_in_years) (sv_controllers v);
  vy_events : Forall event_in_years (sv_events v);
}.

(** What a call brings into the store, and what a reply takes out of it. *)
Definition call_in_years (c : SvcCall) : Prop :=
  match c with SRegisterController c => controller_in_years c | _ => True end.
Definition reply_in_years (r : SvcReply) : Prop :=
  match r with
  | SRVM (Ok vm) => vm_in_years vm
  | SRControllers (Ok cs) => Forall controller_in_years (slice_elems cs)
  | SREvents (Ok evs) => Forall event_in_years (slice_elems evs)
  | _ => True
  end.

Definition thread_in_years (t : Thread) : Prop :=
  match t with
  | TCall c => call_in_years c
  | TLog ev reply => time_IsZero (ev_CreatedAt ev) = true ∧ reply_in_years reply
  | TDone reply => reply_in_years reply
  end.

Lemma clock_in_years_le e e' : env_le e e' → clock_in_years e → clock_in_years e'.
Proof. intros (Hc & _) He i. rewrite Hc. apply He. Qed.

Lemma read_in_years e e' now : clock_in_years e → read_between e e' now → in_years now.
Proof. intros He (i & _ & ->). apply He. Qed.

Lemma in_UTC_ok t : in_years t → zoned_ok (in_UTC t).
Proof.
  intros Ht. split; [|done]. unfold local_time, in_UTC. cbn [zt_instant zt_offset].
  by rewrite Z.mul_0_l, Z.add_0_r.
Qed.

Section Steps.
Context {S : Type} `{StateStoreSpec S}.

Lemma update_in_years e e' id (f : Time → VM → VM) r v v' :
  (∀ now vm, vm_in_years vm → in_years now → vm_in_years (f now vm)) →
  clock_in_years e → update_spec e e' id f r v v' → view_in_years v → view_in_years v'.
Proof.
  unfold update_spec. intros Hf He Hu [Hv Hc Hev]. destruct (sv_vms v !! id) as [vm|] eqn:Hvm.
  - destruct Hu as (_ & now & Hnow & ->). split; [|done..]. cbn. apply map_Forall_insert_2; [|done].
    apply Hf; [exact (Hv _ _ Hvm)|by eapply read_in_years].
  - by destruct Hu as [_ ->].
Qed.

Lemma limit_filter_in_years {A} (P : A → Prop) limit (f : A → bool) l :
  Forall P l → Forall P (limit_take limit (filterb f l)).
Proof.
  rewrite !Forall_forall. intros Hl x Hx%elem_of_limit_take. apply elem_of_filterb in Hx as [Hx _]. auto.
Qed.

(** Every step keeps the times of the store and of the replies. *)
Lemma thread_step_in_years t e (s : S) t' e' s' :
  clock_in_years e → view_in_years (view s) → thread_in_years t →
  thread_step t e s = (t', e', s') → view_in_years (view s') ∧ thread_in_years t'.
Proof.
  intros He Hv Ht Hs. destruct t as [c|ev reply|reply]; [|cbn [thread_step] in Hs..].
  - destruct c; cbn [thread_step] in Hs; apply fmapM_inv in Hs as (x & Hs & ->).
    + apply CreateVM_law in Hs as (_ & id & now & -> & _ & Hnow & _ & ->). split; [|done].
      destruct Hv as [Hvm Hc Hev]. split; [|done..]. cbn. apply map_Forall_insert_2; [|done].
      split; by eapply read_in_years.
    + apply GetVM_law in Hs as (_ & -> & Hr). split; [done|]. destruct Hv as [Hvm _ _].
      destruct (sv_vms (view s) !! vmID) as [vm|] eqn:Hid; [subst x; exact (Hvm _ _ Hid)|by destruct x].
    + apply UpdateVMDesiredState_law in Hs as [_ Hu]. split; [|by destruct x].
      eapply update_in_years; [|done|exact Hu|done]. intros now vm [Hcr _] Hnow; by split.
    + apply UpdateVMDesiredState_law in Hs as [_ Hu]. split; [|by destruct x].
      eapply update_in_years; [|done|exact Hu|done]. intros now vm [Hcr _] Hnow; by split.
    + apply RegisterController_law in Hs as [_ Hr]. split; [|done].
      destruct (sv_controllers (view s) !! _); destruct Hr as [_ ->]; [done|].
      destruct Hv as [Hvm Hc Hev]. split; [done| |done]. cbn. by apply map_Forall_insert_2.
    + apply UpdateControllerHeartbeat_law in Hs as [_ Hr]. split; [|done].
      destruct (sv_controllers (view s) !! _); [|by destruct Hr as [_ ->]].
      destruct Hr as (_ & now & Hnow & ->). destruct Hv as [Hvm Hc Hev]. split; [done| |done]. cbn.
      apply map_Forall_insert_2; [|done]. by eapply in_UTC_ok, read_in_years.
    + apply ListControllers_law in Hs as (_ & -> & l & Hl & ->). split; [done|].
      cbn. rewrite slice_elems_built. apply limit_filter_in_years. rewrite Hl. apply Forall_fmap.
      destruct Hv as [_ Hc _]. apply map_Forall_to_list in Hc. eapply Forall_impl; [exact Hc|]. by intros [k c].
    + apply ListEvents_law in Hs as (_ & -> & ->). split; [done|]. cbn. rewrite slice_elems_built.
      by apply limit_filter_in_years, Hv.
  - apply fmapM_inv in Hs as (x & Hs & ->). destruct Ht as [Hz Hr]. split; [|done].
    apply AppendEvent_law in Hs as (_ & _ & ev' & (id & now & -> & _ & _ & Hnow) & ->). rewrite Hz in Hnow.
    destruct Hv as [Hvm Hc Hev]. split; [done..|]. cbn. apply Forall_app. split; [done|].
    apply Forall_singleton. by eapply read_in_years.
  - munfold_in Hs. by injection Hs as <- <- <-.
Qed.

Lemma thread_step_env_le t e (s : S) t' e' s' : thread_step t e s = (t', e', s') → env_le e e'.
Proof.
  intros Hs. apply thread_step_call in Hs as [(reply & _ & _ & -> & _)|(c & r & Hc & _)]; [done|].
  by eapply call_env_le.
Qed.

(** A call on the service is two steps of its thread. *)
Lemma svc_call_in_years {Q} c e (sv : Service S Q) :
  clock_in_years e → view_in_years (view (state sv)) → call_in_years c →
  let '(reply, e', sv') := svc_call c e sv in
  clock_in_years e' ∧ view_in_years (view (state sv')) ∧ reply_in_years reply.
Proof.
  intros He Hv Hc. pose proof (thread_alone c e sv) as Hal.
  destruct (thread_step (TCall c) e (state sv)) as [[t1 e1] s1] eqn:H1.
  destruct (thread_step t1 e1 s1) as [[t2 e2] s2] eqn:H2. destruct Hal as (reply & -> & ->).
  destruct (thread_step_in_years (TCall c) _ _ _ _ _ He Hv Hc H1) as [Hv1 Ht1].
  assert (clock_in_years e1) as He1 by (eapply clock_in_years_le; [by eapply thread_step_env_le|done]).
  destruct (thread_step_in_years _ _ _ _ _ _ He1 Hv1 Ht1 H2) as [Hv2 Ht2]. cbn [state].
  split; [|done]. eapply clock_in_years_le; [by eapply thread_step_env_le|done].
Qed.
End Steps.
