(* ===== verification/Json.v ===== *)
(** * JSON text ([encoding/json])

    The syntax tree, the scanner of the decoder, the string literals in both
    directions, and the compact rendering of the encoder.  A string or a
    number keeps its literal as it is written: [unquote] and [parse_int] read
    it when a field of that type is filled. *)

From S2P Require Import Prelude GoLib.
From Stdlib Require Import Strings.String Strings.Ascii DecimalString.

Local Open Scope string_scope.

(** ** Syntax *)

(** [JStr raw]: [raw] is what stands between the quotes, escapes included. *)
Inductive json :=
  | JNull
  | JBool (b : bool)
  | JNum (lit : string)
  | JStr (raw : string)
  | JArr (l : list json)
  | JObj (members : list (string * json)).

(** ** Characters *)

Definition code (c : ascii) : N := N_of_ascii c.
Definition in_range (lo hi : N) (c : ascii) : bool := (lo <=? code c)%N && (code c <=? hi)%N.
Definition is_digit : ascii → bool := in_range 48 57.
Definition is_space (c : ascii) : bool :=
  (code c =? 32)%N || (code c =? 9)%N || (code c =? 10)%N || (code c =? 13)%N.
Definition quote_char : ascii := "034".
Definition backslash : ascii := "092".

Definition hex_val (c : ascii) : option N :=
  if is_digit c then Some (code c - 48)%N
  else if in_range 97 102 c then Some (code c - 87)%N
  else if in_range 65 70 c then Some (code c - 55)%N
  else None.

(** [isValidNumber]'s and the scanner's [\uXXXX]. *)
Definition hex4 (a b c d : ascii) : option N :=
  match hex_val a, hex_val b, hex_val c, hex_val d with
  | Some a, Some b, Some c, Some d => Some (((a * 16 + b) * 16 + c) * 16 + d)%N
  | _, _, _, _ => None
  end.

(** ** UTF-8 ([unicode/utf8]) *)

Definition is_cont : ascii → bool := in_range 128 191.

(** The number of bytes of the well-formed sequence at the front, 0 if there is none. *)
Definition rune_size (s : string) : nat :=
  match s with
  | EmptyString => 0
  | String a s =>
      if (code a <? 128)%N then 1
      else match s with
      | EmptyString => 0
      | String b s =>
          if in_range 194 223 a then (if is_cont b then 2 else 0)
          else match s with
          | EmptyString => 0
          | String c s =>
              if in_range 224 239 a then
                if (if (code a =? 224)%N then in_range 160 191 b
                    else if (code a =? 237)%N then in_range 128 159 b else is_cont b)
                   && is_cont c then 3 else 0
              else match s with
              | EmptyString => 0
              | String d s =>
                  if in_range 240 244 a
                     && (if (code a =? 240)%N then in_range 144 191 b
                         else if (code a =? 244)%N then in_range 128 143 b else is_cont b)
                     && is_cont c && is_cont d then 4 else 0
              end
          end
      end
  end.

Definition byte_string (l : list N) : string :=
  fold_right (λ n s, String (ascii_of_N n) s) EmptyString l.

(** [utf8.AppendRune] for a code point that is not a surrogate. *)
Definition encode_rune (r : N) : string :=
  (if r <? 128 then byte_string [r]
   else if r <? 2048 then byte_string [192 + r / 64; 128 + r mod 64]
   else if r <? 65536 then byte_string [224 + r / 4096; 128 + r / 64 mod 64; 128 + r mod 64]
   else byte_string [240 + r / 262144; 128 + r / 4096 mod 64; 128 + r / 64 mod 64; 128 + r mod 64])%N.

(** U+FFFD *)
Definition replacement : string := encode_rune 65533.

Fixpoint take_string (n : nat) (s : string) : string :=
  match n, s with
  | S n, String c s => String c (take_string n s)
  | _, _ => EmptyString
  end.
Fixpoint drop_string (n : nat) (s : string) : string :=
  match n, s with
  | S n, String _ s => drop_string n s
  | _, _ => s
  end.

(** ** String literals *)

(** The escape after a backslash. *)
Definition simple_escape (c : ascii) : option ascii :=
  (if (code c =? 34) || (code c =? 92) || (code c =? 47) then Some c
   else if code c =? 98 then Some "008"%char
   else if code c =? 102 then Some "012"%char
   else if code c =? 110 then Some "010"%char
   else if code c =? 114 then Some "013"%char
   else if code c =? 116 then Some "009"%char
   else None)%N.

Definition is_surrogate (r : N) : bool := ((55296 <=? r) && (r <? 57344))%N.

(** The second escape of a pair, [getu4] on what follows the first. *)
Definition low_surrogate (s : string) : option (N * string) :=
  match s with
  | String x (String y (String a (String b (String c (String d rest))))) =>
      if Ascii.eqb x backslash && Ascii.eqb y "u" then
        r ← hex4 a b c d; Some (r, rest)
      else None
  | _ => None
  end.

(** [unquoteBytes]: the text of a literal the scanner has accepted, with
    malformed UTF-8 and lone surrogates replaced. *)
Fixpoint unquote_fuel (fuel : nat) (s : string) : string :=
  match fuel with
  | O => EmptyString
  | S fuel =>
      match s with
      | EmptyString => EmptyString
      | String c s' =>
          if Ascii.eqb c backslash then
            match s' with
            | EmptyString => EmptyString
            | String e rest =>
                if Ascii.eqb e "u" then
                  match rest with
                  | String a (String b (String c (String d rest))) =>
                      match hex4 a b c d with
                      | Some r =>
                          if is_surrogate r then
                            match low_surrogate rest with
                            | Some (r', rest') =>
                                if ((r <? 56320) && (56320 <=? r') && (r' <? 57344))%N
                                then encode_rune ((r - 55296) * 1024 + (r' - 56320) + 65536)%N
                                       +:+ unquote_fuel fuel rest'
                                else replacement +:+ unquote_fuel fuel rest
                            | None => replacement +:+ unquote_fuel fuel rest
                            end
                          else encode_rune r +:+ unquote_fuel fuel rest
                      | None => EmptyString
                      end
                  | _ => EmptyString
                  end
                else
                  match simple_escape e with
                  | Some x => String x (unquote_fuel fuel rest)
                  | None => EmptyString
                  end
            end
          else
            match rune_size s with
            | O => replacement +:+ unquote_fuel fuel s'
            | n => take_string n s +:+ unquote_fuel fuel (drop_string n s)
            end
      end
  end.
Definition unquote (raw : string) : string := unquote_fuel (S (String.length raw)) raw.

Definition hex_lower (n : N) : ascii := hex_digit n.

(** What [appendString] writes for one byte below 128, with HTML escaping. *)
Definition escape_ascii (c : ascii) : string :=
  if Ascii.eqb c quote_char || Ascii.eqb c backslash then String backslash (String c "")
  else (if code c =? 8 then "\b"
        else if code c =? 12 then "\f"
        else if code c =? 10 then "\n"
        else if code c =? 13 then "\r"
        else if code c =? 9 then "\t"
        else if (code c <? 32) || (code c =? 60) || (code c =? 62) || (code c =? 38)
        then "\u00" +:+ String (hex_lower (code c / 16)) (String (hex_lower (code c mod 16)) "")
        else String c "")%N.

(** [appendString(dst, s, true)] without the quotes. *)
Fixpoint quote_fuel (fuel : nat) (s : string) : string :=
  match fuel with
  | O => EmptyString
  | S fuel =>
      match s with
      | EmptyString => EmptyString
      | String c s' =>
          match rune_size s with
          | O => "\ufffd" +:+ quote_fuel fuel s'
          | 1 => escape_ascii c +:+ quote_fuel fuel s'
          | n =>
              let r := take_string n s in
              (if String.eqb r (encode_rune 8232) then "\u2028"
               else if String.eqb r (encode_rune 8233) then "\u2029"
               else r) +:+ quote_fuel fuel (drop_string n s)
          end
      end
  end.
Definition quote (s : string) : string := quote_fuel (S (String.length s)) s.

(** ** Numbers *)

(** [strconv.FormatInt(n, 10)] *)
Definition format_int (n : Z) : string := NilZero.string_of_int (Z.to_int n).

(** [strconv.ParseInt(s, 10, 64)] on a JSON number literal. *)
Definition parse_int (lit : string) : option Z :=
  match NilZero.int_of_string lit with
  | Some i =>
      let n := Z.of_int i in
      if ((min_int64 <=? n) && (n <=? max_int64))%Z then Some n else None
  | None => None
  end.

(** ** Rendering *)

Fixpoint render (j : json) : string :=
  match j with
  | JNull => "null"
  | JBool b => if b then "true" else "false"
  | JNum lit => lit
  | JStr raw => String quote_char (raw +:+ String quote_char "")
  | JArr l =>
      "[" +:+ (fix go l := match l with
                           | [] => ""
                           | [j] => render j
                           | j :: l => render j +:+ "," +:+ go l
                           end) l +:+ "]"
  | JObj l =>
      "{" +:+ (fix go l := match l with
                           | [] => ""
                           | [(k, j)] => String quote_char (k +:+ String quote_char ":") +:+ render j
                           | (k, j) :: l =>
                               String quote_char (k +:+ String quote_char ":") +:+ render j +:+ "," +:+ go l
                           end) l +:+ "}"
  end.

(** ** Scanning *)

Fixpoint skip_space (s : string) : string :=
  match s with
  | String c s' => if is_space c then skip_space s' else s
  | EmptyString => s
  end.

(** The literal up to the closing quote, and the text after it. *)
Fixpoint scan_string (s : string) : option (string * string) :=
  match s with
  | EmptyString => None
  | String c s =>
      if Ascii.eqb c quote_char then Some (EmptyString, s)
      else if Ascii.eqb c backslash then
        match s with
        | EmptyString => None
        | String e s =>
            if Ascii.eqb e "u" then
              match s with
              | String a (String b (String c' (String d s))) =>
                  match hex4 a b c' d, scan_string s with
                  | Some _, Some (raw, rest) =>
                      Some (String c (String e (String a (String b (String c' (String d raw))))), rest)
                  | _, _ => None
                  end
              | _ => None
              end
            else
              match simple_escape e, scan_string s with
              | Some _, Some (raw, rest) => Some (String c (String e raw), rest)
              | _, _ => None
              end
        end
      else if (code c <? 32)%N then None
      else match scan_string s with
           | Some (raw, rest) => Some (String c raw, rest)
           | None => None
           end
  end.

(** The digits at the front. *)
Fixpoint scan_digits (s : string) : string * string :=
  match s with
  | String c s' =>
      if is_digit c then let '(ds, rest) := scan_digits s' in (String c ds, rest) else (EmptyString, s)
  | EmptyString => (EmptyString, s)
  end.
Definition scan_digits1 (s : string) : option (string * string) :=
  match scan_digits s with
  | (EmptyString, _) => None
  | r => Some r
  end.

Definition scan_fraction (s : string) : option (string * string) :=
  match s with
  | String c s' =>
      if Ascii.eqb c "." then '(ds, rest) ← scan_digits1 s'; Some (String c ds, rest)
      else Some (EmptyString, s)
  | EmptyString => Some (EmptyString, s)
  end.

Definition scan_exponent (s : string) : option (string * string) :=
  match s with
  | String c s' =>
      if Ascii.eqb c "e" || Ascii.eqb c "E" then
        match s' with
        | String sg s'' =>
            if Ascii.eqb sg "+" || Ascii.eqb sg "-" then
              '(ds, rest) ← scan_digits1 s''; Some (String c (String sg ds), rest)
            else '(ds, rest) ← scan_digits1 s'; Some (String c ds, rest)
        | EmptyString => None
        end
      else Some (EmptyString, s)
  | EmptyString => Some (EmptyString, s)
  end.

Definition scan_natural (s : string) : option (string * string) :=
  match s with
  | String c rest => if Ascii.eqb c "0" then Some ("0", rest) else scan_digits1 s
  | EmptyString => None
  end.

Definition scan_number (s : string) : option (string * string) :=
  let '(sign, s) := match s with
                    | String c s' => if Ascii.eqb c "-" then ("-", s') else (EmptyString, s)
                    | EmptyString => (EmptyString, s)
                    end in
  '(int, s) ← scan_natural s;
  '(frac, s) ← scan_fraction s;
  '(exp, s) ← scan_exponent s;
  Some (sign +:+ int +:+ frac +:+ exp, s).

Fixpoint strip_prefix (p s : string) : option string :=
  match p, s with
  | EmptyString, _ => Some s
  | String c p, String d s => if Ascii.eqb c d then strip_prefix p s else None
  | _, _ => None
  end.

(** The scanner refuses values nested deeper than this. *)
Definition maxNestingDepth : N := 10000.

(** One value at the front of [s], inside [depth] arrays and objects; [what]
    says which of the three positions of the grammar is read. *)
Inductive position := PValue | PElements | PMembers.

Inductive parsed := AValue (j : json) | AElements (l : list json) | AMembers (l : list (string * json)).

(** The rest of the text when its next character, after white space, is [c]. *)
Definition next (c : ascii) (s : string) : option string :=
  match skip_space s with
  | String d s' => if Ascii.eqb d c then Some s' else None
  | EmptyString => None
  end.

Definition scan_literal (s : string) : option (json * string) :=
  match strip_prefix "true" s, strip_prefix "false" s, strip_prefix "null" s with
  | Some s, _, _ => Some (JBool true, s)
  | _, Some s, _ => Some (JBool false, s)
  | _, _, Some s => Some (JNull, s)
  | _, _, _ => '(lit, s) ← scan_number s; Some (JNum lit, s)
  end.

Definition Scan : Type := position → N → string → option (parsed * string).

(** One level of the scan, the levels below given. *)
Definition scan_value (rec : Scan) (depth : N) (s : string) : option (parsed * string) :=
  match next "{" s, next "[" s, next quote_char s with
  | Some s, _, _ =>
      if (maxNestingDepth <=? depth)%N then None else
      match next "}" s with
      | Some s => Some (AValue (JObj []), s)
      | None =>
          match rec PMembers (depth + 1)%N s with
          | Some (AMembers l, s) => Some (AValue (JObj l), s)
          | _ => None
          end
      end
  | _, Some s, _ =>
      if (maxNestingDepth <=? depth)%N then None else
      match next "]" s with
      | Some s => Some (AValue (JArr []), s)
      | None =>
          match rec PElements (depth + 1)%N s with
          | Some (AElements l, s) => Some (AValue (JArr l), s)
          | _ => None
          end
      end
  | _, _, Some s => '(raw, s) ← scan_string s; Some (AValue (JStr raw), s)
  | _, _, _ => '(j, s) ← scan_literal (skip_space s); Some (AValue j, s)
  end.

Definition scan_elements (rec : Scan) (depth : N) (s : string) : option (parsed * string) :=
  match rec PValue depth s with
  | Some (AValue j, s) =>
      match next "," s, next "]" s with
      | Some s, _ =>
          match rec PElements depth s with
          | Some (AElements l, s) => Some (AElements (j :: l), s)
          | _ => None
          end
      | _, Some s => Some (AElements [j], s)
      | _, _ => None
      end
  | _ => None
  end.

Definition scan_members (rec : Scan) (depth : N) (s : string) : option (parsed * string) :=
  s ← next quote_char s;
  '(k, s) ← scan_string s;
  s ← next ":" s;
  match rec PValue depth s with
  | Some (AValue j, s) =>
      match next "," s, next "}" s with
      | Some s, _ =>
          match rec PMembers depth s with
          | Some (AMembers l, s) => Some (AMembers ((k, j) :: l), s)
          | _ => None
          end
      | _, Some s => Some (AMembers [(k, j)], s)
      | _, _ => None
      end
  | _ => None
  end.

Fixpoint scan (fuel : nat) : Scan := λ what depth s,
  match fuel with
  | O => None
  | S fuel =>
      match what with
      | PValue => scan_value (scan fuel) depth s
      | PElements => scan_elements (scan fuel) depth s
      | PMembers => scan_members (scan fuel) depth s
      end
  end.

(** The first value of a text and what follows it.  Each level of the scan
    consumes a character or leads to one that does, so the fuel is enough
    ([scan_fuel_enough] of JsonTheory). *)
Definition scan_fuel (s : string) : nat := 2 * String.length s + 2.
Definition parse_json (s : string) : option (json * string) :=
  match scan (scan_fuel s) PValue 0%N s with
  | Some (AValue j, rest) => Some (j, rest)
  | _ => None
  end.

(** JSON text with apostrophes for quotation marks, for examples. *)
Fixpoint json_text (s : string) : string :=
  match s with
  | EmptyString => EmptyString
  | String c s => String (if Ascii.eqb c "'" then quote_char else c) (json_text s)
  end.

Example parse_nested :
  parse_json (json_text " {'a' : [1, -2.5e3, true], 'b\u00e9':null} x") =
  Some (JObj [("a", JArr [JNum "1"; JNum "-2.5e3"; JBool true]); ("b\u00e9", JNull)], " x").
Proof. reflexivity. Qed.
Example parse_errors :
  parse_json "[1,]" = None ∧ parse_json (json_text "{'a':01}") = None ∧ parse_json "" = None
  ∧ parse_json (json_text "{'a':tru}") = None ∧ parse_json (json_text "{'a':'\x'}") = None.
Proof. split_and!; reflexivity. Qed.
Example unquote_escapes :
  unquote "a\u0041\ud83d\ude00\ud800\n\/" =
  ("aA" +:+ byte_string [240; 159; 152; 128]%N +:+ replacement +:+ byte_string [10]%N +:+ "/").
Proof. reflexivity. Qed.
Example quote_html : quote (json_text "<'a&b'>") = "\u003c\" +:+ String quote_char "a\u0026b\" +:+ String quote_char "\u003e".
Proof. reflexivity. Qed.
