(* ===== verification/JsonTheory.v ===== *)
(** * Correctness of the JSON scanner

    The fuel of [parse_json] is enough: with more of it nothing changes, so a
    text is refused for its syntax only. *)

From S2P Require Import Prelude GoLib Json.
From Stdlib Require Import Strings.String Strings.Ascii.

Local Abbreviation len := String.length.

(** ** What a scan leaves is shorter *)

Lemma skip_space_length s : len (skip_space s) ≤ len s.
Proof. induction s as [|c s IH]; cbn; [lia|]. destruct (is_space c); cbn; lia. Qed.

Lemma next_length c s s' : next c s = Some s' → len s' < len s.
Proof.
  unfold next. pose proof (skip_space_length s) as Hl. destruct (skip_space s) as [|d s1]; [done|].
  destruct (Ascii.eqb d c); [|done]. intros [= ->]. cbn in Hl. lia.
Qed.

Lemma scan_string_length s : ∀ raw rest, scan_string s = Some (raw, rest) → len rest < len s.
Proof.
  induction s as [s IH] using (induction_ltof1 _ len). unfold ltof in IH.
  intros raw rest Hs. destruct s as [|c s]; [done|]. cbn [scan_string] in Hs.
  assert (∀ s' raw' rest', len s' ≤ len s → scan_string s' = Some (raw', rest') →
            len rest' < len s') as IH'.
  { intros s' raw' rest' Hl. apply IH. cbn. lia. }
  clear IH. destruct (Ascii.eqb c quote_char); [by simplify_eq; cbn; lia|].
  destruct (Ascii.eqb c backslash).
  2: { destruct (code c <? 32)%N; [done|]. destruct (scan_string s) as [[r1 s1]|] eqn:E; [|done].
       apply IH' in E; [|lia]. simplify_eq. cbn. lia. }
  destruct s as [|e s]; [done|]. destruct (Ascii.eqb e "u").
  - destruct s as [|x1 [|x2 [|x3 [|x4 s]]]]; try done. destruct (hex4 _ _ _ _); [|done].
    destruct (scan_string s) as [[r1 s1]|] eqn:E; [|done]. apply IH' in E; [|cbn; lia].
    simplify_eq. cbn. lia.
  - destruct (simple_escape e); [|done]. destruct (scan_string s) as [[r1 s1]|] eqn:E; [|done].
    apply IH' in E; [|cbn; lia]. simplify_eq. cbn. lia.
Qed.

Lemma scan_digits_length s : len (scan_digits s).2 ≤ len s.
Proof.
  induction s as [|c s IH]; cbn; [lia|]. destruct (is_digit c); cbn; [|lia].
  destruct (scan_digits s) as [ds rest]. cbn in *. lia.
Qed.

Lemma scan_digits1_length s ds rest : scan_digits1 s = Some (ds, rest) → len rest ≤ len s.
Proof.
  unfold scan_digits1. pose proof (scan_digits_length s) as Hl. destruct (scan_digits s) as [[|c d] r]; [done|].
  intros [= _ <-]. exact Hl.
Qed.

Lemma scan_number_length s lit rest : scan_number s = Some (lit, rest) → len rest ≤ len s.
Proof.
  assert (∀ s p r, scan_natural s = Some (p, r) → len r ≤ len s) as Hnat.
  { intros [|c s1] p r; cbn [scan_natural]; [done|].
    destruct (Ascii.eqb c "0"); [intros [= _ <-]; cbn; lia|]. apply scan_digits1_length. }
  assert (∀ s p r, scan_fraction s = Some (p, r) → len r ≤ len s) as Hfrac.
  { intros [|c s1] p r; cbn [scan_fraction]; [intros [= _ <-]; done|].
    destruct (Ascii.eqb c "."); [|intros [= _ <-]; done].
    destruct (scan_digits1 s1) as [[d r1]|] eqn:E; [|done]. cbn. intros [= _ <-].
    apply scan_digits1_length in E. lia. }
  assert (∀ s p r, scan_exponent s = Some (p, r) → len r ≤ len s) as Hexp.
  { intros [|c s1] p r; cbn [scan_exponent]; [intros [= _ <-]; done|].
    destruct (_ || _); [|intros [= _ <-]; done]. destruct s1 as [|sg s2]; [done|].
    destruct (_ || _).
    - destruct (scan_digits1 s2) as [[d r1]|] eqn:E; [|done]. cbn. intros [= _ <-].
      apply scan_digits1_length in E. lia.
    - destruct (scan_digits1 (String sg s2)) as [[d r1]|] eqn:E; [|done]. cbn. intros [= _ <-].
      apply scan_digits1_length in E. cbn in E. lia. }
  unfold scan_number. intros Hs.
  assert (∃ sg s1, (match s with
                    | String c s' => if Ascii.eqb c "-" then ("-", s') else (EmptyString, s)
                    | EmptyString => (EmptyString, s)
                    end) = (sg, s1) ∧ len s1 ≤ len s) as (sg & s1 & E & Hl).
  { destruct s as [|c s']; [by exists EmptyString, EmptyString|].
    destruct (Ascii.eqb c "-"); do 2 eexists; (split; [reflexivity|cbn; lia]). }
  rewrite E in Hs. destruct (scan_natural s1) as [[p1 r1]|] eqn:E1; [|done]. cbn in Hs.
  destruct (scan_fraction r1) as [[p2 r2]|] eqn:E2; [|done]. cbn in Hs.
  destruct (scan_exponent r2) as [[p3 r3]|] eqn:E3; [|done]. cbn in Hs. simplify_eq.
  apply Hnat in E1. apply Hfrac in E2. apply Hexp in E3. lia.
Qed.

Lemma strip_prefix_length p : ∀ s r, strip_prefix p s = Some r → len r ≤ len s.
Proof.
  induction p as [|c p IH]; intros s r; cbn; [intros [= ->]; lia|].
  destruct s as [|d s]; [done|]. destruct (Ascii.eqb c d); [|done]. intros Hr%IH. cbn. lia.
Qed.

Lemma scan_literal_length s j rest : scan_literal s = Some (j, rest) → len rest ≤ len s.
Proof.
  unfold scan_literal.
  destruct (strip_prefix "true" s) eqn:E1; [intros [= _ <-]; by apply strip_prefix_length in E1|].
  destruct (strip_prefix "false" s) eqn:E2; [intros [= _ <-]; by apply strip_prefix_length in E2|].
  destruct (strip_prefix "null" s) eqn:E3; [intros [= _ <-]; by apply strip_prefix_length in E3|].
  destruct (scan_number s) as [[lit r]|] eqn:E; [|done]. cbn. intros [= _ <-].
  by apply scan_number_length in E.
Qed.

(** ** The fuel *)

(** The levels a scan at a position can still need. *)
Definition need (what : position) (s : string) : nat :=
  match what with PElements => 2 * len s + 2 | _ => 2 * len s + 1 end.

Definition shrinks (rec : Scan) : Prop :=
  ∀ what depth s p rest, rec what depth s = Some (p, rest) → len rest ≤ len s.

(** Two scanners that agree on what the levels below can ask for. *)
Definition agree (n : nat) (rec rec' : Scan) : Prop :=
  ∀ what depth s, need what s < n → rec what depth s = rec' what depth s.

Lemma scan_value_shrinks rec depth s p rest :
  shrinks rec → scan_value rec depth s = Some (p, rest) → len rest ≤ len s.
Proof.
  intros Hrec. unfold scan_value.
  destruct (next "{" s) as [s1|] eqn:E1; [apply next_length in E1|].
  { destruct (_ <=? _)%N; [done|]. destruct (next "}" s1) as [s2|] eqn:E2.
    - apply next_length in E2. intros [= _ <-]. lia.
    - destruct (rec PMembers _ s1) as [[[| |l] s2]|] eqn:E; try done.
      apply Hrec in E. intros [= _ <-]. lia. }
  destruct (next "[" s) as [s1|] eqn:E3; [apply next_length in E3|].
  { destruct (_ <=? _)%N; [done|]. destruct (next "]" s1) as [s2|] eqn:E2.
    - apply next_length in E2. intros [= _ <-]. lia.
    - destruct (rec PElements _ s1) as [[[|l|] s2]|] eqn:E; try done.
      apply Hrec in E. intros [= _ <-]. lia. }
  destruct (next quote_char s) as [s1|] eqn:E4; [apply next_length in E4|].
  { destruct (scan_string s1) as [[raw s2]|] eqn:E; [|done]. cbn. intros [= _ <-].
    apply scan_string_length in E. lia. }
  destruct (scan_literal (skip_space s)) as [[j s1]|] eqn:E; [|done]. cbn. intros [= _ <-].
  apply scan_literal_length in E. pose proof (skip_space_length s). lia.
Qed.

Lemma scan_elements_shrinks rec depth s p rest :
  shrinks rec → scan_elements rec depth s = Some (p, rest) → len rest ≤ len s.
Proof.
  intros Hrec. unfold scan_elements. destruct (rec PValue depth s) as [[[j| |] s1]|] eqn:E; try done.
  apply Hrec in E. destruct (next "," s1) as [s2|] eqn:E1; [apply next_length in E1|].
  - destruct (rec PElements depth s2) as [[[|l|] s3]|] eqn:E2; try done. apply Hrec in E2.
    intros [= _ <-]. lia.
  - destruct (next "]" s1) as [s2|] eqn:E2; [|done]. apply next_length in E2. intros [= _ <-]. lia.
Qed.

Lemma scan_members_shrinks rec depth s p rest :
  shrinks rec → scan_members rec depth s = Some (p, rest) → len rest ≤ len s.
Proof.
  intros Hrec. unfold scan_members. destruct (next quote_char s) as [s1|] eqn:E1; [|done].
  apply next_length in E1. cbn. destruct (scan_string s1) as [[k s2]|] eqn:E2; [|done].
  apply scan_string_length in E2. cbn. destruct (next ":" s2) as [s3|] eqn:E3; [|done].
  apply next_length in E3. cbn. destruct (rec PValue depth s3) as [[[j| |] s4]|] eqn:E; try done.
  apply Hrec in E. destruct (next "," s4) as [s5|] eqn:E4; [apply next_length in E4|].
  - destruct (rec PMembers depth s5) as [[[| |l] s6]|] eqn:E5; try done. apply Hrec in E5.
    intros [= _ <-]. lia.
  - destruct (next "}" s4) as [s5|] eqn:E5; [|done]. apply next_length in E5. intros [= _ <-]. lia.
Qed.

Lemma scan_shrinks fuel : shrinks (scan fuel).
Proof.
  induction fuel as [|fuel IH]; intros what depth s p rest; [done|]. destruct what; cbn [scan].
  - by apply scan_value_shrinks.
  - by apply scan_elements_shrinks.
  - by apply scan_members_shrinks.
Qed.

Lemma scan_value_agree rec rec' depth s :
  agree (need PValue s) rec rec' → scan_value rec depth s = scan_value rec' depth s.
Proof.
  intros Hag. unfold scan_value. destruct (next "{" s) as [s1|] eqn:E1; [apply next_length in E1|].
  { by rewrite Hag by (cbn; lia). }
  destruct (next "[" s) as [s1|] eqn:E3; [apply next_length in E3|]; [|done].
  by rewrite Hag by (cbn; lia).
Qed.

Lemma scan_elements_agree rec rec' depth s :
  shrinks rec → agree (need PElements s) rec rec' →
  scan_elements rec depth s = scan_elements rec' depth s.
Proof.
  intros Hrec Hag. unfold scan_elements. rewrite <- (Hag PValue) by (cbn; lia).
  destruct (rec PValue depth s) as [[[j| |] s1]|] eqn:E; try done. apply Hrec in E.
  destruct (next "," s1) as [s2|] eqn:E1; [apply next_length in E1|done].
  by rewrite Hag by (cbn; lia).
Qed.

Lemma scan_members_agree rec rec' depth s :
  shrinks rec → agree (need PMembers s) rec rec' →
  scan_members rec depth s = scan_members rec' depth s.
Proof.
  intros Hrec Hag. unfold scan_members. destruct (next quote_char s) as [s1|] eqn:E1; [|done].
  apply next_length in E1. cbn. destruct (scan_string s1) as [[k s2]|] eqn:E2; [|done].
  apply scan_string_length in E2. cbn. destruct (next ":" s2) as [s3|] eqn:E3; [|done].
  apply next_length in E3. cbn. rewrite <- (Hag PValue) by (cbn; lia).
  destruct (rec PValue depth s3) as [[[j| |] s4]|] eqn:E; try done. apply Hrec in E.
  destruct (next "," s4) as [s5|] eqn:E4; [apply next_length in E4|done].
  by rewrite Hag by (cbn; lia).
Qed.

Lemma scan_fuel_irrelevant n m what depth s :
  need what s ≤ n → need what s ≤ m → scan n what depth s = scan m what depth s.
Proof.
  revert m what depth s. induction n as [|n IH]; intros m what depth s Hn Hm;
    [destruct what; cbn in Hn; lia|].
  destruct m as [|m]; [destruct what; cbn in Hm; lia|].
  assert (agree (need what s) (scan n) (scan m)) as Hag by (intros w d s' Hs'; apply IH; lia).
  destruct what; cbn [scan].
  - by apply scan_value_agree.
  - apply scan_elements_agree; [apply scan_shrinks|done].
  - apply scan_members_agree; [apply scan_shrinks|done].
Qed.

(** However much more fuel the scanner is given, [parse_json] is what it finds. *)
Lemma scan_fuel_enough n s :
  scan_fuel s ≤ n → scan n PValue 0%N s = scan (scan_fuel s) PValue 0%N s.
Proof. unfold scan_fuel. intros Hn. apply scan_fuel_irrelevant; cbn; lia. Qed.
