(* ===== verification/JsonStrings.v ===== *)
(** * JSON string literals: quoting, scanning and unquoting

    What [quote] writes is a literal the scanner takes whole, and unquoting it
    gives back every string that is valid UTF-8. *)

From S2P Require Import Prelude GoLib Json JsonTheory.
From Stdlib Require Import Strings.String Strings.Ascii.

Local Abbreviation len := String.length.

(** ** Runes *)

(** A string that is one well-formed UTF-8 sequence. *)
Definition rune (r : string) : Prop := r ≠ EmptyString ∧ rune_size r = len r.

Inductive valid_utf8 : string → Prop :=
  | valid_nil : valid_utf8 EmptyString
  | valid_rune r s : rune r → valid_utf8 s → valid_utf8 (r +:+ s).

Lemma append_nil_l s : EmptyString +:+ s = s.
Proof. done. Qed.
Lemma append_cons c r s : String c r +:+ s = String c (r +:+ s).
Proof. done. Qed.

Lemma append_length s t : len (s +:+ t) = len s + len t.
Proof. induction s as [|c s IH]; [done|]. rewrite append_cons. cbn. by rewrite IH. Qed.

Lemma append_assoc r s t : (r +:+ s) +:+ t = r +:+ (s +:+ t).
Proof. induction r as [|c r IH]; [done|]. by rewrite !append_cons, IH. Qed.

Lemma take_string_app r s : take_string (len r) (r +:+ s) = r.
Proof. induction r as [|c r IH]; [by destruct s|]. rewrite append_cons. cbn. by rewrite IH. Qed.

Lemma drop_string_app r s : drop_string (len r) (r +:+ s) = s.
Proof. induction r as [|c r IH]; [by destruct s|]. rewrite append_cons. done. Qed.

Lemma drop_string_length n s : len (drop_string n s) = len s - n.
Proof. revert s. induction n as [|n IH]; intros [|c s]; cbn; try done. Qed.

(** The size of the first sequence does not depend on what follows it. *)
Lemma rune_size_app r s : rune r → rune_size (r +:+ s) = len r.
Proof.
  intros [Hne Hr]. revert Hr. unfold rune_size.
  destruct r as [|a [|b [|c [|d [|x r]]]]]; rewrite ?append_cons, ?append_nil_l; cbn [String.length]; try done;
    repeat case_match; intros; try done; try congruence.
Qed.

(** Is the byte one of a sequence of several? *)
Definition is_high (c : ascii) : bool := (128 <=? code c)%N.

Lemma in_range_high lo hi c : (128 <= lo)%N → in_range lo hi c = true → is_high c = true.
Proof.
  unfold in_range, is_high. intros Hlo [H _]%andb_prop. apply N.leb_le in H. apply N.leb_le. lia.
Qed.

Lemma is_cont_high c : is_cont c = true → is_high c = true.
Proof. by apply in_range_high. Qed.

Fixpoint all_high (s : string) : Prop :=
  match s with EmptyString => True | String c s => is_high c = true ∧ all_high s end.

(** A rune is one byte below 128 or two to four bytes that are not. *)
Lemma rune_cases r :
  rune r → (∃ c, r = String c EmptyString ∧ (code c < 128)%N) ∨ (2 ≤ len r ∧ all_high r).
Proof.
  intros [Hne Hr]. revert Hr. unfold rune_size.
  destruct r as [|a s]; [done|]. destruct (N.ltb_spec (code a) 128) as [Ha|Ha].
  { intros Hl. left. exists a. by destruct s. }
  intros Hr. right. assert (is_high a = true) as Hha by (unfold is_high; by apply N.leb_le).
  destruct s as [|b s]; [done|]. destruct (in_range 194 223 a).
  { destruct (is_cont b) eqn:Hb; [|done]. destruct s; [|done]. apply is_cont_high in Hb.
    cbn. split; [lia|done]. }
  destruct s as [|c s]; [done|].
  assert (∀ lo hi lo' hi' x, (if (code a =? x)%N then in_range lo hi b
            else if (code a =? lo')%N then in_range lo hi' b else is_cont b) = true →
          (128 <= lo)%N → is_high b = true) as Hb.
  { intros lo hi lo' hi' x Hb Hlo. repeat case_match; eauto using in_range_high, is_cont_high. }
  destruct (in_range 224 239 a).
  { destruct (_ && _) eqn:Hbc; [|done]. apply andb_prop in Hbc as [H1 H2%is_cont_high].
    destruct s; [|done]. cbn. split; [lia|]. split; [done|]. split; [|done].
    repeat case_match; eauto using in_range_high, is_cont_high.
    all: by eapply in_range_high; [|exact H1]. }
  destruct s as [|d s]; [done|].
  destruct (_ && _) eqn:Hbc; [|done]. apply andb_prop in Hbc as [Hbc H4%is_cont_high].
  apply andb_prop in Hbc as [Hbc H3%is_cont_high]. apply andb_prop in Hbc as [_ H1].
  destruct s; [|done]. cbn. split; [lia|]. split; [done|]. split; [|done].
  repeat case_match; eauto using is_cont_high.
  all: by eapply in_range_high; [|exact H1].
Qed.

(** ** Fuel *)

Lemma take_drop_string n s : take_string n s +:+ drop_string n s = s.
Proof.
  revert s. induction n as [|n IH]; intros [|c s]; try done. cbn. by rewrite append_cons, IH.
Qed.

Lemma quote_fuel_irrelevant n m s : len s < n → len s < m → quote_fuel n s = quote_fuel m s.
Proof.
  revert m s. induction n as [|n IH]; intros m s Hn Hm; [lia|]. destruct m as [|m]; [lia|].
  cbn [quote_fuel]. destruct s as [|c s]; [done|]. cbn in Hn, Hm.
  destruct (rune_size (String c s)) as [|[|k]] eqn:Hk.
  - by rewrite (IH m) by lia.
  - by rewrite (IH m) by lia.
  - rewrite (IH m); [done|..]; rewrite drop_string_length; cbn; lia.
Qed.

Lemma low_surrogate_length s r rest : low_surrogate s = Some (r, rest) → len rest < len s.
Proof.
  unfold low_surrogate. destruct s as [|x [|y [|a [|b [|c [|d s]]]]]]; try done.
  destruct (_ && _); [|done]. destruct (hex4 a b c d); [|done]. cbn. intros [= _ <-]. lia.
Qed.

Lemma unquote_fuel_irrelevant n m s : len s < n → len s < m → unquote_fuel n s = unquote_fuel m s.
Proof.
  revert m s. induction n as [|n IH]; intros m s Hn Hm; [lia|]. destruct m as [|m]; [lia|].
  cbn [unquote_fuel]. destruct s as [|c s]; [done|]. cbn in Hn, Hm.
  destruct (Ascii.eqb c backslash).
  2: { destruct (rune_size (String c s)) as [|k] eqn:Hk; [by rewrite (IH m) by lia|].
       rewrite (IH m); [done|..]; rewrite drop_string_length; cbn; lia. }
  destruct s as [|e s]; [done|]. cbn in Hn, Hm. destruct (Ascii.eqb e "u").
  2: { destruct (simple_escape e); [|done]. by rewrite (IH m) by lia. }
  destruct s as [|x1 [|x2 [|x3 [|x4 s]]]]; try done. cbn in Hn, Hm.
  destruct (hex4 x1 x2 x3 x4) as [r|]; [|done].
  destruct (is_surrogate r); [|by rewrite (IH m) by lia].
  destruct (low_surrogate s) as [[r' s']|] eqn:Hl; [apply low_surrogate_length in Hl|by rewrite (IH m) by lia].
  destruct (_ && _)%bool; by rewrite (IH m) by lia.
Qed.

(** ** Quoting one rune *)

Definition quote_rune (r : string) : string :=
  match r with
  | String c EmptyString => escape_ascii c
  | _ => if String.eqb r (encode_rune 8232) then "\u2028"
         else if String.eqb r (encode_rune 8233) then "\u2029"
         else r
  end.

Lemma quote_app r s : rune r → quote (r +:+ s) = quote_rune r +:+ quote s.
Proof.
  intros Hr. pose proof (rune_size_app r s Hr) as Hsize. unfold quote.
  destruct (rune_cases r Hr) as [(c & -> & Hc)|[Hl _]].
  - rewrite append_cons, append_nil_l in *. cbn [quote_fuel]. rewrite Hsize. cbn [String.length quote_rune].
    f_equal. 
  - destruct r as [|c r]; [cbn in Hl; lia|]. rewrite append_cons in *. cbn [quote_fuel]. rewrite Hsize.
    cbn [String.length] in *. destruct (len r) as [|k] eqn:Hk; [lia|].
    replace (Datatypes.S (Datatypes.S k)) with (len (String c r)) by (cbn; by rewrite Hk).
    rewrite <- append_cons, take_string_app, drop_string_app.
    assert (quote_rune (String c r) =
            if String.eqb (String c r) (encode_rune 8232) then "\u2028"
            else if String.eqb (String c r) (encode_rune 8233) then "\u2029"
            else String c r) as -> by (by destruct r). f_equal.
    change (quote_fuel (Datatypes.S (len (r +:+ s))) s = quote_fuel (Datatypes.S (len s)) s).
    apply quote_fuel_irrelevant; rewrite ?append_length; lia.
Qed.

(** ** Scanning it *)

Lemma scan_high c s :
  is_high c = true →
  scan_string (String c s) = '(raw, rest) ← scan_string s; Some (String c raw, rest).
Proof.
  unfold is_high. intros Hc%N.leb_le. cbn [scan_string].
  destruct (Ascii.eqb_spec c quote_char) as [->|_]; [by vm_compute in Hc|].
  destruct (Ascii.eqb_spec c backslash) as [->|_]; [by vm_compute in Hc|].
  destruct (N.ltb_spec (code c) 32); [lia|]. by destruct (scan_string s) as [[raw rest]|].
Qed.

Definition scans_as (l : string) : Prop := ∀ s,
  scan_string (l +:+ s) = '(raw, rest) ← scan_string s; Some (l +:+ raw, rest).

Lemma scan_all_high r : all_high r → scans_as r.
Proof.
  intros Hr s. induction r as [|c r IH]; [rewrite append_nil_l; by destruct (scan_string s) as [[raw rest]|]|].
  destruct Hr as [Hc Hr]. rewrite append_cons, scan_high, IH by done.
  by destruct (scan_string s) as [[raw rest]|].
Qed.

Lemma scan_escape_ascii c : (code c < 128)%N → scans_as (escape_ascii c).
Proof.
  intros Hc s. destruct c as [[] [] [] [] [] [] [] []]; try (by vm_compute in Hc);
    cbn -[scan_string]; cbn [scan_string]; by destruct (scan_string s) as [[raw rest]|].
Qed.

Lemma scan_quote_rune r : rune r → scans_as (quote_rune r).
Proof.
  intros Hr. destruct (rune_cases r Hr) as [(c & -> & Hc)|[Hl Hh]]; [by apply scan_escape_ascii|].
  assert (quote_rune r = "\u2028" ∨ quote_rune r = "\u2029" ∨ quote_rune r = r) as [->|[->| ->]].
  { destruct r as [|c [|d r]]; [cbn in Hl; lia..|]. unfold quote_rune. repeat case_match; tauto. }
  - intros s. rewrite !append_cons, append_nil_l. cbn. by destruct (scan_string s) as [[raw rest]|].
  - intros s. rewrite !append_cons, append_nil_l. cbn. by destruct (scan_string s) as [[raw rest]|].
  - by apply scan_all_high.
Qed.

(** The front of a string is a rune, or a byte that starts none. *)
Lemma rune_front s k : rune_size s = Datatypes.S k → rune (take_string (Datatypes.S k) s).
Proof.
  intros Hs. assert (len (take_string (Datatypes.S k) s) = Datatypes.S k ∧
                     rune_size (take_string (Datatypes.S k) s) = Datatypes.S k) as [Hl Hr].
  { revert Hs. unfold rune_size. destruct s as [|a s]; [done|].
    destruct (code a <? 128)%N eqn:Ea; [intros [= <-]; cbn; by rewrite Ea|].
    destruct s as [|b s]; [done|]. destruct (in_range 194 223 a) eqn:Ha.
    { destruct (is_cont b) eqn:Hb; [|done]. intros [= <-]. cbn. by rewrite Ea, Ha, Hb. }
    destruct s as [|c s]; [done|]. destruct (in_range 224 239 a) eqn:Ha'.
    { destruct (_ && _) eqn:Hb; [|done]. intros [= <-]. cbn -[andb]. by rewrite Ea, Ha, Ha', Hb. }
    destruct s as [|d s]; [done|]. destruct (_ && _) eqn:Hb; [|done]. intros [= <-].
    cbn -[andb]. by rewrite Ea, Ha, Ha', Hb. }
  split; [by destruct (take_string _ s)|by rewrite Hr, Hl].
Qed.

Lemma string_front s :
  s = EmptyString ∨ (∃ r s', s = r +:+ s' ∧ rune r) ∨ (∃ c s', s = String c s' ∧ rune_size s = 0).
Proof.
  destruct s as [|c s]; [by left|right]. destruct (rune_size (String c s)) as [|k] eqn:Hk.
  - right. by exists c, s.
  - left. eexists _, _. split; [symmetry; apply (take_drop_string (Datatypes.S k))|]. by apply rune_front.
Qed.

Lemma rune_length r : rune r → 1 ≤ len r.
Proof. intros [Hr _]. destruct r; [done|]. cbn. lia. Qed.

Lemma quote_malformed c s : rune_size (String c s) = 0 → quote (String c s) = "\ufffd" +:+ quote s.
Proof. intros Hs. unfold quote. cbn [quote_fuel]. rewrite Hs. done. Qed.

Lemma scans_literal l s raw t :
  scans_as l → scan_string s = Some (raw, t) → scan_string (l +:+ s) = Some (l +:+ raw, t).
Proof. intros Hl Hs. rewrite Hl, Hs. done. Qed.

(** What [quote] writes is a literal, whatever the string. *)
Lemma scan_quote s t : scan_string (quote s +:+ String quote_char t) = Some (quote s, t).
Proof.
  induction s as [s IH] using (induction_ltof1 _ len). unfold ltof in IH.
  destruct (string_front s) as [->|[(r & s' & -> & Hr)|(c & s' & -> & Hs)]]; [done|..].
  - rewrite quote_app, append_assoc by done. apply scans_literal; [by apply scan_quote_rune|].
    apply IH. rewrite append_length. pose proof (rune_length r Hr). lia.
  - rewrite quote_malformed, append_assoc by done. apply scans_literal; [|apply IH; cbn; lia].
    intros u. rewrite !append_cons, append_nil_l. cbn. by destruct (scan_string u) as [[raw rest]|].
Qed.

(** ** Unquoting it *)

Lemma unquote_fuel_enough n s : len s < n → unquote_fuel n s = unquote s.
Proof. intros Hn. apply unquote_fuel_irrelevant; lia. Qed.

(** A literal that one step of the loop turns into [r]. *)
Lemma unquote_step l r s :
  l ≠ EmptyString → (∀ n, unquote_fuel (Datatypes.S n) (l +:+ s) = r +:+ unquote_fuel n s) →
  unquote (l +:+ s) = r +:+ unquote s.
Proof.
  intros Hl Hstep. unfold unquote at 1. rewrite Hstep. f_equal. apply unquote_fuel_enough.
  rewrite append_length. destruct l; [done|]. cbn. lia.
Qed.

Lemma unquote_escape_ascii c s :
  (code c < 128)%N → unquote (escape_ascii c +:+ s) = String c (unquote s).
Proof.
  intros Hc. apply (unquote_step _ (String c EmptyString)).
  - destruct c as [[] [] [] [] [] [] [] []]; done.
  - intros n. destruct c as [[] [] [] [] [] [] [] []]; try (by vm_compute in Hc); reflexivity.
Qed.

Lemma unquote_high r s : rune r → 2 ≤ len r → all_high r → unquote (r +:+ s) = r +:+ unquote s.
Proof.
  intros Hr Hl Hh. pose proof (rune_size_app r s Hr) as Hsize. unfold unquote at 1.
  destruct r as [|c r]; [cbn in Hl; lia|]. rewrite append_cons in *. cbn [unquote_fuel].
  destruct Hh as [Hc _]. unfold is_high in Hc. apply N.leb_le in Hc.
  destruct (Ascii.eqb_spec c backslash) as [->|_]; [by vm_compute in Hc|]. rewrite Hsize.
  cbn [String.length]. change (Datatypes.S (len r)) with (len (String c r)).
  rewrite <- append_cons, take_string_app, drop_string_app. f_equal.
  apply unquote_fuel_enough. cbn. rewrite append_length. lia.
Qed.

Lemma unquote_quote_rune r s : rune r → unquote (quote_rune r +:+ s) = r +:+ unquote s.
Proof.
  intros Hr. destruct (rune_cases r Hr) as [(c & -> & Hc)|[Hl Hh]]; [by apply unquote_escape_ascii|].
  assert (quote_rune r = if String.eqb r (encode_rune 8232) then "\u2028"
            else if String.eqb r (encode_rune 8233) then "\u2029" else r) as ->
    by (destruct r as [|c [|d r]]; [cbn in Hl; lia..|done]).
  destruct (String.eqb_spec r (encode_rune 8232)) as [->|_];
    [|destruct (String.eqb_spec r (encode_rune 8233)) as [->|_]; [|by apply unquote_high]].
  all: apply unquote_step; [done|intros n; reflexivity].
Qed.

Lemma unquote_quote s : valid_utf8 s → unquote (quote s) = s.
Proof.
  induction 1 as [|r s Hr _ IH]; [done|]. by rewrite quote_app, unquote_quote_rune, IH.
Qed.

(** Text of ASCII characters is valid UTF-8. *)
Fixpoint all_ascii (s : string) : bool :=
  match s with EmptyString => true | String c s => negb (is_high c) && all_ascii s end.

Lemma valid_ascii s : all_ascii s = true → valid_utf8 s.
Proof.
  induction s as [|c s IH]; [constructor|]. cbn. intros [Hc Hs]%andb_prop.
  apply (valid_rune (String c EmptyString)); [|auto]. split; [done|].
  unfold is_high in Hc. apply negb_true_iff, N.leb_gt in Hc.
  cbn. destruct (N.ltb_spec (code c) 128); [done|lia].
Qed.
