(* ===== verification/JsonRoundTrip.v ===== *)
(** * Rendered JSON is read back

    A value whose number and string literals are well formed is rendered to a
    text that [parse_json] reads back, whatever follows it. *)

From S2P Require Import Prelude GoLib Json JsonTheory JsonStrings.
From Stdlib Require Import Strings.String Strings.Ascii DecimalString DecimalZ DecimalFacts.

Local Abbreviation len := String.length.

(** ** Numbers *)

(** What follows a value does not continue a number. *)
Definition delimits (s : string) : Prop :=
  match s with
  | EmptyString => True
  | String c _ => is_digit c = false ∧ c ≠ "."%char ∧ c ≠ "e"%char ∧ c ≠ "E"%char
  end.

Lemma scan_digits_uint u s :
  match s with String c _ => is_digit c = false | EmptyString => True end →
  scan_digits (NilEmpty.string_of_uint u +:+ s) = (NilEmpty.string_of_uint u, s).
Proof.
  intros Hs. induction u as [|u IH|u IH|u IH|u IH|u IH|u IH|u IH|u IH|u IH|u IH].
  1: { destruct s as [|c s]; [done|]. change (scan_digits (String c s) = (EmptyString, String c s)).
       cbn [scan_digits]. by rewrite Hs. }
  all: cbn [NilEmpty.string_of_uint]; rewrite append_cons; cbn [scan_digits]; rewrite IH; reflexivity.
Qed.

Lemma digits_delimited s :
  delimits s → match s with String c _ => is_digit c = false | EmptyString => True end.
Proof. by destruct s as [|c s]; [|intros [H _]]. Qed.

(** The digits of a number that does not start with 0, or 0 itself. *)
Lemma scan_natural_uint u s :
  delimits s → Decimal.unorm u = u →
  scan_natural (NilEmpty.string_of_uint u +:+ s) = Some (NilEmpty.string_of_uint u, s).
Proof.
  intros Hs%digits_delimited Hu.
  assert (u = Decimal.D0 Decimal.Nil ∨ ∃ c t, NilEmpty.string_of_uint u = String c t ∧ Ascii.eqb c "0" = false)
    as [->|(c & t & Hc & H0)].
  { destruct u; [done| |right; by do 2 eexists..]. left.
    unfold Decimal.unorm in Hu. cbn [Decimal.nzhead] in Hu.
    pose proof (nzhead_nonzero u) as Hn. destruct (Decimal.nzhead u) eqn:E; try done.
    by destruct (Hn _ eq_refl). }
  - done.
  - pose proof (scan_digits_uint u s Hs) as Hd. rewrite Hc, append_cons in *. cbn [scan_natural]. rewrite H0.
    unfold scan_digits1. by rewrite Hd.
Qed.

Lemma scan_tail s : delimits s → scan_fraction s = Some (EmptyString, s) ∧ scan_exponent s = Some (EmptyString, s).
Proof.
  destruct s as [|c s]; [done|]. intros (_ & Hp & He & HE). cbn [scan_fraction scan_exponent].
  apply Ascii.eqb_neq in Hp, He, HE. by rewrite Hp, He, HE.
Qed.

Lemma norm_to_int n : Decimal.norm (Z.to_int n) = Z.to_int n.
Proof. by rewrite <- to_of, of_to. Qed.

(** The digits behind the sign of an integer. *)
Lemma format_int_cases n :
  ∃ u, Decimal.unorm u = u ∧ u ≠ Decimal.Nil ∧
    ((Z.to_int n = Decimal.Pos u ∧ format_int n = NilEmpty.string_of_uint u) ∨
     (Z.to_int n = Decimal.Neg u ∧ format_int n = String "-" (NilEmpty.string_of_uint u))).
Proof.
  pose proof (norm_to_int n) as Hn. unfold format_int. destruct (Z.to_int n) as [u|u]; cbn [Decimal.norm] in Hn.
  - injection Hn as Hu. exists u. split; [done|].
    assert (u ≠ Decimal.Nil) as Hnil by (intros ->; done). split; [done|]. left.
    split; [done|]. by destruct u.
  - destruct (Decimal.nzhead u) eqn:E; [done|..]; injection Hn as Hu; subst u;
      (eexists; split; [unfold Decimal.unorm; by rewrite E|]); (split; [done|]); right; done.
Qed.

Lemma scan_number_format_int n s :
  delimits s → scan_number (format_int n +:+ s) = Some (format_int n, s).
Proof.
  intros Hs. destruct (format_int_cases n) as (u & Hu & Hnil & Hn).
  destruct (scan_tail s Hs) as [Hf He]. pose proof (scan_natural_uint u s Hs Hu) as Hnat.
  unfold scan_number.
  destruct Hn as [[_ ->]|[_ ->]].
  - assert ((match NilEmpty.string_of_uint u +:+ s with
             | String c s' => if Ascii.eqb c "-" then ("-", s') else (EmptyString, NilEmpty.string_of_uint u +:+ s)
             | EmptyString => (EmptyString, NilEmpty.string_of_uint u +:+ s)
             end) = (EmptyString, NilEmpty.string_of_uint u +:+ s)) as -> by (by destruct u).
    rewrite Hnat. cbn. rewrite Hf. cbn. rewrite He. cbn. by rewrite !string_app_nil.
  - rewrite append_cons. change (Ascii.eqb "-" "-") with true. cbv beta iota.
    rewrite Hnat. cbn. rewrite Hf. cbn. rewrite He. cbn. by rewrite string_app_nil, append_cons, append_nil_l.
Qed.

Lemma parse_format_int n : (min_int64 ≤ n ≤ max_int64)%Z → parse_int (format_int n) = Some n.
Proof.
  intros Hn. unfold parse_int, format_int.
  destruct (format_int_cases n) as (u & _ & Hnil & Hc).
  rewrite NilZero.isi by (destruct Hc as [[-> _]|[-> _]]; congruence).
  rewrite of_to. destruct (Z.leb_spec min_int64 n), (Z.leb_spec n max_int64); cbn; lia || done.
Qed.

(** ** Well-formed values *)

Definition literal (raw : string) : Prop :=
  ∀ t, scan_string (raw +:+ String quote_char t) = Some (raw, t).

Lemma literal_quote s : literal (quote s).
Proof. intros t. apply scan_quote. Qed.

(** Inside [depth] arrays and objects: literals are literals, and the nesting
    is within the scanner's limit. *)
Inductive wf : N → json → Prop :=
  | wf_null d : wf d JNull
  | wf_bool d b : wf d (JBool b)
  | wf_num d n : wf d (JNum (format_int n))
  | wf_str d raw : literal raw → wf d (JStr raw)
  | wf_arr d l : (d < maxNestingDepth)%N → Forall (wf (d + 1)) l → wf d (JArr l)
  | wf_obj d l :
      (d < maxNestingDepth)%N → Forall (λ kj, literal kj.1 ∧ wf (d + 1) kj.2) l → wf d (JObj l).

(** Induction that goes through the lists. *)
Lemma json_nested_ind (P : json → Prop) :
  P JNull → (∀ b, P (JBool b)) → (∀ lit, P (JNum lit)) → (∀ raw, P (JStr raw)) →
  (∀ l, Forall P l → P (JArr l)) → (∀ l, Forall (λ kj, P kj.2) l → P (JObj l)) → ∀ j, P j.
Proof.
  intros Hn Hb Hi Hs Ha Ho. fix IH 1.
  intros [|b|lit|raw|l|l]; [exact Hn|apply Hb|apply Hi|apply Hs|..].
  - apply Ha. induction l as [|j l IHl]; constructor; [apply IH|exact IHl].
  - apply Ho. induction l as [|[k j] l IHl]; constructor; [apply IH|exact IHl].
Qed.

(** ** Rendering, element by element *)

Fixpoint render_elements (l : list json) : string :=
  match l with
  | [] => EmptyString
  | [j] => render j
  | j :: l => render j +:+ "," +:+ render_elements l
  end.
Fixpoint render_members (l : list (string * json)) : string :=
  match l with
  | [] => EmptyString
  | [(k, j)] => String quote_char (k +:+ String quote_char ":") +:+ render j
  | (k, j) :: l => String quote_char (k +:+ String quote_char ":") +:+ render j +:+ "," +:+ render_members l
  end.

Lemma render_arr l : render (JArr l) = "[" +:+ render_elements l +:+ "]".
Proof. reflexivity. Qed.
Lemma render_obj l : render (JObj l) = "{" +:+ render_members l +:+ "}".
Proof. reflexivity. Qed.

(** ** Where a value starts *)

Lemma next_eq c s : is_space c = false → next c (String c s) = Some s.
Proof. intros Hc. unfold next. cbn [skip_space]. by rewrite Hc, Ascii.eqb_refl. Qed.

Lemma next_ne c d s : is_space d = false → c ≠ d → next c (String d s) = None.
Proof.
  intros Hd Hne. unfold next. cbn [skip_space]. rewrite Hd.
  destruct (Ascii.eqb_spec d c); [congruence|done].
Qed.

(** The first character of a number: neither white space nor the start of another value. *)
Lemma format_int_head n :
  ∃ c t, format_int n = String c t ∧ (is_digit c = true ∨ c = "-"%char).
Proof.
  destruct (format_int_cases n) as (u & _ & Hnil & [[_ ->]|[_ ->]]); [|eauto].
  destruct u; [done|..]; do 2 eexists; (split; [reflexivity|by left]).
Qed.

Lemma digit_or_minus c :
  is_digit c = true ∨ c = "-"%char →
  is_space c = false ∧ c ≠ "{"%char ∧ c ≠ "["%char ∧ c ≠ quote_char ∧ c ≠ "t"%char ∧ c ≠ "f"%char ∧ c ≠ "n"%char
  ∧ c ≠ "]"%char ∧ c ≠ "}"%char.
Proof.
  intros [Hd| ->]; [|split_and!; done].
  destruct c as [[] [] [] [] [] [] [] []]; try (vm_compute in Hd; discriminate); split_and!; done.
Qed.

(** The text of a value does not start with white space or a closing bracket. *)
Lemma render_head d j rest :
  wf d j → ∃ c t, render j +:+ rest = String c t ∧ is_space c = false ∧ c ≠ "]"%char ∧ c ≠ "}"%char.
Proof.
  intros Hj. destruct Hj as [d|d b|d n|d raw Hraw|d l _ _|d l _ _].
  - by do 2 eexists.
  - by destruct b; do 2 eexists.
  - destruct (format_int_head n) as (c & t & Hc & Hd). change (render (JNum (format_int n))) with (format_int n).
    rewrite Hc, append_cons. do 2 eexists. split; [reflexivity|]. apply digit_or_minus in Hd. tauto.
  - by do 2 eexists.
  - rewrite render_arr, append_assoc. by do 2 eexists.
  - rewrite render_obj, append_assoc. by do 2 eexists.
Qed.

(** ** Scanning what was rendered *)

(** With any sufficient fuel the scan reads [p] off the front of [s]. *)
Definition reads (what : position) (d : N) (s : string) (p : parsed) (rest : string) : Prop :=
  ∀ n, need what s ≤ n → scan n what d s = Some (p, rest).

Lemma reads_step what d s p rest :
  (∀ n, agree (need what s) (scan n) (scan (need what s)) →
     match what with
     | PValue => scan_value (scan n) d s
     | PElements => scan_elements (scan n) d s
     | PMembers => scan_members (scan n) d s
     end = Some (p, rest)) →
  reads what d s p rest.
Proof.
  intros Hstep n Hn. destruct n as [|n]; [destruct what; cbn in Hn; lia|].
  assert (agree (need what s) (scan n) (scan (need what s))) as Hag.
  { intros w d' s' Hs'. apply scan_fuel_irrelevant; lia. }
  specialize (Hstep n Hag). by destruct what.
Qed.

(** A level below reads what it reads with enough fuel. *)
Lemma reads_below n m w d s p rest :
  agree m (scan n) (scan m) → need w s < m → reads w d s p rest → scan n w d s = Some (p, rest).
Proof. intros Hag Hlt Hr. rewrite Hag by done. apply Hr. lia. Qed.

Lemma delimits_char c s : is_digit c = false → c ≠ "."%char → c ≠ "e"%char → c ≠ "E"%char → delimits (String c s).
Proof. intros; unfold delimits; by split_and!. Qed.

(** What the scan of one value must achieve. *)
Definition value_reads (d : N) (j : json) : Prop := ∀ rest,
  delimits rest → reads PValue d (render j +:+ rest) (AValue j) rest.

Lemma reads_elements d l rest :
  l ≠ [] → Forall (value_reads d) l →
  reads PElements d (render_elements l +:+ String "]" rest) (AElements l) rest.
Proof.
  intros Hne Hl. revert Hne. induction Hl as [|j l Hj Hl IH]; intros Hne; [done|clear Hne].
  apply reads_step. intros n Hag. unfold scan_elements.
  destruct l as [|j' l].
  - cbn [render_elements] in *. rewrite (reads_below n _ _ _ _ (AValue j) (String "]" rest) Hag);
      [|cbn; lia|by apply Hj]. 
    rewrite next_ne, next_eq by done. done.
  - change (render_elements (j :: j' :: l)) with (render j +:+ "," +:+ render_elements (j' :: l)) in *.
    set (tl := render_elements (j' :: l)) in *. rewrite !append_assoc, append_cons, append_nil_l in *.
    rewrite (reads_below n _ _ _ _ (AValue j) (String "," (tl +:+ String "]" rest)) Hag);
      [|cbn; lia|by apply Hj].
    rewrite next_eq by done.
    rewrite (reads_below n _ _ _ _ (AElements (j' :: l)) rest Hag); [done| |by apply IH].
    cbn. rewrite !append_length. cbn. rewrite append_length. cbn. lia.
Qed.

(** A member up to its value. *)
Definition member_text (k : string) (j : json) (s : string) : string :=
  String quote_char (k +:+ String quote_char (String ":" (render j +:+ s))).

Lemma scan_members_front n d k j rest :
  literal k → scan n PValue d (render j +:+ rest) = Some (AValue j, rest) →
  scan_members (scan n) d (member_text k j rest) =
  match next "," rest, next "}" rest with
  | Some s, _ =>
      match scan n PMembers d s with
      | Some (AMembers l, s) => Some (AMembers ((k, j) :: l), s)
      | _ => None
      end
  | _, Some s => Some (AMembers [(k, j)], s)
  | _, _ => None
  end.
Proof.
  intros Hk Hj. unfold scan_members, member_text. rewrite next_eq by done. cbn [mbind option_bind].
  rewrite Hk. cbn [mbind option_bind]. rewrite next_eq by done. cbn [mbind option_bind]. by rewrite Hj.
Qed.

Lemma member_text_length k j s : len (render j +:+ s) < len (member_text k j s).
Proof. unfold member_text. cbn. rewrite (append_length k). cbn. lia. Qed.

Lemma render_members_cons k j l rest :
  render_members ((k, j) :: l) +:+ String "}" rest =
  match l with
  | [] => member_text k j (String "}" rest)
  | _ => member_text k j (String "," (render_members l +:+ String "}" rest))
  end.
Proof.
  destruct l as [|kj l]; cbn [render_members]; unfold member_text.
  - by rewrite !append_cons, !append_assoc, !append_cons, !append_nil_l.
  - change ((fix render_members (l : list (string * json)) : string := _) (kj :: l))
      with (render_members (kj :: l)).
    by rewrite !append_cons, !append_assoc, !append_cons, !append_nil_l.
Qed.

Lemma reads_members d l rest :
  l ≠ [] → Forall (λ kj, literal kj.1 ∧ value_reads d kj.2) l →
  reads PMembers d (render_members l +:+ String "}" rest) (AMembers l) rest.
Proof.
  intros Hne Hl. revert Hne. induction Hl as [|[k j] l [Hk Hj] Hl IH]; intros Hne; [done|clear Hne].
  cbn [fst snd] in Hk, Hj. rewrite render_members_cons. apply reads_step. intros n Hag.
  destruct l as [|kj l].
  - rewrite scan_members_front by
      (done || (apply (reads_below _ _ _ _ _ _ _ Hag);
                  [pose proof (member_text_length k j (String "}" rest)); cbn [need]; lia|by apply Hj])).
    by rewrite next_ne, next_eq by done.
  - set (tl := render_members (kj :: l) +:+ String "}" rest) in *.
    pose proof (member_text_length k j (String "," tl)) as Hlen.
    rewrite scan_members_front by
      (done || (apply (reads_below _ _ _ _ _ _ _ Hag); [cbn [need]; lia|by apply Hj])).
    rewrite next_eq by done.
    rewrite (reads_below n _ _ _ _ (AMembers (kj :: l)) rest Hag); [done| |by apply IH].
    rewrite append_length in Hlen. cbn [need String.length] in *. lia.
Qed.

(** ** Scanning a value *)

Lemma literal_head_number n :
  ∀ s, delimits s → scan_literal (format_int n +:+ s) = Some (JNum (format_int n), s).
Proof.
  intros s Hs. unfold scan_literal. pose proof (scan_number_format_int n s Hs) as Hn.
  destruct (format_int_head n) as (c & t & Hc & Hd%digit_or_minus).
  destruct Hd as (_ & _ & _ & _ & Ht & Hf & Hnn & _).
  rewrite Hc, append_cons in *. cbn [strip_prefix].
  apply not_eq_sym in Ht, Hf, Hnn. apply Ascii.eqb_neq in Ht, Hf, Hnn. rewrite Ht, Hf, Hnn.
  by rewrite Hn.
Qed.

(** A value that does not start with a bracket or a quotation mark. *)
Lemma reads_literal d c t j rest :
  is_space c = false → c ≠ "{"%char → c ≠ "["%char → c ≠ quote_char →
  scan_literal (String c t) = Some (j, rest) → reads PValue d (String c t) (AValue j) rest.
Proof.
  intros Hsp H1 H2 H3 Hs. apply reads_step. intros n _. unfold scan_value.
  rewrite !next_ne by (done || by apply not_eq_sym). cbn [skip_space]. rewrite Hsp, Hs. done.
Qed.

(** Behind an opening bracket there is less to read. *)
Lemma need_inside w c s : need w s < need PValue (String c s).
Proof. destruct w; cbn [need String.length]; lia. Qed.

Lemma reads_object d l rest :
  (d < maxNestingDepth)%N → Forall (λ kj, literal kj.1 ∧ value_reads (d + 1) kj.2) l →
  reads PValue d (render (JObj l) +:+ rest) (AValue (JObj l)) rest.
Proof.
  intros Hd Hl. rewrite render_obj, !append_assoc, append_cons, append_nil_l.
  apply reads_step. intros n Hag. unfold scan_value. rewrite next_eq by done.
  destruct (N.leb_spec maxNestingDepth d); [lia|].
  destruct l as [|[k j] l]; [by rewrite append_nil_l, append_cons, append_nil_l, next_eq by done|].
  rewrite append_cons, append_nil_l.
  assert (next "}" (render_members ((k, j) :: l) +:+ String "}" rest) = None) as ->.
  { rewrite render_members_cons. unfold member_text. by destruct l; apply next_ne. }
  assert (reads PMembers (d + 1) (render_members ((k, j) :: l) +:+ String "}" rest)
            (AMembers ((k, j) :: l)) rest) as Hr by by apply reads_members.
  change ("}" +:+ rest) with (String "}" rest) in *. set (tl := render_members ((k, j) :: l) +:+ String "}" rest) in *.
  rewrite (reads_below n _ _ _ _ _ _ Hag (need_inside _ _ _) Hr). done.
Qed.

Lemma render_elements_head l :
  l ≠ [] → ∃ j s, j ∈ l ∧ render_elements l = render j +:+ s.
Proof.
  destruct l as [|j [|j' l]]; [done|..]; intros _.
  - exists j, EmptyString. rewrite string_app_nil. split; [left|done].
  - exists j, ("," +:+ render_elements (j' :: l)). split; [left|done].
Qed.

Lemma reads_array d l rest :
  (d < maxNestingDepth)%N → Forall (wf (d + 1)) l → Forall (value_reads (d + 1)) l →
  reads PValue d (render (JArr l) +:+ rest) (AValue (JArr l)) rest.
Proof.
  intros Hd Hwf Hl. rewrite render_arr, !append_assoc, append_cons, append_nil_l.
  apply reads_step. intros n Hag. unfold scan_value. rewrite next_ne, next_eq by done.
  destruct (N.leb_spec maxNestingDepth d); [lia|].
  destruct l as [|j l]; [by rewrite append_nil_l, append_cons, append_nil_l, next_eq by done|].
  rewrite append_cons, append_nil_l.
  assert (next "]" (render_elements (j :: l) +:+ String "]" rest) = None) as ->.
  { destruct (render_elements_head (j :: l)) as (x & s & Hx & ->); [done|].
    rewrite Forall_forall in Hwf. rewrite append_assoc.
    destruct (render_head _ x (s +:+ String "]" rest) (Hwf x Hx)) as (c & t & -> & Hsp & Hc & _).
    by apply next_ne. }
  assert (reads PElements (d + 1) (render_elements (j :: l) +:+ String "]" rest)
            (AElements (j :: l)) rest) as Hr by by apply reads_elements.
  change ("]" +:+ rest) with (String "]" rest) in *. set (tl := render_elements (j :: l) +:+ String "]" rest) in *.
  rewrite (reads_below n _ _ _ _ _ _ Hag (need_inside _ _ _) Hr). done.
Qed.

Lemma reads_value j : ∀ d, wf d j → value_reads d j.
Proof.
  induction j as [|b|lit|raw|l IH|l IH] using json_nested_ind; intros d Hj rest Hrest; inversion Hj; subst.
  - by apply reads_literal.
  - by destruct b; apply reads_literal.
  - change (render (JNum (format_int n))) with (format_int n).
    pose proof (literal_head_number n rest Hrest) as Hl.
    destruct (format_int_head n) as (c & t & Hc & Hd%digit_or_minus). rewrite Hc, append_cons in *.
    destruct Hd as (? & ? & ? & ? & _). by apply reads_literal.
  - apply reads_step. intros n _. cbn [render]. rewrite append_cons, append_assoc, append_cons, append_nil_l.
    unfold scan_value. rewrite !(next_ne _ quote_char) by done. rewrite next_eq by done.
    match goal with H : literal raw |- _ => rewrite H end. done.
  - apply reads_array; [done|done|]. 
    match goal with H : Forall (wf _) l |- _ => revert H end. clear -IH.
    induction IH as [|x l Hx _ IHl]; intros Hw; inversion Hw; subst; constructor; auto.
  - apply reads_object; [done|].
    match goal with H : Forall _ l |- _ => revert H end. clear -IH.
    induction IH as [|x l Hx _ IHl]; intros Hw; inversion Hw as [|? ? [??]]; subst; constructor; auto.
Qed.

(** Rendering followed by scanning is the identity, and what follows is left alone. *)
Lemma parse_render j rest : wf 0 j → delimits rest → parse_json (render j +:+ rest) = Some (j, rest).
Proof.
  intros Hj Hrest. unfold parse_json, scan_fuel. rewrite (reads_value j 0%N Hj rest Hrest); [done|].
  cbn [need]. lia.
Qed.
