(* ===== verification/Codec.v ===== *)
(** * The JSON form of the data model (the struct tags of src/model)

    [json.Marshal] and [json.Unmarshal] on the types the HTTP transport sends
    and receives.  A decoder fills a value that is already there, as Go does:
    a missing or null field leaves it as it is, a repeated one is decoded over
    what the first one left. *)

From S2P Require Import Prelude GoLib Model Rfc3339 Json.
From Stdlib Require Import Strings.String Strings.Ascii.

Local Open Scope string_scope.

(** ** Encoding *)

Definition enc_string (s : string) : json := JStr (quote s).
Definition enc_int (n : Z) : json := JNum (format_int n).

(** A struct: the fields in their order, none of them optional here. *)
Definition enc_struct (fields : list (string * json)) : json := JObj fields.

Definition enc_slice {A} (enc : A → json) (s : Slice A) : json :=
  match s with Some l => JArr (enc <$> l) | None => JNull end.

(** Map keys are sorted. *)
Fixpoint insert_sorted {A} (kv : string * A) (l : list (string * A)) : list (string * A) :=
  match l with
  | [] => [kv]
  | kv' :: l' => if String.leb kv.1 kv'.1 then kv :: l else kv' :: insert_sorted kv l'
  end.
Definition sorted_entries {A} (m : gmap string A) : list (string * A) :=
  fold_right insert_sorted [] (map_to_list m).

Definition enc_map (m : GoMap string) : json :=
  match m with
  | Some m => JObj ((λ kv, (quote kv.1, enc_string kv.2)) <$> sorted_entries m)
  | None => JNull
  end.

(** Only a year outside 0..9999 or an offset of 24 hours or more makes a time,
    and what contains it, unencodable. *)
Definition enc_time (t : Time) : option json := JStr <$> format_time t.
Definition enc_zoned (z : ZonedTime) : option json := JStr <$> format_zoned z.

Definition base64_char (n : N) : ascii :=
  ascii_of_N (if n <? 26 then 65 + n else if n <? 52 then 71 + n else if n <? 62 then n - 4
              else if n =? 62 then 43 else 47)%N.

Fixpoint base64 (b : bytes) : string :=
  match b with
  | x :: y :: z :: b =>
      let n := (Byte.to_N x * 65536 + Byte.to_N y * 256 + Byte.to_N z)%N in
      String (base64_char (n / 262144)) (String (base64_char (n / 4096 mod 64))
        (String (base64_char (n / 64 mod 64)) (String (base64_char (n mod 64)) (base64 b))))
  | [x; y] =>
      let n := (Byte.to_N x * 65536 + Byte.to_N y * 256)%N in
      String (base64_char (n / 262144)) (String (base64_char (n / 4096 mod 64))
        (String (base64_char (n / 64 mod 64)) "="))
  | [x] =>
      let n := (Byte.to_N x * 65536)%N in
      String (base64_char (n / 262144)) (String (base64_char (n / 4096 mod 64)) "==")
  | [] => ""
  end.

Definition enc_bytes (b : Slice byte) : json :=
  match b with Some b => JStr (base64 b) | None => JNull end.

Definition enc_ResourceSpec (r : ResourceSpec) : json :=
  enc_struct [("vcpus", enc_int (VCPUs r)); ("memory_mb", enc_int (MemoryMB r))].
Definition enc_LifecycleSpec (l : LifecycleSpec) : json :=
  enc_struct [("timeout_seconds", enc_int (TimeoutSeconds l)); ("auto_delete", JBool (AutoDelete l));
              ("restart_policy", enc_string (RestartPolicy l))].
Definition enc_RuntimeSpec (r : RuntimeSpec) : json :=
  enc_struct [("command", enc_string (Command r)); ("args", enc_slice enc_string (Args r));
              ("env", enc_map (Env_ r))].
Definition enc_PortMapping (p : PortMapping) : json :=
  enc_struct [("guest", enc_int (Guest p)); ("host", enc_int (Host_ p)); ("protocol", enc_string (Protocol p))].
Definition enc_NetworkSpec (n : NetworkSpec) : json :=
  enc_struct [("ports", enc_slice enc_PortMapping (Ports n))].
Definition enc_StorageSpec (s : StorageSpec) : json :=
  enc_struct [("root_disk_size_mb", enc_int (RootDiskSizeMB s))].
Definition enc_PlacementSpec (p : PlacementSpec) : json :=
  enc_struct [("labels", enc_map (Labels p))].

Definition enc_VMSpec (s : VMSpec) : json :=
  enc_struct
    [("resources", enc_ResourceSpec (Resources s)); ("lifecycle", enc_LifecycleSpec (Lifecycle s));
     ("runtime", enc_RuntimeSpec (Runtime s)); ("network", enc_NetworkSpec (Network s));
     ("storage", enc_StorageSpec (Storage s)); ("placement", enc_PlacementSpec (Placement s));
     ("metadata", enc_map (Metadata s))].

Definition enc_VM (vm : VM) : option json :=
  created ← enc_time (vm_CreatedAt vm);
  updated ← enc_time (vm_UpdatedAt vm);
  Some (enc_struct
    [("id", enc_string (vm_ID vm)); ("desired_state", enc_string (vm_DesiredState vm));
     ("observed_state", enc_string (vm_ObservedState vm)); ("image_id", enc_string (vm_ImageID vm));
     ("controller_id", enc_string (vm_ControllerID vm)); ("spec", enc_VMSpec (vm_Spec vm));
     ("created_at", created); ("updated_at", updated)]).

Definition enc_CapacityInfo (c : CapacityInfo) : json :=
  enc_struct
    [("total_vcpus", enc_int (TotalVCPUs c)); ("total_memory_mb", enc_int (TotalMemoryMB c));
     ("used_vcpus", enc_int (UsedVCPUs c)); ("used_memory_mb", enc_int (UsedMemoryMB c))].

Definition enc_Controller (c : Controller) : option json :=
  beat ← enc_zoned (ctl_LastHeartbeatAt c);
  Some (enc_struct
    [("id", enc_string (ctl_ID c)); ("status", enc_string (ctl_Status c)); ("labels", enc_map (ctl_Labels c));
     ("capacity", enc_CapacityInfo (ctl_Capacity c)); ("last_heartbeat_at", beat)]).

Definition enc_Event (ev : Event) : option json :=
  created ← enc_time (ev_CreatedAt ev);
  Some (enc_struct
    [("id", enc_string (ev_ID ev)); ("vm_id", enc_string (ev_VMID ev));
     ("controller_id", enc_string (ev_ControllerID ev)); ("type", enc_string (ev_Type ev));
     ("payload", enc_bytes (ev_Payload ev)); ("created_at", created)]).

Definition enc_list {A} (enc : A → option json) (s : Slice A) : option json :=
  match s with
  | Some l => JArr <$> mapM enc l
  | None => Some JNull
  end.

(** ** Decoding *)

Definition dec_string (j : json) (old : string) : option string :=
  match j with JStr raw => Some (unquote raw) | JNull => Some old | _ => None end.
Definition dec_int (j : json) (old : Z) : option Z :=
  match j with JNum lit => parse_int lit | JNull => Some old | _ => None end.
Definition dec_bool (j : json) (old : bool) : option bool :=
  match j with JBool b => Some b | JNull => Some old | _ => None end.

(** [time.Time.UnmarshalJSON] looks at the literal, not at its unquoted text. *)
Definition dec_zoned (j : json) (old : ZonedTime) : option ZonedTime :=
  match j with JStr raw => parse_zoned raw | JNull => Some old | _ => None end.

(** The elements are decoded over those the slice had; new ones start at [zero]. *)
Fixpoint dec_elements {A} (dec : json → A → option A) (zero : A) (l : list json) (olds : list A)
    : option (list A) :=
  match l with
  | [] => Some []
  | j :: l =>
      x ← dec j (default zero (head olds));
      xs ← dec_elements dec zero l (tail olds);
      Some (x :: xs)
  end.
Definition dec_slice {A} (dec : json → A → option A) (zero : A) (j : json) (old : Slice A)
    : option (Slice A) :=
  match j with
  | JNull => Some None
  | JArr l => Some <$> dec_elements dec zero l (slice_elems old)
  | _ => None
  end.

Fixpoint dec_entries (l : list (string * json)) (m : gmap string string) : option (gmap string string) :=
  match l with
  | [] => Some m
  | (k, j) :: l => v ← dec_string j ""; dec_entries l (<[unquote k := v]> m)
  end.
Definition dec_map (j : json) (old : GoMap string) : option (GoMap string) :=
  match j with
  | JNull => Some None
  | JObj l => Some <$> dec_entries l (default ∅ old)
  | _ => None
  end.

(** [foldName]: field names match whatever the case; of the characters beyond
    ASCII only U+017F and U+212A fold to ASCII letters. *)
Definition upper (c : ascii) : ascii :=
  if in_range 97 122 c then ascii_of_N (code c - 32) else c.
Fixpoint fold_name (s : string) : string :=
  match s with
  | String "197" (String "191" s) => String "S" (fold_name s)
  | String "226" (String "132" (String "170" s)) => String "K" (fold_name s)
  | String c s => String (upper c) (fold_name s)
  | EmptyString => EmptyString
  end.

(** The fields of a struct: each with its name and what decodes into it. *)
Definition Fields (T : Type) := list (string * (json → T → option T)).

Fixpoint find_by {X} (p : string → bool) (l : list (string * X)) : option X :=
  match l with
  | [] => None
  | (k, x) :: l => if p k then Some x else find_by p l
  end.

(** The field of a key: the exact name first, then the folded one. *)
Definition find_field {T} (fields : Fields T) (key : string) : option (json → T → option T) :=
  match find_by (String.eqb key) fields with
  | Some f => Some f
  | None => find_by (λ name, String.eqb (fold_name key) (fold_name name)) fields
  end.

Fixpoint dec_members {T} (fields : Fields T) (l : list (string * json)) (v : T) : option T :=
  match l with
  | [] => Some v
  | (k, j) :: l =>
      v ← match find_field fields (unquote k) with Some f => f j v | None => Some v end;
      dec_members fields l v
  end.
Definition dec_struct {T} (fields : Fields T) (j : json) (old : T) : option T :=
  match j with
  | JNull => Some old
  | JObj l => dec_members fields l old
  | _ => None
  end.

(** A field with its projection and its update. *)
Definition field {T A} (name : string) (dec : json → A → option A) (get : T → A) (set : T → A → T)
    : string * (json → T → option T) :=
  (name, λ j v, x ← dec j (get v); Some (set v x)).

Definition dec_ResourceSpec : json → ResourceSpec → option ResourceSpec :=
  dec_struct [field "vcpus" dec_int VCPUs (λ v x, mkResourceSpec x (MemoryMB v));
              field "memory_mb" dec_int MemoryMB (λ v x, mkResourceSpec (VCPUs v) x)].
Definition dec_LifecycleSpec : json → LifecycleSpec → option LifecycleSpec :=
  dec_struct
    [field "timeout_seconds" dec_int TimeoutSeconds (λ v x, mkLifecycleSpec x (AutoDelete v) (RestartPolicy v));
     field "auto_delete" dec_bool AutoDelete (λ v x, mkLifecycleSpec (TimeoutSeconds v) x (RestartPolicy v));
     field "restart_policy" dec_string RestartPolicy (λ v x, mkLifecycleSpec (TimeoutSeconds v) (AutoDelete v) x)].
Definition dec_RuntimeSpec : json → RuntimeSpec → option RuntimeSpec :=
  dec_struct
    [field "command" dec_string Command (λ v x, mkRuntimeSpec x (Args v) (Env_ v));
     field "args" (dec_slice dec_string "") Args (λ v x, mkRuntimeSpec (Command v) x (Env_ v));
     field "env" dec_map Env_ (λ v x, mkRuntimeSpec (Command v) (Args v) x)].
Definition dec_PortMapping : json → PortMapping → option PortMapping :=
  dec_struct
    [field "guest" dec_int Guest (λ v x, mkPortMapping x (Host_ v) (Protocol v));
     field "host" dec_int Host_ (λ v x, mkPortMapping (Guest v) x (Protocol v));
     field "protocol" dec_string Protocol (λ v x, mkPortMapping (Guest v) (Host_ v) x)].
Definition dec_NetworkSpec : json → NetworkSpec → option NetworkSpec :=
  dec_struct [field "ports" (dec_slice dec_PortMapping (mkPortMapping 0 0 "")) Ports (λ _ x, mkNetworkSpec x)].
Definition dec_StorageSpec : json → StorageSpec → option StorageSpec :=
  dec_struct [field "root_disk_size_mb" dec_int RootDiskSizeMB (λ _ x, mkStorageSpec x)].
Definition dec_PlacementSpec : json → PlacementSpec → option PlacementSpec :=
  dec_struct [field "labels" dec_map Labels (λ _ x, mkPlacementSpec x)].

Definition dec_VMSpec : json → VMSpec → option VMSpec :=
  dec_struct
    [field "resources" dec_ResourceSpec Resources (λ v x, mkVMSpec x (Lifecycle v) (Runtime v) (Network v) (Storage v) (Placement v) (Metadata v));
     field "lifecycle" dec_LifecycleSpec Lifecycle (λ v x, mkVMSpec (Resources v) x (Runtime v) (Network v) (Storage v) (Placement v) (Metadata v));
     field "runtime" dec_RuntimeSpec Runtime (λ v x, mkVMSpec (Resources v) (Lifecycle v) x (Network v) (Storage v) (Placement v) (Metadata v));
     field "network" dec_NetworkSpec Network (λ v x, mkVMSpec (Resources v) (Lifecycle v) (Runtime v) x (Storage v) (Placement v) (Metadata v));
     field "storage" dec_StorageSpec Storage (λ v x, mkVMSpec (Resources v) (Lifecycle v) (Runtime v) (Network v) x (Placement v) (Metadata v));
     field "placement" dec_PlacementSpec Placement (λ v x, mkVMSpec (Resources v) (Lifecycle v) (Runtime v) (Network v) (Storage v) x (Metadata v));
     field "metadata" dec_map Metadata (λ v x, mkVMSpec (Resources v) (Lifecycle v) (Runtime v) (Network v) (Storage v) (Placement v) x)].

Definition dec_CapacityInfo : json → CapacityInfo → option CapacityInfo :=
  dec_struct
    [field "total_vcpus" dec_int TotalVCPUs (λ v x, mkCapacityInfo x (TotalMemoryMB v) (UsedVCPUs v) (UsedMemoryMB v));
     field "total_memory_mb" dec_int TotalMemoryMB (λ v x, mkCapacityInfo (TotalVCPUs v) x (UsedVCPUs v) (UsedMemoryMB v));
     field "used_vcpus" dec_int UsedVCPUs (λ v x, mkCapacityInfo (TotalVCPUs v) (TotalMemoryMB v) x (UsedMemoryMB v));
     field "used_memory_mb" dec_int UsedMemoryMB (λ v x, mkCapacityInfo (TotalVCPUs v) (TotalMemoryMB v) (UsedVCPUs v) x)].

Definition dec_Controller : json → Controller → option Controller :=
  dec_struct
    [field "id" dec_string ctl_ID (λ v x, mkController x (ctl_Status v) (ctl_Labels v) (ctl_Capacity v) (ctl_LastHeartbeatAt v));
     field "status" dec_string ctl_Status (λ v x, mkController (ctl_ID v) x (ctl_Labels v) (ctl_Capacity v) (ctl_LastHeartbeatAt v));
     field "labels" dec_map ctl_Labels (λ v x, mkController (ctl_ID v) (ctl_Status v) x (ctl_Capacity v) (ctl_LastHeartbeatAt v));
     field "capacity" dec_CapacityInfo ctl_Capacity (λ v x, mkController (ctl_ID v) (ctl_Status v) (ctl_Labels v) x (ctl_LastHeartbeatAt v));
     field "last_heartbeat_at" dec_zoned ctl_LastHeartbeatAt (λ v x, mkController (ctl_ID v) (ctl_Status v) (ctl_Labels v) (ctl_Capacity v) x)].

Definition dec_Heartbeat : json → Heartbeat → option Heartbeat :=
  dec_struct
    [field "status" dec_string hb_Status (λ v x, mkHeartbeat x (hb_Capacity v));
     field "capacity" dec_CapacityInfo hb_Capacity (λ v x, mkHeartbeat (hb_Status v) x)].

(** The zero values of the request types. *)
Definition zero_CapacityInfo : CapacityInfo := mkCapacityInfo 0 0 0 0.
Definition zero_Controller : Controller := mkController "" "" None zero_CapacityInfo (in_UTC zero_time).
Definition zero_Heartbeat : Heartbeat := mkHeartbeat "" zero_CapacityInfo.
