(* ===== verification/CodecTheory.v ===== *)
(** * The JSON form of the model is faithful

    An encoder and a decoder of a type form a [JsonCodec] when every encoding
    is well-formed JSON and decodes, over a zero value, to what was encoded.
    The instances follow the struct tags from the leaves to [VMSpec],
    [Controller] and [Heartbeat]. *)

From S2P Require Import Prelude GoLib Model Json JsonTheory JsonStrings JsonRoundTrip Rfc3339 Rfc3339Theory Codec.
From Stdlib Require Import Strings.String Strings.Ascii.

Local Open Scope string_scope.
Local Abbreviation len := String.length.

(** ** The interface *)

(** [height] bounds the nesting of an encoding; [valid] is what JSON can carry. *)
Class JsonCodec {A} (enc : A → json) (dec : json → A → option A) (zero : A)
    (valid : A → Prop) (height : N) : Prop := {
  enc_wf d x : (d + height ≤ maxNestingDepth)%N → wf d (enc x);
  dec_enc x : valid x → dec (enc x) zero = Some x;
}.

(** ** Leaves *)

Lemma dec_enc_string s old : valid_utf8 s → dec_string (enc_string s) old = Some s.
Proof. intros Hs. unfold dec_string, enc_string. by rewrite unquote_quote. Qed.

#[export] Instance string_codec : JsonCodec enc_string dec_string "" valid_utf8 0.
Proof.
  split; [intros d s _; constructor; apply literal_quote|]. intros s. apply dec_enc_string.
Qed.

#[export] Instance int_codec : JsonCodec enc_int dec_int 0%Z in_int64 0.
Proof. split; [constructor|]. intros n Hn. by apply parse_format_int. Qed.

#[export] Instance bool_codec : JsonCodec JBool dec_bool false (λ _, True) 0.
Proof. split; [constructor|done]. Qed.

(** ** Slices *)

Definition valid_slice {A} (valid : A → Prop) (s : Slice A) : Prop := Forall valid (slice_elems s).

Lemma dec_elements_new {A} enc dec (zero : A) valid height `{!JsonCodec enc dec zero valid height} l :
  Forall valid l → dec_elements dec zero (enc <$> l) [] = Some l.
Proof.
  induction 1 as [|x l Hx _ IH]; [done|]. cbn. rewrite dec_enc by done. cbn. by rewrite IH.
Qed.

#[export] Instance slice_codec {A} enc dec (zero : A) valid height
    `{!JsonCodec enc dec zero valid height} :
  JsonCodec (enc_slice enc) (dec_slice dec zero) None (valid_slice valid) (1 + height).
Proof.
  split.
  - intros d [l|] Hd; cbn [enc_slice]; constructor; [lia|].
    apply Forall_fmap, Forall_true. intros x. apply enc_wf. lia.
  - intros [l|] Hl; [|done]. cbn. by erewrite dec_elements_new.
Qed.

(** ** Maps *)

Lemma insert_sorted_perm {A} (kv : string * A) l : insert_sorted kv l ≡ₚ kv :: l.
Proof.
  induction l as [|kv' l IH]; [done|]. cbn. destruct (String.leb kv.1 kv'.1); [done|].
  rewrite IH. apply Permutation_swap.
Qed.

Lemma sorted_entries_perm {A} (m : gmap string A) : sorted_entries m ≡ₚ map_to_list m.
Proof.
  unfold sorted_entries. induction (map_to_list m) as [|kv l IH]; [done|].
  cbn [fold_right]. by rewrite insert_sorted_perm, IH.
Qed.

Lemma sorted_entries_to_map {A} (m : gmap string A) : list_to_map (sorted_entries m) = m.
Proof.
  rewrite <- (list_to_map_to_list m) at 2. apply list_to_map_proper.
  - rewrite sorted_entries_perm. apply NoDup_fst_map_to_list.
  - apply sorted_entries_perm.
Qed.

Definition enc_entry (kv : string * string) : string * json := (quote kv.1, enc_string kv.2).
Definition valid_entry (kv : string * string) : Prop := valid_utf8 kv.1 ∧ valid_utf8 kv.2.

Lemma dec_entries_enc l m :
  Forall valid_entry l → NoDup l.*1 →
  dec_entries (enc_entry <$> l) m = Some (list_to_map l ∪ m).
Proof.
  intros Hl. revert m. induction Hl as [|[k v] l [Hk Hv] _ IH]; intros m Hnd.
  - cbn. by rewrite (left_id_L ∅ (∪)).
  - apply NoDup_cons in Hnd as [Hk' Hnd]. cbn [fmap list_fmap enc_entry fst snd dec_entries].
    rewrite dec_enc_string, unquote_quote by done. cbn [mbind option_bind]. rewrite IH by done. f_equal.
    cbn [list_to_map foldr uncurry]. cbn.
    rewrite <- insert_union_l, insert_union_r; [done|]. by apply not_elem_of_list_to_map_1.
Qed.

Definition valid_map (m : GoMap string) : Prop :=
  match m with Some m => map_Forall (λ k v, valid_utf8 k ∧ valid_utf8 v) m | None => True end.

#[export] Instance map_codec : JsonCodec enc_map dec_map None valid_map 1.
Proof.
  split.
  - intros d [m|] Hd; cbn [enc_map]; constructor; [lia|].
    apply Forall_fmap, Forall_true. intros [k v]. split; [apply literal_quote|].
    apply string_codec. lia.
  - intros [m|] Hm; [|done]. cbn.
    change (λ kv : string * string, (quote kv.1, enc_string kv.2)) with enc_entry.
    rewrite dec_entries_enc.
    + rewrite sorted_entries_to_map, (right_id_L ∅ (∪)). done.
    + rewrite sorted_entries_perm. apply map_Forall_to_list in Hm.
      eapply Forall_impl; [exact Hm|]. by intros [k v].
    + rewrite sorted_entries_perm. apply NoDup_fst_map_to_list.
Qed.

(** ** Structs *)

Lemma dec_members_step {T} (fields : Fields T) k f j l v v' :
  find_field fields (unquote k) = Some f → f j v = Some v' →
  dec_members fields ((k, j) :: l) v = dec_members fields l v'.
Proof. intros Hf Hv. cbn [dec_members]. by rewrite Hf, Hv. Qed.

Lemma dec_struct_enc {T} (fields : Fields T) l old v :
  dec_members fields l old = Some v → dec_struct fields (enc_struct l) old = Some v.
Proof. done. Qed.

(** A field that is still at its zero value is filled with what was encoded. *)
Lemma dec_field {T A} enc dec (zero : A) valid height `{!JsonCodec enc dec zero valid height}
    get (set : T → A → T) x v :
  valid x → get v = zero → (field EmptyString dec get set).2 (enc x) v = Some (set v x).
Proof. intros Hx Hv. cbn. by rewrite Hv, dec_enc. Qed.

Lemma wf_struct d fields :
  (d < maxNestingDepth)%N → Forall (λ kj, literal kj.1 ∧ wf (d + 1) kj.2) fields →
  wf d (enc_struct fields).
Proof. apply wf_obj. Qed.

Ltac member_wf := eapply @enc_wf; [exact _|unfold maxNestingDepth in *; lia].
Ltac members_wf :=
  apply wf_struct; [unfold maxNestingDepth in *; lia|];
  repeat (apply Forall_cons_2; [cbn [fst snd]; split; [intros ?; reflexivity|first [assumption|member_wf]]|]);
  apply Forall_nil_2.
Ltac struct_wf := intros d x Hd; members_wf.

Ltac struct_dec :=
  apply dec_struct_enc;
  repeat (eapply eq_trans;
          [eapply dec_members_step;
           [reflexivity|eapply dec_field; [exact _|assumption|reflexivity]]|]);
  reflexivity.

Definition valid_ResourceSpec (r : ResourceSpec) : Prop := in_int64 (VCPUs r) ∧ in_int64 (MemoryMB r).

#[export] Instance ResourceSpec_codec :
  JsonCodec enc_ResourceSpec dec_ResourceSpec (mkResourceSpec 0 0) valid_ResourceSpec 1.
Proof. split; [struct_wf|]. intros [c m] (?&?). struct_dec. Qed.

Definition valid_LifecycleSpec (l : LifecycleSpec) : Prop :=
  in_int64 (TimeoutSeconds l) ∧ True ∧ valid_utf8 (RestartPolicy l).

#[export] Instance LifecycleSpec_codec :
  JsonCodec enc_LifecycleSpec dec_LifecycleSpec (mkLifecycleSpec 0 false "") valid_LifecycleSpec 1.
Proof. split; [struct_wf|]. intros [t a p] (?&?&?). struct_dec. Qed.

Definition valid_RuntimeSpec (r : RuntimeSpec) : Prop :=
  valid_utf8 (Command r) ∧ valid_slice valid_utf8 (Args r) ∧ valid_map (Env_ r).

#[export] Instance RuntimeSpec_codec :
  JsonCodec enc_RuntimeSpec dec_RuntimeSpec (mkRuntimeSpec "" None None) valid_RuntimeSpec 2.
Proof. split; [struct_wf|]. intros [c a e] (?&?&?). struct_dec. Qed.

Definition valid_PortMapping (p : PortMapping) : Prop :=
  in_int64 (Guest p) ∧ in_int64 (Host_ p) ∧ valid_utf8 (Protocol p).

#[export] Instance PortMapping_codec :
  JsonCodec enc_PortMapping dec_PortMapping (mkPortMapping 0 0 "") valid_PortMapping 1.
Proof. split; [struct_wf|]. intros [g h p] (?&?&?). struct_dec. Qed.

Definition valid_NetworkSpec (n : NetworkSpec) : Prop := valid_slice valid_PortMapping (Ports n).

#[export] Instance NetworkSpec_codec :
  JsonCodec enc_NetworkSpec dec_NetworkSpec (mkNetworkSpec None) valid_NetworkSpec 3.
Proof. split; [struct_wf|]. intros [p] ?. struct_dec. Qed.

#[export] Instance StorageSpec_codec :
  JsonCodec enc_StorageSpec dec_StorageSpec (mkStorageSpec 0) (λ s, in_int64 (RootDiskSizeMB s)) 1.
Proof. split; [struct_wf|]. intros [n] ?. struct_dec. Qed.

#[export] Instance PlacementSpec_codec :
  JsonCodec enc_PlacementSpec dec_PlacementSpec (mkPlacementSpec None) (λ p, valid_map (Labels p)) 2.
Proof. split; [struct_wf|]. intros [m] ?. struct_dec. Qed.

(** A spec JSON can carry: integers of 64 bits and strings of valid UTF-8. *)
Definition valid_VMSpec (s : VMSpec) : Prop :=
  valid_ResourceSpec (Resources s) ∧ valid_LifecycleSpec (Lifecycle s) ∧ valid_RuntimeSpec (Runtime s) ∧
  valid_NetworkSpec (Network s) ∧ in_int64 (RootDiskSizeMB (Storage s)) ∧
  valid_map (Labels (Placement s)) ∧ valid_map (Metadata s).

#[export] Instance VMSpec_codec : JsonCodec enc_VMSpec dec_VMSpec zero_VMSpec valid_VMSpec 4.
Proof. split; [struct_wf|]. intros [r l rt n s p m] (?&?&?&?&?&?&?). struct_dec. Qed.

#[export] Instance CapacityInfo_codec :
  JsonCodec enc_CapacityInfo dec_CapacityInfo zero_CapacityInfo
    (λ c, in_int64 (TotalVCPUs c) ∧ in_int64 (TotalMemoryMB c) ∧ in_int64 (UsedVCPUs c) ∧ in_int64 (UsedMemoryMB c)) 1.
Proof. split; [struct_wf|]. intros [v m uv um] (?&?&?&?). struct_dec. Qed.

(** ** Literals without escapes: times and base64 *)

Definition plain (c : ascii) : bool :=
  negb (Ascii.eqb c quote_char) && negb (Ascii.eqb c backslash) && (32 <=? code c)%N.

Fixpoint all_plain (s : string) : bool :=
  match s with EmptyString => true | String c s => plain c && all_plain s end.

Lemma all_plain_app s t : all_plain (s +:+ t) = all_plain s && all_plain t.
Proof.
  induction s as [|c s IH]; [by rewrite append_nil_l|]. rewrite append_cons. cbn. by rewrite IH, andb_assoc.
Qed.

Lemma literal_plain s : all_plain s = true → literal s.
Proof.
  intros Hs t. induction s as [|c s IH]; [done|]. cbn in Hs. apply andb_prop in Hs as [Hc Hs].
  unfold plain in Hc. rewrite !andb_true_iff, !negb_true_iff in Hc. destruct Hc as [[Hq Hb] Hc].
  rewrite append_cons. cbn [scan_string]. rewrite Hq, Hb, IH by done.
  apply N.leb_le in Hc. destruct (N.ltb_spec (code c) 32); [lia|done].
Qed.

Lemma plain_of_N n :
  (32 ≤ n)%N → n ≠ 34%N → n ≠ 92%N → (n < 256)%N → plain (ascii_of_N n) = true.
Proof.
  intros H1 H2 H3 H4. pose proof (N_ascii_embedding n H4) as Hn. unfold plain, code.
  rewrite Hn, !andb_true_iff, !negb_true_iff, !Ascii.eqb_neq. apply N.leb_le in H1.
  split_and!; try done; intros E; rewrite E in Hn; by subst n.
Qed.

Lemma plain_digits k n : all_plain (digits k n) = true.
Proof.
  revert n. induction k as [|k IH]; intros n; [done|]. cbn [digits]. rewrite all_plain_app, IH.
  unfold digit. cbn [all_plain]. pose proof (Z.mod_pos_bound n 10 eq_refl).
  by rewrite plain_of_N by lia.
Qed.

Lemma plain_fraction k n : all_plain (fraction k n) = true.
Proof.
  revert n. induction k as [|k IH]; intros n; [done|]. cbn [fraction]. destruct (_ =? _)%Z; [done|].
  by rewrite all_plain_app, plain_digits.
Qed.

Lemma plain_zone_text off : all_plain (zone_text off) = true.
Proof.
  unfold zone_text. destruct (_ =? 0)%Z; [done|]. destruct (_ <? 0)%Z; by rewrite !all_plain_app, !plain_digits.
Qed.

Lemma literal_format_zoned z s : format_zoned z = Some s → literal s.
Proof.
  unfold format_zoned. intros Hs. cbv zeta in Hs.
  destruct ((0 <=? year _)%Z && _ && _); [|done].
  apply (inj Some) in Hs as <-. apply literal_plain.
  by rewrite !all_plain_app, !plain_digits, plain_fraction, plain_zone_text.
Qed.

Lemma plain_base64_char n : plain (base64_char n) = true.
Proof.
  unfold base64_char.
  destruct (N.ltb_spec n 26), (N.ltb_spec n 52), (N.ltb_spec n 62), (N.eqb_spec n 62);
    apply plain_of_N; lia.
Qed.

Lemma literal_base64 b : literal (base64 b).
Proof.
  apply literal_plain. induction b as [b IH] using (induction_ltof1 _ List.length).
  unfold ltof in IH. destruct b as [|x [|y [|z b]]]; cbn [base64 all_plain];
    rewrite ?plain_base64_char; [done..|]. rewrite IH; [done|cbn; lia].
Qed.

(** ** The documents the server writes *)

Lemma wf_enc_zoned d z j : enc_zoned z = Some j → wf d j.
Proof.
  unfold enc_zoned. destruct (format_zoned z) as [s|] eqn:Hs; [|done]. intros [= <-].
  constructor. by eapply literal_format_zoned.
Qed.

Lemma wf_enc_time d t j : enc_time t = Some j → wf d j.
Proof. apply (wf_enc_zoned d (in_UTC t)). Qed.

Lemma dec_enc_zoned z j old : Z.rem (zt_offset z) 60 = 0%Z → enc_zoned z = Some j → dec_zoned j old = Some z.
Proof.
  unfold enc_zoned. intros Hz. destruct (format_zoned z) as [s|] eqn:Hs; [|done]. intros [= <-].
  by apply parse_format_zoned.
Qed.

Lemma wf_VM d vm j : (d + 5 ≤ maxNestingDepth)%N → enc_VM vm = Some j → wf d j.
Proof.
  intros Hd. unfold enc_VM.
  destruct (enc_time (vm_CreatedAt vm)) as [c|] eqn:Hc; [|done].
  destruct (enc_time (vm_UpdatedAt vm)) as [u|] eqn:Hu; [|done].
  apply (wf_enc_time (d + 1)) in Hc, Hu. intros [= <-]. members_wf.
Qed.

Lemma wf_Controller d c j : (d + 5 ≤ maxNestingDepth)%N → enc_Controller c = Some j → wf d j.
Proof.
  intros Hd. unfold enc_Controller.
  destruct (enc_zoned (ctl_LastHeartbeatAt c)) as [t|] eqn:Ht; [|done].
  apply (wf_enc_zoned (d + 1)) in Ht. intros [= <-]. members_wf.
Qed.

Lemma wf_enc_bytes d b : wf d (enc_bytes b).
Proof. destruct b as [b|]; constructor. apply literal_base64. Qed.

Lemma wf_Event d ev j : (d + 5 ≤ maxNestingDepth)%N → enc_Event ev = Some j → wf d j.
Proof.
  intros Hd. unfold enc_Event. destruct (enc_time (ev_CreatedAt ev)) as [t|] eqn:Ht; [|done].
  apply (wf_enc_time (d + 1)) in Ht. pose proof (wf_enc_bytes (d + 1) (ev_Payload ev)).
  intros [= <-]. members_wf.
Qed.

Lemma wf_enc_list {A} (enc : A → option json) s j d :
  (d < maxNestingDepth)%N → (∀ x j, enc x = Some j → wf (d + 1) j) → enc_list enc s = Some j → wf d j.
Proof.
  intros Hd Henc. destruct s as [l|]; [|intros [= <-]; constructor]. cbn [enc_list].
  destruct (mapM enc l) as [js|] eqn:Hl; [|done]. intros [= <-]. constructor; [done|].
  apply mapM_Some in Hl. apply Forall_forall. intros j [i Hj]%list_elem_of_lookup.
  eapply Forall2_lookup_r in Hl as (x & _ & Hx); [|exact Hj]. by eapply Henc.
Qed.

(** A controller JSON can carry: the offset of its time is in whole minutes. *)
Definition valid_Controller (c : Controller) : Prop :=
  valid_utf8 (ctl_ID c) ∧ valid_utf8 (ctl_Status c) ∧ valid_map (ctl_Labels c) ∧
  in_int64 (TotalVCPUs (ctl_Capacity c)) ∧ in_int64 (TotalMemoryMB (ctl_Capacity c)) ∧
  in_int64 (UsedVCPUs (ctl_Capacity c)) ∧ in_int64 (UsedMemoryMB (ctl_Capacity c)) ∧
  Z.rem (zt_offset (ctl_LastHeartbeatAt c)) 60 = 0%Z.

Lemma dec_enc_Controller c j :
  valid_Controller c → enc_Controller c = Some j → dec_Controller j zero_Controller = Some c.
Proof.
  destruct c as [id st ls cap t]. intros (?&?&?&Hc1&Hc2&Hc3&Hc4&Hz).
  pose proof (conj Hc1 (conj Hc2 (conj Hc3 Hc4))) as Hcap. unfold enc_Controller. cbn [ctl_LastHeartbeatAt] in Hz |- *.
  destruct (enc_zoned t) as [jt|] eqn:Ht; [|done]. intros [= <-]. apply dec_struct_enc.
  do 4 (eapply eq_trans; [eapply dec_members_step; [reflexivity|
          eapply dec_field; [exact _|first [assumption|exact Hcap]|reflexivity]]|]).
  eapply eq_trans; [eapply dec_members_step; [reflexivity|]|reflexivity].
  cbn [field snd ctl_LastHeartbeatAt]. rewrite (dec_enc_zoned t) by done. reflexivity.
Qed.
