(* ===== verification/Http.v ===== *)
(** * The parts of net/http, net/url and strconv the transport uses

    Requests, response writers as an interface ([ResponseWriter]) with the
    server's own writer, query strings, and the pattern router
    ([http.ServeMux]).  Paths are taken as clean: the router redirects any
    other path before a handler sees it. *)

From S2P Require Import Prelude GoLib ProviderErr Runtime Json Blob.
From Stdlib Require Import Strings.String Strings.Ascii DecimalString.

Local Open Scope string_scope.

(** ** Requests *)

(** [rq_path] and [rq_query] are the escaped path and the raw query of the
    URL; header names are canonical; [rq_values] are the wildcards the router
    has bound. *)
Record Request := mkRequest {
  rq_Method : string;
  rq_path : string;
  rq_query : string;
  rq_Header : gmap string string;
  rq_Body : Reader;
  rq_values : gmap string string;
}.

Definition rq_with_Body (r : Request) (b : Reader) : Request :=
  mkRequest (rq_Method r) (rq_path r) (rq_query r) (rq_Header r) b (rq_values r).
Definition rq_with_values (r : Request) (v : gmap string string) : Request :=
  mkRequest (rq_Method r) (rq_path r) (rq_query r) (rq_Header r) (rq_Body r) v.

(** [r.Header.Get(key)] and [r.PathValue(name)]: empty when absent. *)
Definition Header_Get (r : Request) (key : string) : string := default "" (rq_Header r !! key).
Definition PathValue (r : Request) (name : string) : string := default "" (rq_values r !! name).

(** ** Escapes and query strings *)

(** [%xx] decoding; [plus] for query strings, where [+] is a space. *)
Fixpoint unescape (plus : bool) (s : string) : option string :=
  match s with
  | EmptyString => Some EmptyString
  | String "%" s =>
      match s with
      | String a (String b s) =>
          match hex_val a, hex_val b with
          | Some x, Some y => String (ascii_of_N (x * 16 + y)) <$> unescape plus s
          | _, _ => None
          end
      | _ => None
      end
  | String c s => String (if plus && Ascii.eqb c "+" then " "%char else c) <$> unescape plus s
  end.

(** [strings.Split(s, sep)] for a separator of one byte. *)
Fixpoint split_on (sep : ascii) (s : string) : list string :=
  match s with
  | EmptyString => [EmptyString]
  | String c s =>
      if Ascii.eqb c sep then EmptyString :: split_on sep s
      else match split_on sep s with
           | p :: ps => String c p :: ps
           | [] => [String c EmptyString]
           end
  end.

(** [strings.Cut(s, sep)], without the flag: an absent separator leaves nothing after. *)
Fixpoint cut_on (sep : ascii) (s : string) : string * string :=
  match s with
  | EmptyString => (EmptyString, EmptyString)
  | String c s =>
      if Ascii.eqb c sep then (EmptyString, s)
      else let '(a, b) := cut_on sep s in (String c a, b)
  end.

Fixpoint contains (c : ascii) (s : string) : bool :=
  match s with
  | EmptyString => false
  | String d s => Ascii.eqb c d || contains c s
  end.

(** [url.ParseQuery], whose errors [r.URL.Query()] drops with their pairs. *)
Definition parse_pair (s : string) : option (string * string) :=
  if contains ";" s || String.eqb s "" then None
  else
    let '(k, v) := cut_on "=" s in
    match unescape true k, unescape true v with
    | Some k, Some v => Some (k, v)
    | _, _ => None
    end.
Definition URL_Query (r : Request) : list (string * string) := omap parse_pair (split_on "&" (rq_query r)).

(** [q.Get(key)]: the first value. *)
Fixpoint Values_Get (q : list (string * string)) (key : string) : string :=
  match q with
  | [] => ""
  | (k, v) :: q => if String.eqb k key then v else Values_Get q key
  end.

(** [strconv.Atoi], value and error: out of range it gives the nearest
    [int], on a syntax error 0. *)
Definition Atoi (s : string) : Z * bool :=
  let '(neg, digits) := match s with
                        | String "-" s => (true, s)
                        | String "+" s => (false, s)
                        | _ => (false, s)
                        end in
  match NilEmpty.uint_of_string digits with
  | Some u =>
      if String.eqb digits "" then (0%Z, true)
      else
        let n := Z.of_N (N.of_uint u) in
        let n := if neg then (- n)%Z else n in
        if (n <? min_int64)%Z then (min_int64, true)
        else if (max_int64 <? n)%Z then (max_int64, true)
        else (n, false)
  | None => (0%Z, true)
  end.

(** ** Response writers *)

Class ResponseWriter (W : Type) := {
  Header_Set : string → string → W → W;
  WriteHeader : Z → W → W;
  Write : string → W → W;
}.

(** What the server sends: the header is fixed by the first [WriteHeader],
    and a [Write] before any is one with status 200. *)
Record Response := mkResponse {
  rsp_header : gmap string string;
  rsp_status : option Z;
  rsp_body : string;
}.

Definition new_response : Response := mkResponse ∅ None "".

#[export] Instance response_writer : ResponseWriter Response := {|
  Header_Set k v w :=
    match rsp_status w with
    | None => mkResponse (<[k := v]> (rsp_header w)) None (rsp_body w)
    | Some _ => w
    end;
  WriteHeader code w :=
    match rsp_status w with
    | None => mkResponse (rsp_header w) (Some code) (rsp_body w)
    | Some _ => w
    end;
  Write b w :=
    mkResponse (rsp_header w) (Some (default 200%Z (rsp_status w))) (rsp_body w +:+ b);
|}.

(** What the client sees of a finished response. *)
Definition sent_status (w : Response) : Z := default 200%Z (rsp_status w).

(** ** Handlers *)

(** A handler over the state [S] for any response writer. *)
Definition Handler (S : Type) : Type :=
  ∀ W, ResponseWriter W → Request → M (S * W) ().

(** A call on the state or on the writer. *)
Definition on_app {S W A} (m : M S A) : M (S * W) A := zoom fst (λ s t, (s, t.2)) m.
Definition on_writer {S W} (f : W → W) : M (S * W) () := modify (λ t, (t.1, f t.2)).

Definition StatusOK : Z := 200.
Definition StatusCreated : Z := 201.
Definition StatusAccepted : Z := 202.
Definition StatusBadRequest : Z := 400.
Definition StatusNotFound : Z := 404.
Definition StatusMethodNotAllowed : Z := 405.
Definition StatusConflict : Z := 409.
Definition StatusInternalServerError : Z := 500.

(** [http.StatusText], for the codes the program writes. *)
Definition StatusText (code : Z) : string :=
  if (code =? 200)%Z then "OK" else if (code =? 201)%Z then "Created"
  else if (code =? 202)%Z then "Accepted" else if (code =? 400)%Z then "Bad Request"
  else if (code =? 404)%Z then "Not Found" else if (code =? 405)%Z then "Method Not Allowed"
  else if (code =? 409)%Z then "Conflict" else if (code =? 500)%Z then "Internal Server Error"
  else "".

Definition newline : string := String "010" "".

(** [http.Error(w, msg, code)] *)
Definition http_Error {W} `{ResponseWriter W} (msg : string) (code : Z) (w : W) : W :=
  let w := Header_Set "Content-Type" "text/plain; charset=utf-8" w in
  let w := Header_Set "X-Content-Type-Options" "nosniff" w in
  let w := WriteHeader code w in
  Write (msg +:+ newline) w.

(** ** The router *)

Inductive Segment := Lit (s : string) | Wild (name : string).
Record Pattern := mkPattern { pat_method : string; pat_path : list Segment }.

Definition parse_segment (s : string) : Segment :=
  match s with
  | String "{" s => Wild (cut_on "}" s).1
  | _ => Lit s
  end.

(** [METHOD /path/{wildcard}/...] *)
Definition parse_pattern (s : string) : Pattern :=
  let '(m, p) := cut_on " " s in
  mkPattern m (parse_segment <$> tail (split_on "/" p)).

(** The segments of a path, each unescaped. *)
Definition path_segments (path : string) : list string :=
  (λ s, default s (unescape false s)) <$> tail (split_on "/" path).

(** The wildcards bound by a match; a wildcard does not match an empty segment. *)
Fixpoint match_path (p : list Segment) (path : list string) : option (list (string * string)) :=
  match p, path with
  | [], [] => Some []
  | Lit s :: p, x :: path => if String.eqb s x then match_path p path else None
  | Wild n :: p, x :: path =>
      if String.eqb x "" then None else cons (n, x) <$> match_path p path
  | _, _ => None
  end.

(** A [GET] pattern also takes [HEAD]. *)
Definition method_matches (pat m : string) : bool :=
  String.eqb pat m || (String.eqb pat "GET" && String.eqb m "HEAD").

Definition allowed_methods (pats : list Pattern) (path : list string) : list string :=
  filterb (λ m, existsb (λ p, method_matches (pat_method p) m
                              && match match_path (pat_path p) path with Some _ => true | None => false end)
                        pats)
    ["CONNECT"; "DELETE"; "GET"; "HEAD"; "OPTIONS"; "PATCH"; "POST"; "PUT"; "TRACE"].

Definition ServeMux (S : Type) := list (string * Handler S).

(** The handler registered for a request, with the wildcards of its pattern. *)
Fixpoint mux_find {S} (mux : ServeMux S) (m : string) (path : list string)
    : option (Handler S * gmap string string) :=
  match mux with
  | [] => None
  | (pat, h) :: mux =>
      let pat := parse_pattern pat in
      match (if method_matches (pat_method pat) m then match_path (pat_path pat) path else None) with
      | Some values => Some (h, list_to_map values)
      | None => mux_find mux m path
      end
  end.

(** [mux.ServeHTTP(w, r)] *)
Definition mux_ServeHTTP {S} (mux : ServeMux S) : Handler S := λ W _ r,
  let path := path_segments (rq_path r) in
  match mux_find mux (rq_Method r) path with
  | Some (h, values) => h W _ (rq_with_values r values)
  | None =>
      match allowed_methods ((λ ph, parse_pattern ph.1) <$> mux) path with
      | [] => on_writer (http_Error "404 page not found" StatusNotFound)
      | ms =>
          on_writer (Header_Set "Allow" (String.concat ", " ms)) ;;;
          on_writer (http_Error (StatusText StatusMethodNotAllowed) StatusMethodNotAllowed)
      end
  end.

Example query_ex :
  URL_Query (mkRequest "GET" "/v1/events" "vm_id=a%2Fb&limit=+7&x;y=1&limit=9&bad=%zz" ∅ (mkReader [] None) ∅)
  = [("vm_id", "a/b"); ("limit", " 7"); ("limit", "9")].
Proof. reflexivity. Qed.
Example atoi_ex : Atoi "-12" = (-12, false)%Z ∧ Atoi "99999999999999999999" = (max_int64, true)
  ∧ Atoi "1x" = (0, true)%Z ∧ Atoi "+" = (0, true)%Z ∧ Atoi "007" = (7, false)%Z.
Proof. split_and!; reflexivity. Qed.
