(* ===== verification/HttpApi.v ===== *)
(** * The HTTP transport (src/transport/httpapi)

    errors.go, idempotency.go and handler.go: the handlers are written for
    any [ResponseWriter], as in Go, and run on the state of the server, the
    service, the idempotency entries and the request log. *)

From S2P Require Import Prelude GoLib Model ProviderErr Runtime State Queue Blob Sha256.
From S2P Require Import Json Codec Rfc3339 Http.
From S2P Require Service.

Local Open Scope string_scope.

(** ** errors.go *)

Record errorResponse := mkErrorResponse {
  er_Code : string;
  er_Message : string;
  er_ResourceType : string;
  er_ResourceID : string;
}.

(** [omitempty] on the resource fields. *)
Definition enc_errorResponse (r : errorResponse) : json :=
  let optional name v := if v =? "" then [] else [(name, enc_string v)] in
  JObj ([("code", enc_string (er_Code r)); ("message", enc_string (er_Message r))]
        ++ optional "resource_type" (er_ResourceType r) ++ optional "resource_id" (er_ResourceID r))%list.

Definition errorToStatus (err : error) : Z :=
  if errors_Is err ErrNotFound then StatusNotFound
  else if errors_Is err ErrAlreadyExists then StatusConflict
  else if errors_Is err ErrConflict then StatusConflict
  else StatusInternalServerError.

(** [json.NewEncoder(w).Encode(v)]: one line, or nothing when [v] does not marshal. *)
Definition json_Encode {W} `{ResponseWriter W} (v : option json) (w : W) : W :=
  match v with
  | Some j => Write (render j +:+ newline) w
  | None => w
  end.

Definition writeError {W} `{ResponseWriter W} (err : error) (w : W) : W :=
  let status := errorToStatus err in
  let resp :=
    match errors_As err with
    | Some pe => mkErrorResponse (pe_Code pe) (pe_Message pe) (pe_ResourceType pe) (pe_ResourceID pe)
    | None => mkErrorResponse (StatusText status) (error_Error err) "" ""
    end in
  let w := Header_Set "Content-Type" "application/json" w in
  let w := WriteHeader status w in
  json_Encode (Some (enc_errorResponse resp)) w.

Definition writeErrorMessage {W} `{ResponseWriter W} (status : Z) (code message : string) (w : W) : W :=
  let w := Header_Set "Content-Type" "application/json" w in
  let w := WriteHeader status w in
  json_Encode (Some (enc_errorResponse (mkErrorResponse code message "" ""))) w.

Definition writeJSON {W} `{ResponseWriter W} (status : Z) (v : option json) (w : W) : W :=
  let w := Header_Set "Content-Type" "application/json" w in
  let w := WriteHeader status w in
  json_Encode v w.

(** [json.NewDecoder(r).Decode(&v)]: the first value of the stream; a literal
    ends only at the next byte, which an error of the reader may hide. *)
Definition json_Decode {T} (dec : json → T → option T) (r : Reader) (v : T) : option T :=
  let '(data, err) := io_ReadAll r in
  match parse_json (string_of_bytes data) with
  | Some (j, rest) =>
      let bracketed := match j with JObj _ | JArr _ => true | _ => false end in
      match err with
      | Some _ => if negb bracketed && (rest =? "") then None else dec j v
      | None => dec j v
      end
  | None => None
  end.

(** ** The recorders *)

(** [statusRecorder] and [responseRecorder] around a writer: [Header] is the
    embedded writer's, and so is the first one's [Write]. *)
Record statusRecorder (W : Type) := mkStatusRecorder {
  sr_inner : W; sr_statusCode : Z; sr_wroteHeader : bool }.
Arguments mkStatusRecorder {W} _ _ _.
Arguments sr_inner {W} _.
Arguments sr_statusCode {W} _.
Arguments sr_wroteHeader {W} _.

#[export] Instance statusRecorder_writer {W} `{ResponseWriter W} : ResponseWriter (statusRecorder W) := {|
  Header_Set k v r := mkStatusRecorder (Header_Set k v (sr_inner r)) (sr_statusCode r) (sr_wroteHeader r);
  WriteHeader code r :=
    if negb (sr_wroteHeader r) then mkStatusRecorder (WriteHeader code (sr_inner r)) code true else r;
  Write b r := mkStatusRecorder (Write b (sr_inner r)) (sr_statusCode r) (sr_wroteHeader r);
|}.

Record responseRecorder (W : Type) := mkResponseRecorder {
  rr_inner : W; rr_statusCode : Z; rr_body : string; rr_wroteHeader : bool }.
Arguments mkResponseRecorder {W} _ _ _ _.
Arguments rr_inner {W} _.
Arguments rr_statusCode {W} _.
Arguments rr_body {W} _.
Arguments rr_wroteHeader {W} _.

#[export] Instance responseRecorder_writer {W} `{ResponseWriter W} : ResponseWriter (responseRecorder W) := {|
  Header_Set k v r :=
    mkResponseRecorder (Header_Set k v (rr_inner r)) (rr_statusCode r) (rr_body r) (rr_wroteHeader r);
  WriteHeader code r :=
    if negb (rr_wroteHeader r)
    then mkResponseRecorder (WriteHeader code (rr_inner r)) code (rr_body r) true else r;
  Write b r :=
    mkResponseRecorder (Write b (rr_inner r)) (rr_statusCode r) (rr_body r +:+ b) (rr_wroteHeader r);
|}.

(** ** The server's state *)

Record idempotencyEntry := mkIdempotencyEntry {
  ie_requestHash : bytes;
  ie_statusCode : Z;
  ie_body : string;
  ie_createdAt : Time;
}.
(** The struct without its mutex is its map. *)
Abbreviation idempotencyStore := (gmap string idempotencyEntry).
Definition newIdempotencyStore : idempotencyStore := ∅.

Definition idempotencyTTL : Duration := (24 * Hour)%Z.

(** A line of the request log: method, path, status and microseconds taken. *)
Record LogLine := mkLogLine { ll_method : string; ll_path : string; ll_status : Z; ll_micros : Z }.

Record App (S Q : Type) := mkApp {
  svc : Service.Service S Q;
  idem : idempotencyStore;
  log : list LogLine;
}.
Arguments mkApp {S Q} _ _ _.
Arguments svc {S Q} _.
Arguments idem {S Q} _.
Arguments log {S Q} _.

Section Transport.
Context {S Q : Type} `{StateStore S}.

Definition on_svc {A} (m : M (Service.Service S Q) A) : M (App S Q) A :=
  zoom svc (λ s a, mkApp s (idem a) (log a)) m.
Definition on_idem {A} (m : M idempotencyStore A) : M (App S Q) A :=
  zoom idem (λ i a, mkApp (svc a) i (log a)) m.

(** ** idempotency.go *)

(** [s.mu.RLock(); entry, exists := s.entries[key]; s.mu.RUnlock()] *)
Definition idem_lookup (key : string) : M idempotencyStore (option idempotencyEntry) :=
  entries <- get ;; ret (entries !! key).
(** [s.mu.Lock(); delete(s.entries, key); s.mu.Unlock()] *)
Definition idem_delete (key : string) : M idempotencyStore () := modify (delete key).
(** [s.mu.Lock(); s.entries[key] = entry; s.mu.Unlock()] *)
Definition idem_store (key : string) (en : idempotencyEntry) : M idempotencyStore () :=
  modify (insert key en).

(** The entry of the key, evicted and forgotten when it is older than the TTL. *)
Definition idem_current (key : string) : M idempotencyStore (option idempotencyEntry) :=
  entry <- idem_lookup key ;;
  match entry with
  | Some en =>
      now <- time_Now ;;
      if (idempotencyTTL <? time_Sub now (ie_createdAt en))%Z
      then idem_delete key ;;; ret None
      else ret (Some en)
  | None => ret None
  end.

(** Run a handler on a [responseRecorder] around the writer. *)
Definition recorded (next : Handler (App S Q)) {W} (HW : ResponseWriter W) (r : Request)
    : M (App S Q * W) (Z * string) := λ e t,
  let '(_, e', (a', rec)) :=
    next (responseRecorder W) _ r e (t.1, mkResponseRecorder t.2 StatusOK "" false) in
  ((rr_statusCode rec, rr_body rec), e', (a', rr_inner rec)).

Definition replay {W} `{ResponseWriter W} (en : idempotencyEntry) (w : W) : W :=
  let w := Header_Set "Content-Type" "application/json" w in
  let w := WriteHeader (ie_statusCode en) w in
  Write (ie_body en) w.

(** [func (s *idempotencyStore) wrap(next http.HandlerFunc) http.HandlerFunc] *)
Definition wrap (next : Handler (App S Q)) : Handler (App S Q) := λ W HW r,
  let key := Header_Get r "Idempotency-Key" in
  if key =? "" then next W HW r
  else
    let '(body, err) := io_ReadAll (rq_Body r) in
    match err with
    | Some _ => on_writer (http_Error "failed to read request body" StatusBadRequest)
    | None =>
        let r := rq_with_Body r (bytes_NewReader body) in
        let hash := sha256_Sum256 body in
        entry <- on_app (on_idem (idem_current key)) ;;
        match entry with
        | Some en =>
            if negb (bool_decide (ie_requestHash en = hash))
            then on_writer (writeErrorMessage StatusConflict "conflict"
                              "idempotency key reused with different request body")
            else on_writer (replay en)
        | None =>
            out <- recorded next HW r ;;
            now <- time_Now ;;
            on_app (on_idem (idem_store key (mkIdempotencyEntry hash out.1 out.2 now)))
        end
    end.

(** ** handler.go *)

(** [map[string]string{k: v}] *)
Definition single (k v : string) : option json := Some (enc_map (Some {[ k := v ]})).

Definition createVM : Handler (App S Q) := λ W _ r,
  match json_Decode dec_VMSpec (rq_Body r) zero_VMSpec with
  | None => on_writer (writeErrorMessage StatusBadRequest "bad_request" "invalid JSON body")
  | Some spec =>
      res <- on_app (on_svc (Service.CreateVM spec)) ;;
      match res with
      | Fail err => on_writer (writeError err)
      | Ok id => on_writer (writeJSON StatusAccepted (single "id" id))
      end
  end.

Definition getVM : Handler (App S Q) := λ W _ r,
  let vmID := PathValue r "vm_id" in
  res <- on_app (on_svc (Service.GetVM vmID)) ;;
  match res with
  | Fail err => on_writer (writeError err)
  | Ok vm => on_writer (writeJSON StatusOK (enc_VM vm))
  end.

Definition stopVM : Handler (App S Q) := λ W _ r,
  let vmID := PathValue r "vm_id" in
  res <- on_app (on_svc (Service.StopVM vmID)) ;;
  match res with
  | Fail err => on_writer (writeError err)
  | Ok _ => on_writer (writeJSON StatusAccepted (single "id" vmID))
  end.

Definition deleteVM : Handler (App S Q) := λ W _ r,
  let vmID := PathValue r "vm_id" in
  res <- on_app (on_svc (Service.DeleteVM vmID)) ;;
  match res with
  | Fail err => on_writer (writeError err)
  | Ok _ => on_writer (writeJSON StatusAccepted (single "id" vmID))
  end.

Definition registerController : Handler (App S Q) := λ W _ r,
  match json_Decode dec_Controller (rq_Body r) zero_Controller with
  | None => on_writer (writeErrorMessage StatusBadRequest "bad_request" "invalid JSON body")
  | Some ctrl =>
      res <- on_app (on_svc (Service.RegisterController ctrl)) ;;
      match res with
      | Fail err => on_writer (writeError err)
      | Ok _ => on_writer (writeJSON StatusCreated (enc_Controller ctrl))
      end
  end.

Definition heartbeat : Handler (App S Q) := λ W _ r,
  let controllerID := PathValue r "controller_id" in
  match json_Decode dec_Heartbeat (rq_Body r) zero_Heartbeat with
  | None => on_writer (writeErrorMessage StatusBadRequest "bad_request" "invalid JSON body")
  | Some hb =>
      res <- on_app (on_svc (Service.Heartbeat controllerID hb)) ;;
      match res with
      | Fail err => on_writer (writeError err)
      | Ok _ => on_writer (writeJSON StatusOK (single "status" "ok"))
      end
  end.

Definition queryInt (r : Request) (key : string) : Z :=
  let s := Values_Get (URL_Query r) key in
  if s =? "" then 0%Z else (Atoi s).1.

Definition listControllers : Handler (App S Q) := λ W _ r,
  let filter := mkControllerFilter (Values_Get (URL_Query r) "status") (queryInt r "limit") in
  res <- on_app (on_svc (Service.ListControllers filter)) ;;
  match res with
  | Fail err => on_writer (writeError err)
  | Ok controllers => on_writer (writeJSON StatusOK (enc_list enc_Controller controllers))
  end.

Definition listEvents : Handler (App S Q) := λ W _ r,
  let q := URL_Query r in
  let filter since :=
    mkEventFilter (Values_Get q "vm_id") (Values_Get q "controller_id") (Values_Get q "type")
      since (queryInt r "limit") in
  let list since :=
    res <- on_app (on_svc (Service.ListEvents (filter since))) ;;
    match res with
    | Fail err => on_writer (writeError err)
    | Ok events => on_writer (writeJSON StatusOK (enc_list enc_Event events))
    end in
  let s := Values_Get q "since" in
  if negb (s =? "") then
    match parse_time s with
    | None => on_writer (writeErrorMessage StatusBadRequest "bad_request"
                           "invalid 'since' parameter, expected RFC 3339")
    | Some t => list t
    end
  else list zero_time.

Definition healthz : Handler (App S Q) := λ W _ _,
  on_writer (writeJSON StatusOK (single "status" "ok")).

(** The routes of [NewHandler]. *)
Definition mux : ServeMux (App S Q) :=
  [("POST /v1/vms", wrap createVM);
   ("GET /v1/vms/{vm_id}", getVM);
   ("POST /v1/vms/{vm_id}/stop", wrap stopVM);
   ("DELETE /v1/vms/{vm_id}", wrap deleteVM);
   ("POST /v1/controllers", wrap registerController);
   ("POST /v1/controllers/{controller_id}/heartbeat", heartbeat);
   ("GET /v1/controllers", listControllers);
   ("GET /v1/events", listEvents);
   ("GET /healthz", healthz)].

(** [func NewHandler(svc *api.Service) *Handler] *)
Definition NewHandler (s : Service.Service S Q) : App S Q := mkApp s newIdempotencyStore [].

(** [func (h *Handler) ServeHTTP(w http.ResponseWriter, r *http.Request)] *)
Definition ServeHTTP : Handler (App S Q) := λ W HW r,
  start <- time_Now ;;
  status <- (λ e t,
    let '(_, e', (a', rec)) :=
      mux_ServeHTTP mux (statusRecorder W) _ r e (t.1, mkStatusRecorder t.2 StatusOK false) in
    (sr_statusCode rec, e', (a', sr_inner rec))) ;;
  now <- time_Now ;;
  let path := default (rq_path r) (unescape false (rq_path r)) in
  modify (λ t, (mkApp (svc t.1) (idem t.1)
                  (log t.1 ++ [mkLogLine (rq_Method r) path status
                                 (Z.quot (time_Sub now start) 1000)])%list, t.2)).

(** One request to the server and the response it sends. *)
Definition serve (r : Request) : M (App S Q) Response := λ e a,
  let '(_, e', (a', w)) := ServeHTTP Response _ r e (a, new_response) in (w, e', a').

Definition run_server : list Request → M (App S Q) (list Response) := run_all serve.
End Transport.
