(* ===== verification/HttpApiTheory.v ===== *)
(** * Correctness of the HTTP transport: responses and idempotency

    Every handler answers through the writer it is given, with some headers,
    one status and at most one body ([answers]), whatever the writer is; that
    makes the recorders transparent, and a replayed response the one that was
    sent. *)

From S2P Require Import Prelude GoLib Model ProviderErr Runtime State Queue Blob Sha256.
From S2P Require Import Json Codec Rfc3339 Http HttpApi.
From S2P Require Service.

Local Open Scope string_scope.

(** ** Answers *)

Definition set_headers {W} `{ResponseWriter W} (hs : list (string * string)) (w : W) : W :=
  foldl (λ w h, Header_Set h.1 h.2 w) w hs.

(** Headers, then the status, then the body if there is one. *)
Definition respond {W} `{ResponseWriter W} (hs : list (string * string)) (status : Z)
    (body : option string) (w : W) : W :=
  let w := WriteHeader status (set_headers hs w) in
  match body with Some b => Write b w | None => w end.

(** What a handler does to the server and what it answers do not depend on the
    writer; the request log is not its business. *)
Definition answers_to {S Q} (h : Handler (App S Q)) (r : Request) : Prop :=
  ∀ e t, ∃ hs status body e' t', log t' = log t ∧
    ∀ W (HW : ResponseWriter W) (w : W), h W HW r e (t, w) = ((), e', (t', respond hs status body w)).
Definition answers {S Q} (h : Handler (App S Q)) : Prop := ∀ r, answers_to h r.

Definition json_header : list (string * string) := [("Content-Type", "application/json")].

Definition json_line (j : json) : string := render j +:+ newline.

Lemma writeJSON_respond {W} `{ResponseWriter W} status v (w : W) :
  writeJSON status v w = respond json_header status (json_line <$> v) w.
Proof. by destruct v. Qed.

Definition error_body (err : error) : errorResponse :=
  match errors_As err with
  | Some pe => mkErrorResponse (pe_Code pe) (pe_Message pe) (pe_ResourceType pe) (pe_ResourceID pe)
  | None => mkErrorResponse (StatusText (errorToStatus err)) (error_Error err) "" ""
  end.

Lemma writeError_respond {W} `{ResponseWriter W} err (w : W) :
  writeError err w =
  respond json_header (errorToStatus err) (Some (json_line (enc_errorResponse (error_body err)))) w.
Proof. done. Qed.

Lemma writeErrorMessage_respond {W} `{ResponseWriter W} status code message (w : W) :
  writeErrorMessage status code message w =
  respond json_header status
    (Some (json_line (enc_errorResponse (mkErrorResponse code message "" "")))) w.
Proof. done. Qed.

Definition text_header : list (string * string) :=
  [("Content-Type", "text/plain; charset=utf-8"); ("X-Content-Type-Options", "nosniff")].

Lemma http_Error_respond {W} `{ResponseWriter W} msg status (w : W) :
  http_Error msg status w = respond text_header status (Some (msg +:+ newline)) w.
Proof. done. Qed.

(** A response to a fresh writer is sent as it is. *)
Lemma set_headers_fresh hs m :
  set_headers hs (mkResponse m None "") =
  mkResponse (foldl (λ m h, <[h.1 := h.2]> m) m hs) None "".
Proof. unfold set_headers. revert m. induction hs as [|h hs IH]; intros m; [done|]. apply IH. Qed.

Lemma respond_fresh hs status body :
  respond hs status body new_response =
  mkResponse (foldl (λ m h, <[h.1 := h.2]> m) ∅ hs) (Some status) (default "" body).
Proof. unfold respond, new_response. rewrite set_headers_fresh. by destruct body. Qed.

(** ** The recorders *)

Lemma set_headers_recorder {W} `{ResponseWriter W} hs (w : W) c b h :
  set_headers hs (mkResponseRecorder w c b h) = mkResponseRecorder (set_headers hs w) c b h.
Proof. unfold set_headers. revert w. induction hs as [|x hs IH]; intros w; [done|]. apply IH. Qed.

Lemma respond_recorder {W} `{ResponseWriter W} hs status body (w : W) :
  respond hs status body (mkResponseRecorder w StatusOK "" false) =
  mkResponseRecorder (respond hs status body w) status (default "" body) true.
Proof. unfold respond. rewrite set_headers_recorder. by destruct body. Qed.

Lemma set_headers_status {W} `{ResponseWriter W} hs (w : W) c h :
  set_headers hs (mkStatusRecorder w c h) = mkStatusRecorder (set_headers hs w) c h.
Proof. unfold set_headers. revert w. induction hs as [|x hs IH]; intros w; [done|]. apply IH. Qed.

Lemma respond_status {W} `{ResponseWriter W} hs status body (w : W) :
  respond hs status body (mkStatusRecorder w StatusOK false) =
  mkStatusRecorder (respond hs status body w) status true.
Proof. unfold respond. rewrite set_headers_status. by destruct body. Qed.

(** ** Exchanges *)

(** One request to one handler, on a fresh response. *)
Definition exchange {T} (h : Handler T) (r : Request) : M T Response := λ e t,
  let '(_, e', (t', w)) := h Response _ r e (t, new_response) in (w, e', t').

Lemma exchange_answers {S Q} (h : Handler (App S Q)) r e t :
  answers_to h r →
  ∃ hs status body e' t', log t' = log t ∧
    exchange h r e t =
      (mkResponse (foldl (λ m h, <[h.1 := h.2]> m) ∅ hs) (Some status) (default "" body), e', t') ∧
    ∀ W (HW : ResponseWriter W) (w : W),
      h W HW r e (t, w) = ((), e', (t', respond hs status body w)).
Proof.
  intros Hh. destruct (Hh e t) as (hs & status & body & e' & t' & Hlog & Hr).
  exists hs, status, body, e', t'. split; [done|]. split; [|done]. unfold exchange. by rewrite Hr, respond_fresh.
Qed.

(** An answer: headers, status, body; and the response that carries it. *)
Abbreviation Answer := (list (string * string) * Z * option string)%type.
Definition answer_response (an : Answer) : Response := respond an.1.1 an.1.2 an.2 new_response.

Definition error_answer (err : error) : Answer :=
  (json_header, errorToStatus err, Some (json_line (enc_errorResponse (error_body err)))).
Definition json_answer (status : Z) (v : option json) : Answer :=
  (json_header, status, json_line <$> v).
Definition message_answer (status : Z) (code message : string) : Answer :=
  (json_header, status, Some (json_line (enc_errorResponse (mkErrorResponse code message "" "")))).
Definition bad_body : Answer := message_answer StatusBadRequest "bad_request" "invalid JSON body".

(** What a result of the service is answered with. *)
Definition result_answer {A} (ok : A → Answer) (res : Res A) : Answer :=
  match res with Ok a => ok a | Fail err => error_answer err end.

Section Handlers.
Context {S Q : Type} `{StateStore S}.
Abbreviation App := (App S Q).

(** ** The handlers answer *)

(** A fixed answer, and one that depends on what the service returned. *)
Lemma answers_const hs status body (h : Handler App) r :
  (∀ W HW e t, h W HW r e t = on_writer (respond hs status body) e t) → answers_to h r.
Proof.
  intros Hh e t. exists hs, status, body, e, t. split; [done|]. intros. by rewrite Hh.
Qed.

Lemma answers_message status code message (h : Handler App) r :
  (∀ W HW e t, h W HW r e t = on_writer (writeErrorMessage status code message) e t) → answers_to h r.
Proof.
  intros Hh.
  apply (answers_const json_header status
           (Some (json_line (enc_errorResponse (mkErrorResponse code message "" ""))))).
  exact Hh.
Qed.

Lemma answers_svc {A} (m : M (Service.Service S Q) (Res A)) (status : Z) (v : A → option json)
    (h : Handler App) r :
  (∀ W HW e t, h W HW r e t =
     bind (on_app (on_svc m)) (λ res, match res with
                                      | Fail err => on_writer (writeError err)
                                      | Ok a => on_writer (writeJSON status (v a))
                                      end) e t) →
  answers_to h r.
Proof.
  intros Hh e t. destruct (on_svc m e t) as [[res e'] t'] eqn:E.
  set (a := result_answer (λ a, json_answer status (v a)) res).
  exists a.1.1, a.1.2, a.2, e', t'. split.
  { unfold on_svc, zoom in E. destruct (m e (svc t)) as [[x e1] s1]. by simplify_eq. }
  intros W HW w. rewrite Hh. subst a.
  unfold on_app. munfold. cbn [fst]. rewrite E.
  destruct res as [x|err]; unfold on_writer; munfold; [by rewrite writeJSON_respond|done].
Qed.

(** The exchange of a handler of that shape. *)
Lemma exchange_svc {A} (m : M (Service.Service S Q) (Res A)) (status : Z) (v : A → option json)
    (h : Handler App) r e a :
  (∀ W HW e t, h W HW r e t =
     bind (on_app (on_svc m)) (λ res, match res with
                                      | Fail err => on_writer (writeError err)
                                      | Ok a => on_writer (writeJSON status (v a))
                                      end) e t) →
  exchange h r e a =
  let '(res, e', s') := m e (svc a) in
  (answer_response (result_answer (λ x, json_answer status (v x)) res), e', mkApp s' (idem a) (log a)).
Proof.
  intros Hh. unfold exchange. rewrite Hh. unfold on_app, on_svc, on_writer. munfold. cbn [fst].
  destruct (m e (svc a)) as [[[x|err] e'] s']; [|done].
  unfold answer_response, result_answer, json_answer. cbn [fst snd]. by rewrite writeJSON_respond.
Qed.

Lemma exchange_const (h : Handler App) r e a an :
  (∀ W HW e t, h W HW r e t = on_writer (respond an.1.1 an.1.2 an.2) e t) →
  exchange h r e a = (answer_response an, e, a).
Proof. intros Hh. unfold exchange. by rewrite Hh. Qed.

Lemma answers_getVM : answers (getVM (S:=S) (Q:=Q)).
Proof. intros r. by eapply answers_svc. Qed.
Lemma answers_stopVM : answers (stopVM (S:=S) (Q:=Q)).
Proof. intros r. by eapply answers_svc. Qed.
Lemma answers_deleteVM : answers (deleteVM (S:=S) (Q:=Q)).
Proof. intros r. by eapply answers_svc. Qed.
Lemma answers_listControllers : answers (listControllers (S:=S) (Q:=Q)).
Proof. intros r. by eapply answers_svc. Qed.

Lemma answers_createVM : answers (createVM (S:=S) (Q:=Q)).
Proof.
  intros r. unfold createVM.
  destruct (json_Decode dec_VMSpec (rq_Body r) zero_VMSpec) as [spec|] eqn:E.
  - eapply answers_svc. intros. by rewrite E.
  - eapply answers_message. intros. by rewrite E.
Qed.
Lemma answers_registerController : answers (registerController (S:=S) (Q:=Q)).
Proof.
  intros r. unfold registerController.
  destruct (json_Decode dec_Controller (rq_Body r) zero_Controller) as [c|] eqn:E.
  - eapply answers_svc. intros. by rewrite E.
  - eapply answers_message. intros. by rewrite E.
Qed.
Lemma answers_heartbeat : answers (heartbeat (S:=S) (Q:=Q)).
Proof.
  intros r. unfold heartbeat.
  destruct (json_Decode dec_Heartbeat (rq_Body r) zero_Heartbeat) as [c|] eqn:E.
  - eapply answers_svc. intros. by rewrite E.
  - eapply answers_message. intros. by rewrite E.
Qed.
Lemma answers_listEvents : answers (listEvents (S:=S) (Q:=Q)).
Proof.
  intros r. unfold listEvents. cbv zeta.
  destruct (negb (Values_Get (URL_Query r) "since" =? "")) eqn:Es.
  - destruct (parse_time (Values_Get (URL_Query r) "since")) as [since|] eqn:E.
    + eapply answers_svc. intros. by rewrite Es, E.
    + eapply answers_message. intros. by rewrite Es, E.
  - eapply answers_svc. intros. by rewrite Es.
Qed.
Lemma answers_healthz : answers (healthz (S:=S) (Q:=Q)).
Proof. intros r. by eapply (answers_const json_header StatusOK (json_line <$> single "status" "ok")). Qed.
End Handlers.

(** ** Routing *)

Section Routing.
Context {S Q : Type} `{StateStore S}.
Abbreviation App := (App S Q).

Lemma mux_find_answers (m : ServeMux App) meth path h values :
  Forall (λ ph, answers ph.2) m → mux_find m meth path = Some (h, values) → answers h.
Proof.
  induction 1 as [|[pat h0] m Hh _ IH]; [done|]. cbn [mux_find].
  destruct (if method_matches _ _ then _ else _) as [v|]; [|exact IH].
  intros [= <- _]. exact Hh.
Qed.

Lemma answers_serve_mux (m : ServeMux App) :
  Forall (λ ph, answers ph.2) m → answers (mux_ServeHTTP m).
Proof.
  intros Hm r e t. unfold mux_ServeHTTP.
  destruct (mux_find m (rq_Method r) (path_segments (rq_path r))) as [[h values]|] eqn:E.
  - apply (mux_find_answers _ _ _ _ _ Hm E).
  - destruct (allowed_methods _ _) as [|x ms].
    + by exists text_header, StatusNotFound, (Some ("404 page not found" +:+ newline)), e, t.
    + by exists (("Allow", String.concat ", " (x :: ms)) :: text_header), StatusMethodNotAllowed,
        (Some (StatusText StatusMethodNotAllowed +:+ newline)), e, t.
Qed.
End Routing.

(** ** What each handler does, as an exchange *)

Section Exchanges.
Context {S Q : Type} `{StateStore S}.
Implicit Types (a : App S Q).

(** The exchange of a handler that answers with the result of a call on the service. *)
Definition call_exchange {A} (m : M (Service.Service S Q) (Res A)) (ok : A → Answer)
    : M (App S Q) Response := λ e a,
  let '(res, e', s') := m e (svc a) in
  (answer_response (result_answer ok res), e', mkApp s' (idem a) (log a)).

Lemma exchange_createVM r e a :
  exchange createVM r e a =
  match json_Decode dec_VMSpec (rq_Body r) zero_VMSpec with
  | None => (answer_response bad_body, e, a)
  | Some spec =>
      call_exchange (Service.CreateVM spec) (λ id, json_answer StatusAccepted (single "id" id)) e a
  end.
Proof.
  destruct (json_Decode dec_VMSpec (rq_Body r) zero_VMSpec) as [spec|] eqn:E.
  - apply exchange_svc. intros. unfold createVM. by rewrite E.
  - apply exchange_const. intros. unfold createVM. rewrite E. reflexivity.
Qed.

Lemma exchange_getVM r e a :
  exchange getVM r e a =
  call_exchange (Service.GetVM (PathValue r "vm_id")) (λ vm, json_answer StatusOK (enc_VM vm)) e a.
Proof. by apply exchange_svc. Qed.

Lemma exchange_stopVM r e a :
  exchange stopVM r e a =
  call_exchange (Service.StopVM (PathValue r "vm_id"))
    (λ _, json_answer StatusAccepted (single "id" (PathValue r "vm_id"))) e a.
Proof. by apply exchange_svc. Qed.

Lemma exchange_deleteVM r e a :
  exchange deleteVM r e a =
  call_exchange (Service.DeleteVM (PathValue r "vm_id"))
    (λ _, json_answer StatusAccepted (single "id" (PathValue r "vm_id"))) e a.
Proof. by apply exchange_svc. Qed.

Lemma exchange_registerController r e a :
  exchange registerController r e a =
  match json_Decode dec_Controller (rq_Body r) zero_Controller with
  | None => (answer_response bad_body, e, a)
  | Some c =>
      call_exchange (Service.RegisterController c) (λ _, json_answer StatusCreated (enc_Controller c)) e a
  end.
Proof.
  destruct (json_Decode dec_Controller (rq_Body r) zero_Controller) as [c|] eqn:E.
  - apply (exchange_svc _ _ (λ _, enc_Controller c)). intros. unfold registerController. by rewrite E.
  - apply exchange_const. intros. unfold registerController. rewrite E. reflexivity.
Qed.

Lemma exchange_heartbeat r e a :
  exchange heartbeat r e a =
  match json_Decode dec_Heartbeat (rq_Body r) zero_Heartbeat with
  | None => (answer_response bad_body, e, a)
  | Some hb =>
      call_exchange (Service.Heartbeat (PathValue r "controller_id") hb)
        (λ _, json_answer StatusOK (single "status" "ok")) e a
  end.
Proof.
  destruct (json_Decode dec_Heartbeat (rq_Body r) zero_Heartbeat) as [hb|] eqn:E.
  - apply (exchange_svc _ _ (λ _, single "status" "ok")). intros. unfold heartbeat. by rewrite E.
  - apply exchange_const. intros. unfold heartbeat. rewrite E. reflexivity.
Qed.

Lemma exchange_listControllers r e a :
  exchange listControllers r e a =
  call_exchange (Service.ListControllers
                   (mkControllerFilter (Values_Get (URL_Query r) "status") (queryInt r "limit")))
    (λ cs, json_answer StatusOK (enc_list enc_Controller cs)) e a.
Proof. by apply exchange_svc. Qed.

(** The filter of an event query, unless its [since] is malformed. *)
Definition events_filter (r : Request) : option EventFilter :=
  let q := URL_Query r in
  since ← (if Values_Get q "since" =? "" then Some zero_time else parse_time (Values_Get q "since"));
  Some (mkEventFilter (Values_Get q "vm_id") (Values_Get q "controller_id") (Values_Get q "type")
          since (queryInt r "limit")).

Lemma exchange_listEvents r e a :
  exchange listEvents r e a =
  match events_filter r with
  | None => (answer_response (message_answer StatusBadRequest "bad_request"
                                "invalid 'since' parameter, expected RFC 3339"), e, a)
  | Some f => call_exchange (Service.ListEvents f) (λ evs, json_answer StatusOK (enc_list enc_Event evs)) e a
  end.
Proof.
  unfold events_filter. cbv zeta.
  destruct (Values_Get (URL_Query r) "since" =? "") eqn:Es.
  - apply exchange_svc. intros. unfold listEvents. by rewrite Es.
  - destruct (parse_time (Values_Get (URL_Query r) "since")) as [since|] eqn:E.
    + apply exchange_svc. intros. unfold listEvents. by rewrite Es, E.
    + apply exchange_const. intros. unfold listEvents. by rewrite Es, E.
Qed.

Lemma exchange_healthz r e a :
  exchange healthz r e a = (answer_response (json_answer StatusOK (single "status" "ok")), e, a).
Proof. by apply exchange_const. Qed.

(** ** The server on one request *)

Lemma serve_exchange r e a :
  answers_to (mux_ServeHTTP (mux (S:=S) (Q:=Q))) r →
  serve r e a =
  let '(w, e1, a1) := exchange (mux_ServeHTTP mux) r (env_tick e) a in
  (w, env_tick e1,
   mkApp (svc a1) (idem a1)
     (log a1 ++ [mkLogLine (rq_Method r) (default (rq_path r) (unescape false (rq_path r)))
                   (sent_status w) (Z.quot (time_Sub (now_of e1) (now_of e)) 1000)])%list).
Proof.
  intros Hm. destruct (exchange_answers _ r (env_tick e) a Hm)
    as (hs & status & body & e1 & a1 & _ & -> & Hr).
  unfold serve, ServeHTTP. munfold. unfold time_Now. cbn [fst snd].
  rewrite Hr, respond_status. cbn [sr_statusCode sr_inner fst snd]. by rewrite respond_fresh.
Qed.

(** A route of the table, found. *)
Lemma exchange_route r e a h values :
  mux_find mux (rq_Method r) (path_segments (rq_path r)) = Some (h, values) →
  exchange (mux_ServeHTTP mux) r e a = exchange h (rq_with_values r values) e a.
Proof. intros Hf. unfold exchange, mux_ServeHTTP. by rewrite Hf. Qed.
End Exchanges.
