(* ===== verification/IdempotencyTheory.v ===== *)
(** * Correctness of the idempotency layer (src/transport/httpapi/idempotency.go)

    What [wrap] does on each of its branches, and what follows for retries:
    a replay, a conflict, an expiry, and any number of repetitions of one
    request. *)

From S2P Require Import Prelude GoLib Model ProviderErr Runtime State Queue Blob Sha256.
From S2P Require Import MemState MemQueue.
From S2P Require Import Json Codec Rfc3339 Http HttpApi HttpApiTheory.
From S2P Require Service.

Local Open Scope string_scope.

(** The entry an exchange leaves behind. *)
Definition entry_of (hash : bytes) (w : Response) (now : Time) : idempotencyEntry :=
  mkIdempotencyEntry hash (sent_status w) (rsp_body w) now.

(** The response a replay sends. *)
Definition replayed (en : idempotencyEntry) : Response :=
  mkResponse {[ "Content-Type" := "application/json" ]} (Some (ie_statusCode en)) (ie_body en).

Definition conflict_line : string :=
  json_line (enc_errorResponse
    (mkErrorResponse "conflict" "idempotency key reused with different request body" "" "")).
Definition conflict_response : Response :=
  mkResponse {[ "Content-Type" := "application/json" ]} (Some StatusConflict) conflict_line.

(** Does the entry still count at the instant [t]? *)
Definition entry_live (t : Time) (en : idempotencyEntry) : bool :=
  negb (idempotencyTTL <? time_Sub t (ie_createdAt en))%Z.

Section Wrap.
Context {S Q : Type} `{StateStore S}.
Abbreviation App := (App S Q).
Implicit Types (a : App) (next : Handler App).

Definition with_idem (i : idempotencyStore) a : App := mkApp (svc a) i (log a).

(** The environment and the server after the lookup. *)
Definition lookup_env (key : string) (e : Env) a : Env :=
  match idem a !! key with Some _ => env_tick e | None => e end.
Definition lookup_app (key : string) (e : Env) a : App :=
  match idem a !! key with
  | Some en => if entry_live (now_of e) en then a else with_idem (delete key (idem a)) a
  | None => a
  end.
Definition current (key : string) (e : Env) a : option idempotencyEntry :=
  match idem a !! key with
  | Some en => if entry_live (now_of e) en then Some en else None
  | None => None
  end.

Lemma idem_current_run {W} key e a (w : W) :
  on_app (on_idem (idem_current key)) e (a, w) =
  (current key e a, lookup_env key e a, (lookup_app key e a, w)).
Proof.
  destruct a as [s i l].
  unfold on_app, on_idem, idem_current, idem_lookup, idem_delete, current, lookup_env, lookup_app.
  munfold. cbn [idem]. destruct (i !! key) as [en|]; [|done].
  unfold time_Now. munfold. unfold entry_live.
  by destruct (idempotencyTTL <? _)%Z.
Qed.

Lemma log_lookup_app key e a : log (lookup_app key e a) = log a.
Proof. unfold lookup_app. destruct (idem a !! key); [|done]. by destruct (entry_live _ _). Qed.

Lemma recorded_run next r e a {W} (HW : ResponseWriter W) (w : W) hs status body e' a' :
  (∀ W (HW : ResponseWriter W) (w : W),
     next W HW r e (a, w) = ((), e', (a', respond hs status body w))) →
  recorded next HW r e (a, w) = ((status, default "" body), e', (a', respond hs status body w)).
Proof. intros Hn. unfold recorded. cbn [fst snd]. by rewrite Hn, respond_recorder. Qed.

(** [wrap] with a key and a readable body, once the lookup is made. *)
Lemma wrap_run next r e a {W} (HW : ResponseWriter W) (w : W) :
  let key := Header_Get r "Idempotency-Key" in
  let body := concat (rd_chunks (rq_Body r)) in
  let hash := sha256_Sum256 body in
  key ≠ "" → rd_err (rq_Body r) = None →
  wrap next W HW r e (a, w) =
  match current key e a with
  | Some en =>
      let answer := if bool_decide (ie_requestHash en = hash) then replay en
                    else writeErrorMessage StatusConflict "conflict"
                           "idempotency key reused with different request body" in
      ((), lookup_env key e a, (lookup_app key e a, answer w))
  | None =>
      let '(out, e2, (a2, w2)) :=
        recorded next HW (rq_with_Body r (bytes_NewReader body)) (lookup_env key e a)
          (lookup_app key e a, w) in
      ((), env_tick e2,
       (with_idem (<[key := mkIdempotencyEntry hash out.1 out.2 (now_of e2)]> (idem a2)) a2, w2))
  end.
Proof.
  intros key body hash Hkey Herr. unfold wrap. fold key.
  destruct (String.eqb_spec key ""); [done|].
  unfold io_ReadAll. rewrite Herr. fold body hash. munfold. rewrite idem_current_run.
  destruct (current key e a) as [en|].
  - by destruct (bool_decide _).
  - destruct (recorded _ _ _ _ _) as [[out e2] [[s2 i2 l2] w2]]. done.
Qed.

Lemma answers_wrap next : answers next → answers (wrap next).
Proof.
  intros Hn r e a. destruct (String.eqb_spec (Header_Get r "Idempotency-Key") "") as [Hk|Hk].
  { destruct (Hn r e a) as (hs & status & body & e' & t' & Hlog & Hr).
    exists hs, status, body, e', t'. split; [done|]. intros W HW w. unfold wrap. rewrite Hk. exact (Hr W HW w). }
  destruct (rd_err (rq_Body r)) as [err|] eqn:Herr.
  { exists text_header, StatusBadRequest, (Some ("failed to read request body" +:+ newline)), e, a.
    split; [done|]. intros W HW w. unfold wrap, io_ReadAll. apply String.eqb_neq in Hk. by rewrite Hk, Herr. }
  destruct (current (Header_Get r "Idempotency-Key") e a) as [en|] eqn:Ec.
  - set (key := Header_Get r "Idempotency-Key") in *.
    destruct (bool_decide (ie_requestHash en = sha256_Sum256 (concat (rd_chunks (rq_Body r))))) eqn:Eh.
    + exists json_header, (ie_statusCode en), (Some (ie_body en)), (lookup_env key e a), (lookup_app key e a).
      split; [apply log_lookup_app|]. intros W HW w. rewrite wrap_run by done. fold key. by rewrite Ec, Eh.
    + exists json_header, StatusConflict, (Some conflict_line), (lookup_env key e a), (lookup_app key e a).
      split; [apply log_lookup_app|]. intros W HW w. rewrite wrap_run by done. fold key. rewrite Ec, Eh. reflexivity.
  - set (key := Header_Get r "Idempotency-Key") in *.
    destruct (Hn (rq_with_Body r (bytes_NewReader (concat (rd_chunks (rq_Body r)))))
                (lookup_env key e a) (lookup_app key e a)) as (hs & status & body & e' & t' & Hlog & Hr).
    exists hs, status, body. do 2 eexists. split; [|intros W HW w; rewrite wrap_run by done; fold key; rewrite Ec].
    2: by rewrite (recorded_run _ _ _ _ _ _ _ _ _ _ _ Hr).
    cbn. rewrite Hlog. apply log_lookup_app.
Qed.

(** [wrap] with a key and a body that cannot be read. *)
Lemma exchange_unreadable next r e a err :
  Header_Get r "Idempotency-Key" ≠ "" → rd_err (rq_Body r) = Some err →
  exchange (wrap next) r e a =
  (http_Error "failed to read request body" StatusBadRequest new_response, e, a).
Proof.
  intros Hk%String.eqb_neq Herr. unfold exchange, wrap, io_ReadAll. by rewrite Hk, Herr.
Qed.

(** [wrap] with a key and a readable body, as an exchange. *)
Lemma wrap_keyed next r e a :
  answers next →
  let key := Header_Get r "Idempotency-Key" in
  let body := concat (rd_chunks (rq_Body r)) in
  let hash := sha256_Sum256 body in
  key ≠ "" → rd_err (rq_Body r) = None →
     exchange (wrap next) r e a =
     match idem a !! key with
     | Some en =>
         if entry_live (now_of e) en
         then (if bool_decide (ie_requestHash en = hash) then replayed en else conflict_response,
               env_tick e, a)
         else
           let '(w, e2, a2) := exchange next (rq_with_Body r (bytes_NewReader body)) (env_tick e)
                                 (with_idem (delete key (idem a)) a) in
           (w, env_tick e2, with_idem (<[key := entry_of hash w (now_of e2)]> (idem a2)) a2)
     | None =>
         let '(w, e2, a2) := exchange next (rq_with_Body r (bytes_NewReader body)) e a in
         (w, env_tick e2, with_idem (<[key := entry_of hash w (now_of e2)]> (idem a2)) a2)
     end.
Proof.
  intros Hn key body hash.
  intros Hk Herr. unfold exchange. rewrite wrap_run by done. fold key body hash.
  assert (∀ e a, match recorded next response_writer (rq_with_Body r (bytes_NewReader body)) e
                       (a, new_response) with
                 | (out, e2, (a2, w2)) =>
                     (w2, env_tick e2,
                      with_idem (<[key := mkIdempotencyEntry hash out.1 out.2 (now_of e2)]> (idem a2)) a2)
                 end =
                 let '(w, e2, a2) := exchange next (rq_with_Body r (bytes_NewReader body)) e a in
                 (w, env_tick e2, with_idem (<[key := entry_of hash w (now_of e2)]> (idem a2)) a2)) as Hrun.
  { intros e0 a0.
    destruct (exchange_answers next _ e0 a0 (Hn (rq_with_Body r (bytes_NewReader body))))
      as (hs & status & b & e' & a' & _ & -> & Hr).
    by rewrite (recorded_run _ _ _ _ _ _ _ _ _ _ _ Hr), respond_fresh. }
  unfold current, lookup_env, lookup_app. destruct (idem a !! key) as [en|].
  + destruct (entry_live (now_of e) en).
    * by destruct (bool_decide _).
    * refine (eq_trans _ (Hrun _ _)). by destruct (recorded _ _ _ _ _) as [[out e2] [a2 w2]].
  + refine (eq_trans _ (Hrun _ _)). by destruct (recorded _ _ _ _ _) as [[out e2] [a2 w2]].
Qed.

Lemma wrap_replay next r e a en :
  answers next →
  Header_Get r "Idempotency-Key" ≠ "" → rd_err (rq_Body r) = None →
  idem a !! Header_Get r "Idempotency-Key" = Some en → entry_live (now_of e) en = true →
  ie_requestHash en = sha256_Sum256 (concat (rd_chunks (rq_Body r))) →
  exchange (wrap next) r e a = (replayed en, env_tick e, a).
Proof.
  intros Hn Hk Herr Hen Hlive Hh.
  rewrite wrap_keyed, Hen, Hlive, bool_decide_eq_true_2 by done. done.
Qed.
End Wrap.

(** C12: The idempotency layer on each of its branches, around any handler that answers: with no
    key the request goes through untouched; a body that cannot be read is refused with 400;
    a key with an entry younger than 24 hours is answered from it when the SHA-256 of the
    body is the recorded one and with 409 when it is not, the handler not being run and the
    server not being changed; otherwise an outdated entry is dropped, the handler runs on
    the body, and exactly the status and body it sent are recorded with the time. *)
Theorem wrap_spec {S Q} `{StateStore S} (next : Handler (App S Q)) r e a :
  answers next →
  let key := Header_Get r "Idempotency-Key" in
  let body := concat (rd_chunks (rq_Body r)) in
  let hash := sha256_Sum256 body in
  (key = "" → exchange (wrap next) r e a = exchange next r e a) ∧
  (key ≠ "" → rd_err (rq_Body r) ≠ None →
     exchange (wrap next) r e a =
       (http_Error "failed to read request body" StatusBadRequest new_response, e, a)) ∧
  (key ≠ "" → rd_err (rq_Body r) = None →
     exchange (wrap next) r e a =
     match idem a !! key with
     | Some en =>
         if entry_live (now_of e) en
         then (if bool_decide (ie_requestHash en = hash) then replayed en else conflict_response,
               env_tick e, a)
         else
           let '(w, e2, a2) := exchange next (rq_with_Body r (bytes_NewReader body)) (env_tick e)
                                 (with_idem (delete key (idem a)) a) in
           (w, env_tick e2, with_idem (<[key := entry_of hash w (now_of e2)]> (idem a2)) a2)
     | None =>
         let '(w, e2, a2) := exchange next (rq_with_Body r (bytes_NewReader body)) e a in
         (w, env_tick e2, with_idem (<[key := entry_of hash w (now_of e2)]> (idem a2)) a2)
     end).
Proof.
  intros Hn key body hash. split; [|split].
  - intros Hk. unfold exchange, wrap. fold key. by rewrite Hk.
  - intros Hk Herr. destruct (rd_err (rq_Body r)) as [err|] eqn:He; [|done].
    by apply (exchange_unreadable next r e a err).
  - by apply wrap_keyed.
Qed.

(** A replay and a conflict. *)
Lemma wrap_spec_witness :
  let en := mkIdempotencyEntry (sha256_Sum256 (bytes_of_string "{}")) 202 "x" 1000000%Z in
  let a : App MemState.Store MemQueue.Queue :=
    mkApp (Service.New MemState.New MemQueue.New) {[ "abc" := en ]} [] in
  let r body := mkRequest "POST" "/v1/vms" "" {[ "Idempotency-Key" := "abc" ]}
                  (mkReader [bytes_of_string body] None) ∅ in
  exchange (wrap createVM) (r "{}") test_env a = (replayed en, env_tick test_env, a) ∧
  exchange (wrap createVM) (r "[]") test_env a = (conflict_response, env_tick test_env, a).
Proof.
  intros en a r.
  destruct (wrap_spec createVM (r "{}") test_env a answers_createVM) as (_ & _ & H1).
  destruct (wrap_spec createVM (r "[]") test_env a answers_createVM) as (_ & _ & H2).
  rewrite H1, H2 by (reflexivity || discriminate). clear H1 H2.
  change (Header_Get (r _) "Idempotency-Key") with "abc". cbn [idem a].
  rewrite lookup_singleton_eq. change (entry_live _ en) with true.
  split; case_bool_decide as Hb.
  - reflexivity.
  - destruct Hb. vm_compute. reflexivity.
  - vm_compute in Hb. discriminate Hb.
  - reflexivity.
Defined.
