(* ===== verification/HttpApiProps.v ===== *)
(** * Properties of the HTTP server

    The whole server, [serve], on a request: routing, the endpoints of a VM,
    retries under an idempotency key, the request log and the error bodies. *)

From S2P Require Import Prelude GoLib Model ProviderErr Runtime State Queue Blob Sha256.
From S2P Require Import MemState MemQueue Service ServiceTheory.
From S2P Require Import Json Codec Rfc3339 Http HttpApi HttpApiTheory IdempotencyTheory.

Local Open Scope string_scope.

(** ** Every route answers *)

Section Server.
Context {S Q : Type} `{StateStore S}.
Implicit Types (a : App S Q).

Lemma mux_answers : answers (mux_ServeHTTP (mux (S:=S) (Q:=Q))).
Proof.
  apply answers_serve_mux. unfold mux.
  repeat apply Forall_cons_2; try apply Forall_nil_2; cbn [snd];
    auto using answers_wrap, answers_createVM, answers_getVM, answers_stopVM, answers_deleteVM,
      answers_registerController, answers_heartbeat, answers_listControllers, answers_listEvents,
      answers_healthz.
Qed.

Definition url_path (r : Request) : string := default (rq_path r) (unescape false (rq_path r)).

Lemma serve_run r e a :
  serve r e a =
  let '(w, e1, a1) := exchange (mux_ServeHTTP mux) r (env_tick e) a in
  (w, env_tick e1,
   mkApp (svc a1) (idem a1)
     (log a ++ [mkLogLine (rq_Method r) (url_path r) (sent_status w)
                  (Z.quot (time_Sub (now_of e1) (now_of e)) 1000)])%list).
Proof.
  rewrite serve_exchange by apply mux_answers.
  destruct (exchange_answers _ r (env_tick e) a (mux_answers r)) as (hs & st & b & e1 & a1 & Hlog & -> & _).
  by rewrite Hlog.
Qed.
End Server.

(** Whatever the request, matched by a route or not, the server answers it with exactly one
    status and appends exactly one line to the request log, with the method, the unescaped
    path and the very status that was sent. *)
Theorem every_request_logged {S Q} `{StateStore S} r e (a : App S Q) :
  let '(w, _, a') := serve r e a in
  ∃ status micros, rsp_status w = Some status ∧
    log a' = (log a ++ [mkLogLine (rq_Method r) (url_path r) status micros])%list.
Proof.
  rewrite serve_run.
  destruct (exchange_answers _ r (env_tick e) a (mux_answers r)) as (hs & st & b & e1 & a1 & _ & -> & _).
  by do 2 eexists.
Qed.

(** ** Errors *)

(** C31: An error of the service becomes 404 when a not-found error is in its chain of causes,
    409 when an already-exists or conflict error is, and 500 otherwise; the body is a JSON
    object with the code, message and (when not empty) resource of the first provider error
    of the chain, or with the status text and the error's text when there is none. *)
Theorem error_response err :
  let w := writeError err new_response in
  let has c := ∃ pe, in_chain pe err ∧ pe_Code pe = c in
  rsp_header w = {[ "Content-Type" := "application/json" ]} ∧
  (has "not_found" → sent_status w = 404%Z) ∧
  (¬ has "not_found" → has "already_exists" ∨ has "conflict" → sent_status w = 409%Z) ∧
  (¬ has "not_found" → ¬ has "already_exists" → ¬ has "conflict" → sent_status w = 500%Z) ∧
  rsp_body w = json_line (enc_errorResponse
    match errors_As err with
    | Some pe => mkErrorResponse (pe_Code pe) (pe_Message pe) (pe_ResourceType pe) (pe_ResourceID pe)
    | None => mkErrorResponse (StatusText (sent_status w)) (error_Error err) "" ""
    end) ∧
  (errors_As err = None → sent_status w = 500%Z).
Proof.
  intros w has. subst w. rewrite writeError_respond, respond_fresh. unfold sent_status. cbn [rsp_header rsp_status rsp_body default].
  assert (∀ t, errors_Is err t = true ↔ has (pe_Code t)) as Hhas.
  { intros t. apply (proj1 (errors_Is_spec err t)). }
  assert (∀ t, errors_Is err t = false ↔ ¬ has (pe_Code t)) as Hnot.
  { intros t. rewrite <- Hhas. by destruct (errors_Is err t). }
  split; [done|]. unfold errorToStatus.
  repeat split.
  - intros Hn. by rewrite (proj2 (Hhas ErrNotFound) Hn).
  - intros Hn Hc. rewrite (proj2 (Hnot ErrNotFound) Hn).
    destruct (errors_Is err ErrAlreadyExists) eqn:Ea; [done|].
    destruct Hc as [Hc|Hc]; [by apply (Hhas ErrAlreadyExists) in Hc; congruence|].
    by rewrite (proj2 (Hhas ErrConflict) Hc).
  - intros Hn Ha Hc. by rewrite (proj2 (Hnot ErrNotFound) Hn), (proj2 (Hnot ErrAlreadyExists) Ha),
      (proj2 (Hnot ErrConflict) Hc).
  - intros Hnone. assert (∀ t, errors_Is err t = false) as Hf.
    { intros t. apply Hnot. intros (pe & Hin & _). apply in_chain_errors_As in Hin as [pe' Hpe]. congruence. }
    by rewrite !Hf.
Qed.

(** ** Retries *)

(** C25: A retry gets the original response: once a request with an idempotency key has been
    executed by a handler behind the idempotency layer, any request to such a handler with the
    same key and the same body bytes, made while the entry is younger than 24 hours, gets the same status and the same body, whatever happened on the
    server in between, without running its handler and without changing the server.  Neither
    the path nor the method takes part: the second request may be one for another endpoint
    behind the layer. *)
Theorem idempotent_replay {S Q} `{StateStore S} (next1 next2 : Handler (App S Q)) r1 r2 e1 a1 e2 a2 :
  answers next1 → answers next2 →
  let key := Header_Get r1 "Idempotency-Key" in
  key ≠ "" → Header_Get r2 "Idempotency-Key" = key →
  rd_err (rq_Body r1) = None → rd_err (rq_Body r2) = None →
  concat (rd_chunks (rq_Body r2)) = concat (rd_chunks (rq_Body r1)) →
  idem a1 !! key = None →
  let '(w1, _, a1') := exchange (wrap next1) r1 e1 a1 in
  idem a2 !! key = idem a1' !! key →
  (∀ en, idem a1' !! key = Some en → entry_live (now_of e2) en = true) →
  exchange (wrap next2) r2 e2 a2 =
  (mkResponse {[ "Content-Type" := "application/json" ]} (rsp_status w1) (rsp_body w1), env_tick e2, a2).
Proof.
  intros H1 H2 key Hk Hkey Herr1 Herr2 Hbody Hnone.
  rewrite wrap_keyed by done. fold key. rewrite Hnone.
  destruct (exchange_answers next1 _ e1 a1 (H1 (rq_with_Body r1 (bytes_NewReader (concat (rd_chunks (rq_Body r1)))))))
    as (hs & st & b & e' & a' & _ & -> & _).
  cbn [idem with_idem]. rewrite lookup_insert_eq. intros Hen Hlive.
  match type of Hen with _ = Some ?en => rewrite (wrap_replay next2 r2 e2 a2 en H2) end;
    rewrite ?Hkey; auto.
  cbn. by rewrite Hbody.
Qed.

Definition test_body (s : string) : Reader := mkReader [bytes_of_string (json_text s)] None.
Definition test_request (method path key body : string) : Request :=
  mkRequest method path "" {[ "Idempotency-Key" := key ]} (test_body body) ∅.
Definition app0 : App MemState.Store MemQueue.Queue := NewHandler svc0.

(** A VM is created under a key; the same key then "stops" another VM. *)
Lemma idempotent_replay_witness :
  let r1 := test_request "POST" "/v1/vms" "abc" "{}" in
  let r2 := test_request "POST" "/v1/vms/other/stop" "abc" "{}" in
  let '(w1, e2, a2) := exchange (wrap createVM) r1 test_env app0 in
  exchange (wrap stopVM) r2 e2 a2 =
  (mkResponse {[ "Content-Type" := "application/json" ]} (rsp_status w1) (rsp_body w1), env_tick e2, a2).
Proof.
  refine (idempotent_replay createVM stopVM (test_request "POST" "/v1/vms" "abc" "{}")
            (test_request "POST" "/v1/vms/other/stop" "abc" "{}") test_env app0 _ _
            answers_createVM answers_stopVM _ _ _ _ _ _ _ _); try reflexivity.
  - discriminate.
  - intros en Hen. vm_compute in Hen. injection Hen as <-. reflexivity.
Defined.

(** ** The endpoints of a VM *)

Definition no_key (r : Request) : Prop := Header_Get r "Idempotency-Key" = "".

Lemma exchange_no_key {S Q} `{StateStore S} (next : Handler (App S Q)) r e a :
  no_key r → exchange (wrap next) r e a = exchange next r e a.
Proof. unfold no_key, exchange, wrap. by intros ->. Qed.

Section Routes.
Context {S Q : Type} `{StateStoreSpec S}.
Implicit Types (a : App S Q).

(** The requests of each route. *)
Definition is_create (r : Request) : Prop := rq_Method r = "POST" ∧ rq_path r = "/v1/vms".
Definition is_get (id : string) (r : Request) : Prop :=
  rq_Method r = "GET" ∧ path_segments (rq_path r) = ["v1"; "vms"; id].
Definition is_stop (id : string) (r : Request) : Prop :=
  rq_Method r = "POST" ∧ path_segments (rq_path r) = ["v1"; "vms"; id; "stop"].
Definition is_delete (id : string) (r : Request) : Prop :=
  rq_Method r = "DELETE" ∧ path_segments (rq_path r) = ["v1"; "vms"; id].

Lemma route_create r e a :
  is_create r →
  exchange (mux_ServeHTTP mux) r e a = exchange (wrap createVM) (rq_with_values r ∅) e a.
Proof. intros [Hm Hp]. apply exchange_route. by rewrite Hm, Hp. Qed.

Lemma route_get id r e a :
  is_get id r → id ≠ "" →
  exchange (mux_ServeHTTP mux) r e a = exchange getVM (rq_with_values r {[ "vm_id" := id ]}) e a.
Proof.
  intros [Hm Hp] Hid%String.eqb_neq. apply exchange_route. rewrite Hm, Hp. cbn. by rewrite Hid.
Qed.

Lemma route_stop id r e a :
  is_stop id r → id ≠ "" →
  exchange (mux_ServeHTTP mux) r e a = exchange (wrap stopVM) (rq_with_values r {[ "vm_id" := id ]}) e a.
Proof.
  intros [Hm Hp] Hid%String.eqb_neq. apply exchange_route. rewrite Hm, Hp. cbn. by rewrite Hid.
Qed.

Lemma route_delete id r e a :
  is_delete id r → id ≠ "" →
  exchange (mux_ServeHTTP mux) r e a = exchange (wrap deleteVM) (rq_with_values r {[ "vm_id" := id ]}) e a.
Proof.
  intros [Hm Hp] Hid%String.eqb_neq. apply exchange_route. rewrite Hm, Hp. cbn. by rewrite Hid.
Qed.

Lemma PathValue_single r name v : PathValue (rq_with_values r {[ name := v ]}) name = v.
Proof. unfold PathValue. cbn. by rewrite lookup_singleton_eq. Qed.

(** The answer of a call on the service, as the server sends it. *)
Lemma serve_call {A} (m : M (Service S Q) (Res A)) ok r e a :
  exchange (mux_ServeHTTP mux) r (env_tick e) a = call_exchange m ok (env_tick e) a →
  let '(res, e1, s1) := m (env_tick e) (svc a) in
  ∃ l, serve r e a = (answer_response (result_answer ok res), env_tick e1, mkApp s1 (idem a) l).
Proof.
  intros He. rewrite serve_run, He. unfold call_exchange.
  destruct (m (env_tick e) (svc a)) as [[res e1] s1]. by eexists.
Qed.

Lemma errorToStatus_not_found {A} (res : Res A) ok :
  fails_with res ErrNotFound = true → rsp_status (answer_response (result_answer ok res)) = Some 404%Z.
Proof.
  destruct res as [x|err]; [done|]. cbn [fails_with]. intros Hf.
  unfold answer_response, result_answer, error_answer. cbn [fst snd].
  rewrite respond_fresh. cbn. unfold errorToStatus. by rewrite Hf.
Qed.
End Routes.

(** ** Retries of a creation *)

Lemma entry_live_within t en :
  (t - ie_createdAt en ≤ idempotencyTTL)%Z → entry_live t en = true.
Proof.
  unfold entry_live, time_Sub, idempotencyTTL, Hour, Second, Millisecond, min_int64, max_int64.
  intros H. destruct (Z.ltb_spec (24 * (3600 * (1000 * 1000000)))
    (Z.max (- 2 ^ 63) (Z.min (2 ^ 63 - 1) (t - ie_createdAt en)))); [lia|done].
Qed.

(** The clock readings of an environment lie within 24 hours. *)
Definition within_ttl (e : Env) : Prop := ∀ i j, (clock e i - clock e j ≤ idempotencyTTL)%Z.

Lemma serve_replay {S Q} `{StateStore S} r e (a : App S Q) en :
  is_create r → Header_Get r "Idempotency-Key" ≠ "" → rd_err (rq_Body r) = None →
  idem a !! Header_Get r "Idempotency-Key" = Some en → entry_live (now_of (env_tick e)) en = true →
  ie_requestHash en = sha256_Sum256 (concat (rd_chunks (rq_Body r))) →
  ∃ l, serve r e a = (replayed en, env_tick (env_tick (env_tick e)), mkApp (svc a) (idem a) l).
Proof.
  intros Hr Hk Herr Hen Hlive Hh. rewrite serve_run, route_create by done.
  rewrite (wrap_replay createVM (rq_with_values r ∅) (env_tick e) a en answers_createVM) by done.
  by eexists.
Qed.

Lemma json_Decode_buffered {T} (dec : json → T → option T) r v body :
  io_ReadAll r = (body, None) → json_Decode dec (bytes_NewReader body) v = json_Decode dec r v.
Proof.
  intros Hr. unfold json_Decode. rewrite Hr. unfold io_ReadAll, bytes_NewReader. cbn [rd_chunks rd_err concat].
  by rewrite app_nil_r.
Qed.

(** The service after a creation of a VM with that spec, and its response. *)
Definition created_one {S Q} `{StateStoreSpec S} (spec : VMSpec) (s s' : Service S Q) (w : Response) : Prop :=
  ∃ id now ev,
    w = answer_response (json_answer 202 (single "id" id)) ∧
    ev_VMID ev = id ∧ ev_Type ev = "vm.created" ∧ queue s' = queue s ∧
    view (state s') =
      mkStoreView (<[id := mkVM id "running" "pending" "" "" spec now now]> (sv_vms (view (state s))))
        (sv_controllers (view (state s))) (sv_events (view (state s)) ++ [ev])%list.

(** Every response of [createVM] is JSON, and it creates one VM or none. *)
Lemma createVM_json {S Q} `{StateStoreSpec S} r e (a : App S Q) :
  let '(w, e1, a1) := exchange createVM r e a in
  env_le e e1 ∧ idem a1 = idem a ∧
  (∃ status body, w = mkResponse {[ "Content-Type" := "application/json" ]} (Some status) body) ∧
  match json_Decode dec_VMSpec (rq_Body r) zero_VMSpec with
  | Some spec => created_one spec (svc a) (svc a1) w
  | None => sent_status w = 400%Z ∧ svc a1 = svc a
  end.
Proof.
  rewrite exchange_createVM. destruct (json_Decode dec_VMSpec (rq_Body r) zero_VMSpec) as [spec|].
  - unfold call_exchange. destruct (Service.CreateVM spec e (svc a)) as [[res e1] s1] eqn:Hc.
    apply create_inv in Hc as (Hle & Hq & id & now & ev & -> & _ & _ & Hev & _ & Hv). split; [done|]. split; [done|].
    split; [do 2 eexists; unfold answer_response; cbn; reflexivity|].
    exists id, now, ev. by destruct Hev as (? & _ & ? & _).
  - split; [auto with flames|]. split; [done|]. split; [do 2 eexists; reflexivity|done].
Qed.

(** A creation, and the reading of what it created. *)
Lemma serve_create {S Q} `{StateStoreSpec S} r e (a : App S Q) :
  is_create r → no_key r →
  let '(w, e1, a1) := serve r e a in
  match json_Decode dec_VMSpec (rq_Body r) zero_VMSpec with
  | Some spec =>
      ∃ id now, id ≠ "" ∧ read_between (env_tick e) e1 now ∧
        w = answer_response (json_answer 202 (single "id" id)) ∧
        ∀ r' e', is_get id r' →
          result (serve r' e' a1) =
          answer_response (json_answer 200 (enc_VM (mkVM id "running" "pending" "" "" spec now now)))
  | None => sent_status w = 400%Z ∧ svc a1 = svc a
  end.
Proof.
  intros Hr Hk.
  assert (exchange (mux_ServeHTTP mux) r (env_tick e) a =
          exchange createVM (rq_with_values r ∅) (env_tick e) a) as He
    by (rewrite route_create by done; by apply exchange_no_key).
  rewrite exchange_createVM in He. change (rq_Body (rq_with_values r ∅)) with (rq_Body r) in He.
  destruct (json_Decode dec_VMSpec (rq_Body r) zero_VMSpec) as [spec|].
  2: { rewrite serve_run, He. done. }
  pose proof (serve_call _ _ _ _ _ He) as Hs.
  destruct (Service.CreateVM spec (env_tick e) (svc a)) as [[res e1] s1] eqn:Hc.
  destruct Hs as (l & ->).
  apply create_inv in Hc as (_ & _ & id & now & ev & -> & Hid & Hnow & _ & _ & Hv).
  exists id, now. split; [done|]. split.
  { eapply read_between_extend; [|exact Hnow]. auto with flames. }
  split; [done|]. intros r' e' Hr'.
  pose proof (route_get id r' (env_tick e') (mkApp s1 (idem a) l) Hr' Hid) as Hg.
  rewrite exchange_getVM, PathValue_single in Hg.
  pose proof (serve_call _ _ _ _ _ Hg) as Hs. cbn [svc] in Hs.
  destruct (Service.GetVM id (env_tick e') s1) as [[res e2] s2] eqn:Hget.
  destruct Hs as (l' & ->). unfold result. cbn [fst].
  apply on_state_inv in Hget as (st & Hget & ->). apply GetVM_law in Hget as (_ & _ & Hget).
  rewrite Hv in Hget. cbn in Hget. rewrite lookup_insert_eq in Hget. by subst res.
Qed.

(** C26: Creating a VM over HTTP and reading it back: a [POST /v1/vms] whose body decodes to a
    spec is answered 202 with the new identifier, and a [GET /v1/vms/{id}] of that
    identifier then answers 200 with the JSON of a running, pending, unassigned VM with
    exactly that spec; a body that does not decode is answered 400 and creates nothing. *)
Theorem http_create_then_get {S Q} `{StateStoreSpec S} r e (a : App S Q) :
  is_create r → no_key r →
  let '(w, e1, a1) := serve r e a in
  match json_Decode dec_VMSpec (rq_Body r) zero_VMSpec with
  | Some spec =>
      ∃ id now, w = answer_response (json_answer 202 (single "id" id)) ∧
        ∀ r' e', is_get id r' →
          result (serve r' e' a1) =
          answer_response (json_answer 200 (enc_VM (mkVM id "running" "pending" "" "" spec now now)))
  | None => sent_status w = 400%Z ∧ svc a1 = svc a
  end.
Proof.
  intros Hr Hk. pose proof (serve_create r e a Hr Hk) as Hs. destruct (serve r e a) as [[w e1] a1].
  destruct (json_Decode _ _ _) as [spec|]; [|done]. destruct Hs as (id & now & _ & _ & Hs). by exists id, now.
Qed.

(** C5: Retrying a creation creates one VM: when a [POST /v1/vms] with a fresh idempotency key is
    repeated any number of times, one after the other and within 24 hours, every repetition
    gets the response of the first, header, status and body, and all of them together have
    written exactly one VM, with the spec of the body, under the identifier they answer, and
    logged exactly one event, its creation; or nothing at all and a 400, if the body does not
    decode. *)
Theorem retries_create_once {S Q} `{StateStoreSpec S} n r e (a : App S Q) :
  is_create r → Header_Get r "Idempotency-Key" ≠ "" → rd_err (rq_Body r) = None →
  idem a !! Header_Get r "Idempotency-Key" = None → within_ttl e →
  let '(w, e1, a1) := serve r e a in
  let '(ws, _, a') := run_server (replicate n r) e1 a1 in
  ws = replicate n w ∧
  match json_Decode dec_VMSpec (rq_Body r) zero_VMSpec with
  | Some spec =>
      ∃ id now ev,
        w = answer_response (json_answer 202 (single "id" id)) ∧
        ev_VMID ev = id ∧ ev_Type ev = "vm.created" ∧ queue (svc a') = queue (svc a) ∧
        view (state (svc a')) =
          mkStoreView (<[id := mkVM id "running" "pending" "" "" spec now now]> (sv_vms (view (state (svc a)))))
            (sv_controllers (view (state (svc a)))) (sv_events (view (state (svc a))) ++ [ev])%list
  | None => sent_status w = 400%Z ∧ svc a' = svc a
  end.
Proof.
  intros Hr Hk Herr Hnone Hwithin. rewrite serve_run, route_create by done.
  rewrite wrap_keyed by (done || apply answers_createVM).
  change (idem a !! Header_Get (rq_with_values r ∅) "Idempotency-Key")
    with (idem a !! Header_Get r "Idempotency-Key"). rewrite Hnone. cbv zeta.
  match goal with |- context [exchange createVM ?r' ?e' ?a'] =>
    pose proof (createVM_json r' e' a') as Hj; destruct (exchange createVM r' e' a') as [[w e2] a2] end.
  destruct Hj as (Hle & Hidem & (status & body & ->) & Hone).
  match type of Hone with match ?d with _ => _ end =>
    replace d with (json_Decode dec_VMSpec (rq_Body r) zero_VMSpec) in Hone
      by (symmetry; apply (json_Decode_buffered dec_VMSpec (rq_Body r)); unfold io_ReadAll; by rewrite Herr) end.
  set (en := entry_of _ _ _) in *.
  assert (∀ n e0 (a0 : App S Q), clock e0 = clock e → idem a0 !! Header_Get r "Idempotency-Key" = Some en →
            let '(ws, _, a') := run_server (replicate n r) e0 a0 in
            ws = replicate n (replayed en) ∧ svc a' = svc a0) as Hrun.
  { clear -Hr Hk Herr Hwithin Hle. intros n. induction n as [|n IH]; intros e0 a0 He0 Ha0; [done|].
    cbn [replicate]. unfold run_server. rewrite run_all_cons.
    destruct (serve_replay r e0 a0 en Hr Hk Herr Ha0) as [l Hs]; [|done|].
    { apply entry_live_within. destruct Hle as (Hc & _). subst en. unfold now_of. cbn.
      rewrite Hc, He0. cbn. apply Hwithin. }
    rewrite Hs. fold (run_server (S:=S) (Q:=Q)). 
    specialize (IH (env_tick (env_tick (env_tick e0))) (mkApp (svc a0) (idem a0) l) He0 Ha0).
    destruct (run_server _ _ _) as [[ws e3] a3]. destruct IH as [-> ->]. done. }
  match goal with |- context [run_server _ ?e0 ?a0] => specialize (Hrun n e0 a0) end.
  destruct (run_server _ _ _) as [[ws e3] a3].
  destruct Hrun as [-> Hsvc]; [destruct Hle as (Hc & _); cbn; by rewrite Hc|cbn; by rewrite lookup_insert_eq|].
  split; [done|]. rewrite Hsvc. exact Hone.
Qed.

(** The clock of a server that answers within a day. *)
Definition frozen_env : Env :=
  mkEnv (λ _, 1000000%Z) 0 (entropy test_env) 0 (picks test_env) 0.

Definition retry_request : Request := test_request "POST" "/v1/vms" "abc" "{}".

Lemma retries_create_once_witness :
  let '(w, e1, a1) := serve retry_request frozen_env app0 in
  let '(ws, _, a') := run_server (replicate 3 retry_request) e1 a1 in
  ws = replicate 3 w ∧
  ∃ id now ev,
    w = answer_response (json_answer 202 (single "id" id)) ∧
    ev_VMID ev = id ∧ ev_Type ev = "vm.created" ∧ queue (svc a') = queue (svc app0) ∧
    view (state (svc a')) =
      mkStoreView (<[id := mkVM id "running" "pending" "" "" zero_VMSpec now now]> ∅) ∅ [ev].
Proof.
  pose proof (retries_create_once 3 retry_request frozen_env app0) as H. apply H; clear H.
  - split; reflexivity.
  - discriminate.
  - reflexivity.
  - reflexivity.
  - intros i j. unfold frozen_env, idempotencyTTL, Hour, Second, Millisecond. cbn. lia.
Defined.

Definition plain_request (method path body : string) : Request :=
  mkRequest method path "" ∅ (test_body body) ∅.

Lemma http_create_then_get_witness :
  let r := plain_request "POST" "/v1/vms" "{'resources':{'vcpus':2,'memory_mb':512}}" in
  let '(w, e1, a1) := serve r test_env app0 in
  ∃ id now, w = answer_response (json_answer 202 (single "id" id)) ∧
    ∀ r' e', is_get id r' →
      result (serve r' e' a1) =
      answer_response (json_answer 200 (enc_VM (mkVM id "running" "pending" "" ""
        (mkVMSpec (mkResourceSpec 2 512) (Lifecycle zero_VMSpec) (Runtime zero_VMSpec)
           (Network zero_VMSpec) (Storage zero_VMSpec) (Placement zero_VMSpec) None) now now))).
Proof.
  exact (http_create_then_get
           (plain_request "POST" "/v1/vms" "{'resources':{'vcpus':2,'memory_mb':512}}") test_env app0
           (conj eq_refl eq_refl) eq_refl).
Defined.

(** C27: Stopping and deleting over HTTP: without a key, [POST /v1/vms/{id}/stop] and
    [DELETE /v1/vms/{id}] of a known VM are answered 202 with its identifier, after its desired
    state is stopped or deleted and one event of that type is logged; of an unknown VM they
    are answered 404 and change nothing, and so is [GET /v1/vms/{id}]. *)
Theorem http_stop_delete {S Q} `{StateStoreSpec S} id r e (a : App S Q) d ty :
  id ≠ "" → no_key r →
  (is_stop id r ∧ d = "stopped" ∧ ty = "vm.stop_requested") ∨
  (is_delete id r ∧ d = "deleted" ∧ ty = "vm.delete_requested") →
  let '(w, e1, a1) := serve r e a in
  match sv_vms (view (state (svc a))) !! id with
  | Some vm =>
      w = answer_response (json_answer 202 (single "id" id)) ∧
      ∃ now ev, logged (env_tick e) e1 id ty ev ∧
        view (state (svc a1)) =
          mkStoreView (<[id := VM_set_desired d now vm]> (sv_vms (view (state (svc a)))))
            (sv_controllers (view (state (svc a)))) (sv_events (view (state (svc a))) ++ [ev])%list
  | None =>
      sent_status w = 404%Z ∧ view (state (svc a1)) = view (state (svc a)) ∧
      ∀ r' e', is_get id r' → sent_status (result (serve r' e' a)) = 404%Z
  end.
Proof.
  intros Hid Hk Hr.
  assert (∃ ty', exchange (mux_ServeHTTP mux) r (env_tick e) a =
            call_exchange (then_log (State.UpdateVMDesiredState id d) (λ _, id) ty')
              (λ _, json_answer StatusAccepted (single "id" id)) (env_tick e) a ∧ ty' = ty)
    as (ty' & He & ->).
  { destruct Hr as [(Hr & -> & ->)|(Hr & -> & ->)]; eexists; (split; [|reflexivity]).
    - rewrite (route_stop id) by done. rewrite exchange_no_key by done.
      rewrite exchange_stopVM, PathValue_single. unfold call_exchange. by rewrite StopVM_then_log.
    - rewrite (route_delete id) by done. rewrite exchange_no_key by done.
      rewrite exchange_deleteVM, PathValue_single. unfold call_exchange. by rewrite DeleteVM_then_log. }
  pose proof (serve_call _ _ _ _ _ He) as Hs.
  destruct (then_log _ _ _ (env_tick e) (svc a)) as [[res e1] s1] eqn:Hc. destruct Hs as (l & ->).
  apply request_inv in Hc as (_ & _ & Hc). cbn [svc].
  destruct (sv_vms (view (state (svc a))) !! id) as [vm|] eqn:Hvm.
  - destruct Hc as (-> & now & ev & _ & Hev & Hv). split; [done|]. exists now, ev. split; [|done].
    destruct Hev as (?&?&?&?&?&?). split_and!; try done. eapply read_between_extend; [|done]. auto with flames.
  - destruct Hc as [Hf Hv]. split; [|split; [done|]].
    + unfold sent_status. by rewrite errorToStatus_not_found.
    + intros r' e' Hr'. pose proof (route_get id r' (env_tick e') a Hr' Hid) as Hg.
      rewrite exchange_getVM, PathValue_single in Hg.
      pose proof (serve_call _ _ _ _ _ Hg) as Hs.
      destruct (Service.GetVM id (env_tick e') (svc a)) as [[res' e2] s2] eqn:Hget.
      destruct Hs as (l' & ->). unfold result. cbn [fst].
      apply on_state_inv in Hget as (st & Hget & ->). apply GetVM_law in Hget as (_ & _ & Hget).
      rewrite Hvm in Hget. unfold sent_status. by rewrite errorToStatus_not_found.
Qed.

Lemma http_stop_delete_witness :
  let r := plain_request "DELETE" "/v1/vms/nope" "" in
  let '(w, e1, a1) := serve r test_env app0 in
  sent_status w = 404%Z ∧ view (state (svc a1)) = mkStoreView ∅ ∅ [] ∧
  ∀ r' e', is_get "nope" r' → sent_status (result (serve r' e' app0)) = 404%Z.
Proof.
  exact (http_stop_delete "nope" (plain_request "DELETE" "/v1/vms/nope" "") test_env app0
           "deleted" "vm.delete_requested" ltac:(discriminate) eq_refl
           (or_intror (conj (conj eq_refl eq_refl) (conj eq_refl eq_refl)))).
Defined.
