(* ===== verification/HttpPlan.v ===== *)
(** * Every handler as a plan

    A handler of the transport does one of two things: it answers at once, or
    it makes one call on the service and answers with what that returns.  Its
    [Plan] says which, and is equivalent to the handler; the routes are a table
    of plans, some of them behind the idempotency layer, and [dispatch] is what
    the router and that layer make of a request. *)

From S2P Require Import Prelude GoLib Model ProviderErr Runtime State Queue Blob Sha256.
From S2P Require Import Service ServiceTheory.
From S2P Require Import Json Codec Rfc3339 Http HttpApi HttpApiTheory IdempotencyTheory HttpApiProps.

Local Open Scope string_scope.

Inductive Plan :=
  | AnswerNow (an : Answer)
  | CallThen (c : SvcCall) (k : SvcReply → Answer).

(** ** The plans of the handlers *)

(** The answer to a reply of the kind a call gets; no call gets another kind. *)
Definition on_string (ok : string → Answer) (rep : SvcReply) : Answer :=
  match rep with SRString res => result_answer ok res | _ => bad_body end.
Definition on_vm (ok : VM → Answer) (rep : SvcReply) : Answer :=
  match rep with SRVM res => result_answer ok res | _ => bad_body end.
Definition on_unit (ok : () → Answer) (rep : SvcReply) : Answer :=
  match rep with SRUnit res => result_answer ok res | _ => bad_body end.
Definition on_controllers (ok : Slice Controller → Answer) (rep : SvcReply) : Answer :=
  match rep with SRControllers res => result_answer ok res | _ => bad_body end.
Definition on_events (ok : Slice Event → Answer) (rep : SvcReply) : Answer :=
  match rep with SREvents res => result_answer ok res | _ => bad_body end.

Definition plan_createVM (r : Request) : Plan :=
  match json_Decode dec_VMSpec (rq_Body r) zero_VMSpec with
  | None => AnswerNow bad_body
  | Some spec => CallThen (SCreateVM spec) (on_string (λ id, json_answer StatusAccepted (single "id" id)))
  end.
Definition plan_getVM (r : Request) : Plan :=
  CallThen (SGetVM (PathValue r "vm_id")) (on_vm (λ vm, json_answer StatusOK (enc_VM vm))).
Definition plan_stopVM (r : Request) : Plan :=
  CallThen (SStopVM (PathValue r "vm_id"))
    (on_unit (λ _, json_answer StatusAccepted (single "id" (PathValue r "vm_id")))).
Definition plan_deleteVM (r : Request) : Plan :=
  CallThen (SDeleteVM (PathValue r "vm_id"))
    (on_unit (λ _, json_answer StatusAccepted (single "id" (PathValue r "vm_id")))).
Definition plan_registerController (r : Request) : Plan :=
  match json_Decode dec_Controller (rq_Body r) zero_Controller with
  | None => AnswerNow bad_body
  | Some c => CallThen (SRegisterController c) (on_unit (λ _, json_answer StatusCreated (enc_Controller c)))
  end.
Definition plan_heartbeat (r : Request) : Plan :=
  match json_Decode dec_Heartbeat (rq_Body r) zero_Heartbeat with
  | None => AnswerNow bad_body
  | Some hb => CallThen (SHeartbeat (PathValue r "controller_id") hb)
                 (on_unit (λ _, json_answer StatusOK (single "status" "ok")))
  end.
Definition plan_listControllers (r : Request) : Plan :=
  CallThen (SListControllers (mkControllerFilter (Values_Get (URL_Query r) "status") (queryInt r "limit")))
    (on_controllers (λ cs, json_answer StatusOK (enc_list enc_Controller cs))).
Definition plan_listEvents (r : Request) : Plan :=
  match events_filter r with
  | None => AnswerNow (message_answer StatusBadRequest "bad_request"
                         "invalid 'since' parameter, expected RFC 3339")
  | Some f => CallThen (SListEvents f) (on_events (λ evs, json_answer StatusOK (enc_list enc_Event evs)))
  end.
Definition plan_healthz (_ : Request) : Plan := AnswerNow (json_answer StatusOK (single "status" "ok")).

(** The routes: the pattern, whether the idempotency layer wraps the handler, and its plan. *)
Record Route := mkRoute { rt_wrapped : bool; rt_plan : Request → Plan }.

Definition routes : list (string * Route) :=
  [("POST /v1/vms", mkRoute true plan_createVM);
   ("GET /v1/vms/{vm_id}", mkRoute false plan_getVM);
   ("POST /v1/vms/{vm_id}/stop", mkRoute true plan_stopVM);
   ("DELETE /v1/vms/{vm_id}", mkRoute true plan_deleteVM);
   ("POST /v1/controllers", mkRoute true plan_registerController);
   ("POST /v1/controllers/{controller_id}/heartbeat", mkRoute false plan_heartbeat);
   ("GET /v1/controllers", mkRoute false plan_listControllers);
   ("GET /v1/events", mkRoute false plan_listEvents);
   ("GET /healthz", mkRoute false plan_healthz)].

(** The route of a request, with the wildcards of its pattern. *)
Fixpoint find_route (rts : list (string * Route)) (m : string) (path : list string)
    : option (Route * gmap string string) :=
  match rts with
  | [] => None
  | (pat, rt) :: rts =>
      let pat := parse_pattern pat in
      match (if method_matches (pat_method pat) m then match_path (pat_path pat) path else None) with
      | Some values => Some (rt, list_to_map values)
      | None => find_route rts m path
      end
  end.

Section Plans.
Context {S Q : Type} `{StateStore S}.
Implicit Types (a : App S Q) (h : Handler (App S Q)).

Definition run_plan (p : Plan) : M (App S Q) Response :=
  match p with
  | AnswerNow an => ret (answer_response an)
  | CallThen c k => fmapM (λ rep, answer_response (k rep)) (on_svc (svc_call c))
  end.

Definition planned h (plan : Request → Plan) : Prop := ∀ r e a, exchange h r e a = run_plan (plan r) e a.

Lemma run_plan_call {A} (m : M (Service S Q) (Res A)) (f : Res A → SvcReply) c ok k e a :
  (∀ e sv, svc_call c e sv = fmapM f m e sv) → (∀ res, k (f res) = result_answer ok res) →
  call_exchange m ok e a = run_plan (CallThen c k) e a.
Proof.
  intros Hc Hk. unfold call_exchange, run_plan, on_svc, fmapM. munfold. rewrite Hc. unfold fmapM. munfold.
  destruct (m e (svc a)) as [[res e'] s']. by rewrite Hk.
Qed.

Lemma planned_createVM : planned createVM plan_createVM.
Proof.
  intros r e a. rewrite exchange_createVM. unfold plan_createVM. destruct (json_Decode _ _ _); [|done].
  by eapply run_plan_call.
Qed.
Lemma planned_getVM : planned getVM plan_getVM.
Proof. intros r e a. rewrite exchange_getVM. by eapply run_plan_call. Qed.
Lemma planned_stopVM : planned stopVM plan_stopVM.
Proof. intros r e a. rewrite exchange_stopVM. by eapply run_plan_call. Qed.
Lemma planned_deleteVM : planned deleteVM plan_deleteVM.
Proof. intros r e a. rewrite exchange_deleteVM. by eapply run_plan_call. Qed.
Lemma planned_registerController : planned registerController plan_registerController.
Proof.
  intros r e a. rewrite exchange_registerController. unfold plan_registerController.
  destruct (json_Decode _ _ _); [|done]. by eapply run_plan_call.
Qed.
Lemma planned_heartbeat : planned heartbeat plan_heartbeat.
Proof.
  intros r e a. rewrite exchange_heartbeat. unfold plan_heartbeat. destruct (json_Decode _ _ _); [|done].
  by eapply run_plan_call.
Qed.
Lemma planned_listControllers : planned listControllers plan_listControllers.
Proof. intros r e a. rewrite exchange_listControllers. by eapply run_plan_call. Qed.
Lemma planned_listEvents : planned listEvents plan_listEvents.
Proof.
  intros r e a. rewrite exchange_listEvents. unfold plan_listEvents. destruct (events_filter r); [|done].
  by eapply run_plan_call.
Qed.
Lemma planned_healthz : planned healthz plan_healthz.
Proof. intros r e a. by rewrite exchange_healthz. Qed.

(** A route of the table stands for a handler of the router. *)
Definition routed (ph : string * Handler (App S Q)) (pr : string * Route) : Prop :=
  ph.1 = pr.1 ∧ ∃ h, answers h ∧ planned h (rt_plan pr.2) ∧ ph.2 = if rt_wrapped pr.2 then wrap h else h.

Lemma routes_routed : Forall2 routed mux routes.
Proof.
  unfold mux, routes. repeat apply Forall2_cons_2; try apply Forall2_nil_2;
    (split; [done|]); eexists; (split; [|split; [|reflexivity]]); cbn [snd rt_plan];
    auto using answers_createVM, answers_getVM, answers_stopVM, answers_deleteVM, answers_registerController,
      answers_heartbeat, answers_listControllers, answers_listEvents, answers_healthz, planned_createVM,
      planned_getVM, planned_stopVM, planned_deleteVM, planned_registerController, planned_heartbeat,
      planned_listControllers, planned_listEvents, planned_healthz.
Qed.

Lemma find_route_mux (m : ServeMux (App S Q)) rts meth path :
  Forall2 routed m rts →
  match mux_find m meth path, find_route rts meth path with
  | Some (h0, values), Some (rt, values') =>
      values' = values ∧ ∃ h, answers h ∧ planned h (rt_plan rt) ∧ h0 = if rt_wrapped rt then wrap h else h
  | None, None => True
  | _, _ => False
  end.
Proof.
  induction 1 as [|[pat h0] [pat' rt] m rts [Hp Hh] _ IH]; [done|]. cbn in Hp. subst pat'.
  cbn [mux_find find_route]. by destruct (if method_matches _ _ then _ else _) as [v|].
Qed.
End Plans.

(** ** Dispatching *)

(** Plain text for an unknown path or a wrong method. *)
Definition unrouted (r : Request) : Answer :=
  match allowed_methods ((λ pr, parse_pattern pr.1) <$> routes) (path_segments (rq_path r)) with
  | [] => (text_header, StatusNotFound, Some ("404 page not found" +:+ newline))
  | ms => (("Allow", String.concat ", " ms) :: text_header, StatusMethodNotAllowed,
           Some (StatusText StatusMethodNotAllowed +:+ newline))
  end.

Definition unreadable : Answer :=
  (text_header, StatusBadRequest, Some ("failed to read request body" +:+ newline)).

(** An answer without the service; a plan to carry out; or one under a key, with
    the hash of the body. *)
Inductive Dispatch :=
  | DAnswer (an : Answer)
  | DPlan (p : Plan)
  | DKeyed (key : string) (hash : bytes) (p : Plan).

Definition dispatch (r : Request) : Dispatch :=
  match find_route routes (rq_Method r) (path_segments (rq_path r)) with
  | None => DAnswer (unrouted r)
  | Some (rt, values) =>
      let r := rq_with_values r values in
      let key := Header_Get r "Idempotency-Key" in
      if rt_wrapped rt && negb (key =? "") then
        let '(body, err) := io_ReadAll (rq_Body r) in
        match err with
        | Some _ => DAnswer unreadable
        | None => DKeyed key (sha256_Sum256 body) (rt_plan rt (rq_with_Body r (bytes_NewReader body)))
        end
      else DPlan (rt_plan rt r)
  end.

Section Dispatch.
Context {S Q : Type} `{StateStore S}.
Implicit Types (a : App S Q) (e : Env).

(** What a dispatched request does to the server, and its response. *)
Definition run_dispatch (d : Dispatch) : M (App S Q) Response := λ e a,
  match d with
  | DAnswer an => (answer_response an, e, a)
  | DPlan p => run_plan p e a
  | DKeyed key hash p =>
      let run e a :=
        let '(w, e2, a2) := run_plan p e a in
        (w, env_tick e2, with_idem (<[key := entry_of hash w (now_of e2)]> (idem a2)) a2) in
      match idem a !! key with
      | Some en =>
          if entry_live (now_of e) en
          then (if bool_decide (ie_requestHash en = hash) then replayed en else conflict_response, env_tick e, a)
          else run (env_tick e) (with_idem (delete key (idem a)) a)
      | None => run e a
      end
  end.

(** The router and the idempotency layer are the dispatch. *)
Lemma exchange_dispatch r e a : exchange (mux_ServeHTTP mux) r e a = run_dispatch (dispatch r) e a.
Proof.
  unfold dispatch. pose proof (find_route_mux mux routes (rq_Method r) (path_segments (rq_path r))
                                 (routes_routed (S:=S) (Q:=Q))) as Hf.
  destruct (mux_find mux _ _) as [[h0 values]|] eqn:Hm, (find_route routes _ _) as [[rt values']|]; try done.
  - destruct Hf as (-> & h & Hans & Hpl & ->). rewrite (exchange_route r e a _ values Hm).
    set (r' := rq_with_values r values). destruct (rt_wrapped rt); cbn [andb]; [|apply Hpl].
    destruct (String.eqb_spec (Header_Get r' "Idempotency-Key") "") as [Hk|Hk]; cbn [negb].
    { rewrite exchange_no_key by exact Hk. apply Hpl. }
    unfold io_ReadAll. destruct (rd_err (rq_Body r')) as [err|] eqn:Herr.
    { by rewrite (exchange_unreadable h r' e a err). }
    rewrite wrap_keyed by done. cbv zeta. cbn [run_dispatch].
    destruct (idem a !! _) as [en|]; [destruct (entry_live _ _); [done|]|]; by rewrite Hpl.
  - unfold exchange, mux_ServeHTTP. rewrite Hm. cbn [run_dispatch]. unfold unrouted.
    change ((λ ph : string * Handler (App S Q), parse_pattern ph.1) <$> mux)
      with ((λ pr : string * Route, parse_pattern pr.1) <$> routes).
    by destruct (allowed_methods _ _).
Qed.
End Dispatch.
