(* ===== verification/HttpJson.v ===== *)
(** * What the server says and hears is JSON

    Every response of the server is one line of well-formed JSON, as long as the
    times in it marshal, or the plain text of a protocol error; and a spec or a controller a client writes as
    JSON arrives as it was written. *)

From S2P Require Import Prelude GoLib Model ProviderErr Runtime State Queue Blob Sha256.
From S2P Require Import MemState MemQueue Service ServiceTheory ServiceConc.
From S2P Require Import Json JsonStrings JsonRoundTrip Codec CodecTheory Rfc3339 Rfc3339Theory ServiceTimes.
From S2P Require Import Http HttpApi HttpApiTheory.
From S2P Require Import IdempotencyTheory HttpApiProps HttpPlan.

Local Open Scope string_scope.

(** ** Documents *)

Definition json_doc (b : string) : Prop := ∃ j, wf 0 j ∧ b = json_line j.

Lemma parse_json_line j : wf 0 j → parse_json (json_line j) = Some (j, newline).
Proof. intros Hj. by apply parse_render. Qed.

Lemma json_doc_parses b : json_doc b → ∃ j, parse_json b = Some (j, newline).
Proof. intros (j & Hj & ->). exists j. by apply parse_json_line. Qed.

Lemma wf_map d m : (d < maxNestingDepth)%N → wf d (enc_map m).
Proof. intros Hd. apply map_codec. lia. Qed.

Lemma wf_errorResponse r : wf 0 (enc_errorResponse r).
Proof.
  unfold enc_errorResponse. apply wf_obj; [done|].
  destruct (er_ResourceType r =? ""), (er_ResourceID r =? "");
    repeat (apply Forall_cons_2; [split; [intros t; reflexivity|apply string_codec; by vm_compute]|]);
    apply Forall_nil_2.
Qed.

Lemma error_line r : json_doc (json_line (enc_errorResponse r)).
Proof. eexists. split; [apply wf_errorResponse|done]. Qed.

(** ** Bodies *)

Lemma answer_json status j :
  answer_response (json_answer status (Some j)) =
  mkResponse {[ "Content-Type" := "application/json" ]} (Some status) (json_line j).
Proof. unfold answer_response, json_answer. cbn [fst snd]. by rewrite respond_fresh. Qed.

Lemma single_obj k v : single k v = Some (JObj [(quote k, enc_string v)]).
Proof. unfold single, enc_map, sorted_entries. by rewrite map_to_list_singleton. Qed.

Lemma wf_single k v : match single k v with Some j => wf 0 j | None => False end.
Proof. unfold single. by apply wf_map. Qed.

(** ** What marshals *)

Lemma enc_time_some t : in_years t → is_Some (enc_time t).
Proof. intros Ht. unfold enc_time. destruct (format_time_some t Ht) as [x ->]. by eexists. Qed.

Lemma enc_VM_some vm : vm_in_years vm → is_Some (enc_VM vm).
Proof.
  intros [Hc Hu]. unfold enc_VM. destruct (enc_time_some _ Hc) as [c ->], (enc_time_some _ Hu) as [u ->].
  by eexists.
Qed.

Lemma enc_Event_some ev : event_in_years ev → is_Some (enc_Event ev).
Proof. intros He. unfold enc_Event. destruct (enc_time_some _ He) as [c ->]. by eexists. Qed.

Lemma enc_Controller_some c : controller_in_years c ↔ is_Some (enc_Controller c).
Proof.
  unfold controller_in_years. rewrite <- format_zoned_some. unfold enc_Controller, enc_zoned.
  destruct (format_zoned _); cbn; (split; [intros [x Hx]|by intros []]); [by eexists|done].
Qed.

Lemma enc_list_some {A} (enc : A → option json) (P : A → Prop) s :
  (∀ x, P x → is_Some (enc x)) → Forall P (slice_elems s) → is_Some (enc_list enc s).
Proof.
  intros Henc Hs. destruct s as [l|]; [|by eexists]. cbn [enc_list slice_elems] in *.
  assert (is_Some (mapM enc l)) as [js ->] by (apply mapM_is_Some; eapply Forall_impl; eauto). by eexists.
Qed.

(** A request that registers no controller whose time does not marshal. *)
Definition request_in_years (r : Request) : Prop :=
  ∀ c, json_Decode dec_Controller (rq_Body r) zero_Controller = Some c → controller_in_years c.

(** ** Responses *)

(** The responses are described twice at once: [X] says whether values that do
    not marshal have to be reckoned with. *)
Section Typed.
Variable X : Prop.

(** A body may be missing only when a value of a successful request does not marshal. *)
Definition body_ok (status : Z) (b : string) : Prop :=
  json_doc b ∨ X ∧ b = "" ∧ (status = 200 ∨ status = 201)%Z.
Definition typed_response (w : Response) : Prop :=
  rsp_header w = {[ "Content-Type" := "application/json" ]} ∧ body_ok (sent_status w) (rsp_body w).
Definition text_response (w : Response) : Prop :=
  rsp_header w !! "Content-Type" = Some "text/plain; charset=utf-8" ∧
  (sent_status w = 400 ∨ sent_status w = 404 ∨ sent_status w = 405)%Z.

Definition entry_ok (_ : string) (en : idempotencyEntry) : Prop := body_ok (ie_statusCode en) (ie_body en).
Definition entries_ok (i : idempotencyStore) : Prop := map_Forall entry_ok i.

Lemma typed_response_answer status v :
  match v with Some j => wf 0 j | None => X ∧ (status = 200 ∨ status = 201)%Z end →
  typed_response (answer_response (json_answer status v)).
Proof.
  intros Hv. unfold answer_response, json_answer. cbn [fst snd]. rewrite respond_fresh.
  split; [done|]. unfold sent_status. cbn. destruct v as [j|]; cbn; [left; by exists j|right; tauto].
Qed.

(** A value that marshals, unless [X]. *)
Lemma typed_response_value {A} (enc : A → option json) x status :
  (status = 200 ∨ status = 201)%Z → (∀ j, enc x = Some j → wf 0 j) → X ∨ is_Some (enc x) →
  typed_response (answer_response (json_answer status (enc x))).
Proof.
  intros Hs Hwf Hx. apply typed_response_answer. destruct (enc x) as [j|]; [auto|].
  by destruct Hx as [Hx|[j Hj]].
Qed.

Lemma typed_response_error err : typed_response (answer_response (error_answer err)).
Proof.
  unfold answer_response, error_answer. cbn [fst snd]. rewrite respond_fresh. split; [done|].
  left. apply error_line.
Qed.

Lemma typed_response_message status code msg :
  typed_response (answer_response (message_answer status code msg)).
Proof.
  unfold answer_response, message_answer. cbn [fst snd]. rewrite respond_fresh. split; [done|].
  left. apply error_line.
Qed.

Lemma typed_response_single status k v : typed_response (answer_response (json_answer status (single k v))).
Proof. apply typed_response_answer, wf_single. Qed.

Hint Resolve typed_response_single typed_response_error typed_response_message : core.

Lemma typed_bad_body : typed_response (answer_response bad_body).
Proof. apply typed_response_message. Qed.

(** ** Plans answer in JSON *)

Definition plan_json (p : Plan) : Prop :=
  match p with
  | AnswerNow an => typed_response (answer_response an)
  | CallThen c k =>
      (X ∨ call_in_years c) ∧ ∀ rep, X ∨ reply_in_years rep → typed_response (answer_response (k rep))
  end.

Lemma result_json {A} (ok : A → Answer) res :
  (∀ x, res = Ok x → typed_response (answer_response (ok x))) →
  typed_response (answer_response (result_answer ok res)).
Proof. intros Hok. destruct res as [x|err]; [by apply Hok|apply typed_response_error]. Qed.

(** A reply of another kind than its call's gets an answer in JSON too. *)
Ltac reply_json :=
  split; [by right|]; intros rep Hrep; destruct rep; try exact typed_bad_body;
  apply result_json; intros x ->; cbn [reply_in_years] in Hrep.

Lemma plan_createVM_json r : plan_json (plan_createVM r).
Proof. unfold plan_createVM. destruct (json_Decode _ _ _); [|exact typed_bad_body]. reply_json. auto. Qed.
Lemma plan_getVM_json r : plan_json (plan_getVM r).
Proof.
  reply_json. apply typed_response_value; [auto|by intros j; apply wf_VM|].
  destruct Hrep; [by left|right; by apply enc_VM_some].
Qed.
Lemma plan_stopVM_json r : plan_json (plan_stopVM r).
Proof. reply_json. auto. Qed.
Lemma plan_deleteVM_json r : plan_json (plan_deleteVM r).
Proof. reply_json. auto. Qed.
Lemma plan_registerController_json r : X ∨ request_in_years r → plan_json (plan_registerController r).
Proof.
  intros Hr. unfold plan_registerController.
  destruct (json_Decode _ _ _) as [c|] eqn:Hc; [|exact typed_bad_body].
  assert (X ∨ controller_in_years c) as Hy by (destruct Hr as [Hr|Hr]; [by left|right; by apply Hr]).
  split; [exact Hy|]. intros rep _. destruct rep; try exact typed_bad_body. apply result_json. intros x _.
  apply typed_response_value; [auto|by intros j; apply wf_Controller|].
  destruct Hy; [by left|right; by apply enc_Controller_some].
Qed.
Lemma plan_heartbeat_json r : plan_json (plan_heartbeat r).
Proof. unfold plan_heartbeat. destruct (json_Decode _ _ _); [|exact typed_bad_body]. reply_json. auto. Qed.
Lemma plan_listControllers_json r : plan_json (plan_listControllers r).
Proof.
  reply_json. apply (typed_response_value (enc_list enc_Controller)); [auto| |].
  - intros j Hj. eapply wf_enc_list; [done| |exact Hj]. intros c jc. by apply wf_Controller.
  - destruct Hrep as [|Hrep]; [by left|right]. eapply enc_list_some; [|exact Hrep]. apply enc_Controller_some.
Qed.
Lemma plan_listEvents_json r : plan_json (plan_listEvents r).
Proof.
  unfold plan_listEvents. destruct (events_filter r) as [f|]; [|apply typed_response_message].
  reply_json. apply (typed_response_value (enc_list enc_Event)); [auto| |].
  - intros j Hj. eapply wf_enc_list; [done| |exact Hj]. intros ev je. by apply wf_Event.
  - destruct Hrep as [|Hrep]; [by left|right]. eapply enc_list_some; [|exact Hrep]. apply enc_Event_some.
Qed.
Lemma plan_healthz_json r : plan_json (plan_healthz r).
Proof. apply typed_response_single. Qed.

Lemma routes_json : Forall (λ pr, ∀ r, X ∨ request_in_years r → plan_json (rt_plan pr.2 r)) routes.
Proof.
  repeat apply Forall_cons_2; try apply Forall_nil_2; cbn [snd rt_plan];
    auto using plan_createVM_json, plan_getVM_json, plan_stopVM_json, plan_deleteVM_json,
      plan_registerController_json, plan_heartbeat_json, plan_listControllers_json, plan_listEvents_json,
      plan_healthz_json.
Qed.

Lemma find_route_json m path rt values r :
  X ∨ request_in_years r → find_route routes m path = Some (rt, values) → plan_json (rt_plan rt r).
Proof.
  intros Hr. induction routes_json as [|[pat rt'] rts Hrt _ IH]; [done|]. cbn [find_route].
  destruct (if method_matches _ _ then _ else _) as [v|]; [|exact IH]. intros [= <- _]. by apply Hrt.
Qed.

(** ** Dispatching *)

Definition dispatch_typed (d : Dispatch) : Prop :=
  match d with
  | DAnswer an => typed_response (answer_response an) ∨ text_response (answer_response an)
  | DPlan p | DKeyed _ _ p => plan_json p
  end.

Lemma unrouted_text r : text_response (answer_response (unrouted r)).
Proof. unfold unrouted. destruct (allowed_methods _ _); (split; [done|]); auto. Qed.

Lemma dispatch_json r : X ∨ request_in_years r → dispatch_typed (dispatch r).
Proof.
  intros Hr. unfold dispatch.
  destruct (find_route routes _ _) as [[rt values]|] eqn:Hf; [|right; apply unrouted_text].
  cbv zeta. destruct (rt_wrapped rt && _); [|by eapply find_route_json].
  destruct (io_ReadAll (rq_Body (rq_with_values r values))) as [body [err|]] eqn:Hbody.
  - right. split; [done|by left].
  - eapply find_route_json; [|exact Hf]. destruct Hr as [Hr|Hr]; [by left|right].
    intros c Hc. apply Hr. rewrite <- Hc. symmetry. by apply json_Decode_buffered.
Qed.

Lemma replayed_json en : entry_ok EmptyString en → typed_response (replayed en).
Proof. intros Hen. by split. Qed.

Lemma conflict_json : typed_response conflict_response.
Proof. apply (typed_response_message StatusConflict). Qed.

Lemma entry_of_ok key hash w now : typed_response w → entry_ok key (entry_of hash w now).
Proof. intros [_ Hb]. exact Hb. Qed.

Section Handlers.
Context {S Q : Type} `{StateStoreSpec S}.
Implicit Types (a : App S Q) (e : Env).

(** Every time the server holds marshals. *)
Definition times_ok e (s : S) : Prop := X ∨ clock_in_years e ∧ view_in_years (view s).

Lemma times_ok_le e e' s : env_le e e' → times_ok e s → times_ok e' s.
Proof.
  intros Hle [|[He Hs]]; [by left|right]. split; [by eapply clock_in_years_le|done].
Qed.

Lemma run_plan_json p e a :
  plan_json p → times_ok e (state (svc a)) →
  let '(w, e', a') := run_plan p e a in
  typed_response w ∧ idem a' = idem a ∧ times_ok e' (state (svc a')).
Proof.
  intros Hp Ht. destruct p as [an|c k]; [by split_and!|]. destruct Hp as [Hc Hk].
  unfold run_plan, fmapM, on_svc. munfold. pose proof (svc_call_in_years c e (svc a)) as Hcall.
  destruct (svc_call c e (svc a)) as [[rep e'] s']. cbn [svc idem].
  destruct Ht as [|[He Hv]]; [split_and!; [by apply Hk; left|done|by left]|].
  destruct Hc as [|Hc]; [split_and!; [by apply Hk; left|done|by left]|].
  destruct (Hcall He Hv Hc) as (He' & Hv' & Hrep). split_and!; [by apply Hk; right|done|by right].
Qed.

(** Every response is JSON or plain text, and every entry stays JSON. *)
Lemma run_dispatch_typed d e a :
  dispatch_typed d → entries_ok (idem a) → times_ok e (state (svc a)) →
  let '(w, e', a') := run_dispatch d e a in
  (typed_response w ∨ text_response w) ∧ entries_ok (idem a') ∧ times_ok e' (state (svc a')).
Proof.
  intros Hd Ha Ht. destruct d as [an|p|key hash p]; cbn [run_dispatch].
  - by split.
  - pose proof (run_plan_json p e a Hd Ht) as Hp. destruct (run_plan p e a) as [[w e'] a'].
    destruct Hp as (Hw & -> & Ht'). auto.
  - assert (∀ e0 a0, entries_ok (idem a0) → times_ok e0 (state (svc a0)) →
      let '(w, e', a') := (let '(w, e2, a2) := run_plan p e0 a0 in
        (w, env_tick e2, with_idem (<[key := entry_of hash w (now_of e2)]> (idem a2)) a2)) in
      (typed_response w ∨ text_response w) ∧ entries_ok (idem a') ∧ times_ok e' (state (svc a'))) as Hrun.
    { intros e0 a0 Ha0 Ht0. pose proof (run_plan_json p e0 a0 Hd Ht0) as Hp.
      destruct (run_plan p e0 a0) as [[w e2] a2]. destruct Hp as (Hw & Hi & Ht2). cbn. rewrite Hi.
      split_and!; [by left|by apply map_Forall_insert_2; [apply entry_of_ok|]|].
      eapply times_ok_le; [|exact Ht2]. auto with flames. }
    assert (times_ok (env_tick e) (state (svc a))) as Ht1 by (eapply times_ok_le; [|exact Ht]; auto with flames).
    destruct (idem a !! key) as [en|] eqn:Hen; [|by apply Hrun].
    destruct (entry_live _ _); [|by apply Hrun; [apply map_Forall_delete|]].
    split_and!; [left|done..]. case_bool_decide; [|apply conflict_json].
    apply replayed_json. exact (Ha _ _ Hen).
Qed.

(** ** The server *)

Lemma serve_typed r e a :
  X ∨ request_in_years r → entries_ok (idem a) → times_ok e (state (svc a)) →
  let '(w, e', a') := serve r e a in
  (typed_response w ∨ text_response w) ∧ entries_ok (idem a') ∧ times_ok e' (state (svc a')).
Proof.
  intros Hr Ha Ht. rewrite serve_run, exchange_dispatch.
  assert (times_ok (env_tick e) (state (svc a))) as Ht1 by (eapply times_ok_le; [|exact Ht]; auto with flames).
  pose proof (run_dispatch_typed _ (env_tick e) a (dispatch_json r Hr) Ha Ht1) as Hd.
  destruct (run_dispatch _ (env_tick e) a) as [[w e1] a1]. destruct Hd as (Hw & Hi & Ht2).
  split_and!; [done..|]. eapply times_ok_le; [|exact Ht2]. auto with flames.
Qed.

Lemma run_server_typed rs e a :
  Forall (λ r, X ∨ request_in_years r) rs → entries_ok (idem a) → times_ok e (state (svc a)) →
  Forall (λ w, typed_response w ∨ text_response w) (result (run_server rs e a)).
Proof.
  unfold run_server, result. intros Hrs. revert e a. induction Hrs as [|r rs Hr _ IH]; intros e a Ha Ht; [constructor|].
  rewrite run_all_cons. pose proof (serve_typed r e a Hr Ha Ht) as Hs.
  destruct (serve r e a) as [[w e1] a1]. destruct Hs as (Hw & Ha1 & Ht1). specialize (IH e1 a1 Ha1 Ht1).
  destruct (run_all serve rs e1 a1) as [[ws e2] a2]. by constructor.
Qed.
End Handlers.
End Typed.

(** JSON, but nothing for a value that does not marshal; and JSON in any case. *)
Definition json_response : Response → Prop := typed_response True.
Definition json_document : Response → Prop := typed_response False.

(** C15: Every response is one document: as long as the clock is between the years 0 and 9999 and
    no request registers a controller whose time does not marshal (an offset of 24 hours or
    more), every response of a server over a lawful store whose times marshal is either
    declared JSON, and then its body is exactly one JSON value, which the parser of the model
    reads back, and a newline, or the plain text of a refused body, an unknown path or a wrong
    method. *)
Theorem responses_are_documents {S Q} `{StateStoreSpec S} (s : Service S Q) rs e :
  clock_in_years e → view_in_years (view (state s)) → Forall request_in_years rs →
  Forall (λ w,
    (rsp_header w = {[ "Content-Type" := "application/json" ]} ∧
     ∃ j, rsp_body w = json_line j ∧ parse_json (rsp_body w) = Some (j, newline)) ∨
    (rsp_header w !! "Content-Type" = Some "text/plain; charset=utf-8" ∧
     (sent_status w = 400 ∨ sent_status w = 404 ∨ sent_status w = 405)%Z))
    (result (run_server rs e (NewHandler s))).
Proof.
  intros He Hv Hrs. eapply Forall_impl.
  - apply (run_server_typed False rs e (NewHandler s)); [eapply Forall_impl; eauto|done|by right].
  - intros w [[Hh [(j & Hj & Hb)|[[] _]]]|Ht]; [left|by right].
    split; [done|]. exists j. rewrite Hb. split; [done|by apply parse_json_line].
Qed.

(** The body of a registration with a given time. *)
Definition register_at (time : string) : Request :=
  test_request "POST" "/v1/controllers" "" ("{'id':'c','last_heartbeat_at':'" +:+ time +:+ "'}").

Lemma responses_are_documents_witness :
  let ws := result (run_server [register_at "2026-01-01T00:00:00+23:59"; retry_request; retry_request]
                      frozen_env (NewHandler (Service.New MemState.New MemQueue.New))) in
  Forall (λ w, rsp_header w = {[ "Content-Type" := "application/json" ]} ∧
     (∃ j, rsp_body w = json_line j ∧ parse_json (rsp_body w) = Some (j, newline)) ∨
    (rsp_header w !! "Content-Type" = Some "text/plain; charset=utf-8" ∧
     (sent_status w = 400 ∨ sent_status w = 404 ∨ sent_status w = 405)%Z)) ws.
Proof.
  pose proof (responses_are_documents (Service.New MemState.New MemQueue.New)
    [register_at "2026-01-01T00:00:00+23:59"; retry_request; retry_request] frozen_env) as H. apply H; clear H.
  - intros i. unfold in_years, day_ns, Second, Millisecond. cbn. lia.
  - split; [apply map_Forall_empty|apply map_Forall_empty|constructor].
  - repeat apply Forall_cons_2; try apply Forall_nil_2; intros c Hc; vm_compute in Hc; injection Hc as <-;
      split; vm_compute; done.
Defined.

(** A controller registered with an offset of 24 hours: the client gets 201 with
    an empty body, and so does, with a 200, everyone who lists the controllers,
    until a heartbeat replaces the time. *)
Lemma unmarshallable_time :
  let list := test_request "GET" "/v1/controllers" "" "" in
  let beat := test_request "POST" "/v1/controllers/c/heartbeat" "" "{}" in
  let ws := result (run_server [register_at "2026-01-01T00:00:00+24:00"; list; beat; list] test_env
                      (NewHandler (Service.New MemState.New MemQueue.New))) in
  (λ w, (sent_status w, rsp_body w =? "")) <$> ws = [(201, true); (200, true); (200, false); (200, false)]%Z.
Proof. vm_compute. reflexivity. Qed.

(** ** A spec arrives as it was written *)

Lemma string_of_bytes_of_string s : string_of_bytes (bytes_of_string s) = s.
Proof. apply String.string_of_list_byte_of_string. Qed.

(** The body of a request, read to its end, is the JSON text of [j]. *)
Definition body_is (j : json) (r : Request) : Prop :=
  rd_err (rq_Body r) = None ∧ string_of_bytes (concat (rd_chunks (rq_Body r))) = render j.

Lemma json_Decode_body {T} (dec : json → T → option T) j r v :
  wf 0 j → body_is j r → json_Decode dec (rq_Body r) v = dec j v.
Proof.
  intros Hj [Herr Hb]. unfold json_Decode, io_ReadAll. rewrite Hb, Herr.
  rewrite <- (string_app_nil (render j)), (parse_render j EmptyString) by done. done.
Qed.

(** C10: A spec survives the trip: when a client posts the JSON of a spec of 64-bit integers and
    valid UTF-8 strings to [/v1/vms], the response is the JSON of a new identifier, and the
    body of every later read of that identifier from the resulting state is a JSON object
    whose "spec" decodes to exactly the spec that was posted (on a clock between the years
    0 and 9999). *)
Theorem http_spec_roundtrip {S Q} `{StateStoreSpec S} s r e (a : App S Q) :
  is_create r → no_key r → valid_VMSpec s → body_is (enc_VMSpec s) r →
  (∀ i, is_Some (format_time (clock e i))) →
  let '(w, _, a1) := serve r e a in
  ∃ id, sent_status w = 202%Z ∧
    parse_json (rsp_body w) = Some (JObj [("id", enc_string id)], newline) ∧
    ∀ r' e', is_get id r' →
      let w' := result (serve r' e' a1) in
      sent_status w' = 200%Z ∧
      ∃ fields spec, parse_json (rsp_body w') = Some (JObj fields, newline) ∧
        ("spec", spec) ∈ fields ∧ dec_VMSpec spec zero_VMSpec = Some s.
Proof.
  intros Hr Hk Hs Hb Hclock. pose proof (serve_create r e a Hr Hk) as Hc.
  assert (wf 0 (enc_VMSpec s)) as Hwf by (apply VMSpec_codec; done).
  rewrite (json_Decode_body _ _ _ _ Hwf Hb), (dec_enc (JsonCodec:=VMSpec_codec) _ Hs) in Hc.
  destruct (serve r e a) as [[w e1] a1]. destruct Hc as (id & now & _ & Hnow & -> & Hget).
  pose proof (wf_single "id" id) as Hw. rewrite single_obj in *. rewrite answer_json.
  exists id. split; [done|]. split; [by apply parse_json_line|].
  intros r' e' Hr'. rewrite (Hget r' e' Hr').
  destruct Hnow as (i & _ & ->). change (clock (env_tick e)) with (clock e). destruct (Hclock i) as [t Ht].
  destruct (enc_VM (mkVM id "running" "pending" "" "" s (clock e i) (clock e i))) as [j|] eqn:Hj.
  2: { unfold enc_VM, enc_time in Hj. cbn [vm_CreatedAt vm_UpdatedAt] in Hj. by rewrite Ht in Hj. }
  cbv zeta. rewrite answer_json. split; [done|]. cbn [rsp_body].
  rewrite parse_json_line by (by eapply wf_VM; [|exact Hj]). unfold enc_VM, enc_time in Hj.
  cbn [vm_CreatedAt vm_UpdatedAt] in Hj. rewrite Ht in Hj. injection Hj as <-.
  do 2 eexists. split; [reflexivity|]. split; [|by apply (dec_enc (JsonCodec:=VMSpec_codec))].
  do 5 right. left.
Qed.

(** A client that posts a value as JSON. *)
Definition json_request (method path : string) (j : json) : Request :=
  mkRequest method path "" ∅ (mkReader [bytes_of_string (render j)] None) ∅.

Lemma body_json_request method path j : body_is j (json_request method path j).
Proof. split; [done|]. cbn [json_request rq_Body rd_chunks concat]. rewrite app_nil_r. apply string_of_bytes_of_string. Qed.

Definition spec_in : VMSpec :=
  mkVMSpec (mkResourceSpec 4 8192) (mkLifecycleSpec 3600 true "on_failure")
    (mkRuntimeSpec "/bin/sh" (Some ["-c"; "echo <a&b>"]) (Some {[ "PATH" := "/bin" ]}))
    (mkNetworkSpec (Some [mkPortMapping 80 8080 "tcp"])) (mkStorageSpec (-1)) (mkPlacementSpec None)
    (Some {[ "owner" := "ops" ]}).

Lemma valid_spec_in : valid_VMSpec spec_in.
Proof.
  unfold valid_VMSpec, valid_ResourceSpec, valid_LifecycleSpec, valid_RuntimeSpec, valid_NetworkSpec,
    valid_PortMapping, valid_slice, in_int64, min_int64, max_int64.
  cbn -[Z.pow]. split_and!; try lia; try (apply valid_ascii; reflexivity); try done;
    try (apply map_Forall_singleton; split; apply valid_ascii; reflexivity);
    repeat constructor; cbn -[Z.pow]; try (apply valid_ascii; reflexivity); lia.
Qed.

Lemma http_spec_roundtrip_witness :
  let r := json_request "POST" "/v1/vms" (enc_VMSpec spec_in) in
  let '(w, _, a1) := serve r frozen_env app0 in
  ∃ id, sent_status w = 202%Z ∧
    parse_json (rsp_body w) = Some (JObj [("id", enc_string id)], newline) ∧
    ∀ r' e', is_get id r' →
      let w' := result (serve r' e' a1) in
      sent_status w' = 200%Z ∧
      ∃ fields spec, parse_json (rsp_body w') = Some (JObj fields, newline) ∧
        ("spec", spec) ∈ fields ∧ dec_VMSpec spec zero_VMSpec = Some spec_in.
Proof.
  intros r. pose proof (http_spec_roundtrip spec_in r frozen_env app0) as H. apply H; clear H.
  - split; reflexivity.
  - reflexivity.
  - exact valid_spec_in.
  - apply body_json_request.
  - intros i. exists "0001-01-01T00:00:00.001Z". reflexivity.
Defined.
