(* ===== verification/HttpEndpoints.v ===== *)
(** * Controllers and listings over HTTP

    Registration, heartbeat and the two listings, each on every branch, down
    to the status, the body and the store. *)

From S2P Require Import Prelude GoLib Model ProviderErr Runtime State Queue Blob Sha256.
From S2P Require Import MemState MemQueue Service ServiceTheory.
From S2P Require Import Json JsonStrings JsonRoundTrip Codec CodecTheory Rfc3339 Http HttpApi HttpApiTheory.
From S2P Require Import IdempotencyTheory HttpApiProps HttpJson.

Local Open Scope string_scope.

Section Routes.
Context {S Q : Type} `{StateStoreSpec S}.
Implicit Types (a : App S Q).

Definition is_register (r : Request) : Prop := rq_Method r = "POST" ∧ rq_path r = "/v1/controllers".
Definition is_heartbeat (id : string) (r : Request) : Prop :=
  rq_Method r = "POST" ∧ path_segments (rq_path r) = ["v1"; "controllers"; id; "heartbeat"].
Definition is_list_controllers (r : Request) : Prop := rq_Method r = "GET" ∧ rq_path r = "/v1/controllers".
Definition is_list_events (r : Request) : Prop := rq_Method r = "GET" ∧ rq_path r = "/v1/events".

Lemma route_register r e a :
  is_register r → no_key r →
  exchange (mux_ServeHTTP mux) r e a = exchange registerController (rq_with_values r ∅) e a.
Proof.
  intros [Hm Hp] Hk. rewrite <- (exchange_no_key registerController) by exact Hk.
  apply exchange_route. by rewrite Hm, Hp.
Qed.

Lemma route_heartbeat id r e a :
  is_heartbeat id r → id ≠ "" →
  exchange (mux_ServeHTTP mux) r e a =
  exchange heartbeat (rq_with_values r {[ "controller_id" := id ]}) e a.
Proof.
  intros [Hm Hp] Hid%String.eqb_neq. apply exchange_route. rewrite Hm, Hp. cbn. by rewrite Hid.
Qed.

Lemma route_list_controllers r e a :
  is_list_controllers r →
  exchange (mux_ServeHTTP mux) r e a = exchange listControllers (rq_with_values r ∅) e a.
Proof. intros [Hm Hp]. apply exchange_route. by rewrite Hm, Hp. Qed.

Lemma route_list_events r e a :
  is_list_events r →
  exchange (mux_ServeHTTP mux) r e a = exchange listEvents (rq_with_values r ∅) e a.
Proof. intros [Hm Hp]. apply exchange_route. by rewrite Hm, Hp. Qed.

(** A request answered without a call on the service. *)
Lemma serve_const an r e a :
  exchange (mux_ServeHTTP mux) r (env_tick e) a = (answer_response an, env_tick e, a) →
  let '(w, _, a1) := serve r e a in w = answer_response an ∧ svc a1 = svc a.
Proof. intros He. by rewrite serve_run, He. Qed.
End Routes.

(** ** Controllers, on the store of the program *)

Section Controllers.
Context {Q : Type}.
Implicit Types (a : App MemState.Store Q).


Lemma RegisterController_run c e (sv : Service MemState.Store Q) :
  Service.RegisterController c e sv =
  match controllers (state sv) !! ctl_ID c with
  | Some _ => (Fail (AlreadyExists "controller" (ctl_ID c)), e, sv)
  | None => (Ok tt, e, mkService (store_set_controller (ctl_ID c) c (state sv)) (queue sv))
  end.
Proof.
  destruct sv as [st q]. unfold Service.RegisterController, on_state, zoom.
  change (State.RegisterController (S:=MemState.Store)) with MemState.RegisterController.
  unfold MemState.RegisterController. munfold. cbn [state]. by destruct (controllers st !! ctl_ID c).
Qed.

Lemma Heartbeat_run id hb e (sv : Service MemState.Store Q) :
  Service.Heartbeat id hb e sv =
  match controllers (state sv) !! id with
  | Some c =>
      (Ok tt, env_tick e,
       mkService (store_set_controller id (Controller_beat hb (now_of e) c) (state sv)) (queue sv))
  | None => (Fail (NotFound "controller" id), e, sv)
  end.
Proof.
  destruct sv as [st q]. unfold Service.Heartbeat, on_state, zoom.
  change (State.UpdateControllerHeartbeat (S:=MemState.Store)) with MemState.UpdateControllerHeartbeat.
  unfold MemState.UpdateControllerHeartbeat. munfold. cbn [state]. by destruct (controllers st !! id).
Qed.

Lemma serve_register c r e a :
  is_register r → no_key r → json_Decode dec_Controller (rq_Body r) zero_Controller = Some c →
  let '(w, _, a1) := serve r e a in
  match controllers (state (svc a)) !! ctl_ID c with
  | None => w = answer_response (json_answer 201 (enc_Controller c)) ∧
      svc a1 = mkService (store_set_controller (ctl_ID c) c (state (svc a))) (queue (svc a))
  | Some _ => w = answer_response (error_answer (AlreadyExists "controller" (ctl_ID c))) ∧ svc a1 = svc a
  end.
Proof.
  intros Hr Hk Hc. pose proof (route_register r (env_tick e) a Hr Hk) as He.
  rewrite exchange_registerController in He. change (rq_Body (rq_with_values r ∅)) with (rq_Body r) in He.
  rewrite Hc in He. pose proof (serve_call _ _ _ _ _ He) as Hs.
  rewrite RegisterController_run in Hs. destruct (controllers _ !! ctl_ID c); destruct Hs as (l & ->); done.
Qed.

Lemma serve_heartbeat id hb r e a :
  is_heartbeat id r → id ≠ "" → json_Decode dec_Heartbeat (rq_Body r) zero_Heartbeat = Some hb →
  let '(w, _, a1) := serve r e a in
  match controllers (state (svc a)) !! id with
  | Some c => w = answer_response (json_answer 200 (single "status" "ok")) ∧
      svc a1 = mkService (store_set_controller id (Controller_beat hb (now_of (env_tick e)) c) (state (svc a)))
                 (queue (svc a))
  | None => w = answer_response (error_answer (NotFound "controller" id)) ∧ svc a1 = svc a
  end.
Proof.
  intros Hr Hid Hb. pose proof (route_heartbeat id r (env_tick e) a Hr Hid) as He.
  rewrite exchange_heartbeat, PathValue_single in He.
  change (rq_Body (rq_with_values r _)) with (rq_Body r) in He.
  rewrite Hb in He. pose proof (serve_call _ _ _ _ _ He) as Hs.
  rewrite Heartbeat_run in Hs. destruct (controllers _ !! id); destruct Hs as (l & ->); done.
Qed.

Lemma serve_bad_controller r e a :
  is_register r → no_key r → json_Decode dec_Controller (rq_Body r) zero_Controller = None →
  let '(w, _, a1) := serve r e a in w = answer_response bad_body ∧ svc a1 = svc a.
Proof.
  intros Hr Hk Hc. apply serve_const. rewrite route_register, exchange_registerController by done.
  change (rq_Body (rq_with_values r ∅)) with (rq_Body r). by rewrite Hc.
Qed.

Lemma serve_bad_heartbeat id r e a :
  is_heartbeat id r → id ≠ "" → json_Decode dec_Heartbeat (rq_Body r) zero_Heartbeat = None →
  let '(w, _, a1) := serve r e a in w = answer_response bad_body ∧ svc a1 = svc a.
Proof.
  intros Hr Hid Hc. apply serve_const. rewrite (route_heartbeat id), exchange_heartbeat by done.
  change (rq_Body (rq_with_values r _)) with (rq_Body r). by rewrite Hc.
Qed.
End Controllers.

(** C28: Registration over HTTP: when a client posts the JSON of a controller that JSON can carry,
    a new identifier is answered 201 with exactly the JSON that was posted and the store
    holds exactly that controller; a known one is answered 409 with the error naming the
    controller, and nothing changes. *)
Theorem http_register {Q} c j r e (a : App MemState.Store Q) :
  is_register r → no_key r → valid_Controller c → enc_Controller c = Some j → body_is j r →
  let '(w, _, a1) := serve r e a in
  match controllers (state (svc a)) !! ctl_ID c with
  | None =>
      w = mkResponse {[ "Content-Type" := "application/json" ]} (Some 201%Z) (render j +:+ newline) ∧
      controllers (state (svc a1)) = <[ctl_ID c := c]> (controllers (state (svc a))) ∧
      vms (state (svc a1)) = vms (state (svc a)) ∧ events (state (svc a1)) = events (state (svc a))
  | Some _ =>
      sent_status w = 409%Z ∧
      rsp_body w = json_line (enc_errorResponse
        (mkErrorResponse "already_exists" ("controller already exists: " +:+ ctl_ID c)
           "controller" (ctl_ID c))) ∧ svc a1 = svc a
  end.
Proof.
  intros Hr Hk Hc Hj Hb.
  assert (json_Decode dec_Controller (rq_Body r) zero_Controller = Some c) as Hdec.
  { rewrite (json_Decode_body _ j) by (done || by eapply wf_Controller). by apply dec_enc_Controller. }
  pose proof (serve_register c r e a Hr Hk Hdec) as Hs. destruct (serve r e a) as [[w e1] a1].
  destruct (controllers (state (svc a)) !! ctl_ID c).
  - destruct Hs as [-> ->]. unfold answer_response, error_answer. cbn [fst snd]. by rewrite respond_fresh.
  - destruct Hs as [-> ->]. rewrite Hj, answer_json. done.
Qed.

(** A controller that registers twice. *)
Definition ctrl_in : Controller :=
  mkController "ctrl-1" "active" (Some {[ "zone" := "a" ]}) (mkCapacityInfo 16 32768 0 0) (in_UTC zero_time).

Lemma valid_ctrl_in : valid_Controller ctrl_in.
Proof.
  unfold valid_Controller, in_int64, min_int64, max_int64. cbn -[Z.pow].
  split_and!; try lia; try (apply valid_ascii; reflexivity); [|reflexivity].
  apply map_Forall_singleton. split; apply valid_ascii; reflexivity.
Qed.

Definition ctrl_json : json := default JNull (enc_Controller ctrl_in).
Definition register_request : Request := json_request "POST" "/v1/controllers" ctrl_json.
Definition app_ctrl : App MemState.Store MemQueue.Queue :=
  NewHandler (Service.New (store_set_controller "ctrl-1" ctrl_in MemState.New) MemQueue.New).

Lemma http_register_witness :
  (let '(w, _, a1) := serve register_request test_env app0 in
   w = mkResponse {[ "Content-Type" := "application/json" ]} (Some 201%Z) (render ctrl_json +:+ newline) ∧
   controllers (state (svc a1)) = <["ctrl-1" := ctrl_in]> ∅ ∧
   vms (state (svc a1)) = ∅ ∧ events (state (svc a1)) = []) ∧
  (let '(w, _, a1) := serve register_request test_env app_ctrl in
   sent_status w = 409%Z ∧
   rsp_body w = json_line (enc_errorResponse
     (mkErrorResponse "already_exists" "controller already exists: ctrl-1" "controller" "ctrl-1")) ∧
   svc a1 = svc app_ctrl).
Proof.
  assert (is_register register_request ∧ no_key register_request) as [Hr Hk] by (split; [split|]; reflexivity).
  assert (enc_Controller ctrl_in = Some ctrl_json) as Hj by reflexivity.
  assert (body_is ctrl_json register_request) as Hb by apply body_json_request.
  split.
  - exact (http_register ctrl_in ctrl_json register_request test_env app0 Hr Hk valid_ctrl_in Hj Hb).
  - exact (http_register ctrl_in ctrl_json register_request test_env app_ctrl Hr Hk valid_ctrl_in Hj Hb).
Defined.

(** C29: Heartbeats over HTTP: of a known controller one is answered 200, replaces its status and
    capacity by those of the body, stamps the clock's reading after the request's start and keeps its identifier,
    its labels and everything else; of an unknown controller it is answered 404; a body
    that does not decode is answered 400, and in both cases nothing changes. *)
Theorem http_heartbeat {Q} id r e (a : App MemState.Store Q) :
  is_heartbeat id r → id ≠ "" →
  let '(w, _, a1) := serve r e a in
  match json_Decode dec_Heartbeat (rq_Body r) zero_Heartbeat, controllers (state (svc a)) !! id with
  | None, _ => sent_status w = 400%Z ∧ svc a1 = svc a
  | Some _, None => sent_status w = 404%Z ∧ svc a1 = svc a
  | Some hb, Some c =>
      sent_status w = 200%Z ∧
      svc a1 =
        mkService
          (mkStore (vms (state (svc a)))
             (<[id := mkController (ctl_ID c) (hb_Status hb) (ctl_Labels c) (hb_Capacity hb)
                        (in_UTC (now_of (env_tick e)))]>
                (controllers (state (svc a))))
             (events (state (svc a))))
          (queue (svc a))
  end.
Proof.
  intros Hr Hid. destruct (json_Decode dec_Heartbeat (rq_Body r) zero_Heartbeat) as [hb|] eqn:Hb.
  - pose proof (serve_heartbeat id hb r e a Hr Hid Hb) as Hs. destruct (serve r e a) as [[w e1] a1].
    destruct (controllers (state (svc a)) !! id) as [c|]; destruct Hs as [-> ->].
    + by rewrite single_obj, answer_json.
    + unfold answer_response, error_answer. cbn [fst snd]. by rewrite respond_fresh.
  - pose proof (serve_bad_heartbeat id r e a Hr Hid Hb) as Hs. destruct (serve r e a) as [[w e1] a1].
    by destruct Hs as [-> ->].
Qed.

Lemma http_heartbeat_witness :
  let r := plain_request "POST" "/v1/controllers/ctrl-1/heartbeat" "{'status':'draining'}" in
  let '(w, _, a1) := serve r test_env app_ctrl in
  sent_status w = 200%Z ∧
  svc a1 =
    mkService
      (mkStore ∅
         (<["ctrl-1" := mkController "ctrl-1" "draining" (Some {[ "zone" := "a" ]}) zero_CapacityInfo
                          (in_UTC 1001000%Z)]>
            (controllers (state (svc app_ctrl)))) [])
      MemQueue.New.
Proof.
  exact (http_heartbeat "ctrl-1" (plain_request "POST" "/v1/controllers/ctrl-1/heartbeat" "{'status':'draining'}")
           test_env app_ctrl (conj eq_refl eq_refl) ltac:(discriminate)).
Defined.

(** ** Listings *)

(** C30: Listings over HTTP: [GET /v1/events] answers 400 when its "since" is not an RFC 3339 time
    and otherwise 200 with the JSON array of the first events of the log, in order, that
    match its query, at most the clamped limit; [GET /v1/controllers] answers 200 with that
    many of the controllers of the requested status, in some order; neither changes the store. *)
Theorem http_listings {S Q} `{StateStoreSpec S} r e (a : App S Q) :
  let '(w, _, a1) := serve r e a in
  let v := view (state (svc a)) in
  (is_list_events r →
     view (state (svc a1)) = v ∧
     match events_filter r with
     | None => sent_status w = 400%Z
     | Some f => w = answer_response (json_answer 200 (enc_list enc_Event (built_slice
         (limit_take (clampLimit (ef_Limit f)) (filterb (event_matches f) (sv_events v))))))
     end) ∧
  (is_list_controllers r →
     view (state (svc a1)) = v ∧
     ∃ l, l ≡ₚ (map_to_list (sv_controllers v)).*2 ∧
       let f := mkControllerFilter (Values_Get (URL_Query r) "status") (queryInt r "limit") in
       w = answer_response (json_answer 200 (enc_list enc_Controller (built_slice
         (limit_take (clampLimit (cf_Limit f)) (filterb (controller_matches f) l)))))).
Proof.
  destruct (serve r e a) as [[w e1] a1] eqn:Hserve. cbv zeta. split; intros Hr.
  - pose proof (route_list_events r (env_tick e) a Hr) as He. rewrite exchange_listEvents in He.
    change (events_filter (rq_with_values r ∅)) with (events_filter r) in He.
    destruct (events_filter r) as [f|].
    + pose proof (serve_call _ _ _ _ _ He) as Hs.
      destruct (Service.ListEvents f (env_tick e) (svc a)) as [[res e2] s2] eqn:Hl.
      apply on_state_inv in Hl as (st & Hl & ->). apply ListEvents_law in Hl as (_ & Hv & ->).
      destruct Hs as (l & Hs). rewrite Hserve in Hs. by injection Hs as -> _ ->.
    + apply serve_const in He. rewrite Hserve in He. by destruct He as [-> ->].
  - pose proof (route_list_controllers r (env_tick e) a Hr) as He. rewrite exchange_listControllers in He.
    pose proof (serve_call _ _ _ _ _ He) as Hs.
    destruct (Service.ListControllers _ (env_tick e) (svc a)) as [[res e2] s2] eqn:Hl.
    apply on_state_inv in Hl as (st & Hl & ->). apply ListControllers_law in Hl as (_ & Hv & l & Hp & ->).
    destruct Hs as (lg & Hs). rewrite Hserve in Hs. injection Hs as -> _ ->. split; [done|].
    by exists l.
Qed.
