(* ===== verification/Server.v ===== *)
(** * The program: cmd/flames-api

    The server [main] starts, on the in-memory providers.  Every request is at
    most one call on the service and every call on the service is a run of
    calls on the store, so what the layers below guarantee for every sequence
    of their calls holds for every sequence of requests. *)

From S2P Require Import Prelude GoLib Model ProviderErr Runtime State StateTheory Queue Blob Sha256.
From S2P Require Import MemState MemQueue Service ServiceTheory.
From S2P Require Import Json Codec Rfc3339 Http HttpApi HttpApiTheory IdempotencyTheory HttpApiProps.

Local Open Scope string_scope.

(** The wiring of [main]: [memstate.New()], [memqueue.New()], [api.New(ss, wq)]
    and [httpapi.NewHandler(svc)]. *)
Definition main_handler : App MemState.Store MemQueue.Queue :=
  let ss := MemState.New in
  let wq := MemQueue.New in
  let svc := Service.New ss wq in
  NewHandler svc.

(** ** The service on the store *)

Section Service.
Context {S Q : Type} `{StateStoreSpec S}.
Implicit Types sv : Service S Q.

(** Some calls on the store, made one after the other. *)
Definition store_calls (e : Env) (st : S) (e' : Env) (st' : S) : Prop :=
  ∃ cs rs, run_calls cs e st = (rs, e', st').

Lemma store_calls_one c e st r e' st' : call c e st = (r, e', st') → store_calls e st e' st'.
Proof.
  intros Hc. exists [c], [r]. unfold run_calls. rewrite run_all_cons, Hc. done.
Qed.

Lemma store_calls_cons c e st r e1 st1 e' st' :
  call c e st = (r, e1, st1) → store_calls e1 st1 e' st' → store_calls e st e' st'.
Proof.
  intros Hc (cs & rs & Hrun). exists (c :: cs), (r :: rs). unfold run_calls in *.
  by rewrite run_all_cons, Hc, Hrun.
Qed.

Lemma then_log_store {A} c (f : Res A → Reply) (m : M S (Res A)) vmID ty e sv r e' sv' :
  (∀ e st, call c e st = fmapM f m e st) →
  then_log m vmID ty e sv = (r, e', sv') →
  store_calls e (state sv) e' (state sv') ∧ queue sv' = queue sv.
Proof.
  intros Hm. unfold then_log. munfold. destruct (on_state m e sv) as [[x e1] sv1] eqn:E1.
  apply on_state_inv in E1 as (st1 & E1 & ->).
  assert (call c e (state sv) = (f x, e1, st1)) as Hc by (rewrite Hm; unfold fmapM; munfold; by rewrite E1).
  destruct x as [x|err]; [|intros [= <- <- <-]; split; [by eapply store_calls_one|done]].
  munfold. destruct (on_state _ e1 _) as [[y e2] sv2] eqn:E2. intros [= <- <- <-].
  apply on_state_inv in E2 as (st2 & E2 & ->). cbn [state queue] in *. split; [|done].
  eapply store_calls_cons; [exact Hc|].
  apply (store_calls_one (CAppendEvent (lifecycle_event (vmID x) ty)) e1 st1 (RUnit y)).
  cbn [call]. unfold fmapM. munfold. by rewrite E2.
Qed.

Lemma on_state_store {A} c (f : Res A → Reply) (m : M S (Res A)) e sv r e' sv' :
  (∀ e st, call c e st = fmapM f m e st) →
  on_state m e sv = (r, e', sv') →
  store_calls e (state sv) e' (state sv') ∧ queue sv' = queue sv.
Proof.
  intros Hm E. apply on_state_inv in E as (st1 & E & ->). split; [|done].
  eapply (store_calls_one c _ _ (f r)). rewrite Hm. unfold fmapM. munfold. by rewrite E.
Qed.

(** A call on the service is a run of calls on the store; the queue is never touched. *)
Lemma svc_call_store c e sv r e' sv' :
  svc_call c e sv = (r, e', sv') →
  store_calls e (state sv) e' (state sv') ∧ queue sv' = queue sv.
Proof.
  intros Hc. destruct c; cbn [svc_call] in Hc; apply fmapM_inv in Hc as (x & Hc & _).
  - rewrite CreateVM_then_log in Hc. by eapply (then_log_store (CCreateVM spec)).
  - by eapply (on_state_store (CGetVM vmID)).
  - rewrite StopVM_then_log in Hc. by eapply (then_log_store (CUpdateVMDesiredState vmID DesiredStopped)).
  - rewrite DeleteVM_then_log in Hc. by eapply (then_log_store (CUpdateVMDesiredState vmID DesiredDeleted)).
  - by eapply (on_state_store (CRegisterController c)).
  - by eapply (on_state_store (CUpdateControllerHeartbeat controllerID hb)).
  - by eapply (on_state_store (CListControllers (cf_with_Limit f (clampLimit (cf_Limit f))))).
  - by eapply (on_state_store (CListEvents (ef_with_Limit f (clampLimit (ef_Limit f))))).
Qed.

Lemma run_calls_env_le cs e (st : S) rs e' st' : run_calls cs e st = (rs, e', st') → env_le e e'.
Proof.
  intros Hrun. refine (run_all_ind call (λ e1 _, env_le e e1) cs _ e st rs e' st' _ Hrun); [|done].
  intros c e1 s r e2 s2 _ Hle Hc. etrans; [exact Hle|]. by eapply call_env_le.
Qed.

Lemma svc_call_env_le c e sv r e' sv' : svc_call c e sv = (r, e', sv') → env_le e e'.
Proof. intros Hc. apply svc_call_store in Hc as [(cs & rs & Hrun) _]. by eapply run_calls_env_le. Qed.
End Service.

(** ** The server on the service *)

Section Server.
Context {S Q : Type} `{StateStoreSpec S}.
Implicit Types (a : App S Q) (sv : Service S Q).

(** At most one call on the service, between two instants. *)
Definition at_most_one_call (e : Env) sv (e' : Env) sv' : Prop :=
  env_le e e' ∧
  (sv' = sv ∨
   ∃ c e1 reply e2, env_le e e1 ∧ svc_call c e1 sv = (reply, e2, sv') ∧ env_le e2 e').

Lemma no_call e sv e' : env_le e e' → at_most_one_call e sv e' sv.
Proof. split; [done|by left]. Qed.

Lemma at_most_one_call_later e e1 sv e2 sv' e' :
  env_le e e1 → at_most_one_call e1 sv e2 sv' → env_le e2 e' → at_most_one_call e sv e' sv'.
Proof.
  intros He [Hle Hc] He'. split; [by etrans; [|etrans]|].
  destruct Hc as [->|(c & e3 & reply & e4 & H3 & Hc & H4)]; [by left|]. right.
  exists c, e3, reply, e4. split; [by etrans|]. split; [done|by etrans].
Qed.

Definition delegates (h : Handler (App S Q)) : Prop := ∀ r e a,
  let '(_, e', a') := exchange h r e a in at_most_one_call e (svc a) e' (svc a').

Lemma delegates_call {A} c (f : Res A → SvcReply) m ok e a :
  (∀ e sv, svc_call c e sv = fmapM f m e sv) →
  let '(_, e', a') := call_exchange m ok e a in at_most_one_call e (svc a) e' (svc a').
Proof.
  intros Hm. unfold call_exchange. destruct (m e (svc a)) as [[res e1] s1] eqn:E. cbn [svc].
  assert (svc_call c e (svc a) = (f res, e1, s1)) as Hc by (rewrite Hm; unfold fmapM; munfold; by rewrite E).
  pose proof (svc_call_env_le _ _ _ _ _ _ Hc). split; [done|]. right.
  exists c, e, (f res), e1. split; [reflexivity|]. split; [done|reflexivity].
Qed.

(** A handler that decodes the body and calls the service, or refuses it. *)
Lemma delegates_createVM : delegates createVM.
Proof.
  intros r e a. rewrite exchange_createVM.
  destruct (json_Decode dec_VMSpec (rq_Body r) zero_VMSpec) as [spec|]; [|by apply no_call].
  by eapply (delegates_call (SCreateVM spec)).
Qed.
Lemma delegates_registerController : delegates registerController.
Proof.
  intros r e a. rewrite exchange_registerController.
  destruct (json_Decode dec_Controller (rq_Body r) zero_Controller) as [c|]; [|by apply no_call].
  by eapply (delegates_call (SRegisterController c)).
Qed.
Lemma delegates_heartbeat : delegates heartbeat.
Proof.
  intros r e a. rewrite exchange_heartbeat.
  destruct (json_Decode dec_Heartbeat (rq_Body r) zero_Heartbeat) as [hb|]; [|by apply no_call].
  by eapply (delegates_call (SHeartbeat (PathValue r "controller_id") hb)).
Qed.
Lemma delegates_getVM : delegates getVM.
Proof. intros r e a. rewrite exchange_getVM. by eapply (delegates_call (SGetVM (PathValue r "vm_id"))). Qed.
Lemma delegates_stopVM : delegates stopVM.
Proof. intros r e a. rewrite exchange_stopVM. by eapply (delegates_call (SStopVM (PathValue r "vm_id"))). Qed.
Lemma delegates_deleteVM : delegates deleteVM.
Proof. intros r e a. rewrite exchange_deleteVM. by eapply (delegates_call (SDeleteVM (PathValue r "vm_id"))). Qed.
Lemma delegates_listControllers : delegates listControllers.
Proof. intros r e a. rewrite exchange_listControllers. by eapply (delegates_call (SListControllers _)). Qed.
Lemma delegates_listEvents : delegates listEvents.
Proof.
  intros r e a. rewrite exchange_listEvents. destruct (events_filter r) as [f|]; [|by apply no_call].
  by eapply (delegates_call (SListEvents f)).
Qed.
Lemma delegates_healthz : delegates healthz.
Proof. intros r e a. rewrite exchange_healthz. by apply no_call. Qed.

Lemma delegates_wrap next : answers next → delegates next → delegates (wrap next).
Proof.
  intros Hn Hd r e a. destruct (String.eqb_spec (Header_Get r "Idempotency-Key") "") as [Hk|Hk].
  { rewrite exchange_no_key by done. apply Hd. }
  destruct (rd_err (rq_Body r)) as [err|] eqn:Herr.
  { rewrite (exchange_unreadable next r e a err) by done. by apply no_call. }
  rewrite wrap_keyed by done. set (r' := rq_with_Body r _).
  destruct (idem a !! Header_Get r "Idempotency-Key") as [en|].
  - destruct (entry_live (now_of e) en); [apply no_call; auto with flames|].
    pose proof (Hd r' (env_tick e) (with_idem (delete (Header_Get r "Idempotency-Key") (idem a)) a)) as Hc.
    destruct (exchange next r' _ _) as [[w e2] a2].
    eapply at_most_one_call_later; [|exact Hc|]; auto with flames.
  - pose proof (Hd r' e a) as Hc. destruct (exchange next r' e a) as [[w e2] a2].
    eapply at_most_one_call_later; [|exact Hc|]; auto with flames.
Qed.

Lemma mux_find_delegates (m : ServeMux (App S Q)) meth path h values :
  Forall (λ ph, delegates ph.2) m → mux_find m meth path = Some (h, values) → delegates h.
Proof.
  induction 1 as [|[pat h0] m Hh _ IH]; [done|]. cbn [mux_find].
  destruct (if method_matches _ _ then _ else _) as [v|]; [|exact IH].
  intros [= <- _]. exact Hh.
Qed.

Lemma delegates_mux : delegates (mux_ServeHTTP mux).
Proof.
  assert (Forall (λ ph, delegates ph.2) (mux (S:=S) (Q:=Q))) as Hm.
  { unfold mux. repeat apply Forall_cons_2; try apply Forall_nil_2; cbn [snd];
      auto using delegates_wrap, delegates_createVM, delegates_getVM, delegates_stopVM, delegates_deleteVM,
        delegates_registerController, delegates_heartbeat, delegates_listControllers, delegates_listEvents,
        delegates_healthz, answers_createVM, answers_stopVM, answers_deleteVM, answers_registerController. }
  intros r e a. destruct (mux_find (mux (S:=S) (Q:=Q)) (rq_Method r) (path_segments (rq_path r))) as [[h values]|] eqn:E.
  - rewrite (exchange_route _ _ _ _ _ E). apply (mux_find_delegates _ _ _ _ _ Hm E).
  - unfold exchange, mux_ServeHTTP. rewrite E. destruct (allowed_methods _ _); by apply no_call.
Qed.

Lemma serve_delegates r e a w e' a' :
  serve r e a = (w, e', a') → at_most_one_call e (svc a) e' (svc a').
Proof.
  rewrite serve_run. pose proof (delegates_mux r (env_tick e) a) as Hc.
  destruct (exchange (mux_ServeHTTP mux) r (env_tick e) a) as [[w1 e1] a1]. intros [= _ <- <-].
  eapply at_most_one_call_later; [|exact Hc|]; auto with flames.
Qed.

(** What every call on the service keeps, and the passing of time keeps, every
    run of the server keeps. *)
Lemma run_server_ind (P : Env → Service S Q → Prop) rs e a ws e' a' :
  (∀ c e s r e' s', P e s → svc_call c e s = (r, e', s') → P e' s') →
  (∀ e e' s, env_le e e' → P e s → P e' s) →
  P e (svc a) → run_server rs e a = (ws, e', a') → P e' (svc a').
Proof.
  intros Hcall Htime Ha Hrun.
  refine (run_all_ind serve (λ e a, P e (svc a)) rs _ e a ws e' a' Ha Hrun).
  intros r e1 a1 w e2 a2 _ HP Hs.
  apply serve_delegates in Hs as [Hle [->|(c & e3 & reply & e4 & H3 & Hc & H4)]]; eauto.
Qed.
End Server.

(** C14: The server refines the service: whatever the request (method, path, query, headers and
    body) and whatever the idempotency entries, serving it changes the state behind the
    transport by at most one call of one service method, made while the request is served;
    and a call on the service is a run of calls on the store that leaves the queue alone. *)
Theorem serve_refines_service {S Q} `{StateStoreSpec S} r e (a : App S Q) w e' a' :
  serve r e a = (w, e', a') →
  svc a' = svc a ∨
  ∃ c e1 reply e2,
    env_le e e1 ∧ svc_call c e1 (svc a) = (reply, e2, svc a') ∧ env_le e2 e' ∧
    (∃ cs rs, run_calls cs e1 (state (svc a)) = (rs, e2, state (svc a'))) ∧
    queue (svc a') = queue (svc a).
Proof.
  intros Hs. apply serve_delegates in Hs as [_ [Hs|(c & e1 & reply & e2 & H1 & Hc & H2)]]; [by left|].
  right. exists c, e1, reply, e2. do 3 (split; [done|]). by apply svc_call_store in Hc.
Qed.

Lemma serve_refines_service_witness :
  let o := serve retry_request test_env main_handler in
  svc (state_after o) = svc main_handler ∨
  ∃ c e1 reply e2,
    env_le test_env e1 ∧ svc_call c e1 (svc main_handler) = (reply, e2, svc (state_after o)) ∧
    env_le e2 (env_after o) ∧
    (∃ cs rs, run_calls cs e1 (state (svc main_handler)) = (rs, e2, state (svc (state_after o)))) ∧
    queue (svc (state_after o)) = queue (svc main_handler).
Proof. exact (serve_refines_service retry_request test_env main_handler _ _ _ (outcome_eta _)). Defined.

Lemma run_server_log {S Q} `{StateStore S} rs : ∀ e (a : App S Q) ws e' a',
  run_server rs e a = (ws, e', a') →
  ∃ lines, log a' = (log a ++ lines)%list ∧
    (λ l, (ll_method l, ll_path l)) <$> lines = (λ r, (rq_Method r, url_path r)) <$> rs ∧
    ll_status <$> lines = sent_status <$> ws.
Proof.
  induction rs as [|r rs IH]; intros e a ws e' a' Hrun.
  - unfold run_server in Hrun. apply run_all_nil_inv in Hrun as (-> & -> & ->). exists []. by rewrite app_nil_r.
  - unfold run_server in Hrun. apply run_all_cons_inv in Hrun as (w & ws0 & e1 & a1 & Hs & Hrun & ->).
    destruct (IH _ _ _ _ _ Hrun) as (lines & Hlog & Hl & Hst). rewrite serve_run in Hs.
    destruct (exchange _ r (env_tick e) a) as [[w1 e2] a2] eqn:He. simplify_eq. cbn [log] in Hlog.
    eexists (_ :: lines). rewrite Hlog, <- app_assoc. split; [reflexivity|].
    cbn [fmap list_fmap ll_method ll_path ll_status]. by rewrite Hl, Hst.
Qed.

(** C1: The program keeps its invariants under any load: from the state [main] starts with, after
    any sequence of requests, well-formed or not, on any clock that does not run backwards, the
    store is well formed (every record under its own identifier, no VM updated before it was
    created or in the future, every event identified and dated), the event log replays to the
    desired state of every VM, nothing was enqueued, and the request log has exactly one line
    per request, in order, with the method, the path and the status that was sent. *)
Theorem main_invariant rs e ws e' a' :
  clock_ok e → run_server rs e main_handler = (ws, e', a') →
  view_ok (now_of e') (store_view (state (svc a'))) ∧
  (∀ id, vm_DesiredState <$> vms (state (svc a')) !! id = ServiceTheory.replay id (events (state (svc a')))) ∧
  queue (svc a') = MemQueue.New ∧
  (λ l, (ll_method l, ll_path l)) <$> log a' = (λ r, (rq_Method r, url_path r)) <$> rs ∧
  ll_status <$> log a' = sent_status <$> ws.
Proof.
  intros Hok Hrun. destruct (run_server_log _ _ _ _ _ _ Hrun) as (lines & Hlog & Hl & Hst).
  cbn in Hlog. subst lines.
  enough (view_ok (now_of e') (view (state (svc a'))) ∧ audited (view (state (svc a'))) ∧
          queue (svc a') = MemQueue.New) as (Hv & Hau & Hq) by by split_and!.
  set (P e (s : Service MemState.Store MemQueue.Queue) := clock_ok e ∧
    view_ok (now_of e) (view (state s)) ∧ audited (view (state s)) ∧ queue s = MemQueue.New).
  refine (proj2 (run_server_ind P rs e main_handler ws e' a' _ _ _ Hrun)); subst P; cbv beta.
  - intros c e1 s r e2 s2 (H1 & Hv & Hau & Hq) Hc.
    pose proof (svc_call_audited _ _ _ _ _ _ Hc Hau).
    apply svc_call_store in Hc as [(cs & rs' & Hr) Hq']. 
    pose proof (run_calls_env_le _ _ _ _ _ _ Hr). split; [by eapply clock_ok_le|].
    split; [by eapply run_view_ok|]. split; [done|by rewrite Hq'].
  - intros e1 e2 s Hle (H1 & Hv & Hrest). split; [by eapply clock_ok_le|]. split; [by eapply view_ok_le|done].
  - split; [done|]. split; [|by split].
    split; [apply map_Forall_empty|apply map_Forall_empty|constructor].
Qed.

(** A creation under a key, its retry, a stop of the VM, a wrong method and an unknown path. *)
Definition busy_requests : list Request :=
  let plain m p := mkRequest m p "" ∅ (test_body "{}") ∅ in
  [retry_request; retry_request; plain "POST" ("/v1/vms/" +:+ test_id 0 +:+ "/stop");
   plain "PUT" "/v1/vms"; plain "GET" "/nope"].

Lemma main_invariant_witness :
  let o := run_server busy_requests test_env main_handler in
  let a' := state_after o in
  (view_ok (now_of (env_after o)) (store_view (state (svc a'))) ∧
   (∀ id, vm_DesiredState <$> vms (state (svc a')) !! id = ServiceTheory.replay id (events (state (svc a')))) ∧
   queue (svc a') = MemQueue.New ∧
   (λ l, (ll_method l, ll_path l)) <$> log a' = (λ r, (rq_Method r, url_path r)) <$> busy_requests ∧
   ll_status <$> log a' = sent_status <$> result o) ∧
  ll_status <$> log a' = [202; 202; 202; 405; 404]%Z.
Proof.
  split; [|vm_compute; reflexivity].
  exact (main_invariant busy_requests test_env _ _ _ test_env_clock_ok (outcome_eta _)).
Defined.
