(* ===== verification/HttpConc.v ===== *)
(** * The server under concurrency

    net/http serves every connection in a goroutine of its own.  Here requests
    run in the steps that other requests can come between: a reading of the
    clock, a critical section of the idempotency entries, one call on the
    store, the appending of the request line; a schedule gives their order. *)

From S2P Require Import Prelude GoLib Model ProviderErr Runtime State StateTheory Queue Blob Sha256.
From S2P Require Import MemState MemQueue Service ServiceTheory ServiceConc.
From S2P Require Import Json Codec Rfc3339 Http HttpApi HttpApiTheory IdempotencyTheory HttpApiProps.
From S2P Require Import Rfc3339Theory ServiceTimes JsonTheory JsonStrings JsonRoundTrip CodecTheory HttpJson HttpPlan Server.

Local Open Scope string_scope.

(** ** Connections *)

(** Where a request is; [rec] is the key and the hash under which its response
    is to be recorded. *)
Inductive Stage :=
  | Accepted
  | Lookup (key : string) (hash : bytes) (p : Plan)
  | Found (key : string) (hash : bytes) (p : Plan) (en : idempotencyEntry)
  | Outdated (key : string) (hash : bytes) (p : Plan)
  | Running (rec : option (string * bytes)) (c : SvcCall) (t : Thread) (k : SvcReply → Answer)
  | ToStore (key : string) (hash : bytes) (w : Response)
  | Responded (w : Response)
  | Timed (w : Response) (line : LogLine)
  | Logged (w : Response).

(** A request, the instant it began, the call it has made, and its stage. *)
Record Conn := mkConn {
  cn_request : Request;
  cn_start : Time;
  cn_call : option (SvcCall * Thread);
  cn_stage : Stage;
}.

Definition at_stage (st : Stage) (cn : Conn) : Conn :=
  mkConn (cn_request cn) (cn_start cn) (cn_call cn) st.

(** The handler has answered. *)
Definition answered (rec : option (string * bytes)) (an : Answer) : Stage :=
  match rec with
  | Some (key, hash) => ToStore key hash (answer_response an)
  | None => Responded (answer_response an)
  end.

Definition begin (rec : option (string * bytes)) (p : Plan) : Stage :=
  match p with
  | AnswerNow an => answered rec an
  | CallThen c k => Running rec c (TCall c) k
  end.

Definition dispatched (d : Dispatch) : Stage :=
  match d with
  | DAnswer an => Responded (answer_response an)
  | DPlan p => begin None p
  | DKeyed key hash p => Lookup key hash p
  end.

Definition log_line (cn : Conn) (w : Response) (now : Time) : LogLine :=
  mkLogLine (rq_Method (cn_request cn)) (url_path (cn_request cn)) (sent_status w)
    (Z.quot (time_Sub now (cn_start cn)) 1000).

Section Steps.
Context {S Q : Type} `{StateStore S}.
Abbreviation App := (App S Q).

Definition log_Printf (l : LogLine) : M App () := modify (λ a, mkApp (svc a) (idem a) (log a ++ [l])%list).

Definition conn_step (cn : Conn) : M App Conn :=
  match cn_stage cn with
  | Accepted =>
      start <- time_Now ;;
      ret (mkConn (cn_request cn) start None (dispatched (dispatch (cn_request cn))))
  | Lookup key hash p =>
      entry <- on_idem (idem_lookup key) ;;
      ret (at_stage match entry with
                    | Some en => Found key hash p en
                    | None => begin (Some (key, hash)) p
                    end cn)
  | Found key hash p en =>
      now <- time_Now ;;
      ret (at_stage (if entry_live now en
                     then Responded (if bool_decide (ie_requestHash en = hash)
                                     then replayed en else conflict_response)
                     else Outdated key hash p) cn)
  | Outdated key hash p =>
      on_idem (idem_delete key) ;;;
      ret (at_stage (begin (Some (key, hash)) p) cn)
  | Running rec c t k =>
      t' <- on_svc (on_state (thread_step t)) ;;
      ret (mkConn (cn_request cn) (cn_start cn) (Some (c, t'))
             match t' with
             | TDone rep => answered rec (k rep)
             | _ => Running rec c t' k
             end)
  | ToStore key hash w =>
      now <- time_Now ;;
      on_idem (idem_store key (entry_of hash w now)) ;;;
      ret (at_stage (Responded w) cn)
  | Responded w =>
      now <- time_Now ;;
      ret (at_stage (Timed w (log_line cn w now)) cn)
  | Timed w line =>
      log_Printf line ;;;
      ret (at_stage (Logged w) cn)
  | Logged w => ret cn
  end.

(** The schedule names the connection that makes the next step. *)
Definition conns_step (cs : list Conn) (i : nat) : M App (list Conn) :=
  match cs !! i with
  | Some cn => fmapM (λ cn', <[i := cn']> cs) (conn_step cn)
  | None => ret cs
  end.

Fixpoint run_conns (sched : list nat) (cs : list Conn) : M App (list Conn) :=
  match sched with
  | [] => ret cs
  | i :: sched => cs' <- conns_step cs i ;; run_conns sched cs'
  end.

Definition accept (r : Request) : Conn := mkConn r 0%Z None Accepted.
End Steps.

(** ** Alone, a connection is served as by [serve] *)

Section Alone.
Context {S Q : Type} `{StateStore S}.
Implicit Types (a : App S Q) (cn : Conn) (e : Env).

Fixpoint iterate (n : nat) (cn : Conn) : M (App S Q) Conn :=
  match n with
  | O => ret cn
  | Datatypes.S n => cn' <- conn_step cn ;; iterate n cn'
  end.

(** In at most [k] steps. *)
Definition reaches (k : nat) cn e a (o : Conn * Env * App S Q) : Prop :=
  ∃ n, (n ≤ k)%nat ∧ iterate n cn e a = o.

Lemma iterate_add n m cn e a :
  iterate (n + m) cn e a = let '(cn', e', a') := iterate n cn e a in iterate m cn' e' a'.
Proof.
  revert cn e a. induction n as [|n IH]; intros cn e a; [done|]. cbn [Nat.add iterate]. munfold.
  destruct (conn_step cn e a) as [[cn1 e1] a1]. apply IH.
Qed.

Lemma reaches_refl k cn e a : reaches k cn e a (cn, e, a).
Proof. exists 0. split; [lia|done]. Qed.

Lemma reaches_trans k1 k2 cn e a cn1 e1 a1 o :
  reaches k1 cn e a (cn1, e1, a1) → reaches k2 cn1 e1 a1 o → reaches (k1 + k2) cn e a o.
Proof.
  intros (n & Hn & H1) (m & Hm & H2). exists (n + m). split; [lia|]. by rewrite iterate_add, H1.
Qed.

Lemma reaches_step k cn e a cn1 e1 a1 o :
  conn_step cn e a = (cn1, e1, a1) → reaches k cn1 e1 a1 o → reaches (Datatypes.S k) cn e a o.
Proof.
  intros Hs (n & Hn & Ho). exists (Datatypes.S n). split; [lia|]. cbn [iterate]. munfold. by rewrite Hs.
Qed.

(** The stage after a response was made. *)
Definition finished (rec : option (string * bytes)) (w : Response) : Stage :=
  match rec with Some (key, hash) => ToStore key hash w | None => Responded w end.

(** Carrying out a plan: two steps at most, with the effect of [run_plan]. *)
Lemma begin_runs rec p r st e a call :
  let '(w, e1, a1) := run_plan p e a in
  ∃ call', reaches 2 (mkConn r st call (begin rec p)) e a (mkConn r st call' (finished rec w), e1, a1).
Proof.
  destruct p as [an|c k]; cbn [run_plan begin].
  { munfold. exists call. destruct rec as [[key hash]|]; apply reaches_refl. }
  pose proof (thread_alone c e (svc a)) as Hal. unfold fmapM, on_svc. munfold.
  destruct (thread_step (TCall c) e (state (svc a))) as [[t1 e1] s1] eqn:H1.
  destruct (thread_step t1 e1 s1) as [[t2 e2] s2] eqn:H2. destruct Hal as (rep & -> & ->).
  destruct a as [[s q] i l]. cbn [svc idem log state queue] in *.
  assert (∀ t e0 s0 t' e0' s0' call0, thread_step t e0 s0 = (t', e0', s0') →
    conn_step (mkConn r st call0 (Running rec c t k)) e0 (mkApp (mkService s0 q) i l) =
    (mkConn r st (Some (c, t')) match t' with TDone rep => answered rec (k rep) | _ => Running rec c t' k end,
     e0', mkApp (mkService s0' q) i l)) as Hstep.
  { intros t e0 s0 t' e0' s0' call0 Ht. unfold conn_step, on_svc, on_state. cbn [cn_stage]. munfold.
    cbn [svc state queue idem log]. by rewrite Ht. }
  assert (∀ rep, answered rec (k rep) = finished rec (answer_response (k rep))) as Hans
    by (by destruct rec as [[]|]).
  destruct t1 as [c'|ev reply|rep'].
  - exists (Some (c, TDone rep)). eapply reaches_step; [by apply Hstep|]. cbn iota.
    eapply reaches_step; [by apply Hstep|]. cbn iota. rewrite Hans. apply reaches_refl.
  - exists (Some (c, TDone rep)). eapply reaches_step; [by apply Hstep|]. cbn iota.
    eapply reaches_step; [by apply Hstep|]. cbn iota. rewrite Hans. apply reaches_refl.
  - cbn [thread_step] in H2. injection H2 as -> <- <-. exists (Some (c, TDone rep)).
    eapply reaches_step; [by apply Hstep|]. cbn iota. rewrite Hans. apply reaches_refl.
Qed.

(** Recording a response and answering. *)
Lemma finish_runs key hash w r st call e a :
  reaches 1 (mkConn r st call (ToStore key hash w)) e a
    (mkConn r st call (Responded w), env_tick e,
     with_idem (<[key := entry_of hash w (now_of e)]> (idem a)) a).
Proof. eapply reaches_step; [reflexivity|]. apply reaches_refl. Qed.

(** A keyed plan: the plan, and its response recorded. *)
Lemma keyed_runs key hash p r st call e a :
  let '(w, e1, a1) := run_plan p e a in
  ∃ call', reaches 3 (mkConn r st call (begin (Some (key, hash)) p)) e a
    (mkConn r st call' (Responded w), env_tick e1,
     with_idem (<[key := entry_of hash w (now_of e1)]> (idem a1)) a1).
Proof.
  pose proof (begin_runs (Some (key, hash)) p r st e a call) as Hb.
  destruct (run_plan p e a) as [[w e1] a1]. destruct Hb as (call' & Hb). exists call'.
  apply (reaches_trans 2 1 _ _ _ _ _ _ _ Hb). apply finish_runs.
Qed.

Lemma dispatch_runs d r st e a :
  let '(w, e1, a1) := run_dispatch d e a in
  ∃ call', reaches 6 (mkConn r st None (dispatched d)) e a (mkConn r st call' (Responded w), e1, a1).
Proof.
  destruct d as [an|p|key hash p]; cbn [run_dispatch dispatched].
  - exists None. apply reaches_refl.
  - pose proof (begin_runs None p r st e a None) as Hb. destruct (run_plan p e a) as [[w e1] a1].
    destruct Hb as (call' & n & Hn & Hb). exists call', n. split; [lia|exact Hb].
  - assert (∀ e0 (s : Service S Q) i l, conn_step (mkConn r st None (Lookup key hash p)) e0 (mkApp s i l) =
      (mkConn r st None match i !! key with
                        | Some en => Found key hash p en
                        | None => begin (Some (key, hash)) p
                        end, e0, mkApp s i l)) as Hlook by done.
    destruct a as [s i l]. cbn [idem]. destruct (i !! key) as [en|] eqn:Hen.
    2: { pose proof (keyed_runs key hash p r st None e (mkApp s i l)) as Hk.
         destruct (run_plan p e _) as [[w e1] a1]. destruct Hk as (call' & n & Hn & Hk).
         exists call'. apply (reaches_step 5 _ _ _ _ _ _ _ (Hlook e s i l)). rewrite Hen.
         exists n. split; [lia|exact Hk]. }
    destruct (entry_live (now_of e) en) eqn:Hlive.
    { exists None. apply (reaches_step 5 _ _ _ _ _ _ _ (Hlook e s i l)). rewrite Hen.
      eapply reaches_step; [reflexivity|]. rewrite Hlive. apply reaches_refl. }
    pose proof (keyed_runs key hash p r st None (env_tick e) (mkApp s (delete key i) l)) as Hk.
    unfold with_idem at 1. cbn [svc idem log].
    destruct (run_plan p (env_tick e) _) as [[w e1] a1]. destruct Hk as (call' & Hk). exists call'.
    apply (reaches_step 5 _ _ _ _ _ _ _ (Hlook e s i l)). rewrite Hen.
    eapply reaches_step; [reflexivity|]. rewrite Hlive. cbn iota.
    eapply reaches_step; [reflexivity|]. exact Hk.
Qed.

(** Nine steps of one connection are one request of [serve]. *)
Lemma conn_alone r e a :
  let '(w, e', a') := serve r e a in
  ∃ start call, reaches 9 (accept r) e a (mkConn r start call (Logged w), e', a').
Proof.
  rewrite serve_exchange, exchange_dispatch by apply mux_answers.
  pose proof (dispatch_runs (dispatch r) r (now_of e) (env_tick e) a) as Hd.
  destruct (run_dispatch (dispatch r) (env_tick e) a) as [[w e1] a1]. destruct Hd as (call & Hd).
  exists (now_of e), call. eapply reaches_step; [reflexivity|].
  apply (reaches_trans 6 2 _ _ _ _ _ _ _ Hd). do 2 (eapply reaches_step; [reflexivity|]). apply reaches_refl.
Qed.
End Alone.

(** ** What every schedule keeps *)

(** [X] is whether values that do not marshal have to be reckoned with. *)
Section Keeps.
Variable X : Prop.

(** A stage holds only what the transport may still send. *)
Definition stage_typed (st : Stage) : Prop :=
  match st with
  | Accepted => True
  | Lookup _ _ p | Outdated _ _ p => plan_json X p
  | Found _ _ p en => plan_json X p ∧ entry_ok X EmptyString en
  | Running _ _ t k =>
      (X ∨ thread_in_years t) ∧ ∀ rep, X ∨ reply_in_years rep → typed_response X (answer_response (k rep))
  | ToStore _ _ w => typed_response X w
  | Responded w | Timed w _ | Logged w => typed_response X w ∨ text_response w
  end.

(** The call a connection is making and no other, and the line it is to log. *)
Definition call_ok (cn : Conn) : Prop :=
  match cn_stage cn with
  | Accepted | Lookup _ _ _ | Found _ _ _ _ | Outdated _ _ _ => cn_call cn = None
  | Running _ c t _ => thread_ok c t ∧ (cn_call cn = None ∧ t = TCall c ∨ cn_call cn = Some (c, t) ∧ appended (c, t) = None)
  | Timed w line => ll_method line = rq_Method (cn_request cn) ∧ ll_path line = url_path (cn_request cn) ∧
      ll_status line = sent_status w
  | _ => True
  end.

Record conn_ok (cn : Conn) : Prop := {
  co_request : X ∨ request_in_years (cn_request cn);
  co_typed : stage_typed (cn_stage cn);
  co_call : call_ok cn;
}.

(** The event of a finished mutation, and the line of a finished request. *)
Definition conn_event (cn : Conn) : option (string * string) := cn_call cn ≫= appended.
Definition line_key (l : LogLine) : string * string * Z := (ll_method l, ll_path l, ll_status l).
Definition conn_line (cn : Conn) : option (string * string * Z) :=
  match cn_stage cn with
  | Logged w => Some (rq_Method (cn_request cn), url_path (cn_request cn), sent_status w)
  | _ => None
  end.

Lemma answered_typed rec an : typed_response X (answer_response an) → stage_typed (answered rec an).
Proof. destruct rec as [[key hash]|]; cbn; auto. Qed.

Lemma begin_typed rec p : plan_json X p → stage_typed (begin rec p).
Proof. destruct p; [apply answered_typed|done]. Qed.

Lemma begin_call rec p r st : call_ok (mkConn r st None (begin rec p)).
Proof. destruct p as [an|c k]; [by destruct rec as [[]|]|]. split; [done|by left]. Qed.

Lemma begin_line rec p r st call : conn_line (mkConn r st call (begin rec p)) = None.
Proof. destruct p as [an|c k]; [by destruct rec as [[]|]|done]. Qed.

Lemma dispatched_ok d r st :
  X ∨ request_in_years r → dispatch_typed X d → conn_ok (mkConn r st None (dispatched d)).
Proof.
  intros Hr. destruct d as [an|p|key hash p]; intros Hd; [by split| |by split].
  split; [done|by apply begin_typed|apply begin_call].
Qed.

Lemma dispatched_line d r st call : conn_line (mkConn r st call (dispatched d)) = None.
Proof. destruct d as [an|p|key hash p]; [done|apply begin_line|done]. Qed.

Lemma answered_line rec an r st call : conn_line (mkConn r st call (answered rec an)) = None.
Proof. by destruct rec as [[]|]. Qed.

(** What a step does outside its connection. *)
Section Laws.
Context {S Q : Type} `{StateStoreSpec S}.
Implicit Types (a : App S Q) (cn : Conn) (e : Env).

(** At most one call on the store. *)
Definition store_moves e (s : S) e' (s' : S) : Prop :=
  (s' = s ∧ env_le e e') ∨ ∃ c r, call c e s = (r, e', s').

(** The log of events and the request log grow by what the step finishes. *)
Definition logs_grow cn a cn' a' : Prop :=
  (∃ new, sv_events (view (state (svc a'))) = (sv_events (view (state (svc a))) ++ new)%list ∧
     option_to_list (conn_event cn') = (option_to_list (conn_event cn) ++ (event_key <$> new))%list) ∧
  (∃ lines, log a' = (log a ++ lines)%list ∧
     option_to_list (conn_line cn') = (option_to_list (conn_line cn) ++ (line_key <$> lines))%list).

Record step_keeps cn e a cn' e' a' : Prop := {
  sk_conn : conn_ok cn';
  sk_entries : entries_ok X (idem a');
  sk_times : times_ok X e' (state (svc a'));
  sk_request : cn_request cn' = cn_request cn;
  sk_queue : queue (svc a') = queue (svc a);
  sk_store : store_moves e (state (svc a)) e' (state (svc a'));
  sk_logs : logs_grow cn a cn' a';
}.

Lemma store_moves_refl e (s : S) : store_moves e s e s.
Proof. by left. Qed.
Lemma store_moves_tick e (s : S) : store_moves e s (env_tick e) s.
Proof. left. split; [done|auto with flames]. Qed.

Lemma logs_grow_quiet cn a cn' a' :
  svc a' = svc a → log a' = log a → cn_call cn' = cn_call cn → conn_line cn' = conn_line cn → logs_grow cn a cn' a'.
Proof.
  intros Hs Hl Hc Hn. split; exists [].
  - rewrite Hs, !app_nil_r. unfold conn_event. by rewrite Hc.
  - by rewrite Hl, Hn, !app_nil_r.
Qed.
Lemma times_ok_tick e (s : S) : times_ok X e s → times_ok X (env_tick e) s.
Proof. apply times_ok_le. auto with flames. Qed.

Hint Resolve store_moves_refl store_moves_tick times_ok_tick : core.

(** A step of the running plan is a step of its thread. *)
Lemma running_keeps rec c t k r st call e a t' e' s' :
  let cn := mkConn r st call (Running rec c t k) in
  conn_ok cn → entries_ok X (idem a) → times_ok X e (state (svc a)) →
  thread_step t e (state (svc a)) = (t', e', s') →
  step_keeps cn e a
    (mkConn r st (Some (c, t')) match t' with TDone rep => answered rec (k rep) | _ => Running rec c t' k end)
    e' (mkApp (mkService s' (queue (svc a))) (idem a) (log a)).
Proof.
  intros cn [Hr [Hty Hk] [Hok Hcall]] Hi Ht Hs. cbn [cn_request cn_stage cn_call] in *.
  destruct (thread_step_events _ _ _ _ _ _ _ Hok Hs) as (Hok' & new & Hlog & Happ).
  assert (conn_event cn = appended (c, t)) as Hev
    by (by destruct Hcall as [[Hc ->]|[Hc _]]; unfold conn_event; rewrite Hc).
  assert ((X ∨ thread_in_years t') ∧ times_ok X e' s') as [Hty' Ht'].
  { pose proof (thread_step_env_le _ _ _ _ _ _ Hs) as Hle.
    destruct Ht as [|[He Hv]]; [by split; left|]. destruct Hty as [|Hty]; [by split; left|].
    destruct (thread_step_in_years _ _ _ _ _ _ He Hv Hty Hs). split; right; [done|].
    split; [by eapply clock_in_years_le|done]. }
  split; [|done..| |].
  - split; [done| |destruct t' as [| |rep]; [split; [done|by right]..|by destruct rec as [[]|]]].
    destruct t' as [| |rep]; [by split..|]. by apply answered_typed, Hk.
  - apply thread_step_call in Hs as [(reply & -> & _ & -> & ->)|(c' & r' & Hc & _)]; [by left|right; eauto].
  - split; [exists new; split; [done|]; by rewrite Hev|]. exists []. rewrite !app_nil_r.
    split; [done|]. destruct t' as [| |rep]; [done..|]. by rewrite answered_line.
Qed.

Lemma conn_step_keeps cn e a cn' e' a' :
  conn_ok cn → entries_ok X (idem a) → times_ok X e (state (svc a)) →
  conn_step cn e a = (cn', e', a') → step_keeps cn e a cn' e' a'.
Proof.
  intros Hcn Hi Ht Hs.
  destruct cn as [r st call [|key hash p|key hash p en|key hash p|rec c t k|key hash w|w|w line|w]];
    unfold conn_step in Hs; cbn [cn_stage cn_request cn_start cn_call] in Hs.
  - munfold_in Hs. injection Hs as <- <- <-. destruct Hcn as [Hr _ Hc]. cbn in Hr, Hc. subst call.
    split; auto; [by apply dispatched_ok, dispatch_json|]. apply logs_grow_quiet; [done..|]. apply dispatched_line.
  - unfold on_idem, idem_lookup in Hs. munfold_in Hs. injection Hs as <- <- <-. destruct Hcn as [Hr Hp Hc].
    cbn in Hc. subst call. destruct a as [s i l]. cbn [svc idem log] in *.
    split; auto; [|apply logs_grow_quiet; [done..|]]; destruct (i !! key) as [en|] eqn:Hen; try done.
    + split; [done|split; [exact Hp|exact (Hi _ _ Hen)]|done].
    + split; [done|by apply begin_typed|apply begin_call].
    + apply begin_line.
  - munfold_in Hs. injection Hs as <- <- <-. destruct Hcn as [Hr [Hp Hen] Hc]. cbn in Hc. subst call.
    split; auto; [|apply logs_grow_quiet; [done..|]]; destruct (entry_live _ _); try done.
    split; [done|left|done]. case_bool_decide; [by apply replayed_json|apply conflict_json].
  - unfold on_idem, idem_delete in Hs. munfold_in Hs. injection Hs as <- <- <-. destruct Hcn as [Hr Hp Hc].
    cbn in Hc. subst call. split; auto; [|by apply map_Forall_delete|apply logs_grow_quiet; [done..|]].
    + split; [done|by apply begin_typed|apply begin_call].
    + apply begin_line.
  - unfold on_svc, on_state in Hs. munfold_in Hs.
    destruct (thread_step t e (state (svc a))) as [[t' e1] s1] eqn:Hth. injection Hs as <- <- <-.
    by apply running_keeps.
  - unfold on_idem, idem_store in Hs. munfold_in Hs. injection Hs as <- <- <-. destruct Hcn as [Hr Hw _].
    split; auto; [by split; [|left|]|by apply map_Forall_insert_2; [apply entry_of_ok|]|by apply logs_grow_quiet].
  - munfold_in Hs. injection Hs as <- <- <-. destruct Hcn as [Hr Hw _].
    split; auto; [by split|by apply logs_grow_quiet].
  - unfold log_Printf in Hs. munfold_in Hs. injection Hs as <- <- <-. destruct Hcn as [Hr Hw (Hm & Hp & Hc)].
    split; auto; [by split|]. split; [by exists []; rewrite !app_nil_r|].
    exists [line]. split; [done|]. cbn in *. unfold line_key. by rewrite Hm, Hp, Hc.
  - munfold_in Hs. injection Hs as <- <- <-. split; auto. by apply logs_grow_quiet.
Qed.

(** ** Every schedule *)

(** What holds of the connections and the server at every moment. *)
Record server_inv (rs : list Request) (a0 : App S Q) (cs : list Conn) e a : Prop := {
  si_conns : Forall conn_ok cs;
  si_requests : cn_request <$> cs = rs;
  si_entries : entries_ok X (idem a);
  si_times : times_ok X e (state (svc a));
  si_queue : queue (svc a) = queue (svc a0);
  si_store : clock_ok e ∧ view_ok (now_of e) (view (state (svc a)));
  si_events : ∃ new, sv_events (view (state (svc a))) = (sv_events (view (state (svc a0))) ++ new)%list ∧
    (event_key <$> new) ≡ₚ omap conn_event cs;
  si_lines : ∃ lines, log a = (log a0 ++ lines)%list ∧ (line_key <$> lines) ≡ₚ omap conn_line cs;
}.

Lemma store_moves_ok e (s : S) e' s' :
  store_moves e s e' s' → clock_ok e ∧ view_ok (now_of e) (view s) →
  clock_ok e' ∧ view_ok (now_of e') (view s').
Proof.
  intros [[-> Hle]|(c & r & Hc)] [Hok Hv].
  - split; [by eapply clock_ok_le|by eapply view_ok_le].
  - split; [eapply clock_ok_le; [by eapply call_env_le|done]|by eapply call_view_ok].
Qed.

Lemma conns_step_inv rs a0 cs i e a cs' e' a' :
  conns_step cs i e a = (cs', e', a') → server_inv rs a0 cs e a → server_inv rs a0 cs' e' a'.
Proof.
  unfold conns_step. intros Hs Hinv. destruct (cs !! i) as [cn|] eqn:Hcn; [|by injection Hs as <- <- <-].
  apply fmapM_inv in Hs as (cn' & Hs & ->).
  destruct Hinv as [Hcs Hrs Hen Ht Hq Hst (new & Hlog & Hkeys) (lines & Hl & Hlk)].
  pose proof (Forall_lookup_1 _ _ _ _ Hcs Hcn) as Hok.
  destruct (conn_step_keeps _ _ _ _ _ _ Hok Hen Ht Hs)
    as [Hok' Hen' Ht' Hrq Hq' Hst' [(new' & Hlog' & Hk') (lines' & Hl' & Hlk')]].
  split; [by apply Forall_insert| |done|done|by rewrite Hq'|by eapply store_moves_ok|..].
  - rewrite list_fmap_insert, Hrq, Hrs. apply list_insert_id. by rewrite <- Hrs, list_lookup_fmap, Hcn.
  - exists (new ++ new')%list. split; [by rewrite Hlog', Hlog, app_assoc|].
    rewrite fmap_app, Hkeys. symmetry. by apply (omap_insert_perm _ _ _ cn).
  - exists (lines ++ lines')%list. split; [by rewrite Hl', Hl, app_assoc|].
    rewrite fmap_app, Hlk. symmetry. by apply (omap_insert_perm _ _ _ cn).
Qed.

Lemma run_conns_inv rs a0 sched : ∀ cs e a cs' e' a',
  run_conns sched cs e a = (cs', e', a') → server_inv rs a0 cs e a → server_inv rs a0 cs' e' a'.
Proof.
  induction sched as [|i sched IH]; intros cs e a cs' e' a' Hrun Hinv; cbn [run_conns] in Hrun; munfold_in Hrun.
  - by injection Hrun as <- <- <-.
  - destruct (conns_step cs i e a) as [[cs1 e1] a1] eqn:Hs. eapply IH; [exact Hrun|]. by eapply conns_step_inv.
Qed.

Lemma accepted_inv rs e a :
  Forall (λ r, X ∨ request_in_years r) rs → entries_ok X (idem a) → times_ok X e (state (svc a)) →
  clock_ok e → view_ok (now_of e) (view (state (svc a))) → server_inv rs a (accept <$> rs) e a.
Proof.
  intros Hrs Hen Ht Hok Hv. split; try done.
  - apply Forall_fmap. eapply Forall_impl; [exact Hrs|]. intros r Hr. by split.
  - rewrite <- list_fmap_compose. apply list_fmap_id.
  - exists []. rewrite app_nil_r, omap_nothing; [done|]. by apply Forall_fmap, Forall_true.
  - exists []. rewrite app_nil_r, omap_nothing; [done|]. by apply Forall_fmap, Forall_true.
Qed.
End Laws.

(** From the state [main] starts with. *)
Lemma main_conns_inv rs sched e cs e' a' :
  X ∨ clock_in_years e → Forall (λ r, X ∨ request_in_years r) rs → clock_ok e →
  run_conns sched (accept <$> rs) e main_handler = (cs, e', a') → server_inv rs main_handler cs e' a'.
Proof.
  intros He Hrs Hok Hrun. apply (run_conns_inv rs main_handler sched _ _ _ _ _ _ Hrun).
  apply accepted_inv; [done|apply map_Forall_empty| |done|].
  - destruct He as [|He]; [by left|right; split; [done|]].
    split; [apply map_Forall_empty|apply map_Forall_empty|constructor].
  - split; [apply map_Forall_empty|apply map_Forall_empty|constructor].
Qed.

(** Every response that was sent. *)
Definition sent_typed (cn : Conn) : Prop :=
  match cn_stage cn with Logged w => typed_response X w ∨ text_response w | _ => True end.

Lemma server_inv_sent {S Q} `{StateStoreSpec S} rs (a0 : App S Q) cs e a :
  server_inv rs a0 cs e a → Forall sent_typed cs.
Proof.
  intros [Hcs _ _ _ _ _ _]. eapply Forall_impl; [exact Hcs|]. intros cn [_ Hty _].
  unfold sent_typed. by destruct (cn_stage cn).
Qed.
End Keeps.

(** ** Every connection is answered *)

(** How many steps a connection still has at most. *)
Definition steps_left (st : Stage) : nat :=
  match st with
  | Accepted => 9
  | Lookup _ _ _ => 8
  | Found _ _ _ _ => 7
  | Outdated _ _ _ => 6
  | Running _ _ (TCall _) _ => 5
  | Running _ _ _ _ => 4
  | ToStore _ _ _ => 3
  | Responded _ => 2
  | Timed _ _ => 1
  | Logged _ => 0
  end.

Lemma answered_left rec an : (steps_left (answered rec an) ≤ 3)%nat.
Proof. destruct rec as [[key hash]|]; cbn; lia. Qed.
Lemma begin_left rec p : (steps_left (begin rec p) ≤ 5)%nat.
Proof. destruct p as [an|c k]; [|done]. cbn [begin]. pose proof (answered_left rec an). lia. Qed.
Lemma dispatched_left d : (steps_left (dispatched d) ≤ 8)%nat.
Proof.
  destruct d as [an|p|key hash p]; cbn [dispatched]; [cbn; lia| |done]. pose proof (begin_left None p). lia.
Qed.

Section Finish.
Context {S Q : Type} `{StateStore S}.
Implicit Types (a : App S Q) (cn : Conn) (e : Env).

(** A call is made once. *)
Lemma thread_step_called t e (s : S) t' e' s' c : thread_step t e s = (t', e', s') → t' ≠ TCall c.
Proof.
  intros Hs ->. destruct t as [[] | |]; cbn [thread_step] in Hs; try (apply fmapM_inv in Hs as (x & _ & Hx));
    try discriminate; by destruct x.
Qed.

Lemma conn_step_request cn e a cn' e' a' : conn_step cn e a = (cn', e', a') → cn_request cn' = cn_request cn.
Proof.
  intros Hs. unfold conn_step, on_idem, on_svc, on_state, log_Printf, idem_lookup, idem_delete, idem_store in Hs.
  destruct (cn_stage cn); munfold_in Hs; try destruct (thread_step _ _ _) as [[t' e1] s1];
    by injection Hs as <- <- <-.
Qed.

Lemma conn_step_left cn e a cn' e' a' :
  conn_step cn e a = (cn', e', a') → (steps_left (cn_stage cn') ≤ steps_left (cn_stage cn) - 1)%nat.
Proof.
  intros Hs. destruct cn as [r st call [|key hash p|key hash p en|key hash p|rec c t k|key hash w|w|w line|w]];
    unfold conn_step in Hs; cbn [cn_stage cn_request cn_start cn_call] in Hs |- *.
  - munfold_in Hs. injection Hs as <- <- <-. cbn [cn_stage steps_left]. pose proof (dispatched_left (dispatch r)). lia.
  - unfold on_idem, idem_lookup in Hs. munfold_in Hs. injection Hs as <- <- <-. cbn [cn_stage at_stage].
    destruct (idem a !! key) as [en|]; [done|]. cbn [steps_left]. pose proof (begin_left (Some (key, hash)) p). lia.
  - munfold_in Hs. injection Hs as <- <- <-. cbn [cn_stage at_stage]. destruct (entry_live _ _); cbn; lia.
  - unfold on_idem, idem_delete in Hs. munfold_in Hs. injection Hs as <- <- <-. cbn [cn_stage at_stage steps_left].
    pose proof (begin_left (Some (key, hash)) p). lia.
  - unfold on_svc, on_state in Hs. munfold_in Hs.
    destruct (thread_step t e (state (svc a))) as [[t' e1] s1] eqn:Ht. injection Hs as <- <- <-. cbn [cn_stage].
    destruct t as [c0|ev0 rep0|rep0].
    + pose proof (λ c1, thread_step_called _ _ _ _ _ _ c1 Ht) as Hne. cbn [steps_left].
      destruct t' as [c1|ev1 rep1|rep1]; [by destruct (Hne c1)|cbn; lia|]. pose proof (answered_left rec (k rep1)). lia.
    + cbn [thread_step] in Ht. apply fmapM_inv in Ht as (x & _ & ->). cbn [steps_left].
      pose proof (answered_left rec (k rep0)). lia.
    + cbn [thread_step] in Ht. munfold_in Ht. injection Ht as <- <- <-. cbn [steps_left].
      pose proof (answered_left rec (k rep0)). lia.
  - unfold on_idem, idem_store in Hs. munfold_in Hs. injection Hs as <- <- <-. cbn; lia.
  - munfold_in Hs. injection Hs as <- <- <-. cbn; lia.
  - unfold log_Printf in Hs. munfold_in Hs. injection Hs as <- <- <-. cbn; lia.
  - munfold_in Hs. injection Hs as <- <- <-. cbn; lia.
Qed.

(** The turns of a connection in a schedule. *)
Definition turns (i : nat) (sched : list nat) : nat := length (filter (i =.) sched).

Lemma conns_step_left cs i j e a cs' e' a' cn :
  conns_step cs j e a = (cs', e', a') → cs !! i = Some cn →
  ∃ cn', cs' !! i = Some cn' ∧ cn_request cn' = cn_request cn ∧
    (steps_left (cn_stage cn') ≤ steps_left (cn_stage cn) - if decide (i = j) then 1 else 0)%nat.
Proof.
  unfold conns_step. intros Hs Hcn. destruct (decide (i = j)) as [<-|Hne].
  - rewrite Hcn in Hs. apply fmapM_inv in Hs as (cn' & Hs & ->). exists cn'.
    split; [by rewrite list_lookup_insert_eq by (by eapply lookup_lt_Some)|].
    split; [by eapply conn_step_request|by eapply conn_step_left].
  - exists cn. split; [|split; [done|lia]]. destruct (cs !! j) as [cn0|]; [|by injection Hs as <- <- <-].
    apply fmapM_inv in Hs as (cn' & _ & ->). by rewrite list_lookup_insert_ne.
Qed.

Lemma run_conns_left i sched : ∀ cs e a cs' e' a' cn,
  run_conns sched cs e a = (cs', e', a') → cs !! i = Some cn →
  ∃ cn', cs' !! i = Some cn' ∧ cn_request cn' = cn_request cn ∧
    (steps_left (cn_stage cn') ≤ steps_left (cn_stage cn) - turns i sched)%nat.
Proof.
  induction sched as [|j sched IH]; intros cs e a cs' e' a' cn Hrun Hcn; cbn [run_conns] in Hrun; munfold_in Hrun.
  - injection Hrun as <- <- <-. exists cn. split; [done|]. split; [done|]. cbn. lia.
  - destruct (conns_step cs j e a) as [[cs1 e1] a1] eqn:Hs.
    destruct (conns_step_left _ i _ _ _ _ _ _ _ Hs Hcn) as (cn1 & Hcn1 & Hr1 & Hl1).
    destruct (IH _ _ _ _ _ _ _ Hrun Hcn1) as (cn' & Hcn' & Hr' & Hl'). exists cn'.
    split; [done|]. split; [congruence|]. unfold turns in *. rewrite filter_cons.
    destruct (decide (i = j)); cbn [length]; lia.
Qed.
End Finish.

(** C2: The whole server under any interleaving: from the state [main] starts with, whatever
    requests are being served and however their steps interleave (clock readings, the critical
    sections of the idempotency entries, single calls on the store, log lines), at every moment
    the store is well formed, nothing was enqueued, the event log has exactly one event per
    mutation that has returned successfully and the request log exactly one line per request
    answered, with its method, path and status, and every response sent is JSON the parser reads
    back (or, for a 200 or 201 whose value does not marshal, nothing) or the plain text of a
    refusal; it is JSON in any case while the clock is between the years 0 and 9999 and no
    request registers a controller whose time does not marshal. *)
Theorem concurrent_server rs sched e cs e' a' :
  clock_ok e → run_conns sched (accept <$> rs) e main_handler = (cs, e', a') →
  cn_request <$> cs = rs ∧
  view_ok (now_of e') (store_view (state (svc a'))) ∧ queue (svc a') = MemQueue.New ∧
  ((λ ev, (ev_VMID ev, ev_Type ev)) <$> events (state (svc a'))) ≡ₚ
    omap (λ cn, match cn_call cn with
                | Some (SCreateVM _, TDone (SRString (Ok id))) => Some (id, "vm.created")
                | Some (SStopVM id, TDone (SRUnit (Ok _))) => Some (id, "vm.stop_requested")
                | Some (SDeleteVM id, TDone (SRUnit (Ok _))) => Some (id, "vm.delete_requested")
                | _ => None
                end) cs ∧
  ((λ l, (ll_method l, ll_path l, ll_status l)) <$> log a') ≡ₚ
    omap (λ cn, match cn_stage cn with
                | Logged w => Some (rq_Method (cn_request cn), url_path (cn_request cn), sent_status w)
                | _ => None
                end) cs ∧
  Forall (λ cn, match cn_stage cn with
                | Logged w => json_response w ∨ text_response w
                | _ => True
                end) cs ∧
  (clock_in_years e → Forall request_in_years rs →
   Forall (λ cn, match cn_stage cn with
                 | Logged w => json_document w ∨ text_response w
                 | _ => True
                 end) cs).
Proof.
  intros Hok Hrun.
  assert (server_inv True rs main_handler cs e' a') as Hinv
    by (apply (main_conns_inv True rs sched e); [by left|by apply Forall_true; left|done..]).
  pose proof (server_inv_sent _ _ _ _ _ _ Hinv) as Hsent.
  destruct Hinv as [Hcs Hrs _ _ Hq [_ Hv] (new & Hnew & Hkeys) (lines & Hlines & Hlk)].
  cbn [log main_handler app] in Hlines. cbn in Hnew. split_and!; [done..| | |exact Hsent|].
  - rewrite Hnew. etrans; [exact Hkeys|]. apply reflexive_eq, list_omap_ext, Forall_Forall2_diag, Forall_true.
    intros cn. unfold conn_event. destruct (cn_call cn) as [[[] [|?|[]]]|]; done.
  - rewrite Hlines. exact Hlk.
  - intros He Hry. apply (server_inv_sent False rs main_handler cs e' a').
    apply (main_conns_inv False rs sched e); [by right|eapply Forall_impl; eauto|done..].
Qed.

(** Two clients that create under one key at once, and one that lists the events. *)
Definition clients : list Request :=
  [retry_request; retry_request; test_request "GET" "/v1/events" "" ""].
Definition interleaving : list nat := concat (replicate 9 [0; 1; 2]).

Lemma concurrent_server_witness :
  let o := run_conns interleaving (accept <$> clients) test_env main_handler in
  let a' := state_after o in
  (view_ok (now_of (env_after o)) (store_view (state (svc a'))) ∧ queue (svc a') = MemQueue.New) ∧
  (λ l, ll_status l) <$> log a' = [200; 202; 202]%Z ∧
  ((λ ev, (ev_VMID ev, ev_Type ev)) <$> events (state (svc a'))) ≡ₚ
    [(test_id 0, "vm.created"); (test_id 1, "vm.created")].
Proof.
  destruct (concurrent_server clients interleaving test_env _ _ _ test_env_clock_ok
              (outcome_eta (run_conns interleaving (accept <$> clients) test_env main_handler)))
    as (_ & Hv & Hq & Hev & _).
  split; [exact (conj Hv Hq)|]. split; [vm_compute; reflexivity|].
  etrans; [exact Hev|]. apply reflexive_eq. vm_compute. reflexivity.
Defined.

(** C16: Every request is answered, whatever the others do: a connection that gets nine turns in a
    schedule, at any moments and with any steps of the other connections between them, has its
    response sent and logged; nothing but a critical section is ever waited for. *)
Theorem connections_finish {S Q} `{StateStore S} rs sched i r e (a : App S Q) :
  rs !! i = Some r → (9 ≤ length (filter (i =.) sched))%nat →
  ∃ cn w, result (run_conns sched (accept <$> rs) e a) !! i = Some cn ∧
    cn_request cn = r ∧ cn_stage cn = Logged w.
Proof.
  intros Hr Hn. unfold result. destruct (run_conns sched (accept <$> rs) e a) as [[cs e'] a'] eqn:Hrun.
  destruct (run_conns_left i sched _ _ _ _ _ _ (accept r) Hrun) as (cn & Hcn & Hrq & Hleft).
  { by rewrite list_lookup_fmap, Hr. }
  exists cn. cbn [accept cn_stage steps_left] in Hleft. unfold turns in Hleft.
  destruct (cn_stage cn) as [| | | |rec c t k| | | |w] eqn:Hst; cbn [steps_left] in Hleft;
    try (exfalso; destruct t; lia); try (exfalso; lia). by exists w.
Qed.

Lemma connections_finish_witness :
  ∃ cn w, result (run_conns interleaving (accept <$> clients) test_env main_handler) !! 1 = Some cn ∧
    cn_request cn = retry_request ∧ cn_stage cn = Logged w.
Proof.
  pose proof (connections_finish clients interleaving 1 retry_request test_env main_handler) as H.
  apply H; clear H; [reflexivity|vm_compute; lia].
Defined.

(** ** Two requests with one key *)

(** Two identical creations with one key, the second arriving before the first
    has stored its response: both run, two VMs are created, and the two
    clients get different identifiers.  One after the other, the second gets
    the first one's response and there is one VM. *)
Lemma concurrent_key_runs_twice :
  let run sched := run_conns sched (accept <$> [retry_request; retry_request]) test_env main_handler in
  let racing := run (concat (replicate 9 [0; 1])) in
  let serial := run (replicate 9 0 ++ replicate 9 1)%list in
  let bodies (o : list Conn * Env * App MemState.Store MemQueue.Queue) :=
    (λ cn, match cn_stage cn with Logged w => rsp_body w | _ => EmptyString end) <$> result o in
  let n_vms (o : list Conn * Env * App MemState.Store MemQueue.Queue) := size (vms (state (svc (state_after o)))) in
  let id_body n := json_line (enc_map (Some {[ "id" := test_id n ]})) in
  n_vms racing = 2 ∧ bodies racing = [id_body 0; id_body 1] ∧
  n_vms serial = 1 ∧ bodies serial = [id_body 0; id_body 0].
Proof. split_and!; vm_compute; reflexivity. Qed.
