(* ===== verification/Process.v ===== *)
(** * The process: cmd/flames-api/main.go

    [main] and the goroutine that waits for a signal, with the connections the
    server has accepted, as a step relation whose steps are the points where
    the goroutines can be interleaved.  A connection is one of [HttpConc]: its
    handler runs in its own steps, between those of the others.  Of net/http it
    has what [ListenAndServe], [Serve] and [Shutdown] do: [ListenAndServe]
    gives [ErrServerClosed] when the server is shutting down before it listens,
    before it registers its listener, or when accepting fails; [Shutdown] marks
    the server, closes the listeners, and waits for [Serve] to return and for
    the connections or its context.  When [main] returns the process ends with
    whatever the other goroutines were doing. *)

From stdpp Require Import relations.
From S2P Require Import Prelude GoLib Model ProviderErr Runtime State StateTheory Queue Blob Sha256.
From S2P Require Import MemState MemQueue Service ServiceTheory ServiceConc.
From S2P Require Import Json Codec Rfc3339 Http HttpApi HttpApiTheory IdempotencyTheory HttpApiProps.
From S2P Require Import HttpJson HttpPlan Server HttpConc.

Local Open Scope string_scope.

(** ** The state *)

(** What [ListenAndServe] returns. *)
Inductive ServeError := ErrServerClosed | ServeFailed (msg : string).

Inductive ExitStatus := ExitCode (n : Z) | KilledBySignal.

(** Where [main] is. *)
Inductive MainPC :=
  | MainStarting                  (** before the line "listening on" *)
  | MainCalling                   (** at [srv.ListenAndServe()] *)
  | MainListening                 (** in it, at [net.Listen] *)
  | MainRegistering               (** in [srv.Serve], with a listener that is not registered yet *)
  | MainServing                   (** accepting *)
  | MainReturned (err : ServeError)
  | MainFatal                     (** in [log.Fatal], at [os.Exit(1)] *)
  | MainExited (st : ExitStatus).

(** Where the goroutine is. *)
Inductive SignalPC :=
  | SigStarting                   (** before [signal.Notify] *)
  | SigWaiting                    (** at [<-sigCh] *)
  | SigTaken                      (** before the line "shutting down..." *)
  | SigCalling                    (** at [srv.Shutdown(ctx)] *)
  | SigClosing                    (** the server is marked, its listeners are not closed *)
  | SigShutdown                   (** waiting for the connections *)
  | SigReturned.

Record Process := mkProcess {
  pr_addr : string;                                  (** the flag [-addr] *)
  pr_main : MainPC;
  pr_signal : SignalPC;
  pr_sigCh : bool;                                   (** the channel of capacity 1 is full *)
  pr_inShutdown : bool;                              (** [srv.inShutdown] *)
  pr_closed : bool;                                  (** the listeners have been closed *)
  pr_conns : list (Conn * bool);                     (** in the order of acceptance; is the response sent? *)
  pr_env : Env;
  pr_app : App MemState.Store MemQueue.Queue;        (** what [srv.Handler] serves from *)
  pr_stderr : list string;                           (** what [main] and the goroutine log, without the time *)
}.

Definition with_main (m : MainPC) (p : Process) : Process :=
  mkProcess (pr_addr p) m (pr_signal p) (pr_sigCh p) (pr_inShutdown p) (pr_closed p) (pr_conns p)
    (pr_env p) (pr_app p) (pr_stderr p).
Definition with_signal (g : SignalPC) (p : Process) : Process :=
  mkProcess (pr_addr p) (pr_main p) g (pr_sigCh p) (pr_inShutdown p) (pr_closed p) (pr_conns p)
    (pr_env p) (pr_app p) (pr_stderr p).
Definition with_sigCh (b : bool) (p : Process) : Process :=
  mkProcess (pr_addr p) (pr_main p) (pr_signal p) b (pr_inShutdown p) (pr_closed p) (pr_conns p)
    (pr_env p) (pr_app p) (pr_stderr p).
Definition with_inShutdown (p : Process) : Process :=
  mkProcess (pr_addr p) (pr_main p) (pr_signal p) (pr_sigCh p) true (pr_closed p) (pr_conns p)
    (pr_env p) (pr_app p) (pr_stderr p).
Definition with_closed (p : Process) : Process :=
  mkProcess (pr_addr p) (pr_main p) (pr_signal p) (pr_sigCh p) (pr_inShutdown p) true (pr_conns p)
    (pr_env p) (pr_app p) (pr_stderr p).
Definition with_conns (cs : list (Conn * bool)) (p : Process) : Process :=
  mkProcess (pr_addr p) (pr_main p) (pr_signal p) (pr_sigCh p) (pr_inShutdown p) (pr_closed p) cs
    (pr_env p) (pr_app p) (pr_stderr p).
Definition with_server (e : Env) (a : App MemState.Store MemQueue.Queue) (p : Process) : Process :=
  mkProcess (pr_addr p) (pr_main p) (pr_signal p) (pr_sigCh p) (pr_inShutdown p) (pr_closed p) (pr_conns p)
    e a (pr_stderr p).
Definition log_Print (line : string) (p : Process) : Process :=
  mkProcess (pr_addr p) (pr_main p) (pr_signal p) (pr_sigCh p) (pr_inShutdown p) (pr_closed p) (pr_conns p)
    (pr_env p) (pr_app p) (pr_stderr p ++ [line]).

(** [main] up to [go func()]: the flag, the wiring, the goroutine started. *)
Definition start (addr : string) (e : Env) : Process :=
  mkProcess addr MainStarting SigStarting false false false [] e main_handler [].

(** ** The steps *)

Inductive Action :=
  | AMain                          (** the next step of [main], unless the network has a part in it *)
  | AListen (fault : option string)  (** [net.Listen], and why it fails *)
  | AAccept (r : Request)
  | AAcceptFails (msg : string)
  | AGoroutine                     (** the next step of the goroutine, up to [Shutdown]'s wait *)
  | AShutdownReturns (timeout : bool)
  | ASignal                        (** SIGINT or SIGTERM *)
  | AStep (c : nat)                (** a step of the handler of connection [c] *)
  | ASend (c : nat).               (** its response reaches the client *)

(** The lines 42 to 46: the line, the call, its checks, and what is made of its error. *)
Definition main_step (p : Process) : option Process :=
  match pr_main p with
  | MainStarting => Some (with_main MainCalling (log_Print ("listening on " +:+ pr_addr p) p))
  | MainCalling =>
      Some (with_main (if pr_inShutdown p then MainReturned ErrServerClosed else MainListening) p)
  | MainRegistering =>
      Some (with_main (if pr_inShutdown p then MainReturned ErrServerClosed else MainServing) p)
  | MainReturned ErrServerClosed => Some (with_main (MainExited (ExitCode 0)) p)
  | MainReturned (ServeFailed msg) => Some (with_main MainFatal (log_Print msg p))
  | MainFatal => Some (with_main (MainExited (ExitCode 1)) p)
  | _ => None
  end.

(** The goroutine: [signal.Notify], the receive, the line, and [srv.Shutdown(ctx)] in two steps. *)
Definition goroutine_step (p : Process) : option Process :=
  match pr_signal p with
  | SigStarting => Some (with_signal SigWaiting p)
  | SigWaiting => if pr_sigCh p then Some (with_signal SigTaken (with_sigCh false p)) else None
  | SigTaken => Some (with_signal SigCalling (log_Print "shutting down..." p))
  | SigCalling => Some (with_signal SigClosing (with_inShutdown p))
  | SigClosing => Some (with_signal SigShutdown (with_closed p))
  | _ => None
  end.

(** A signal ends the process before [signal.Notify]; later it fills the channel, if it can. *)
Definition deliver (p : Process) : option Process :=
  match pr_signal p with
  | SigStarting => Some (with_main (MainExited KilledBySignal) p)
  | _ => if pr_sigCh p then None else Some (with_sigCh true p)
  end.

(** The handler of connection [c] makes its next step. *)
Definition handle (c : nat) (p : Process) : option Process :=
  match pr_conns p !! c with
  | Some (cn, false) =>
      match cn_stage cn with
      | Logged _ => None
      | _ =>
          let '(cn', e, a) := conn_step cn (pr_env p) (pr_app p) in
          Some (with_server e a (with_conns (<[c := (cn', false)]> (pr_conns p)) p))
      end
  | _ => None
  end.

Definition send (c : nat) (p : Process) : option Process :=
  match pr_conns p !! c with
  | Some (cn, false) =>
      match cn_stage cn with
      | Logged _ => Some (with_conns (<[c := (cn, true)]> (pr_conns p)) p)
      | _ => None
      end
  | _ => None
  end.

Definition exec (act : Action) (p : Process) : option Process :=
  match pr_main p with
  | MainExited _ => None
  | main =>
      match act, main with
      | AMain, _ => main_step p
      | AListen None, MainListening => Some (with_main MainRegistering p)
      | AListen (Some msg), MainListening => Some (with_main (MainReturned (ServeFailed msg)) p)
      | AAccept r, MainServing =>
          if pr_closed p then None else Some (with_conns (pr_conns p ++ [(accept r, false)]) p)
      | AAcceptFails msg, MainServing =>
          Some (with_main (MainReturned (if pr_inShutdown p then ErrServerClosed else ServeFailed msg)) p)
      | AGoroutine, _ => goroutine_step p
      | AShutdownReturns _, MainServing => None
      | AShutdownReturns timeout, _ =>
          match pr_signal p with
          | SigShutdown =>
              if timeout || forallb snd (pr_conns p) then Some (with_signal SigReturned p) else None
          | _ => None
          end
      | ASignal, _ => deliver p
      | AStep c, _ => handle c p
      | ASend c, _ => send c p
      | _, _ => None
      end
  end.

Definition step (p p' : Process) : Prop := ∃ act, exec act p = Some p'.

Lemma handle_inv c p p' :
  handle c p = Some p' →
  ∃ cn cn' e a, pr_conns p !! c = Some (cn, false) ∧ 0 < steps_left (cn_stage cn) ∧
    conn_step cn (pr_env p) (pr_app p) = (cn', e, a) ∧
    p' = with_server e a (with_conns (<[c := (cn', false)]> (pr_conns p)) p).
Proof.
  unfold handle. destruct (pr_conns p !! c) as [[cn [|]]|]; [done| |done].
  destruct (conn_step cn (pr_env p) (pr_app p)) as [[cn' e] a] eqn:Hs. intros Hp. exists cn, cn', e, a.
  destruct (cn_stage cn) as [| | | |? ? t ?| | | |]; cbn [steps_left]; try destruct t;
    first [discriminate Hp|injection Hp as <-; split_and!; (done || lia)].
Qed.

Lemma send_inv c p p' :
  send c p = Some p' →
  ∃ cn w, pr_conns p !! c = Some (cn, false) ∧ cn_stage cn = Logged w ∧
    p' = with_conns (<[c := (cn, true)]> (pr_conns p)) p.
Proof.
  unfold send. destruct (pr_conns p !! c) as [[cn [|]]|]; [done| |done].
  destruct (cn_stage cn) as [| | | | | | | |w] eqn:Hw; try done. intros [= <-]. by exists cn, w.
Qed.

(** Case analysis on a step: the action, and what it asks of the state. *)
Ltac step_cases H :=
  let act := fresh "act" in
  destruct H as [act H]; unfold exec, main_step, goroutine_step, deliver in H;
  destruct act; destruct (pr_main _) eqn:?; try discriminate H;
  lazymatch type of H with
  | handle _ _ = _ => apply handle_inv in H as (?cn & ?cn' & ?e & ?a & ?Hcn & ?Hrun & ?Hstep & ->)
  | send _ _ = _ => apply send_inv in H as (?cn & ?w & ?Hcn & ?Hw & ->)
  | _ => repeat break_match_in H; try discriminate H; apply (inj Some) in H; subst
  end.

(** What every step keeps, every run keeps. *)
Lemma steps_preserve (P : Process → Prop) p p' :
  (∀ p p', step p p' → P p → P p') → rtc step p p' → P p → P p'.
Proof. intros HP. induction 1; eauto. Qed.

(** ** What the clients get is what the connections of the server compute *)

Definition conns (p : Process) : list Conn := fst <$> pr_conns p.
Definition requests (p : Process) : list Request := cn_request <$> conns p.

(** A response that was sent is one that the handler had finished. *)
Definition sent_ok (cb : Conn * bool) : Prop := cb.2 = true → ∃ w, cn_stage cb.1 = Logged w.

Record serves_from (e : Env) (p : Process) : Prop := {
  sf_run : ∃ sched, Forall (λ i, i < List.length (pr_conns p)) sched ∧
    run_conns sched (accept <$> requests p) e main_handler = (conns p, pr_env p, pr_app p);
  sf_sent : Forall sent_ok (pr_conns p);
}.

Section Schedules.
Context {S Q : Type} `{StateStore S}.
Implicit Types (a : App S Q) (cs : list Conn).

Lemma conns_step_length cs i e a cs' e' a' : conns_step cs i e a = (cs', e', a') → List.length cs' = List.length cs.
Proof.
  unfold conns_step. destruct (cs !! i) as [cn|]; [|by intros [= <- _ _]].
  intros Hs. apply fmapM_inv in Hs as (cn' & _ & ->). apply length_insert.
Qed.

(** A connection that no step names is not touched. *)
Lemma run_conns_more sched x : ∀ cs e a cs' e' a',
  Forall (λ i, i < List.length cs) sched → run_conns sched cs e a = (cs', e', a') →
  run_conns sched (cs ++ [x])%list e a = ((cs' ++ [x])%list, e', a').
Proof.
  induction sched as [|i sched IH]; intros cs e a cs' e' a' Hlt Hrun; cbn [run_conns] in Hrun |- *; munfold_in Hrun.
  { by injection Hrun as <- <- <-. }
  inversion Hlt as [|? ? Hi Hlt']; subst. destruct (conns_step cs i e a) as [[cs1 e1] a1] eqn:Hs.
  assert (conns_step (cs ++ [x])%list i e a = ((cs1 ++ [x])%list, e1, a1)) as Hs'.
  { unfold conns_step in *. rewrite lookup_app_l by done. destruct (cs !! i) as [cn|] eqn:Hcn.
    - unfold fmapM in *. munfold. munfold_in Hs. destruct (conn_step cn e a) as [[cn' e2] a2].
      injection Hs as <- <- <-. by rewrite insert_app_l.
    - apply lookup_ge_None_1 in Hcn. lia. }
  munfold. rewrite Hs'. apply IH; [|done]. by rewrite (conns_step_length _ _ _ _ _ _ _ Hs).
Qed.

Lemma run_conns_snoc sched i : ∀ cs e a,
  run_conns (sched ++ [i])%list cs e a =
  let '(cs1, e1, a1) := run_conns sched cs e a in conns_step cs1 i e1 a1.
Proof.
  induction sched as [|j sched IH]; intros cs e a; cbn [run_conns app]; munfold.
  - by destruct (conns_step cs i e a) as [[cs1 e1] a1].
  - destruct (conns_step cs j e a) as [[cs1 e1] a1]. apply IH.
Qed.
End Schedules.

(** A step that touches neither the connections nor the server leaves all that in place. *)
Lemma serves_from_same e p p' :
  pr_conns p' = pr_conns p → pr_env p' = pr_env p → pr_app p' = pr_app p → serves_from e p → serves_from e p'.
Proof.
  intros Hc He Ha [Hrun Hsent]. split; unfold requests, conns; by rewrite Hc, ?He, ?Ha.
Qed.

Lemma accept_serves e r p :
  serves_from e p → serves_from e (with_conns (pr_conns p ++ [(accept r, false)])%list p).
Proof.
  intros [(sched & Hlt & Hrun) Hsent].
  split; unfold requests, conns; cbn [pr_conns pr_env pr_app with_conns]; rewrite ?fmap_app.
  - exists sched. rewrite length_app. split; [eapply Forall_impl; [exact Hlt|]; intros i Hi; cbn in *; lia|].
    apply run_conns_more; [|exact Hrun]. by rewrite !length_fmap.
  - apply Forall_app. split; [done|]. by apply Forall_singleton.
Qed.

Lemma handle_serves e c cn cn' e' a' p :
  pr_conns p !! c = Some (cn, false) → conn_step cn (pr_env p) (pr_app p) = (cn', e', a') →
  serves_from e p → serves_from e (with_server e' a' (with_conns (<[c := (cn', false)]> (pr_conns p)) p)).
Proof.
  intros Hc Hs [(sched & Hlt & Hrun) Hsent].
  assert (conns p !! c = Some cn) as Hcn by (unfold conns; by rewrite list_lookup_fmap, Hc).
  split; unfold requests, conns; cbn [pr_conns pr_env pr_app with_conns with_server].
  - exists (sched ++ [c])%list. rewrite length_insert, list_fmap_insert. fold (conns p). cbn [fst].
    split; [apply Forall_app; split; [done|]; apply Forall_singleton; by eapply lookup_lt_Some|].
    assert (cn_request <$> <[c := cn']> (conns p) = requests p) as ->.
    { rewrite list_fmap_insert, (conn_step_request _ _ _ _ _ _ Hs). apply list_insert_id.
      unfold requests. by rewrite list_lookup_fmap, Hcn. }
    rewrite run_conns_snoc, Hrun. unfold conns_step. rewrite Hcn. unfold fmapM. munfold. by rewrite Hs.
  - by apply Forall_insert.
Qed.

Lemma send_serves e c cn w p :
  pr_conns p !! c = Some (cn, false) → cn_stage cn = Logged w →
  serves_from e p → serves_from e (with_conns (<[c := (cn, true)]> (pr_conns p)) p).
Proof.
  intros Hc Hw [Hrun Hsent].
  assert (fst <$> <[c := (cn, true)]> (pr_conns p) = conns p) as Hsame.
  { unfold conns. rewrite list_fmap_insert. apply list_insert_id. by rewrite list_lookup_fmap, Hc. }
  split; unfold requests, conns; cbn [pr_conns pr_env pr_app with_conns].
  - rewrite length_insert, Hsame. exact Hrun.
  - apply Forall_insert; [done|]. intros _. by exists w.
Qed.

Lemma step_serves e p p' : step p p' → serves_from e p → serves_from e p'.
Proof.
  intros Hs Hp. step_cases Hs; try (by apply (serves_from_same e p)); try (by apply accept_serves);
    try (by eapply handle_serves); by eapply send_serves.
Qed.

Lemma reachable_serves addr e p : rtc step (start addr e) p → serves_from e p.
Proof.
  intros Hp. eapply (steps_preserve (serves_from e)); [apply step_serves|exact Hp|].
  split; [by exists []|constructor].
Qed.

(** C13: The process runs the server: in every state the process can reach, whatever the
    interleaving of [main], the goroutine, the signals, the shutdown and the steps of the
    handlers, the accepted connections and the server are where some schedule of the
    connections of those requests leaves the server that [main] wired, a response was sent
    only when its handler had finished, and so (on a clock that does not run backwards) the
    store is well formed, nothing was enqueued, the event log has exactly one event per
    mutation that returned successfully, the request log exactly one line per request
    answered, and what was sent is JSON or the plain text of a refusal. *)
Theorem process_refines_server addr e p :
  rtc step (start addr e) p →
  let cs := fst <$> pr_conns p in
  (∃ sched, run_conns sched (accept <$> (cn_request <$> cs)) e main_handler = (cs, pr_env p, pr_app p)) ∧
  (∀ c cn, pr_conns p !! c = Some (cn, true) → ∃ w, cn_stage cn = Logged w) ∧
  (clock_ok e →
   view_ok (now_of (pr_env p)) (store_view (state (svc (pr_app p)))) ∧
   queue (svc (pr_app p)) = MemQueue.New ∧
   ((λ ev, (ev_VMID ev, ev_Type ev)) <$> events (state (svc (pr_app p)))) ≡ₚ omap conn_event cs ∧
   ((λ l, (ll_method l, ll_path l, ll_status l)) <$> log (pr_app p)) ≡ₚ omap conn_line cs ∧
   ∀ c cn w, pr_conns p !! c = Some (cn, true) → cn_stage cn = Logged w → json_response w ∨ text_response w).
Proof.
  intros Hp cs. destruct (reachable_serves _ _ _ Hp) as [(sched & _ & Hrun) Hsent].
  split; [by exists sched|]. rewrite Forall_lookup in Hsent. split.
  { intros c cn Hc. by apply (Hsent c (cn, true) Hc). }
  intros Hok. assert (server_inv True (requests p) main_handler cs (pr_env p) (pr_app p)) as Hinv
    by (apply (main_conns_inv True (requests p) sched e); [by left|by apply Forall_true; left|done..]).
  pose proof (server_inv_sent _ _ _ _ _ _ Hinv) as Hty.
  destruct Hinv as [_ _ _ _ Hq [_ Hv] (new & Hnew & Hkeys) (lines & Hlines & Hlk)].
  cbn in Hnew, Hlines. split_and!; [done..|by rewrite Hnew|by rewrite Hlines|].
  intros c cn w Hc Hw. rewrite Forall_lookup in Hty.
  assert (cs !! c = Some cn) as Hcn by (unfold cs; by rewrite list_lookup_fmap, Hc).
  pose proof (Hty c cn Hcn) as Hs. unfold sent_typed in Hs. by rewrite Hw in Hs.
Qed.

(** ** Shutdown *)

(** What is left to do once the listeners are closed. *)
Definition conn_work (cb : Conn * bool) : nat := steps_left (cn_stage cb.1) + if cb.2 then 0 else 1.
Definition main_work (m : MainPC) : nat :=
  match m with
  | MainStarting => 7 | MainCalling => 6 | MainListening => 5 | MainRegistering => 4 | MainServing => 3
  | MainReturned _ => 2 | MainFatal => 1 | MainExited _ => 0
  end.
Definition work (p : Process) : nat :=
  sum_list_with conn_work (pr_conns p) + main_work (pr_main p) + (if pr_sigCh p then 0 else 1) +
  match pr_signal p with SigShutdown => 1 | _ => 0 end.

Lemma sum_list_with_insert {A} (f : A → nat) l i x y :
  l !! i = Some x → sum_list_with f (<[i := y]> l) + f x = sum_list_with f l + f y.
Proof.
  revert i. induction l as [|z l IH]; intros [|i] Hx; [done..| |].
  - injection Hx as ->. cbn. lia.
  - specialize (IH i Hx). change (<[S i := y]> (z :: l)) with (z :: <[i := y]> l). cbn [sum_list_with]. lia.
Qed.

(** The flags of the server say where the goroutine is; and [main] can only be
    about to fail, on a marked server, when it was listening or had failed. *)
Definition may_fail (m : MainPC) : bool :=
  match m with MainListening | MainReturned (ServeFailed _) | MainFatal | MainExited _ => true | _ => false end.

Record phase_ok (p : Process) : Prop := {
  ph_mark : pr_inShutdown p = true ↔
    pr_signal p = SigClosing ∨ pr_signal p = SigShutdown ∨ pr_signal p = SigReturned;
  ph_closed : pr_closed p = true ↔ pr_signal p = SigShutdown ∨ pr_signal p = SigReturned;
}.

Lemma step_phase p p' : step p p' → phase_ok p → phase_ok p'.
Proof. intros Hs [H1 H2]. step_cases Hs; split; cbn in *; intuition congruence. Qed.

Lemma reachable_phase addr e p : rtc step (start addr e) p → phase_ok p.
Proof.
  intros Hp. eapply (steps_preserve phase_ok); [apply step_phase|exact Hp|].
  split; cbn; intuition congruence.
Qed.

(** Once the listeners are closed every step uses up some of the work that is left. *)
Lemma step_work p p' :
  phase_ok p → pr_closed p = true → step p p' → pr_closed p' = true ∧ work p' < work p.
Proof.
  intros [_ Hsig] Hcl Hs. apply Hsig in Hcl as Hg. step_cases Hs; try (destruct Hg; congruence);
    unfold work; cbn [pr_closed pr_conns pr_main pr_sigCh pr_signal with_main with_signal with_sigCh
      with_conns with_server with_closed with_inShutdown log_Print] in *; (split; [done|]);
    repeat match goal with
      | H : pr_main _ = _ |- _ => rewrite H
      | H : pr_signal _ = _ |- _ => rewrite H
      | H : pr_sigCh _ = _ |- _ => rewrite H
      end; cbn [main_work]; try (destruct (pr_inShutdown p)); cbn [main_work]; try lia; try congruence;
    first
      [ pose proof (sum_list_with_insert conn_work _ c _ (cn', false) Hcn);
        apply conn_step_left in Hstep; unfold conn_work in *; cbn [fst snd] in *; lia
      | pose proof (sum_list_with_insert conn_work _ c _ (cn, true) Hcn);
        unfold conn_work in *; cbn [fst snd] in *; lia ].
Qed.

Lemma closed_sn p : phase_ok p → pr_closed p = true → sn step p.
Proof.
  remember (work p) as n eqn:Hn. revert p Hn. induction n as [n IH] using lt_wf_ind.
  intros p -> Hph Hcl. constructor. intros p' Hs.
  destruct (step_work p p' Hph Hcl Hs) as [Hcl' Hlt]. eapply IH; [exact Hlt|done| |done].
  by eapply step_phase.
Qed.

(** [main] can always go on. *)
Lemma main_progress p : (∃ st, pr_main p = MainExited st) ∨ red step p.
Proof.
  destruct (pr_main p) as [| | | | |[|msg]| |st] eqn:Hm; [right..|left; by eexists]; eexists.
  1,2,4,6-8: (exists AMain; unfold exec, main_step; by rewrite Hm).
  - exists (AListen None). unfold exec. by rewrite Hm.
  - exists (AAcceptFails ""). unfold exec. by rewrite Hm.
Qed.

(** With the listeners closed, [main] fails only where it could fail already. *)
Definition ends_well (p : Process) : Prop :=
  may_fail (pr_main p) = false ∨ pr_main p = MainExited (ExitCode 0).

Lemma step_ends_well p p' :
  phase_ok p → pr_closed p = true → step p p' → ends_well p → ends_well p'.
Proof.
  intros [Hmark Hsig] Hcl Hs Hw. apply Hsig in Hcl as Hg.
  assert (pr_inShutdown p = true) as Hin by (apply Hmark; tauto).
  unfold ends_well in *. step_cases Hs; try (destruct Hg; congruence); try congruence;
    cbn [pr_main with_main with_signal with_sigCh with_conns with_server with_closed with_inShutdown
      log_Print]; rewrite ?Hin in *;
    repeat match goal with H : pr_main _ = _ |- _ => rewrite H in * end;
    cbn [may_fail] in *; auto; destruct Hw; congruence.
Qed.

(** C18: Shutdown ends the process: from every state of the process in which [srv.Shutdown] has
    marked the server and closed its listeners, whatever connections are open and however far
    their handlers are, no execution goes on forever, and every execution that can go no
    further has ended with [main]; its exit status is 0 unless [main] was at [net.Listen], had
    failed or had ended when the listeners were closed. *)
Theorem shutdown_terminates addr e p :
  rtc step (start addr e) p → pr_closed p = true →
  sn step p ∧
  ∀ p', rtc step p p' → nf step p' →
    ∃ st, pr_main p' = MainExited st ∧
      match pr_main p with
      | MainListening | MainReturned (ServeFailed _) | MainFatal | MainExited _ => True
      | _ => st = ExitCode 0
      end.
Proof.
  intros Hp Hcl. pose proof (reachable_phase _ _ _ Hp) as Hph. split; [by apply closed_sn|].
  intros p' Hrun Hnf. destruct (main_progress p') as [[st Hst]|Hred]; [|done]. exists st. split; [done|].
  assert (ends_well p → st = ExitCode 0) as Hwell.
  { intros Hw. enough (phase_ok p' ∧ pr_closed p' = true ∧ ends_well p') as (_ & _ & [Hw'|Hw'])
      by (rewrite Hst in Hw'; by simplify_eq).
    eapply (steps_preserve (λ p, phase_ok p ∧ pr_closed p = true ∧ ends_well p)); [|exact Hrun|done].
    intros p1 p2 Hs (H1 & H2 & H3). split_and!; [by eapply step_phase|by eapply step_work|by eapply step_ends_well]. }
  unfold ends_well in Hwell. destruct (pr_main p) as [| | | | |[|msg]| |st0]; cbn [may_fail] in Hwell; auto.
Qed.

(** C32: The shutdown is not graceful: in every state of the process in which [Shutdown] has closed
    the listeners while [main] was accepting, [main] can return at once, by two steps of its
    own, and the process has then ended, with status 0, with every connection as it was:
    requests whose handlers had not finished and responses that were not sent are lost. *)
Theorem shutdown_abandons addr e p :
  rtc step (start addr e) p → pr_main p = MainServing → pr_closed p = true →
  ∃ p1 p', step p p1 ∧ step p1 p' ∧ nf step p' ∧ pr_main p' = MainExited (ExitCode 0) ∧
    pr_conns p' = pr_conns p ∧ pr_app p' = pr_app p.
Proof.
  intros Hp Hm Hcl. destruct (reachable_phase _ _ _ Hp) as [Hmark Hsig].
  assert (pr_inShutdown p = true) as Hin by (apply Hmark; apply Hsig in Hcl; tauto).
  exists (with_main (MainReturned ErrServerClosed) p), (with_main (MainExited (ExitCode 0)) p).
  split_and!; try done.
  - exists (AAcceptFails ""). unfold exec. by rewrite Hm, Hin.
  - by exists AMain.
  - intros [p' [act Hact]]. done.
Qed.

(** ** Concrete executions *)

Definition exec_all (acts : list Action) (p : Process) : option Process :=
  foldl (λ o act, o ≫= exec act) (Some p) acts.

Lemma exec_all_steps acts p p' : exec_all acts p = Some p' → rtc step p p'.
Proof.
  unfold exec_all. revert p. induction acts as [|act acts IH]; intros p Hp; cbn in Hp.
  - injection Hp as ->. done.
  - destruct (exec act p) as [p1|] eqn:Hact.
    + eapply rtc_l; [by exists act|]. by apply IH.
    + exfalso. clear -Hp. induction acts as [|a l IH]; [done|exact (IH Hp)].
Qed.

Definition create_request : Request := plain_request "POST" "/v1/vms" "{}".

(** Two creations are accepted; the handler of the first finishes, and the signal
    is taken and the listeners are closed before its response is sent. *)
Definition abandoned_trace : list Action :=
  ([AMain; AMain; AListen None; AGoroutine; AMain; AAccept create_request; AAccept create_request; ASignal]
     ++ replicate 5 (AStep 0) ++ [AStep 1] ++ replicate 4 AGoroutine)%list.
Definition abandoned : Process :=
  default (start ":8080" test_env) (exec_all abandoned_trace (start ":8080" test_env)).

Lemma abandoned_reachable : rtc step (start ":8080" test_env) abandoned.
Proof.
  unfold abandoned. destruct (exec_all abandoned_trace _) as [p|] eqn:Hp; [|done].
  by eapply exec_all_steps.
Qed.

Lemma process_refines_server_witness :
  (∃ sched, run_conns sched (accept <$> [create_request; create_request]) test_env main_handler =
     (fst <$> pr_conns abandoned, pr_env abandoned, pr_app abandoned)) ∧
  view_ok (now_of (pr_env abandoned)) (store_view (state (svc (pr_app abandoned)))) ∧
  (λ l, ll_status l) <$> log (pr_app abandoned) = [202]%Z.
Proof.
  destruct (process_refines_server ":8080" test_env abandoned abandoned_reachable) as (Hrun & _ & Hinv).
  split; [exact Hrun|]. split; [exact (proj1 (Hinv test_env_clock_ok))|vm_compute; reflexivity].
Defined.

Lemma shutdown_terminates_witness :
  sn step abandoned ∧
  ∀ p', rtc step abandoned p' → nf step p' → ∃ st, pr_main p' = MainExited st ∧ st = ExitCode 0.
Proof. exact (shutdown_terminates ":8080" test_env abandoned abandoned_reachable eq_refl). Defined.

(** The VM exists and its client never learns of it. *)
Lemma shutdown_abandons_witness :
  (∃ p1 p', step abandoned p1 ∧ step p1 p' ∧ nf step p' ∧ pr_main p' = MainExited (ExitCode 0) ∧
     pr_conns p' = pr_conns abandoned ∧ pr_app p' = pr_app abandoned) ∧
  snd <$> pr_conns abandoned = [false; false] ∧
  (λ ev, ev_Type ev) <$> events (state (svc (pr_app abandoned))) = ["vm.created"].
Proof.
  split; [exact (shutdown_abandons ":8080" test_env abandoned abandoned_reachable eq_refl eq_refl)|].
  split; vm_compute; reflexivity.
Defined.
