(* ===== verification/Testing.v ===== *)
(** * Go tests as programs ([testing.T], as src/providertest uses it)

    A test drives the component under test and records its failures:
    [t.Errorf] goes on, [t.Fatalf] stops the test.  Sleeping moves the clock
    readings that follow. *)

From S2P Require Import Prelude GoLib ProviderErr Runtime.

Local Open Scope string_scope.

Record TestState (S : Type) := mkTestState { sut : S; failures : list string }.
Arguments mkTestState {S} _ _.
Arguments sut {S} _.
Arguments failures {S} _.

(** [None] is a test that has stopped. *)
Definition T (S A : Type) : Type := M (TestState S) (option A).

Definition tret {S A} (a : A) : T S A := ret (Some a).
Definition tbind {S A B} (m : T S A) (k : A → T S B) : T S B := λ e t,
  let '(o, e', t') := m e t in
  match o with
  | Some a => k a e' t'
  | None => (None, e', t')
  end.

Notation "x <~ m ;; k" := (tbind m (λ x, k))
  (at level 100, m at next level, right associativity) : flames_scope.
Notation "m ;~ k" := (tbind m (λ _, k))
  (at level 100, right associativity) : flames_scope.

(** A call on the component under test. *)
Definition run_sut {S A} (m : M S A) : T S A := λ e t,
  let '(a, e', s') := m e (sut t) in (Some a, e', mkTestState s' (failures t)).

Definition Errorf {S} (msg : string) : T S () := λ e t,
  (Some tt, e, mkTestState (sut t) (failures t ++ [msg])%list).
Definition Fatalf {S A} (msg : string) : T S A := λ e t,
  (None, e, mkTestState (sut t) (failures t ++ [msg])%list).

Definition Errorf_if {S} (b : bool) (msg : string) : T S () := if b then Errorf msg else tret tt.
Definition Fatalf_if {S} (b : bool) (msg : string) : T S () := if b then Fatalf msg else tret tt.

(** [x, err := call; if err != nil { t.Fatalf(msg) }] *)
Definition must {S A} (m : M S (Res A)) (msg : string) : T S A :=
  r <~ run_sut m ;;
  match r with Ok a => tret a | Fail _ => Fatalf msg end.

(** [x, _ := call], with the zero value of a failed call. *)
Definition ignoring {S A} (m : M S (Res A)) (zero : A) : T S A :=
  r <~ run_sut m ;;
  tret match r with Ok a => a | Fail _ => zero end.

(** [_, err := call; if !errors.Is(err, target) { t.Errorf(msg) }] *)
Definition expect_error {S A} (m : M S (Res A)) (target : ProviderError) (msg : string) : T S () :=
  r <~ run_sut m ;;
  Errorf_if (negb (fails_with r target)) msg.

(** [time.Now()] in the test itself. *)
Definition test_Now {S} : T S Time := λ e t, (Some (now_of e), env_tick e, t).

(** [time.Sleep(d)]: the readings still to come are later by at least [d];
    they are taken to be later by exactly [d] than they were going to be. *)
Definition env_sleep (d : Duration) (e : Env) : Env :=
  mkEnv (λ n, if decide (n < ticks e) then clock e n else (clock e n + d)%Z) (ticks e)
    (entropy e) (draws e) (picks e) (iters e).
Definition Sleep {S} (d : Duration) : T S () := λ e t, (Some tt, env_sleep d e, t).

(** [n] goroutines started together, each making one call: they run in the
    order the environment picks. *)
Fixpoint run_in_order {S A} (f : nat → T S A) (l : list nat) : T S (list A) :=
  match l with
  | [] => tret []
  | i :: l => a <~ f i ;; rest <~ run_in_order f l ;; tret (a :: rest)
  end.
Definition go_all {S A} (n : nat) (f : nat → T S A) : T S (list A) := λ e t,
  run_in_order f (shuffle (picks e (iters e)) (seq 0 n)) (env_iter e) t.

(** The test ends without a failure. *)
Definition passes {S} (test : T S ()) (e : Env) (s : S) : Prop :=
  failures (state_after (test e (mkTestState s []))) = [].

(** Every test of a suite passes on a fresh component, in its own environment. *)
Definition passes_all {S} (tests : list (string * T S ())) (e : Env) (s : S) : Prop :=
  Forall (λ t, passes t.2 e s) tests.

(** One step of a test, the call known. *)
Section Steps.
Context {S A B : Type}.
Implicit Types (s : S) (f : list string).

Lemma step_sut (m : M S A) (k : A → T S B) a e s f e' s' :
  m e s = (a, e', s') →
  tbind (run_sut m) k e (mkTestState s f) = k a e' (mkTestState s' f).
Proof. intros Hm. unfold tbind, run_sut. cbn. by rewrite Hm. Qed.

Lemma step_must (m : M S (Res A)) msg (k : A → T S B) a e s f e' s' :
  m e s = (Ok a, e', s') →
  tbind (must m msg) k e (mkTestState s f) = k a e' (mkTestState s' f).
Proof. intros Hm. unfold tbind, must, tbind, run_sut. cbn. by rewrite Hm. Qed.

Lemma step_ignoring (m : M S (Res A)) zero (k : A → T S B) r e s f e' s' :
  m e s = (r, e', s') →
  tbind (ignoring m zero) k e (mkTestState s f) =
  k (match r with Ok a => a | Fail _ => zero end) e' (mkTestState s' f).
Proof. intros Hm. unfold tbind, ignoring, tbind, run_sut. cbn. by rewrite Hm. Qed.

Lemma step_expect (m : M S (Res A)) target msg (k : () → T S B) r e s f e' s' :
  m e s = (r, e', s') → fails_with r target = true →
  tbind (expect_error m target msg) k e (mkTestState s f) = k tt e' (mkTestState s' f).
Proof. intros Hm Hf. unfold tbind, expect_error, tbind, run_sut. cbn. by rewrite Hm, Hf. Qed.

Lemma last_expect (m : M S (Res A)) target msg r e s f e' s' :
  m e s = (r, e', s') → fails_with r target = true →
  expect_error m target msg e (mkTestState s f) = (Some tt, e', mkTestState s' f).
Proof. intros Hm Hf. unfold expect_error, tbind, run_sut. cbn. by rewrite Hm, Hf. Qed.

Lemma step_Errorf_if b msg (k : () → T S B) e t :
  b = false → tbind (Errorf_if b msg) k e t = k tt e t.
Proof. by intros ->. Qed.

Lemma step_Fatalf_if b msg (k : () → T S B) e t :
  b = false → tbind (Fatalf_if b msg) k e t = k tt e t.
Proof. by intros ->. Qed.

Lemma step_Sleep d (k : () → T S B) e t : tbind (Sleep d) k e t = k tt (env_sleep d e) t.
Proof. done. Qed.

Lemma step_Now (k : Time → T S B) e t : tbind test_Now k e t = k (now_of e) (env_tick e) t.
Proof. done. Qed.
End Steps.

(** The machine is prompt: consecutive readings are at most [d] apart, and
    the clock does not run backwards. *)
Definition prompt (d : Duration) (e : Env) : Prop :=
  clock_ok e ∧ ∀ n, (clock e (Datatypes.S n) - clock e n ≤ d)%Z.

(** A sleep keeps a clock that does not run backwards. *)
Lemma env_sleep_clock_ok d e : (0 ≤ d)%Z → clock_ok e → clock_ok (env_sleep d e).
Proof.
  intros Hd [Hm Hp]. split; cbn.
  - intros i j Hij. specialize (Hm i j Hij). repeat case_decide; lia.
  - intros i. specialize (Hp i). case_decide; lia.
Qed.
