(* ===== verification/CacheTest.v ===== *)
(** * The cache conformance suite (src/providertest/cachetest)

    The suite as a program over [CacheStore], and the in-memory cache passing
    it (src/provider/cache/memcache/memcache_test.go). *)

From S2P Require Import Prelude GoLib ProviderErr Runtime Cache MemCache MemCacheTheory Testing.

Local Open Scope string_scope.

Section Suite.
Context {S : Type} `{AtomicCacheStore S}.

Definition str (s : string) : Slice byte := Some (bytes_of_string s).
Definition Equal (a b : Slice byte) : bool := bytes_Equal (slice_elems a) (slice_elems b).

Definition testSetAndGet : T S () :=
  let val := str "hello" in
  must (Cache.Set_ "key1" val 0%Z) "Set: %v" ;~
  got <~ must (Cache.Get "key1") "Get: %v" ;;
  Errorf_if (negb (Equal got val)) "got %q, want %q".

Definition testCacheMiss : T S () :=
  expect_error (Cache.Get "nonexistent") ErrCacheMiss "expected ErrCacheMiss, got %v".

Definition testTTLExpiry : T S () :=
  let val := str "ephemeral" in
  must (Cache.Set_ "ttl-key" val (50 * Millisecond)%Z) "Set: %v" ;~
  got <~ must (Cache.Get "ttl-key") "Get before expiry: %v" ;;
  Errorf_if (negb (Equal got val)) "got %q, want %q" ;~
  Sleep (100 * Millisecond)%Z ;~
  expect_error (Cache.Get "ttl-key") ErrCacheMiss "expected ErrCacheMiss after TTL expiry, got %v".

Definition testDelete : T S () :=
  run_sut (Cache.Set_ "del-key" (str "data") 0%Z) ;~
  must (Cache.Delete "del-key") "Delete: %v" ;~
  expect_error (Cache.Get "del-key") ErrCacheMiss "expected ErrCacheMiss after delete, got %v".

Definition testOverwrite : T S () :=
  run_sut (Cache.Set_ "ow-key" (str "v1") 0%Z) ;~
  run_sut (Cache.Set_ "ow-key" (str "v2") 0%Z) ;~
  got <~ must (Cache.Get "ow-key") "Get: %v" ;;
  Errorf_if (negb (Equal got (str "v2"))) "got %q, want %q".

Definition testCompareAndSet : T S () :=
  run_sut (Cache.Set_ "cas-key" (str "old") 0%Z) ;~
  ok <~ must (Cache.CompareAndSet "cas-key" (str "old") (str "new") 0%Z) "CompareAndSet: %v" ;;
  Errorf_if (negb ok) "CompareAndSet should have succeeded" ;~
  got <~ ignoring (Cache.Get "cas-key") None ;;
  Errorf_if (negb (Equal got (str "new"))) "got %q, want %q".

Definition testCompareAndSetMismatch : T S () :=
  run_sut (Cache.Set_ "cas-key" (str "current") 0%Z) ;~
  ok <~ must (Cache.CompareAndSet "cas-key" (str "wrong") (str "new") 0%Z) "CompareAndSet: %v" ;;
  Errorf_if ok "CompareAndSet should have failed with mismatched old value" ;~
  got <~ ignoring (Cache.Get "cas-key") None ;;
  Errorf_if (negb (Equal got (str "current"))) "value should not have changed, got %q".

(** [func Run] and [func RunAtomic] *)
Definition cachetest_Run : list (string * T S ()) :=
  [("SetAndGet", testSetAndGet); ("CacheMiss", testCacheMiss); ("TTLExpiry", testTTLExpiry);
   ("Delete", testDelete); ("Overwrite", testOverwrite)].
Definition cachetest_RunAtomic : list (string * T S ()) :=
  [("CompareAndSet", testCompareAndSet); ("CompareAndSetMismatch", testCompareAndSetMismatch)].
End Suite.

Lemma testTTLExpiry_passes e :
  prompt (50 * Millisecond)%Z e → passes (S:=Store) testTTLExpiry e New.
Proof.
  intros [Hok Hp]. unfold passes, testTTLExpiry. cbv zeta.
  erewrite step_must by apply Set_run. cbv beta.
  change (new_entry_env (50 * Millisecond)%Z e) with (env_tick e).
  set (en := new_entry_at (str "ephemeral") (50 * Millisecond)%Z e).
  assert (abs_entry en = (bytes_of_string "ephemeral", Some (now_of e + 50 * Millisecond)%Z)) as Hen
    by (subst en; by rewrite abs_new_entry).
  assert (∀ e', (now_of e' ≤ now_of e + 50 * Millisecond)%Z → 
            expired_at (now_of e') (abs_entry en).2 = false) as Hlive.
  { intros e' He'. rewrite Hen. cbn [snd expired_at]. apply Z.ltb_ge. exact He'. }
  pose proof (Hp (ticks e)) as Hp1. destruct Hok as [Hmono _].
  pose proof (Hmono (ticks e) (Datatypes.S (Datatypes.S (ticks e))) ltac:(lia)) as Hm.
  erewrite step_must.
  2: { change (Cache.Get (S:=Store)) with Get. rewrite Get_run. cbn [entries set_entry].
       rewrite lookup_insert_eq. cbv zeta. rewrite Hlive; [reflexivity|].
       unfold now_of. cbn. lia. }
  cbv beta. rewrite step_Errorf_if by reflexivity. rewrite step_Sleep.
  assert (expired_at (now_of (env_sleep (100 * Millisecond)%Z
            (if time_IsZero (ce_expiresAt en) then env_tick e else env_tick (env_tick e))))
            (abs_entry en).2 = true) as Hgone.
  { rewrite Hen. cbn [snd expired_at]. apply Z.ltb_lt.
    assert (time_IsZero (ce_expiresAt en) = false) as ->
      by (unfold abs_entry in Hen; by destruct (time_IsZero (ce_expiresAt en))).
    unfold now_of. cbn. rewrite decide_False by lia. unfold Millisecond. lia. }
  erewrite last_expect.
  - done.
  - change (Cache.Get (S:=Store)) with Get. rewrite Get_run. cbn [entries set_entry].
    rewrite lookup_insert_eq. cbv zeta. rewrite Hgone. reflexivity.
  - reflexivity.
Qed.

Lemma memcache_conforms e :
  prompt (50 * Millisecond)%Z e →
  passes_all (S:=Store) cachetest_Run e New ∧ passes_all (S:=Store) cachetest_RunAtomic e New.
Proof.
  intros Hp. unfold passes_all, cachetest_Run, cachetest_RunAtomic.
  split; repeat apply Forall_cons_2; try apply Forall_nil_2; cbn [snd];
    try reflexivity; by apply testTTLExpiry_passes.
Qed.
