(* ===== verification/BlobTest.v ===== *)
(** * The blob and ingress conformance suites (src/providertest/blobtest,
    src/providertest/ingresstest)

    The suites as programs over [BlobStore] and [IngressProvider], and the
    in-memory store and the no-op provider passing them. *)

From S2P Require Import Prelude GoLib Model ProviderErr Runtime Blob MemBlob MemBlobTheory Ingress Testing.

Local Open Scope string_scope.

(** ** blobtest *)

Module BlobSuite.
Section Suite.
Context {S : Type} `{BlobStore S}.

(** [model.BlobMeta{ContentType: ct}] and [bytes.NewReader([]byte(s))] *)
Definition meta_of (ct : string) : BlobMeta := mkBlobMeta "" 0 "" ct None zero_time.
Definition reader (s : string) : Reader := bytes_NewReader (bytes_of_string s).

Definition testPutAndGet : T S () :=
  let data := bytes_of_string "hello, blobs!" in
  must (Blob.Put "test/key" (reader "hello, blobs!") (meta_of "text/plain")) "Put: %v" ;~
  rc <~ must (Blob.Get "test/key") "Get: %v" ;;
  let '(got, err) := io_ReadAll rc in
  Fatalf_if (bool_decide (err ≠ None)) "ReadAll: %v" ;~
  Errorf_if (negb (bytes_Equal got data)) "got %q, want %q".

Definition testHead : T S () :=
  let data := bytes_of_string "head test data" in
  must (Blob.Put "head/key" (reader "head test data") (meta_of "application/octet-stream")) "Put: %v" ;~
  m <~ must (Blob.Head "head/key") "Head: %v" ;;
  Errorf_if (negb (bm_Key m =? "head/key")) "got Key %q, want %q" ;~
  Errorf_if (negb (bm_Size m =? Z.of_nat (List.length data))%Z) "got Size %d, want %d" ;~
  Errorf_if (negb (bm_ContentType m =? "application/octet-stream")) "got ContentType %q, want %q" ;~
  Errorf_if (bm_Checksum m =? "") "Checksum is empty".

Definition testDelete : T S () :=
  run_sut (Blob.Put "del/key" (reader "x") (meta_of "")) ;~
  must (Blob.Delete "del/key") "Delete: %v" ;~
  exists_ <~ ignoring (Blob.Exists "del/key") false ;;
  Errorf_if exists_ "blob still exists after delete".

Definition testExists : T S () :=
  exists_ <~ must (Blob.Exists "nonexistent") "Exists: %v" ;;
  Errorf_if exists_ "expected false for nonexistent key" ;~
  run_sut (Blob.Put "exists/key" (reader "data") (meta_of "")) ;~
  exists_ <~ must (Blob.Exists "exists/key") "Exists: %v" ;;
  Errorf_if (negb exists_) "expected true for existing key".

Definition testList : T S () :=
  run_sut (Blob.Put "images/a.png" (reader "a") (meta_of "")) ;~
  run_sut (Blob.Put "images/b.png" (reader "b") (meta_of "")) ;~
  run_sut (Blob.Put "docs/c.txt" (reader "c") (meta_of "")) ;~
  list <~ must (Blob.List_ "images/") "List: %v" ;;
  Errorf_if (negb (slice_len list =? 2)%Z) "expected 2 blobs with prefix images/, got %d" ;~
  all <~ must (Blob.List_ "") "List all: %v" ;;
  Errorf_if (negb (slice_len all =? 3)%Z) "expected 3 total blobs, got %d".

Definition testNotFoundErrors : T S () :=
  expect_error (Blob.Get "missing") ErrNotFound "Get: expected ErrNotFound, got %v" ;~
  expect_error (Blob.Head "missing") ErrNotFound "Head: expected ErrNotFound, got %v" ;~
  expect_error (Blob.Delete "missing") ErrNotFound "Delete: expected ErrNotFound, got %v".

Definition Run : list (string * T S ()) :=
  [("PutAndGet", testPutAndGet); ("Head", testHead); ("Delete", testDelete); ("Exists", testExists);
   ("List", testList); ("NotFoundErrors", testNotFoundErrors)].
End Suite.

Lemma List_length n prefix e s :
  length (map_to_list (filter (λ kb, starts_with kb.1 prefix) (blobs s))) = n →
  ∃ l, List_ prefix e s = (Ok l, env_iter e, s) ∧ slice_len l = Z.of_nat n.
Proof.
  intros Hn. destruct (List_perm prefix e s) as (l & Hl & Hp). exists (built_slice l). split; [done|].
  rewrite slice_len_built. f_equal. rewrite Hp, !length_fmap. exact Hn.
Qed.

Lemma testList_passes e : passes (S:=Store) testList e New.
Proof.
  unfold passes, testList.
  do 3 (erewrite step_sut;
        [|change (Blob.Put (S:=Store)) with Put; rewrite blob_Put_run; reflexivity]; cbv beta zeta).
  edestruct (List_length 2 "images/") as (l & Hl & Hn); cycle 1.
  { erewrite step_must by exact Hl. cbv beta. rewrite Hn.
    rewrite step_Errorf_if by reflexivity.
    edestruct (List_length 3 "") as (l' & Hl' & Hn'); cycle 1.
    { erewrite step_must by exact Hl'. cbv beta. rewrite Hn'. reflexivity. }
    reflexivity. }
  reflexivity.
Qed.

Lemma memblob_conforms e : passes_all (S:=Store) Run e New.
Proof.
  unfold passes_all, Run. repeat apply Forall_cons_2; try apply Forall_nil_2; cbn [snd];
    try (vm_compute; reflexivity). apply testList_passes.
Qed.
End BlobSuite.

(** ** ingresstest *)

Module IngressSuite.
Section Suite.
Context {P : Type} `{IngressProvider P}.

Definition zero_Endpoint : Endpoint := mkEndpoint "" (mkRoute "" "") (mkTarget "" 0).

Definition testRegisterAndGet : T P () :=
  let route := mkRoute "app.example.com" "/" in
  let target := mkTarget "10.0.0.1" 8080 in
  ep <~ must (Ingress.RegisterEndpoint "vm-1" route target) "RegisterEndpoint: %v" ;;
  Errorf_if (negb (ep_VMID ep =? "vm-1")) "got VMID %q, want %q" ;~
  Errorf_if (negb (rt_Host (ep_Route ep) =? "app.example.com")) "got Host %q, want %q" ;~
  Errorf_if (negb (tg_Port (ep_Target ep) =? 8080)%Z) "got Port %d, want 8080" ;~
  got <~ must (Ingress.GetEndpoint "vm-1") "GetEndpoint: %v" ;;
  Errorf_if (negb (ep_VMID got =? "vm-1")) "got VMID %q, want %q".

Definition testUnregister : T P () :=
  let route := mkRoute "app.example.com" "/" in
  let target := mkTarget "10.0.0.1" 8080 in
  ignoring (Ingress.RegisterEndpoint "vm-1" route target) zero_Endpoint ;~
  must (Ingress.UnregisterEndpoint "vm-1") "UnregisterEndpoint: %v" ;~
  expect_error (Ingress.GetEndpoint "vm-1") ErrNotFound "expected ErrNotFound after unregister, got %v".

Definition testGetNotFound : T P () :=
  expect_error (Ingress.GetEndpoint "nonexistent") ErrNotFound "expected ErrNotFound, got %v".

Definition testOverwriteEndpoint : T P () :=
  let route1 := mkRoute "v1.example.com" "/" in
  let target1 := mkTarget "10.0.0.1" 8080 in
  ignoring (Ingress.RegisterEndpoint "vm-1" route1 target1) zero_Endpoint ;~
  let route2 := mkRoute "v2.example.com" "/api" in
  let target2 := mkTarget "10.0.0.2" 9090 in
  ignoring (Ingress.RegisterEndpoint "vm-1" route2 target2) zero_Endpoint ;~
  got <~ must (Ingress.GetEndpoint "vm-1") "GetEndpoint: %v" ;;
  Errorf_if (negb (rt_Host (ep_Route got) =? "v2.example.com")) "got Host %q, want %q" ;~
  Errorf_if (negb (tg_Port (ep_Target got) =? 9090)%Z) "got Port %d, want 9090".

Definition Run : list (string * T P ()) :=
  [("RegisterAndGet", testRegisterAndGet); ("Unregister", testUnregister);
   ("GetNotFound", testGetNotFound); ("OverwriteEndpoint", testOverwriteEndpoint)].
End Suite.

Lemma noop_conforms e : passes_all (S:=Noop.Provider) Run e Noop.New.
Proof.
  unfold passes_all, Run. repeat apply Forall_cons_2; try apply Forall_nil_2; cbn [snd]; reflexivity.
Qed.
End IngressSuite.
