(* ===== verification/QueueTest.v ===== *)
(** * The queue conformance suite (src/providertest/queuetest)

    The suite as a program over [WorkQueue], and the in-memory queue passing
    it (src/provider/queue/memqueue/memqueue_test.go). *)

From S2P Require Import Prelude GoLib Json Model ProviderErr Runtime Queue MemQueue MemQueueTheory Testing.

Local Open Scope string_scope.

Section Suite.
Context {S : Type} `{WorkQueue S}.

Definition payload_of (s : string) : Slice byte := Some (bytes_of_string s).
(** The zero value of a job that a failed call returns as [nil]: the tests
    that ignore the error do not look at it. *)
Definition no_job : Job := mkJob "" "" None zero_time zero_time 0.

Definition testEnqueueAndDequeue : T S () :=
  let payload := payload_of (json_text "{'action':'test'}") in
  id <~ must (Queue.Enqueue "tasks" payload) "Enqueue: %v" ;;
  Fatalf_if (id =? "") "Enqueue returned empty ID" ;~
  job <~ must (Queue.Dequeue "tasks" (5 * Second)%Z) "Dequeue: %v" ;;
  Errorf_if (negb (job_ID job =? id)) "got job ID %q, want %q" ;~
  Errorf_if (negb (bytes_Equal (slice_elems (job_Payload job)) (slice_elems payload)))
    "got payload %q, want %q" ;~
  Errorf_if (negb (job_Topic job =? "tasks")) "got topic %q, want %q" ;~
  Errorf_if (negb (job_DequeueCount job =? 1)%Z) "got DequeueCount %d, want 1".

Definition testNoJobs : T S () :=
  expect_error (Queue.Dequeue "empty-topic" (5 * Second)%Z) ErrNoJobs "expected ErrNoJobs, got %v".

Definition testAck : T S () :=
  id <~ ignoring (Queue.Enqueue "ack-topic" (payload_of "data")) "" ;;
  ignoring (Queue.Dequeue "ack-topic" (5 * Second)%Z) no_job ;~
  must (Queue.Ack id) "Ack: %v" ;~
  expect_error (Queue.Dequeue "ack-topic" (5 * Second)%Z) ErrNoJobs "expected ErrNoJobs after ack, got %v".

Definition testNack : T S () :=
  id <~ ignoring (Queue.Enqueue "nack-topic" (payload_of "data")) "" ;;
  ignoring (Queue.Dequeue "nack-topic" (5 * Second)%Z) no_job ;~
  now <~ test_Now ;;
  must (Queue.Nack id now) "Nack: %v" ;~
  job <~ must (Queue.Dequeue "nack-topic" (5 * Second)%Z) "Dequeue after nack: %v" ;;
  Errorf_if (negb (job_ID job =? id)) "got job ID %q, want %q" ;~
  Errorf_if (negb (job_DequeueCount job =? 2)%Z) "got DequeueCount %d, want 2".

Definition testLeaseExpiry : T S () :=
  id <~ ignoring (Queue.Enqueue "lease-topic" (payload_of "data")) "" ;;
  must (Queue.Dequeue "lease-topic" (50 * Millisecond)%Z) "Dequeue: %v" ;~
  expect_error (Queue.Dequeue "lease-topic" (5 * Second)%Z) ErrNoJobs
    "expected ErrNoJobs during lease, got %v" ;~
  Sleep (100 * Millisecond)%Z ;~
  job <~ must (Queue.Dequeue "lease-topic" (5 * Second)%Z) "Dequeue after lease expiry: %v" ;;
  Errorf_if (negb (job_ID job =? id)) "got job ID %q, want %q" ;~
  Errorf_if (negb (job_DequeueCount job =? 2)%Z) "got DequeueCount %d, want 2".

Definition testMultiTopic : T S () :=
  id1 <~ ignoring (Queue.Enqueue "topic-a" (payload_of "a")) "" ;;
  id2 <~ ignoring (Queue.Enqueue "topic-b" (payload_of "b")) "" ;;
  jobA <~ must (Queue.Dequeue "topic-a" (5 * Second)%Z) "Dequeue topic-a: %v" ;;
  Errorf_if (negb (job_ID jobA =? id1)) "topic-a: got ID %q, want %q" ;~
  jobB <~ must (Queue.Dequeue "topic-b" (5 * Second)%Z) "Dequeue topic-b: %v" ;;
  Errorf_if (negb (job_ID jobB =? id2)) "topic-b: got ID %q, want %q".

(** [func Run] *)
Definition queuetest_Run : list (string * T S ()) :=
  [("EnqueueAndDequeue", testEnqueueAndDequeue); ("NoJobs", testNoJobs); ("Ack", testAck);
   ("Nack", testNack); ("LeaseExpiry", testLeaseExpiry); ("MultiTopic", testMultiTopic)].
End Suite.

(** ** A topic with a single job *)

Lemma Dequeue_single t d j e q :
  topic_entries q t = [mkQueueEntry j] →
  Dequeue t d e q =
  if bool_decide (available (now_of e) j)
  then (Ok (leased (now_of e) d j), env_tick e, set_topic t [mkQueueEntry (leased (now_of e) d j)] q)
  else (Fail (as_error ErrNoJobs), env_tick e, q).
Proof.
  intros Ht. unfold Dequeue. munfold. unfold time_Now. rewrite Ht. cbn [Dequeue_loop qe_job].
  rewrite available_guard. by case_bool_decide.
Qed.

Lemma Nack_single t at_ j e q :
  index q !! job_ID j = Some (mkTopicRef t) → topic_entries q t = [mkQueueEntry j] →
  Nack (job_ID j) at_ e q =
  (Ok tt, e, set_topic t [mkQueueEntry (job_with_LeaseExpiresAt j at_)] q).
Proof.
  intros Hi Ht. unfold Nack. munfold. rewrite Hi. cbn [tr_topic]. rewrite Ht.
  cbn [find_job qe_job]. by rewrite String.eqb_refl.
Qed.

Lemma Ack_single t j e q :
  index q !! job_ID j = Some (mkTopicRef t) → topic_entries q t = [mkQueueEntry j] →
  Ack (job_ID j) e q = (Ok tt, e, delete_index (job_ID j) (set_topic t [] q)).
Proof.
  intros Hi Ht. unfold Ack. munfold. rewrite Hi. cbn [tr_topic]. rewrite Ht.
  cbn [find_job qe_job]. by rewrite String.eqb_refl.
Qed.

Lemma topic_entries_set_eq t l q : topic_entries (set_topic t l q) t = l.
Proof. rewrite topic_entries_set. by rewrite decide_True. Qed.

(** ** The queue after one or two [Enqueue]s *)

Definition enqueued (t : string) (p : Slice byte) (e : Env) (q : Queue) : Queue :=
  set_index (next_id e) (mkTopicRef t)
    (set_topic t (topic_entries q t ++ [mkQueueEntry (new_job (next_id e) t p (now_of e))]) q).

Lemma step_Enqueue {A} t p (k : string → T Queue A) e q f :
  tbind (ignoring (Queue.Enqueue t p) "") k e (mkTestState q f) =
  k (next_id e) (env_tick (env_draw e)) (mkTestState (enqueued t p e q) f).
Proof. erewrite step_ignoring by apply Enqueue_run. done. Qed.

Lemma enqueued_entries t p e q :
  topic_entries q t = [] →
  topic_entries (enqueued t p e q) t = [mkQueueEntry (new_job (next_id e) t p (now_of e))].
Proof. intros Ht. unfold enqueued. rewrite Ht. by apply topic_entries_set_eq. Qed.

Lemma enqueued_other t t' p e q :
  t ≠ t' → topic_entries (enqueued t p e q) t' = topic_entries q t'.
Proof.
  intros Hne. unfold enqueued. change (topic_entries (set_index ?i ?r ?q0) ?t0) with (topic_entries q0 t0).
  rewrite topic_entries_set. by rewrite decide_False.
Qed.

Lemma enqueued_index t p e q : index (enqueued t p e q) !! next_id e = Some (mkTopicRef t).
Proof. apply lookup_insert_eq. Qed.

(** A job that has just been enqueued is available. *)
Lemma fresh_available now id t p at_ : available now (new_job id t p at_).
Proof. by left. Qed.

(** The next call is a [Dequeue] of a topic with a single job. *)
Ltac dequeue_single step :=
  erewrite step;
  [|change (Queue.Dequeue (Q:=Queue)) with Dequeue;
    erewrite Dequeue_single by (auto using enqueued_entries, topic_entries_set_eq);
    rewrite bool_decide_true by apply fresh_available; reflexivity].
Ltac test_eq := rewrite step_Errorf_if by (cbn; by rewrite ?String.eqb_refl).

Section Conforms.
Variable e : Env.

Lemma testEnqueueAndDequeue_passes : passes (S:=Queue) testEnqueueAndDequeue e New.
Proof.
  unfold passes, testEnqueueAndDequeue. cbv zeta.
  erewrite step_must by apply Enqueue_run. cbv beta.
  change (set_index (next_id e) _ _)
    with (enqueued "tasks" (payload_of (json_text "{'action':'test'}")) e New).
  rewrite step_Fatalf_if by (apply String.eqb_neq; apply next_id_nonempty).
  dequeue_single uconstr:(step_must). cbv beta. test_eq.
  rewrite step_Errorf_if by (apply negb_false_iff, bool_decide_eq_true_2; reflexivity).
  test_eq. reflexivity.
Qed.

Lemma testNoJobs_passes : passes (S:=Queue) testNoJobs e New.
Proof. reflexivity. Qed.

Lemma testAck_passes : passes (S:=Queue) testAck e New.
Proof.
  unfold passes, testAck. rewrite step_Enqueue.
  dequeue_single uconstr:(step_ignoring).
  erewrite step_must.
  2: { change (Queue.Ack (Q:=Queue)) with Ack.
       set (j := leased _ _ _). change (next_id e) with (job_ID j).
       apply (Ack_single "ack-topic"); [apply enqueued_index|apply topic_entries_set_eq]. }
  reflexivity.
Qed.

(** The readings of the clock are strictly increasing. *)
Definition clock_advances : Prop := ∀ n, (clock e n < clock e (Datatypes.S n))%Z.

Lemma testNack_passes : clock_advances → passes (S:=Queue) testNack e New.
Proof.
  intros Hadv. unfold passes, testNack. rewrite step_Enqueue.
  dequeue_single uconstr:(step_ignoring). rewrite step_Now.
  set (j := leased _ _ _). set (t0 := now_of _).
  erewrite step_must.
  2: { change (Queue.Nack (Q:=Queue)) with Nack. change (next_id e) with (job_ID j).
       apply (Nack_single "nack-topic"); [apply enqueued_index|apply topic_entries_set_eq]. }
  erewrite step_must.
  2: { change (Queue.Dequeue (Q:=Queue)) with Dequeue.
       erewrite Dequeue_single by apply topic_entries_set_eq.
       rewrite bool_decide_true by (right; cbn; apply Hadv). reflexivity. }
  cbv beta. test_eq. reflexivity.
Qed.

Lemma testLeaseExpiry_passes : prompt (50 * Millisecond)%Z e → passes (S:=Queue) testLeaseExpiry e New.
Proof.
  intros [Hok Hp]. unfold passes, testLeaseExpiry. rewrite step_Enqueue.
  set (e1 := env_tick (env_draw e)). dequeue_single uconstr:(step_must).
  set (j := leased _ _ _).
  assert (job_LeaseExpiresAt j = now_of e1 + 50 * Millisecond)%Z as Hj by done.
  pose proof (now_of_pos e1 Hok) as Hpos. unfold Millisecond in *.
  erewrite step_expect; [| |by instantiate (1 := Fail (as_error ErrNoJobs))].
  2: { change (Queue.Dequeue (Q:=Queue)) with Dequeue.
       erewrite Dequeue_single by apply topic_entries_set_eq.
       rewrite bool_decide_false; [reflexivity|]. unfold available, zero_time. rewrite Hj.
       pose proof (Hp (ticks e1)). unfold now_of in *. cbn in *. lia. }
  rewrite step_Sleep. erewrite step_must.
  2: { change (Queue.Dequeue (Q:=Queue)) with Dequeue.
       erewrite Dequeue_single by apply topic_entries_set_eq.
       rewrite bool_decide_true; [reflexivity|]. right. rewrite Hj.
       pose proof (proj1 Hok (ticks e1) (ticks (env_tick (env_tick e1))) ltac:(cbn; lia)).
       unfold now_of in *. cbn in *. rewrite decide_False by lia. lia. }
  cbv beta. test_eq. reflexivity.
Qed.

Lemma testMultiTopic_passes : passes (S:=Queue) testMultiTopic e New.
Proof.
  unfold passes, testMultiTopic. rewrite !step_Enqueue.
  assert (topic_entries (enqueued "topic-b" (payload_of "b") (env_tick (env_draw e))
            (enqueued "topic-a" (payload_of "a") e New)) "topic-a" =
          [mkQueueEntry (new_job (next_id e) "topic-a" (payload_of "a") (now_of e))]) as Ha
    by (rewrite enqueued_other by done; by apply enqueued_entries).
  erewrite step_must.
  2: { change (Queue.Dequeue (Q:=Queue)) with Dequeue. erewrite Dequeue_single by exact Ha.
       rewrite bool_decide_true by apply fresh_available. reflexivity. }
  cbv beta. test_eq. erewrite step_must.
  2: { change (Queue.Dequeue (Q:=Queue)) with Dequeue.
       erewrite Dequeue_single.
       2: { rewrite topic_entries_set, decide_False by done.
            apply enqueued_entries. by rewrite enqueued_other. }
       rewrite bool_decide_true by apply fresh_available. reflexivity. }
  cbv beta. by rewrite String.eqb_refl.
Qed.

Lemma memqueue_conforms :
  prompt (50 * Millisecond)%Z e → clock_advances → passes_all (S:=Queue) queuetest_Run e New.
Proof.
  intros Hp Ha. unfold passes_all, queuetest_Run.
  repeat apply Forall_cons_2; try apply Forall_nil_2; cbn [snd];
    auto using testEnqueueAndDequeue_passes, testNoJobs_passes, testAck_passes, testNack_passes,
      testLeaseExpiry_passes, testMultiTopic_passes.
Qed.
End Conforms.

(** On a clock that stands still between two readings, which the
    documentation of [time.Now] does not exclude, [testNack] fails: the job
    is due at the instant of the [Nack], and [Dequeue] asks for a later one. *)
Definition frozen_env : Env :=
  mkEnv (λ _, 1000000%Z) 0 (entropy test_env) 0 (picks test_env) 0.

Lemma testNack_frozen_clock :
  clock_ok frozen_env ∧
  failures (state_after (testNack (S:=Queue) frozen_env (mkTestState New []))) =
    ["Dequeue after nack: %v"].
Proof. split; [split; intros; cbn; lia|vm_compute; reflexivity]. Qed.
