(* ===== verification/StateTest.v ===== *)
(** * The state store conformance suite (src/providertest/statetest)

    The suite as a program over [StateStore].  Every store that keeps the laws
    of [StateStoreSpec] passes it, so the laws promise at least what the suite
    asks of a provider; the in-memory store is one of them
    (src/provider/state/memstate/memstate_test.go). *)

From S2P Require Import Prelude GoLib Json Model ProviderErr Runtime State StateTheory MemState Testing.

Local Open Scope string_scope.

Section Suite.
Context {S : Type} `{StateStore S}.

Definition sized_VMSpec (vcpus memoryMB : Z) : VMSpec :=
  mkVMSpec (mkResourceSpec vcpus memoryMB) (Lifecycle zero_VMSpec) (Runtime zero_VMSpec)
    (Network zero_VMSpec) (Storage zero_VMSpec) (Placement zero_VMSpec) None.
(** A failed [GetVM] whose error is ignored returns nil; reading a field of it
    would panic, which the tests below never reach. *)
Definition no_vm : VM := mkVM "" "" "" "" "" zero_VMSpec zero_time zero_time.

Definition testCreateAndGet : T S () :=
  id <~ must (State.CreateVM (sized_VMSpec 2 512)) "CreateVM: %v" ;;
  Fatalf_if (id =? "") "CreateVM returned empty ID" ;~
  vm <~ must (State.GetVM id) "GetVM: %v" ;;
  Errorf_if (negb (vm_ID vm =? id)) "got ID %q, want %q" ;~
  Errorf_if (negb (vm_DesiredState vm =? DesiredRunning)) "got DesiredState %q, want %q" ;~
  Errorf_if (negb (vm_ObservedState vm =? ObservedPending)) "got ObservedState %q, want %q" ;~
  Errorf_if (negb (VCPUs (Resources (vm_Spec vm)) =? 2)%Z) "got VCPUs %d, want 2".

Definition testUpdateDesiredState : T S () :=
  id <~ ignoring (State.CreateVM zero_VMSpec) "" ;;
  must (State.UpdateVMDesiredState id DesiredStopped) "UpdateVMDesiredState: %v" ;~
  vm <~ ignoring (State.GetVM id) no_vm ;;
  Errorf_if (negb (vm_DesiredState vm =? DesiredStopped)) "got %q, want %q".

Definition testUpdateObservedState : T S () :=
  id <~ ignoring (State.CreateVM zero_VMSpec) "" ;;
  must (State.UpdateVMObservedState id ObservedRunning "ctrl-1") "UpdateVMObservedState: %v" ;~
  vm <~ ignoring (State.GetVM id) no_vm ;;
  Errorf_if (negb (vm_ObservedState vm =? ObservedRunning)) "got %q, want %q" ;~
  Errorf_if (negb (vm_ControllerID vm =? "ctrl-1")) "got ControllerID %q, want %q".

Definition testAssignVM : T S () :=
  id <~ ignoring (State.CreateVM zero_VMSpec) "" ;;
  must (State.AssignVM id "ctrl-1") "AssignVM: %v" ;~
  vm <~ ignoring (State.GetVM id) no_vm ;;
  Errorf_if (negb (vm_ControllerID vm =? "ctrl-1")) "got ControllerID %q, want %q" ;~
  expect_error (State.AssignVM id "ctrl-2") ErrConflict "expected ErrConflict, got %v".

(** ["ctrl-"+string(rune('A'+n))] *)
Definition ctrl_name (n : nat) : string :=
  "ctrl-" +:+ String (Ascii.ascii_of_N (65 + N.of_nat n)) EmptyString.
(** What the goroutines add to [successes]. *)
Definition successes (rs : list (Res ())) : nat :=
  length (omap (λ r, match r with Ok a => Some a | Fail _ => None end) rs).

Definition testConcurrentAssign : T S () :=
  id <~ ignoring (State.CreateVM zero_VMSpec) "" ;;
  rs <~ go_all 10 (λ n, run_sut (State.AssignVM id (ctrl_name n))) ;;
  Errorf_if (negb (successes rs =? 1)%nat) "expected exactly 1 successful assign, got %d" ;~
  vm <~ must (State.GetVM id) "GetVM after concurrent assign: %v" ;;
  Errorf_if (vm_ControllerID vm =? "") "ControllerID is empty after concurrent assign".

Definition testListPendingVMs : T S () :=
  id1 <~ ignoring (State.CreateVM zero_VMSpec) "" ;;
  id2 <~ ignoring (State.CreateVM zero_VMSpec) "" ;;
  run_sut (State.UpdateVMObservedState id2 ObservedRunning "ctrl-1") ;~
  pending <~ must State.ListPendingVMs "ListPendingVMs: %v" ;;
  Fatalf_if (negb (slice_len pending =? 1)%Z) "expected 1 pending VM, got %d" ;~
  Errorf_if (negb (vm_ID (default no_vm (slice_elems pending !! 0%nat)) =? id1))
    "expected pending VM %q, got %q".

Definition event_of (vmID type : string) : Event :=
  mkEvent "" vmID "" type (Some (bytes_of_string "{}")) zero_time.
Definition events_filter (vmID type : string) (limit : Z) : EventFilter :=
  mkEventFilter vmID "" type zero_time limit.

Definition testEvents : T S () :=
  let e1 := event_of "vm-1" "vm.created" in
  let e2 := event_of "vm-2" "vm.scheduled" in
  let e3 := event_of "vm-1" "vm.started" in
  must (State.AppendEvent e1) "AppendEvent: %v" ;~
  must (State.AppendEvent e2) "AppendEvent: %v" ;~
  must (State.AppendEvent e3) "AppendEvent: %v" ;~
  events <~ must (State.ListEvents (events_filter "vm-1" "" 0)) "ListEvents: %v" ;;
  Errorf_if (negb (slice_len events =? 2)%Z) "expected 2 events for vm-1, got %d" ;~
  events <~ must (State.ListEvents (events_filter "" "vm.scheduled" 0)) "ListEvents: %v" ;;
  Errorf_if (negb (slice_len events =? 1)%Z) "expected 1 event of type vm.scheduled, got %d" ;~
  events <~ must (State.ListEvents (events_filter "" "" 2)) "ListEvents: %v" ;;
  Errorf_if (negb (slice_len events =? 2)%Z) "expected 2 events with limit, got %d".

Definition controller_of_test (id status : string) (vcpus memoryMB : Z) : Controller :=
  mkController id status None (mkCapacityInfo vcpus memoryMB 0 0) (in_UTC zero_time).

Definition testControllers : T S () :=
  let ctrl := controller_of_test "ctrl-1" "active" 16 32768 in
  must (State.RegisterController ctrl) "RegisterController: %v" ;~
  expect_error (State.RegisterController ctrl) ErrAlreadyExists "expected ErrAlreadyExists, got %v" ;~
  let hb := mkHeartbeat "active" (mkCapacityInfo 16 32768 4 8192) in
  test_Now ;~
  must (State.UpdateControllerHeartbeat "ctrl-1" hb) "UpdateControllerHeartbeat: %v".

Definition testListControllers : T S () :=
  let c1 := controller_of_test "ctrl-1" "active" 8 0 in
  let c2 := controller_of_test "ctrl-2" "draining" 16 0 in
  let c3 := controller_of_test "ctrl-3" "active" 4 0 in
  must (State.RegisterController c1) "RegisterController(%s): %v" ;~
  must (State.RegisterController c2) "RegisterController(%s): %v" ;~
  must (State.RegisterController c3) "RegisterController(%s): %v" ;~
  all <~ must (State.ListControllers (mkControllerFilter "" 0)) "ListControllers (all): %v" ;;
  Errorf_if (negb (slice_len all =? 3)%Z) "expected 3 controllers, got %d" ;~
  active <~ must (State.ListControllers (mkControllerFilter "active" 0)) "ListControllers (active): %v" ;;
  Errorf_if (negb (slice_len active =? 2)%Z) "expected 2 active controllers, got %d" ;~
  limited <~ must (State.ListControllers (mkControllerFilter "" 1)) "ListControllers (limit): %v" ;;
  Errorf_if (negb (slice_len limited =? 1)%Z) "expected 1 controller with limit, got %d".

Definition testNotFoundErrors : T S () :=
  expect_error (State.GetVM "nonexistent") ErrNotFound "GetVM: expected ErrNotFound, got %v" ;~
  expect_error (State.UpdateVMDesiredState "nonexistent" DesiredStopped) ErrNotFound
    "UpdateVMDesiredState: expected ErrNotFound, got %v" ;~
  expect_error (State.UpdateVMObservedState "nonexistent" ObservedRunning "ctrl-1") ErrNotFound
    "UpdateVMObservedState: expected ErrNotFound, got %v" ;~
  expect_error (State.AssignVM "nonexistent" "ctrl-1") ErrNotFound
    "AssignVM: expected ErrNotFound, got %v" ;~
  expect_error (State.UpdateControllerHeartbeat "nonexistent" (mkHeartbeat "" (mkCapacityInfo 0 0 0 0)))
    ErrNotFound "UpdateControllerHeartbeat: expected ErrNotFound, got %v".

(** [func Run] *)
Definition statetest_Run : list (string * T S ()) :=
  [("CreateAndGet", testCreateAndGet); ("UpdateDesiredState", testUpdateDesiredState);
   ("UpdateObservedState", testUpdateObservedState); ("AssignVM", testAssignVM);
   ("ConcurrentAssign", testConcurrentAssign); ("ListPendingVMs", testListPendingVMs);
   ("Events", testEvents); ("Controllers", testControllers);
   ("ListControllers", testListControllers); ("NotFoundErrors", testNotFoundErrors)].
End Suite.

(** ** Any store that keeps the laws passes *)

(** The test, run from here with the failures recorded so far, ends without a
    failure. *)
Definition ok {S A} (o : option A * Env * TestState S) : Prop := failures (state_after o) = [].

Section Rules.
Context {S A B : Type}.
Implicit Types (s : S) (e : Env).

Lemma ok_sut (m : M S A) (k : A → T S B) e s :
  (∀ r e' s', m e s = (r, e', s') → ok (k r e' (mkTestState s' []))) →
  ok (tbind (run_sut m) k e (mkTestState s [])).
Proof. intros H. destruct (m e s) as [[r e'] s'] eqn:E. erewrite step_sut by exact E. by apply H. Qed.

Lemma ok_must (m : M S (Res A)) msg (k : A → T S B) e s :
  (∀ r e' s', m e s = (r, e', s') → ∃ a, r = Ok a ∧ ok (k a e' (mkTestState s' []))) →
  ok (tbind (must m msg) k e (mkTestState s [])).
Proof.
  intros H. destruct (m e s) as [[r e'] s'] eqn:E. destruct (H _ _ _ eq_refl) as (a & -> & Hk).
  by erewrite step_must by exact E.
Qed.

Lemma ok_ignoring (m : M S (Res A)) z (k : A → T S B) e s :
  (∀ r e' s', m e s = (r, e', s') →
     ok (k (match r with Ok a => a | Fail _ => z end) e' (mkTestState s' []))) →
  ok (tbind (ignoring m z) k e (mkTestState s [])).
Proof.
  intros H. destruct (m e s) as [[r e'] s'] eqn:E. erewrite step_ignoring by exact E. by apply H.
Qed.

Lemma ok_expect (m : M S (Res A)) target msg (k : () → T S B) e s :
  (∀ r e' s', m e s = (r, e', s') →
     fails_with r target = true ∧ ok (k tt e' (mkTestState s' []))) →
  ok (tbind (expect_error m target msg) k e (mkTestState s [])).
Proof.
  intros H. destruct (m e s) as [[r e'] s'] eqn:E. destruct (H _ _ _ eq_refl) as [Hr Hk].
  by erewrite step_expect by eassumption.
Qed.

Lemma ok_Errorf_if b msg (k : () → T S B) e s :
  b = false → ok (k tt e (mkTestState s [])) → ok (tbind (Errorf_if b msg) k e (mkTestState s [])).
Proof. by intros ->. Qed.

Lemma ok_Fatalf_if b msg (k : () → T S B) e s :
  b = false → ok (k tt e (mkTestState s [])) → ok (tbind (Fatalf_if b msg) k e (mkTestState s [])).
Proof. by intros ->. Qed.

Lemma ok_last_Errorf_if b msg e s : b = false → ok (Errorf_if (S:=S) b msg e (mkTestState s [])).
Proof. by intros ->. Qed.

Lemma ok_last_must (m : M S (Res A)) msg e s :
  (∀ r e' s', m e s = (r, e', s') → ∃ a, r = Ok a) → ok (must m msg e (mkTestState s [])).
Proof.
  intros H. unfold ok, must, tbind, run_sut. cbn. destruct (m e s) as [[r e'] s'] eqn:E.
  by destruct (H _ _ _ eq_refl) as [a ->].
Qed.

Lemma ok_last_expect (m : M S (Res A)) target msg e s :
  (∀ r e' s', m e s = (r, e', s') → fails_with r target = true) →
  ok (expect_error m target msg e (mkTestState s [])).
Proof.
  intros H. destruct (m e s) as [[r e'] s'] eqn:E.
  by erewrite last_expect by eauto.
Qed.
End Rules.

Section Conforms.
Context {S : Type} `{StateStoreSpec S}.
Implicit Types (s : S) (e : Env).

Definition knows s (id : string) (vm : VM) : Prop := sv_vms (view s) !! id = Some vm.

Lemma ok_CreateVM spec (k : string → T S ()) e s :
  (∀ id now e' s', id ≠ "" → view s' = sv_with_vms (view s) (<[id := fresh_VM id spec now]> (sv_vms (view s))) →
     (id_fresh e s → sv_vms (view s) !! id = None) →
     State.CreateVM spec e s = (Ok id, e', s') → ok (k id e' (mkTestState s' []))) →
  ok (tbind (ignoring (State.CreateVM spec) "") k e (mkTestState s [])).
Proof.
  intros Hk. apply ok_ignoring. intros r e' s' Hc. pose proof Hc as Hl.
  apply CreateVM_law in Hl as (_ & id & now & -> & Hid & _ & Hf & Hv). eauto.
Qed.

Lemma known_after_create id spec now s s' :
  view s' = sv_with_vms (view s) (<[id := fresh_VM id spec now]> (sv_vms (view s))) →
  knows s' id (fresh_VM id spec now).
Proof. intros Hv. unfold knows. rewrite Hv. cbn. apply lookup_insert_eq. Qed.

Lemma update_known e e' id (f : Time → VM → VM) r s s' vm :
  knows s id vm → update_spec e e' id f r (view s) (view s') →
  r = Ok tt ∧ ∃ now, knows s' id (f now vm).
Proof.
  unfold knows, update_spec. intros -> (-> & now & _ & ->). split; [done|]. exists now.
  cbn. apply lookup_insert_eq.
Qed.

Lemma ok_GetVM id vm (k : VM → T S ()) e s :
  knows s id vm →
  (∀ e' s', view s' = view s → ok (k vm e' (mkTestState s' []))) →
  ok (tbind (ignoring (State.GetVM id) no_vm) k e (mkTestState s [])).
Proof.
  unfold knows. intros Hvm Hk. apply ok_ignoring. intros r e' s' Hc.
  apply GetVM_law in Hc as (_ & Hv & Hr). rewrite Hvm in Hr. subst. auto.
Qed.

Lemma testCreateAndGet_passes e s : passes testCreateAndGet e s.
Proof.
  apply ok_must. intros r e1 s1 Hc.
  apply CreateVM_law in Hc as (_ & id & now & -> & Hid & _ & _ & Hv). exists id. split; [done|].
  apply ok_Fatalf_if; [by apply String.eqb_neq|].
  apply ok_must. intros r e2 s2 Hg. apply GetVM_law in Hg as (_ & _ & Hr).
  rewrite (known_after_create _ _ _ _ _ Hv) in Hr. subst. eexists. split; [done|].
  repeat (apply ok_Errorf_if; [by rewrite ?String.eqb_refl|]). by apply ok_last_Errorf_if.
Qed.

Lemma testUpdateDesiredState_passes e s : passes testUpdateDesiredState e s.
Proof.
  apply ok_CreateVM. intros id now e1 s1 _ Hv%known_after_create _ _.
  apply ok_must. intros r e2 s2 Hu. apply UpdateVMDesiredState_law in Hu as [_ Hu].
  apply (update_known _ _ _ _ _ _ _ _ Hv) in Hu as (-> & now2 & Hv2). exists tt. split; [done|].
  eapply ok_GetVM; [exact Hv2|]. intros. by apply ok_last_Errorf_if.
Qed.

Lemma testUpdateObservedState_passes e s : passes testUpdateObservedState e s.
Proof.
  apply ok_CreateVM. intros id now e1 s1 _ Hv%known_after_create _ _.
  apply ok_must. intros r e2 s2 Hu. apply UpdateVMObservedState_law in Hu as [_ Hu].
  apply (update_known _ _ _ _ _ _ _ _ Hv) in Hu as (-> & now2 & Hv2). exists tt. split; [done|].
  eapply ok_GetVM; [exact Hv2|]. intros.
  apply ok_Errorf_if; [done|]. by apply ok_last_Errorf_if.
Qed.

(** An unassigned VM can be assigned; an assigned one is kept by its controller. *)
Lemma AssignVM_free id c vm e s r e' s' :
  knows s id vm → vm_ControllerID vm = "" → State.AssignVM id c e s = (r, e', s') →
  r = Ok tt ∧ ∃ vm', knows s' id vm' ∧ vm_ControllerID vm' = c.
Proof.
  intros Hk Hc Ha. apply AssignVM_law in Ha as [_ Ha]. pose proof Hk as Hk'. unfold knows in Hk'.
  rewrite Hk' in Ha. rewrite bool_decide_true in Ha by done.
  apply (update_known _ _ _ _ _ _ _ _ Hk) in Ha as (-> & now & Hk2). eauto.
Qed.

Lemma AssignVM_taken id c vm e s r e' s' :
  knows s id vm → vm_ControllerID vm ≠ "" → State.AssignVM id c e s = (r, e', s') →
  fails_with r ErrConflict = true ∧ view s' = view s.
Proof.
  unfold knows. intros Hk Hc Ha. apply AssignVM_law in Ha as [_ Ha].
  rewrite Hk in Ha. by rewrite bool_decide_false in Ha by done.
Qed.

Lemma testAssignVM_passes e s : passes testAssignVM e s.
Proof.
  apply ok_CreateVM. intros id now e1 s1 _ Hv%known_after_create _ _.
  apply ok_must. intros r e2 s2 Ha.
  apply (AssignVM_free _ _ _ _ _ _ _ _ Hv eq_refl) in Ha as (-> & vm & Hv2 & Hc).
  exists tt. split; [done|]. eapply ok_GetVM; [exact Hv2|]. intros e3 s3 Hs3.
  apply ok_Errorf_if; [by rewrite Hc|]. apply ok_last_expect. intros r e4 s4 Ha.
  eapply AssignVM_taken in Ha as [Hr _]; [done| |by rewrite Hc]. unfold knows. by rewrite Hs3.
Qed.

Definition assigner (id : string) (n : nat) : T S (Res ()) := run_sut (State.AssignVM id (ctrl_name n)).

Lemma run_order_cons id n l e s r e1 s1 rs e2 s2 :
  State.AssignVM id (ctrl_name n) e s = (r, e1, s1) →
  run_in_order (assigner id) l e1 (mkTestState s1 []) = (Some rs, e2, mkTestState s2 []) →
  run_in_order (assigner id) (n :: l) e (mkTestState s []) = (Some (r :: rs), e2, mkTestState s2 []).
Proof.
  intros Ha Hl. cbn [run_in_order]. unfold assigner at 1. erewrite step_sut by exact Ha.
  unfold tbind. rewrite Hl. done.
Qed.

Lemma assign_race_lost id l vm : ∀ e s,
  knows s id vm → vm_ControllerID vm ≠ "" →
  ∃ rs e' s', run_in_order (assigner id) l e (mkTestState s []) = (Some rs, e', mkTestState s' []) ∧
    successes rs = 0%nat ∧ view s' = view s.
Proof.
  induction l as [|n l IH]; intros e s Hk Hc; [by do 3 eexists|].
  destruct (State.AssignVM id (ctrl_name n) e s) as [[r e1] s1] eqn:Ha.
  destruct (AssignVM_taken _ _ _ _ _ _ _ _ Hk Hc Ha) as [Hr Hv].
  destruct (IH e1 s1) as (rs & e2 & s2 & Hl & Hn & Hv2); [unfold knows; by rewrite Hv|done|].
  exists (r :: rs), e2, s2. split; [by eapply run_order_cons|]. split; [|by rewrite Hv2].
  destruct r; [done|exact Hn].
Qed.

Lemma assign_race id n l vm e s :
  knows s id vm → vm_ControllerID vm = "" →
  ∃ rs e' s' vm', run_in_order (assigner id) (n :: l) e (mkTestState s []) =
      (Some rs, e', mkTestState s' []) ∧
    successes rs = 1%nat ∧ knows s' id vm' ∧ vm_ControllerID vm' = ctrl_name n.
Proof.
  intros Hk Hc. destruct (State.AssignVM id (ctrl_name n) e s) as [[r e1] s1] eqn:Ha.
  destruct (AssignVM_free _ _ _ _ _ _ _ _ Hk Hc Ha) as (-> & vm' & Hk1 & Hc1).
  destruct (assign_race_lost id l vm' e1 s1 Hk1) as (rs & e2 & s2 & Hl & Hn & Hv); [by rewrite Hc1|].
  exists (Ok tt :: rs), e2, s2, vm'. split; [by eapply run_order_cons|].
  split; [unfold successes in *; cbn; by rewrite Hn|]. split; [unfold knows; by rewrite Hv|done].
Qed.

(** Whatever order the scheduler picks for the ten goroutines. *)
Lemma testConcurrentAssign_passes e s : passes testConcurrentAssign e s.
Proof.
  apply ok_CreateVM. intros id now e1 s1 _ Hv%known_after_create _ _.
  unfold ok, tbind at 1, go_all. fold (assigner id).
  destruct (shuffle (picks e1 (iters e1)) (seq 0 10)) as [|n l] eqn:Hsh.
  { pose proof (shuffle_perm (picks e1 (iters e1)) (seq 0 10)) as Hp. rewrite Hsh in Hp.
    by apply Permutation_nil_l in Hp. }
  destruct (assign_race id n l _ (env_iter e1) s1 Hv eq_refl) as (rs & e2 & s2 & vm & Hl & Hn & Hk & Hc).
  change (λ n0 : nat, run_sut (State.AssignVM id (ctrl_name n0))) with (assigner id). rewrite Hl.
  apply (ok_Errorf_if _ _ _ e2 s2); [by rewrite Hn|]. apply ok_must. intros r e3 s3 Hg.
  apply GetVM_law in Hg as (_ & _ & Hr). unfold knows in Hk. rewrite Hk in Hr. subst.
  eexists. split; [done|]. apply ok_last_Errorf_if. by rewrite Hc.
Qed.

Lemma values_insert {V} (m : gmap string V) k v :
  m !! k = None → (map_to_list (<[k := v]> m)).*2 ≡ₚ v :: (map_to_list m).*2.
Proof. intros Hm. by rewrite map_to_list_insert. Qed.

(** A store nothing has been done with. *)
Definition fresh_store s : Prop := view s = mkStoreView ∅ ∅ [].

Lemma testListPendingVMs_passes e s :
  fresh_store s →
  (∀ r e' s', State.CreateVM zero_VMSpec e s = (r, e', s') → id_fresh e' s') →
  passes testListPendingVMs e s.
Proof.
  intros Hs Hfresh. apply ok_CreateVM. intros id1 t1 e1 s1 _ Hv1 _ Hc1.
  apply Hfresh in Hc1. apply ok_CreateVM. intros id2 t2 e2 s2 _ Hv2 Hne _. specialize (Hne Hc1).
  apply ok_sut. intros r e3 s3 Hu. apply UpdateVMObservedState_law in Hu as [_ Hu].
  rewrite Hv1 in Hne. cbn in Hne. assert (id2 ≠ id1) as Hd.
  { intros ->. by rewrite lookup_insert_eq in Hne. }
  unfold update_spec in Hu. rewrite Hv2 in Hu. cbn in Hu. rewrite lookup_insert_eq in Hu.
  destruct Hu as (_ & t3 & _ & Hv3). rewrite Hv1, Hs in Hv3. cbn in Hv3.
  apply ok_must. intros r4 e4 s4 Hl. apply ListPendingVMs_law in Hl as (_ & _ & l & -> & Hl).
  rewrite Hv3 in Hl. cbn in Hl. rewrite insert_insert_eq in Hl.
  assert (l = [fresh_VM id1 zero_VMSpec t1]) as ->.
  { apply Permutation_singleton_r. rewrite Hl.
    etrans; [apply filterb_permutation, values_insert; by simplify_map_eq|].
    cbn. etrans; [apply filterb_permutation, values_insert; by simplify_map_eq|].
    by rewrite map_to_list_empty. }
  eexists. split; [done|]. apply ok_Fatalf_if; [done|]. apply ok_last_Errorf_if.
  cbn. by rewrite String.eqb_refl.
Qed.

Lemma ok_AppendEvent ev msg (k : () → T S ()) e s :
  (∀ ev' e' s', stamped e e' ev ev' → view s' = sv_with_events (view s) (sv_events (view s) ++ [ev']) →
     ok (k tt e' (mkTestState s' []))) →
  ok (tbind (must (State.AppendEvent ev) msg) k e (mkTestState s [])).
Proof.
  intros Hk. apply ok_must. intros r e' s' Ha.
  apply AppendEvent_law in Ha as (_ & -> & ev' & Hst & Hv). eauto.
Qed.

Lemma ok_ListEvents f n msg msg' (k : () → T S ()) e s :
  slice_len (built_slice (limit_take (ef_Limit f) (filterb (event_matches f) (sv_events (view s))))) = n →
  (∀ e' s', view s' = view s → ok (k tt e' (mkTestState s' []))) →
  ok (tbind (must (State.ListEvents f) msg)
        (λ l, tbind (Errorf_if (negb (slice_len l =? n)%Z) msg') k) e (mkTestState s [])).
Proof.
  intros Hn Hk. apply ok_must. intros r e' s' Hl. apply ListEvents_law in Hl as (_ & Hv & ->).
  eexists. split; [done|]. apply ok_Errorf_if; [by rewrite Hn, Z.eqb_refl|auto].
Qed.

Lemma testEvents_passes e s : fresh_store s → passes testEvents e s.
Proof.
  intros Hs. unfold fresh_store in Hs.
  apply ok_AppendEvent. intros ev1 e1 s1 (i1 & t1 & -> & _) Hv1.
  apply ok_AppendEvent. intros ev2 e2 s2 (i2 & t2 & -> & _) Hv2.
  apply ok_AppendEvent. intros ev3 e3 s3 (i3 & t3 & -> & _) Hv3.
  rewrite Hs in Hv1. rewrite Hv1 in Hv2. rewrite Hv2 in Hv3. cbn in Hv3.
  apply ok_ListEvents; [by rewrite Hv3|]. intros e4 s4 Hv4.
  apply ok_ListEvents; [by rewrite Hv4, Hv3|]. intros e5 s5 Hv5.
  apply ok_must. intros r e6 s6 Hl. apply ListEvents_law in Hl as (_ & _ & ->).
  rewrite Hv5, Hv4, Hv3. eexists. split; [done|]. by apply ok_last_Errorf_if.
Qed.

Lemma ok_Register c msg (k : () → T S ()) e s :
  sv_controllers (view s) !! ctl_ID c = None →
  (∀ e' s', view s' = sv_with_controllers (view s) (<[ctl_ID c := c]> (sv_controllers (view s))) →
     ok (k tt e' (mkTestState s' []))) →
  ok (tbind (must (State.RegisterController c) msg) k e (mkTestState s [])).
Proof.
  intros Hn Hk. apply ok_must. intros r e' s' Hr. apply RegisterController_law in Hr as [_ Hr].
  rewrite Hn in Hr. destruct Hr as [-> Hv]. eauto.
Qed.

Lemma testControllers_passes e s : fresh_store s → passes testControllers e s.
Proof.
  intros Hs. unfold fresh_store in Hs. apply ok_Register; [by rewrite Hs|]. intros e1 s1 Hv1.
  rewrite Hs in Hv1. apply ok_expect. intros r e2 s2 Hr.
  apply RegisterController_law in Hr as [_ Hr]. rewrite Hv1 in Hr. cbn in Hr.
  destruct Hr as [Hf Hv2]. split; [done|].
  apply ok_last_must. intros r' e3 s3 Hb. apply UpdateControllerHeartbeat_law in Hb as [_ Hb].
  rewrite Hv2 in Hb. cbn in Hb. destruct Hb as [-> _]. eauto.
Qed.

Lemma ok_ListControllers f n cs (msg msg' : string) (k : () → T S ()) e s :
  (map_to_list (sv_controllers (view s))).*2 ≡ₚ cs →
  Z.of_nat (length (limit_take (cf_Limit f) (filterb (controller_matches f) cs))) = n →
  (∀ e' s', view s' = view s → ok (k tt e' (mkTestState s' []))) →
  ok (tbind (must (State.ListControllers f) msg)
        (λ l, tbind (Errorf_if (negb (slice_len l =? n)%Z) msg') k) e (mkTestState s [])).
Proof.
  intros Hcs Hn Hk. apply ok_must. intros r e' s' Hl.
  apply ListControllers_law in Hl as (_ & Hv & l & Hl & ->). eexists. split; [done|].
  apply ok_Errorf_if; [|auto]. rewrite slice_len_built. rewrite Hcs in Hl.
  apply (filterb_permutation (controller_matches f)), Permutation_length in Hl.
  rewrite length_limit_take in Hn |- *. rewrite Hl, Hn. by rewrite Z.eqb_refl.
Qed.

Lemma testListControllers_passes e s : fresh_store s → passes testListControllers e s.
Proof.
  intros Hs. unfold fresh_store in Hs.
  apply ok_Register; [by rewrite Hs|]. intros e1 s1 Hv1. rewrite Hs in Hv1. cbn in Hv1.
  apply ok_Register; [by rewrite Hv1|]. intros e2 s2 Hv2. rewrite Hv1 in Hv2. cbn in Hv2.
  apply ok_Register; [by rewrite Hv2|]. intros e3 s3 Hv3. rewrite Hv2 in Hv3. cbn in Hv3.
  set (cs := [controller_of_test "ctrl-1" "active" 8 0; controller_of_test "ctrl-2" "draining" 16 0;
              controller_of_test "ctrl-3" "active" 4 0]).
  assert ((map_to_list (sv_controllers (view s3))).*2 ≡ₚ cs) as Hcs.
  { rewrite Hv3. cbn. rewrite !values_insert by (by simplify_map_eq). rewrite map_to_list_empty.
    symmetry; apply (Permutation_rev cs). }
  apply (ok_ListControllers _ _ cs); [done|done|]. intros e4 s4 Hv4.
  apply (ok_ListControllers _ _ cs); [by rewrite Hv4|done|]. intros e5 s5 Hv5.
  apply ok_must. intros r e6 s6 Hl. apply ListControllers_law in Hl as (_ & _ & l & Hl & ->).
  eexists. split; [done|]. apply ok_last_Errorf_if. rewrite slice_len_built, length_limit_take.
  rewrite Hv5, Hv4, Hcs in Hl. apply (filterb_permutation (controller_matches (mkControllerFilter "" 1))) in Hl.
  by rewrite (Permutation_length Hl).
Qed.

Lemma testNotFoundErrors_passes e s : fresh_store s → passes testNotFoundErrors e s.
Proof.
  intros Hs. unfold fresh_store in Hs.
  apply ok_expect. intros r e1 s1 Hg. apply GetVM_law in Hg as (_ & Hv1 & Hr).
  rewrite Hs in Hv1, Hr. cbn in Hr. split; [done|].
  apply ok_expect. intros r2 e2 s2 Hg. apply UpdateVMDesiredState_law in Hg as [_ Hg].
  unfold update_spec in Hg. rewrite Hv1 in Hg. cbn in Hg. destruct Hg as [? Hv2]. split; [done|].
  apply ok_expect. intros r3 e3 s3 Hg. apply UpdateVMObservedState_law in Hg as [_ Hg].
  unfold update_spec in Hg. rewrite Hv2 in Hg. cbn in Hg. destruct Hg as [? Hv3]. split; [done|].
  apply ok_expect. intros r4 e4 s4 Hg. apply AssignVM_law in Hg as [_ Hg].
  rewrite Hv3 in Hg. cbn in Hg. destruct Hg as [? Hv4]. split; [done|].
  apply ok_last_expect. intros r5 e5 s5 Hg. apply UpdateControllerHeartbeat_law in Hg as [_ Hg].
  rewrite Hv4 in Hg. cbn in Hg. by destruct Hg.
Qed.

(** The laws suffice for the whole suite: for any store fresh under its view
    that does not generate an identifier twice. *)
Lemma store_conforms e s :
  fresh_store s →
  (∀ r e' s', State.CreateVM zero_VMSpec e s = (r, e', s') → id_fresh e' s') →
  passes_all statetest_Run e s.
Proof.
  intros Hs Hf. unfold passes_all, statetest_Run.
  repeat apply Forall_cons_2; try apply Forall_nil_2; cbn [snd];
    eauto using testCreateAndGet_passes, testUpdateDesiredState_passes, testUpdateObservedState_passes,
      testAssignVM_passes, testConcurrentAssign_passes, testListPendingVMs_passes, testEvents_passes,
      testControllers_passes, testListControllers_passes, testNotFoundErrors_passes.
Qed.
End Conforms.

Lemma memstate_conforms e :
  next_id (env_draw e) ≠ next_id e → passes_all (S:=MemState.Store) statetest_Run e MemState.New.
Proof.
  intros Hne. apply store_conforms; [done|]. intros r e' s' Hc.
  change (MemState.CreateVM zero_VMSpec e MemState.New = (r, e', s')) in Hc.
  rewrite CreateVM_run in Hc. injection Hc as _ <- <-. cbn. rewrite lookup_insert_ne; [done|].
  intros Heq. apply Hne. by rewrite Heq.
Qed.
