(* ===== verification/Conformance.v ===== *)
(** * The providers pass their conformance suites (src/provider/*/*/*_test.go)

    What [go test] runs, on every machine rather than on one. *)

From S2P Require Import Prelude GoLib Model ProviderErr Runtime State Testing.
From S2P Require Import MemState MemQueue MemCache MemBlob Ingress.
From S2P Require Import CacheTest BlobTest QueueTest StateTest.

(** C20: Every provider passes its conformance suite, all of its tests and in any environment that
    meets what the tests take for granted: the store when two random identifiers differ (for
    any order of the ten racing goroutines and any map order), the cache and the queue when
    consecutive clock readings are at most 50 ms apart, the queue also when the clock moves
    between two readings, the blob store and the no-op ingress provider always. *)
Theorem providers_conform e :
  (next_id (env_draw e) ≠ next_id e →
     passes_all (S:=MemState.Store) statetest_Run e MemState.New) ∧
  (prompt (50 * Millisecond)%Z e →
     passes_all (S:=MemCache.Store) cachetest_Run e MemCache.New ∧
     passes_all (S:=MemCache.Store) cachetest_RunAtomic e MemCache.New) ∧
  (prompt (50 * Millisecond)%Z e → clock_advances e →
     passes_all (S:=MemQueue.Queue) queuetest_Run e MemQueue.New) ∧
  passes_all (S:=MemBlob.Store) BlobSuite.Run e MemBlob.New ∧
  passes_all (S:=Ingress.Noop.Provider) IngressSuite.Run e Ingress.Noop.New.
Proof.
  split; [apply memstate_conforms|]. split; [apply memcache_conforms|].
  split; [apply memqueue_conforms|]. split; [apply BlobSuite.memblob_conforms|apply IngressSuite.noop_conforms].
Qed.

Lemma test_env_prompt : prompt (50 * Millisecond)%Z test_env.
Proof. split; [apply test_env_clock_ok|]. intros n. cbn. unfold Millisecond. lia. Qed.

(** In the test environment nothing is left to assume. *)
Lemma providers_conform_witness :
  passes_all (S:=MemState.Store) statetest_Run test_env MemState.New ∧
  passes_all (S:=MemCache.Store) cachetest_Run test_env MemCache.New ∧
  passes_all (S:=MemQueue.Queue) queuetest_Run test_env MemQueue.New.
Proof.
  destruct (providers_conform test_env) as (Hs & Hc & Hq & _).
  split; [apply Hs; vm_compute; discriminate|]. split; [apply Hc, test_env_prompt|].
  apply Hq; [apply test_env_prompt|]. intros n. cbn. lia.
Defined.

(** C19: The laws a store promises its clients are enough for the whole conformance suite: any
    store that keeps [StateStoreSpec], starts without VMs, controllers and events and does not
    generate one identifier twice passes every test of it. *)
Theorem lawful_store_conforms {S} `{StateStoreSpec S} e s :
  view s = mkStoreView ∅ ∅ [] →
  (∀ r e' s', State.CreateVM zero_VMSpec e s = (r, e', s') → id_fresh e' s') →
  passes_all statetest_Run e s.
Proof. apply store_conforms. Qed.

Lemma lawful_store_conforms_witness :
  passes_all (S:=MemState.Store) statetest_Run test_env MemState.New.
Proof.
  apply lawful_store_conforms; [reflexivity|]. intros r e' s' Hc.
  change (MemState.CreateVM zero_VMSpec test_env MemState.New = (r, e', s')) in Hc.
  rewrite MemState.CreateVM_run in Hc. injection Hc as _ <- <-. vm_compute. reflexivity.
Defined.
